(** * SFS: the vnode layer of the simple file system (kern/fs/sfs/sfs_vnode.c)

    A shallow embedding of the block map, the byte-range I/O engine, the
    directory routines and the vnode operations of sfs_vnode.c, together
    with the properties of the design document that are stated about them.

    Conventions.
    - A C function returning [int result] with out-parameters becomes a
      computation returning [res A]: [Ok a] for result 0 with the
      out-parameters [a], [Err e] for a non-zero errno.
    - [panic] and a failed [assert] end the computation with [Panic p].
    - Values of type [u_int32_t] are integers reduced modulo 2^32 where the
      source assigns them, and values of type [off_t] are reduced to the
      signed 32-bit range where the source assigns or casts them ([u32] and
      [s32] below).
    - Pointers to vnodes are addresses into the kernel heap [kheap]; the
      vnode table holds addresses, as the C array holds pointers.  An
      out-parameter that a function may leave unset on a return of 0 is an
      [option]; the callers hand in the address of an uninitialized local,
      so reading a field through a pointer left unset is undefined, and the
      computation stops there with [P_bad_pointer].
    - Every operation runs to completion on its own: the locks it takes and
      the [lock_do_i_hold] assertions are not represented.  What is proved
      of an operation that gives up a reference while it holds the lock of
      that vnode is proved for vnodes that have another reference, where
      sfs_reclaim is not entered. *)

From Stdlib Require Import ZArith List Bool Lia Ascii String.
From stdpp Require Import base list.
Import ListNotations.
Local Open Scope Z_scope.

(** ** Constants and on-disk layout

    kern/include/kern/sfs.h is not part of the source tree at hand, so the
    constants it defines and the byte layout of the three on-disk structures
    are parameters of the development. *)

(** The sfi_type field and the [int] type arguments: the three values that
    sfs.h names, and any other value that the 16 bits on disk can hold. *)
Inductive sfs_type :=
| SFS_TYPE_INVAL
| SFS_TYPE_FILE
| SFS_TYPE_DIR
| SFS_TYPE_other (code : Z).

Record sfs_inode := mk_inode {
  sfi_size : Z;
  sfi_type : sfs_type;
  sfi_linkcount : Z;
  sfi_direct : list Z;
  sfi_indirect : Z
}.

Record sfs_dir := mk_dir {
  sfd_ino : Z;
  sfd_name : string          (* the characters before the terminating NUL *)
}.

Class sfs_layout := {
  SFS_BLOCKSIZE : Z;
  SFS_NDIRECT : Z;
  SFS_DBPERIDB : Z;
  SFS_NAMELEN : Z;
  SFS_ROOT_LOCATION : Z;
  (* unsigned range of the sfi_linkcount field *)
  LINKCOUNT_MOD : Z;
  (* struct sfs_inode <-> one block *)
  enc_inode : sfs_inode -> list Z;
  dec_inode : list Z -> sfs_inode;
  (* u_int32_t[SFS_DBPERIDB] <-> one block *)
  enc_ptrs : list Z -> list Z;
  dec_ptrs : list Z -> list Z;
  (* struct sfs_dir <-> sizeof(struct sfs_dir) bytes *)
  enc_dirent : sfs_dir -> list Z;
  dec_dirent : list Z -> sfs_dir
}.

(** Modelled from the spec: a zero inode number marks an empty, reusable
    directory slot (SFS_NOINO of the absent sfs.h). *)
Definition SFS_NOINO : Z := 0.

Definition u32 (x : Z) : Z := x mod 2 ^ 32.

(** Modelled from the spec: [off_t] (types.h is not in the source tree) is
    the signed 32-bit integer of the 32-bit MIPS kernel; a conversion to
    it keeps the low 32 bits. *)
Definition s32 (x : Z) : Z := (x + 2 ^ 31) mod 2 ^ 32 - 2 ^ 31.

Inductive errno :=
  ENOMEM | EINVAL | ENOENT | EEXIST | ENAMETOOLONG | ENOTDIR | EISDIR
| EUNIMP | EBUSY | EIO | ENOSPC | EFAULT.

Inductive res (A : Type) := Ok (a : A) | Err (e : errno).
Arguments Ok {A} a.
Arguments Err {A} e.

Inductive panic_msg :=
| P_balloc_invalid_block          (* "sfs: balloc: invalid block" *)
| P_bused_out_of_range            (* "sfs_bused called on out of range block" *)
| P_data_block_marked_free        (* "Data block ... marked free" *)
| P_readdir_short_entry           (* "readdir: Short entry" *)
| P_writedir_short_write          (* "writedir: Short write" *)
| P_dir_invalid_size              (* "directory: Invalid size" *)
| P_link_count_zero               (* "Link count of file found in dir is 0" *)
| P_reclaim_not_in_pool           (* "reclaim vnode not in vnode pool" *)
| P_rename_cannot_recover         (* "rename: Cannot recover" *)
| P_inode_in_unallocated_block    (* "Found/Tried to load inode in unallocated block" *)
| P_loadvnode_invalid_type        (* "loadvnode: Invalid inode type" *)
| P_assert                        (* a failed assert() *)
| P_bitmap                        (* a failed assert() inside the bitmap code *)
| P_bad_pointer.                  (* use of a NULL, freed or unset pointer, or
                                     of storage outside the object pointed to *)

(** ** The machine state *)

Record sfs_vnode := mk_vnode {
  sv_ino : Z;
  sv_i : sfs_inode;
  sv_dirty : bool;
  vn_refcount : Z               (* sv_v.vn_refcount *)
}.

Definition vptr := nat.

Inductive uio_rw_t := UIO_READ | UIO_WRITE.

(** What the environment is asked for: memory, a block transfer, a copy
    to or from the region a uio describes. *)
Inductive env_event :=
| EvKmalloc
| EvRead (block : Z)
| EvWrite (block : Z)
| EvCopy.

Record world := mk_world {
  (* struct sfs_fs *)
  sfs_vnodes : list vptr;
  sfs_freemap : list bool;
  sfs_freemapdirty : bool;
  sp_nblocks : Z;
  (* kernel heap holding the struct sfs_vnode objects *)
  kheap : list (option sfs_vnode);
  (* the block device *)
  disk : list (list Z);
  (* the environment: the n-th request fails when [env_fault n ev] *)
  env_clock : nat;
  env_fault : nat -> env_event -> bool
}.

Inductive out (A : Type) := Ret (a : A) (w : world) | Panic (p : panic_msg).
Arguments Ret {A} a w.
Arguments Panic {A} p.

Definition M (A : Type) := world -> out A.

Definition ret {A} (a : A) : M A := fun w => Ret a w.
Definition bind {A B} (m : M A) (k : A -> M B) : M B :=
  fun w => match m w with
           | Ret a w' => k a w'
           | Panic p => Panic p
           end.
Definition panic {A} (p : panic_msg) : M A := fun _ => Panic p.
Definition gets {A} (f : world -> A) : M A := fun w => Ret (f w) w.
Definition modify (f : world -> world) : M unit := fun w => Ret tt (f w).
Definition assert (b : bool) : M unit := if b then ret tt else panic P_assert.

Declare Scope sfs_scope.
Delimit Scope sfs_scope with sfs.
Notation "x <- c1 ;; c2" := (bind c1 (fun x => c2))
  (at level 100, c1 at next level, right associativity) : sfs_scope.
Notation "c1 ;; c2" := (bind c1 (fun _ => c2))
  (at level 100, right associativity) : sfs_scope.
(** [x <-? c ;; k] is the C idiom
    [result = c(..., &x); if (result) { return result; }] *)
Notation "x <-? c1 ;; c2" :=
  (bind c1 (fun r => match r with Ok x => c2 | Err e => ret (Err e) end))
  (at level 100, c1 at next level, right associativity) : sfs_scope.
Local Open Scope sfs_scope.

(** Field updates of the state. *)
Definition set_vnodes (l : list vptr) (w : world) : world :=
  mk_world l (sfs_freemap w) (sfs_freemapdirty w) (sp_nblocks w)
           (kheap w) (disk w) (env_clock w) (env_fault w).
Definition set_freemap (m : list bool) (w : world) : world :=
  mk_world (sfs_vnodes w) m (sfs_freemapdirty w) (sp_nblocks w)
           (kheap w) (disk w) (env_clock w) (env_fault w).
Definition set_freemapdirty (d : bool) (w : world) : world :=
  mk_world (sfs_vnodes w) (sfs_freemap w) d (sp_nblocks w)
           (kheap w) (disk w) (env_clock w) (env_fault w).
Definition set_kheap (h : list (option sfs_vnode)) (w : world) : world :=
  mk_world (sfs_vnodes w) (sfs_freemap w) (sfs_freemapdirty w) (sp_nblocks w)
           h (disk w) (env_clock w) (env_fault w).
Definition set_disk (d : list (list Z)) (w : world) : world :=
  mk_world (sfs_vnodes w) (sfs_freemap w) (sfs_freemapdirty w) (sp_nblocks w)
           (kheap w) d (env_clock w) (env_fault w).
Definition tick (w : world) : world :=
  mk_world (sfs_vnodes w) (sfs_freemap w) (sfs_freemapdirty w) (sp_nblocks w)
           (kheap w) (disk w) (S (env_clock w)) (env_fault w).

(** One request to the environment: [true] when it fails. *)
Definition env_request (ev : env_event) : M bool :=
  fun w => Ret (env_fault w (env_clock w) ev) (tick w).

(** *** Vnode objects in the kernel heap *)

Definition deref (sv : vptr) : M sfs_vnode :=
  fun w => match kheap w !! sv with
           | Some (Some v) => Ret v w
           | _ => Panic P_bad_pointer
           end.

Definition store (sv : vptr) (v : sfs_vnode) : M unit :=
  fun w => match kheap w !! sv with
           | Some (Some _) => Ret tt (set_kheap (<[sv := Some v]> (kheap w)) w)
           | _ => Panic P_bad_pointer
           end.

Definition update (sv : vptr) (f : sfs_vnode -> sfs_vnode) : M unit :=
  v <- deref sv ;; store sv (f v).

Definition set_inode (i : sfs_inode) (v : sfs_vnode) : sfs_vnode :=
  mk_vnode (sv_ino v) i (sv_dirty v) (vn_refcount v).
Definition set_dirty (d : bool) (v : sfs_vnode) : sfs_vnode :=
  mk_vnode (sv_ino v) (sv_i v) d (vn_refcount v).
Definition set_refcount (n : Z) (v : sfs_vnode) : sfs_vnode :=
  mk_vnode (sv_ino v) (sv_i v) (sv_dirty v) n.

Definition set_size (n : Z) (i : sfs_inode) : sfs_inode :=
  mk_inode n (sfi_type i) (sfi_linkcount i) (sfi_direct i) (sfi_indirect i).
Definition set_type (t : sfs_type) (i : sfs_inode) : sfs_inode :=
  mk_inode (sfi_size i) t (sfi_linkcount i) (sfi_direct i) (sfi_indirect i).
Definition set_linkcount (n : Z) (i : sfs_inode) : sfs_inode :=
  mk_inode (sfi_size i) (sfi_type i) n (sfi_direct i) (sfi_indirect i).
Definition set_direct (l : list Z) (i : sfs_inode) : sfs_inode :=
  mk_inode (sfi_size i) (sfi_type i) (sfi_linkcount i) l (sfi_indirect i).
Definition set_indirect (b : Z) (i : sfs_inode) : sfs_inode :=
  mk_inode (sfi_size i) (sfi_type i) (sfi_linkcount i) (sfi_direct i) b.

(** [sv->sv_i.f = ...; sv->sv_dirty = 1] and friends. *)
Definition update_inode (sv : vptr) (f : sfs_inode -> sfs_inode) : M unit :=
  update sv (fun v => set_inode (f (sv_i v)) v).
Definition mark_dirty (sv : vptr) : M unit := update sv (set_dirty true).

(** ** Collaborators outside sfs_vnode.c *)

(** Modelled from the spec: kmalloc is not in the source tree; memory is a
    resource of the environment and a request for it can be refused.
    [true] stands for a NULL result. *)
Definition kmalloc : M bool := env_request EvKmalloc.

(** Modelled from the spec: the free-block bitmap (lib/bitmap.c is not in
    the source tree), "one bit per disk block marking free/used";
    allocation takes the lowest clear bit and fails with "no space" when
    there is none. *)
Fixpoint first_clear (m : list bool) : option nat :=
  match m with
  | [] => None
  | b :: m' => if b then S <$> first_clear m' else Some 0%nat
  end.

Definition bitmap_alloc : M (res Z) :=
  m <- gets sfs_freemap ;;
  match first_clear m with
  | None => ret (Err ENOSPC)
  | Some i => modify (set_freemap (<[i := true]> m)) ;; ret (Ok (Z.of_nat i))
  end.

Definition bitmap_isset (index : Z) : M bool :=
  m <- gets sfs_freemap ;;
  match m !! Z.to_nat index with
  | Some b => ret b
  | None => panic P_bitmap
  end.

Definition bitmap_unmark (index : Z) : M unit :=
  m <- gets sfs_freemap ;;
  match m !! Z.to_nat index with
  | Some true => modify (set_freemap (<[Z.to_nat index := false]> m))
  | _ => panic P_bitmap
  end.

Section SFS.
Context {L : sfs_layout}.

(** sizeof(struct sfs_dir): the inode number and the name field. *)
Definition sizeof_sfs_dir : Z := 4 + SFS_NAMELEN.

(** Modelled from the spec: the block device collaborator,
    "read_block(fs, buffer, block_no) -> Result, write_block(fs, buffer,
    block_no) -> Result, both whole-block, synchronous, error on device
    failure" (sfs_io.c and the device are not in the source tree).  A
    transfer the device refuses leaves disk and buffer as they were. *)
Definition sfs_rblock (block : Z) : M (res (list Z)) :=
  failed <- env_request (EvRead block) ;;
  d <- gets disk ;;
  match d !! Z.to_nat block with
  | Some data => if failed then ret (Err EIO) else ret (Ok data)
  | None => ret (Err EIO)
  end.

Definition sfs_wblock (data : list Z) (block : Z) : M (res unit) :=
  failed <- env_request (EvWrite block) ;;
  d <- gets disk ;;
  if failed || negb (Z.to_nat block <? length d)%nat then ret (Err EIO)
  else modify (set_disk (<[Z.to_nat block := data]> d)) ;; ret (Ok tt).

(** Modelled from the spec: struct uio and uiomove (lib/uio.c is not in
    the source tree).  A uio names a transfer of [uio_resid] bytes at
    [uio_offset]; [uio_data] is, for a read, the bytes delivered so far
    and, for a write, the bytes still to be written.  uiomove transfers
    at most [n] and at most [uio_resid] bytes between the kernel buffer
    [ptr] and the uio, and advances the uio by what it moved; the copy can
    fault when the region is in user space. *)
Record uio := mk_uio {
  uio_offset : Z;
  uio_resid : Z;
  uio_rw : uio_rw_t;
  uio_data : list Z
}.

Definition mk_kuio (data : list Z) (len pos : Z) (rw : uio_rw_t) : uio :=
  mk_uio pos len rw (match rw with UIO_READ => [] | UIO_WRITE => data end).

Definition set_offset (o : Z) (u : uio) : uio :=
  mk_uio o (uio_resid u) (uio_rw u) (uio_data u).
Definition set_resid (r : Z) (u : uio) : uio :=
  mk_uio (uio_offset u) r (uio_rw u) (uio_data u).

Definition is_write (u : uio) : bool :=
  match uio_rw u with UIO_WRITE => true | UIO_READ => false end.

Definition uiomove (ptr : list Z) (n : Z) (u : uio) : M (res unit * list Z * uio) :=
  let size := Z.min n (uio_resid u) in
  if size <=? 0 then ret (Ok tt, ptr, u) else
  failed <- env_request EvCopy ;;
  if failed then ret (Err EFAULT, ptr, u) else
  let k := Z.to_nat size in
  match uio_rw u with
  | UIO_READ =>
      ret (Ok tt, ptr,
           mk_uio (uio_offset u + size) (uio_resid u - size) UIO_READ
                  (uio_data u ++ take k ptr))
  | UIO_WRITE =>
      let src := take k (uio_data u) in
      ret (Ok tt, src ++ drop (length src) ptr,
           mk_uio (uio_offset u + size) (uio_resid u - size) UIO_WRITE
                  (drop k (uio_data u)))
  end.

Definition uiomovezeros (n : Z) (u : uio) : M (res unit * uio) :=
  r <- uiomove (repeat 0 (Z.to_nat n)) n u ;;
  ret (r.1.1, r.2).

(** Modelled from the spec: sfs_rwblock (sfs_io.c), the whole-block
    transfer between the device and the region of a uio whose offset is
    the byte position on the device and whose residue is one block. *)
Definition sfs_rwblock (u : uio) : M (res unit * uio) :=
  let block := uio_offset u / SFS_BLOCKSIZE in
  match uio_rw u with
  | UIO_READ =>
      r <- sfs_rblock block ;;
      match r with
      | Err e => ret (Err e, u)
      | Ok data =>
          ret (Ok tt, mk_uio (uio_offset u + SFS_BLOCKSIZE)
                             (uio_resid u - SFS_BLOCKSIZE) UIO_READ
                             (uio_data u ++ data))
      end
  | UIO_WRITE =>
      let k := Z.to_nat SFS_BLOCKSIZE in
      r <- sfs_wblock (take k (uio_data u)) block ;;
      match r with
      | Err e => ret (Err e, u)
      | Ok _ =>
          ret (Ok tt, mk_uio (uio_offset u + SFS_BLOCKSIZE)
                             (uio_resid u - SFS_BLOCKSIZE) UIO_WRITE
                             (drop k (uio_data u)))
      end
  end.

(** ** Simple stuff *)

(* Zero out a disk block. *)
Definition sfs_clearblock (block : Z) : M (res unit) :=
  sfs_wblock (repeat 0 (Z.to_nat SFS_BLOCKSIZE)) block.

(* Write an on-disk inode structure back out to disk. *)
Definition sfs_sync_inode (sv : vptr) : M (res unit) :=
  v <- deref sv ;;
  if sv_dirty v then
    _ <-? sfs_wblock (enc_inode (sv_i v)) (sv_ino v) ;;
    update sv (set_dirty false) ;;
    ret (Ok tt)
  else ret (Ok tt).

(** ** Space allocation *)

Definition sfs_balloc : M (res Z) :=
  diskblock <-? bitmap_alloc ;;
  modify (set_freemapdirty true) ;;
  nblocks <- gets sp_nblocks ;;
  if nblocks <=? diskblock then panic P_balloc_invalid_block else
  (* Clear block before returning it *)
  _ <-? sfs_clearblock diskblock ;;
  ret (Ok diskblock).

Definition sfs_bfree (diskblock : Z) : M unit :=
  bitmap_unmark diskblock ;;
  modify (set_freemapdirty true).

Definition sfs_bused (diskblock : Z) : M bool :=
  nblocks <- gets sp_nblocks ;;
  if nblocks <=? diskblock then panic P_bused_out_of_range else
  bitmap_isset diskblock.

(** ** Block mapping/inode maintenance *)

(* [block != 0 && !sfs_bused(sfs, block)] guarding the panic *)
Definition check_block_used (block : Z) : M unit :=
  if block =? 0 then ret tt else
  used <- sfs_bused block ;;
  if used then ret tt else panic P_data_block_marked_free.

Definition sfs_bmap (sv : vptr) (fileblock : Z) (doalloc : bool) : M (res Z) :=
  assert (SFS_DBPERIDB * 4 =? SFS_BLOCKSIZE) ;;
  (* If the block we want is one of the direct blocks... *)
  if fileblock <? SFS_NDIRECT then
    v <- deref sv ;;
    let block := nth (Z.to_nat fileblock) (sfi_direct (sv_i v)) 0 in
    (* Do we need to allocate? *)
    block <-? (if (block =? 0) && doalloc then
                 b <-? sfs_balloc ;;
                 (* Remember what we allocated; mark inode dirty *)
                 update_inode sv (fun i =>
                   set_direct (<[Z.to_nat fileblock := b]> (sfi_direct i)) i) ;;
                 mark_dirty sv ;;
                 ret (Ok b)
               else ret (Ok block)) ;;
    (* Hand back the block *)
    check_block_used block ;;
    ret (Ok block)
  else
    (* It's not a direct block; it must be in the indirect block. *)
    let fileblock := u32 (fileblock - SFS_NDIRECT) in
    let idnum := fileblock / SFS_DBPERIDB in
    let idoff := fileblock mod SFS_DBPERIDB in
    (* We only have one indirect block. *)
    if 0 <? idnum then ret (Err EINVAL) else
    v <- deref sv ;;
    let idblock := sfi_indirect (sv_i v) in
    (* Allocate indirect block buffer *)
    null <- kmalloc ;;
    if null then ret (Err ENOMEM) else
    if (idblock =? 0) && negb doalloc then
      (* No indirect block and nothing to allocate: pretend the indirect
         block was filled with all zeros. *)
      ret (Ok 0)
    else
      ib <-? (if idblock =? 0 then
                b <-? sfs_balloc ;;
                update_inode sv (set_indirect b) ;;
                mark_dirty sv ;;
                ret (Ok (b, repeat 0 (Z.to_nat SFS_DBPERIDB)))
              else
                data <-? sfs_rblock idblock ;;
                ret (Ok (idblock, dec_ptrs data))) ;;
      let idblock := ib.1 in
      let idbuf := ib.2 in
      (* Get the block out of the indirect block buffer *)
      let block := nth (Z.to_nat idoff) idbuf 0 in
      (* If there's no block there, allocate one *)
      block <-? (if (block =? 0) && doalloc then
                   b <-? sfs_balloc ;;
                   _ <-? sfs_wblock (enc_ptrs (<[Z.to_nat idoff := b]> idbuf)) idblock ;;
                   ret (Ok b)
                 else ret (Ok block)) ;;
      check_block_used block ;;
      ret (Ok block).

(** ** File-level I/O *)

(* Do I/O to a block of a file that doesn't cover the whole block. *)
Definition sfs_partialio (sv : vptr) (u : uio) (skipstart len : Z)
  : M (res unit * uio) :=
  (* the I/O buffer; the source does not test it against NULL *)
  null <- kmalloc ;;
  (* Allocate missing blocks if and only if we're writing *)
  let doalloc := is_write u in
  (* the sum is one of two u_int32_t *)
  assert (u32 (skipstart + len) <=? SFS_BLOCKSIZE) ;;
  (* Compute the block offset of this block in the file *)
  let fileblock := u32 (Z.quot (uio_offset u) SFS_BLOCKSIZE) in
  (* Get the disk block number *)
  r <- sfs_bmap sv fileblock doalloc ;;
  match r with
  | Err e => ret (Err e, u)
  | Ok diskblock =>
      r <- (if diskblock =? 0 then
              (* No block mapped at this point in the file: zero the buffer *)
              assert (negb (is_write u)) ;;
              if null then panic P_bad_pointer
              else ret (Ok (repeat 0 (Z.to_nat SFS_BLOCKSIZE)))
            else
              (* Read the block. *)
              if null then panic P_bad_pointer else sfs_rblock diskblock) ;;
      match r with
      | Err e => ret (Err e, u)
      | Ok iobuf =>
          (* Now perform the requested operation into/out of the buffer.
             [iobuf+skipstart] and the [len] bytes behind it are within the
             buffer unless the sum above has wrapped. *)
          if SFS_BLOCKSIZE <? skipstart + len then panic P_bad_pointer else
          let k := Z.to_nat skipstart in
          m <- uiomove (drop k iobuf) len u ;;
          let iobuf := take k iobuf ++ m.1.2 in
          let u := m.2 in
          match m.1.1 with
          | Err e => ret (Err e, u)
          | Ok _ =>
              (* If it was a write, write back the modified block. *)
              if is_write u then
                r <- sfs_wblock iobuf diskblock ;;
                match r with
                | Err e => ret (Err e, u)
                | Ok _ => ret (Ok tt, u)
                end
              else ret (Ok tt, u)
          end
      end
  end.

(* Do I/O (either read or write) of a single whole block. *)
Definition sfs_blockio (sv : vptr) (u : uio) : M (res unit * uio) :=
  let doalloc := is_write u in
  (* Get the block number within the file *)
  let fileblock := u32 (Z.quot (uio_offset u) SFS_BLOCKSIZE) in
  (* Look up the disk block number *)
  r <- sfs_bmap sv fileblock doalloc ;;
  match r with
  | Err e => ret (Err e, u)
  | Ok diskblock =>
      if diskblock =? 0 then
        (* No block - fill with zeros. *)
        assert (negb (is_write u)) ;;
        uiomovezeros SFS_BLOCKSIZE u
      else
        (* Do the I/O directly to the uio region. *)
        let saveoff := uio_offset u in
        let diskoff := s32 (diskblock * SFS_BLOCKSIZE) in
        (* Temporarily set the residue to be one block size. *)
        assert (SFS_BLOCKSIZE <=? uio_resid u) ;;
        let saveres := uio_resid u in
        let diskres := SFS_BLOCKSIZE in
        r <- sfs_rwblock (set_resid diskres (set_offset diskoff u)) ;;
        (* Restore the original uio_offset and uio_resid and update them
           by the amount of I/O done. *)
        let u := r.2 in
        ret (r.1, set_resid ((uio_resid u - diskres) + saveres)
                    (set_offset ((uio_offset u - diskoff) + saveoff) u))
  end.

(* [for (i=0; i<nblocks; i++) { result = sfs_blockio(sv, uio); if (result) goto out; }] *)
Fixpoint sfs_io_blocks (sv : vptr) (nblocks : nat) (u : uio) : M (res unit * uio) :=
  match nblocks with
  | O => ret (Ok tt, u)
  | S n =>
      r <- sfs_blockio sv u ;;
      match r.1 with
      | Err e => ret (Err e, r.2)
      | Ok _ => sfs_io_blocks sv n r.2
      end
  end.

(* The part of sfs_io between the EOF check and the label [out]. *)
Definition sfs_io_transfer (sv : vptr) (u : uio) : M (res unit * uio) :=
  (* First, do any leading partial block. *)
  let blkoff := u32 (Z.rem (uio_offset u) SFS_BLOCKSIZE) in
  r <- (if negb (blkoff =? 0) then
          (* Number of bytes at beginning of block to skip *)
          let skip := blkoff in
          (* Number of bytes to read/write after that point *)
          let len := u32 (SFS_BLOCKSIZE - blkoff) in
          (* ...which might be less than the rest of the block *)
          let len := if uio_resid u <? len then u32 (uio_resid u) else len in
          sfs_partialio sv u skip len
        else ret (Ok tt, u)) ;;
  match r.1 with
  | Err e => ret (Err e, r.2)
  | Ok _ =>
      let u := r.2 in
      (* If we're done, quit. *)
      if uio_resid u =? 0 then ret (Ok tt, u) else
      (* Now we should be block-aligned. Do the remaining whole blocks. *)
      assert (Z.rem (uio_offset u) SFS_BLOCKSIZE =? 0) ;;
      let nblocks := u32 (uio_resid u / SFS_BLOCKSIZE) in
      r <- sfs_io_blocks sv (Z.to_nat nblocks) u ;;
      match r.1 with
      | Err e => ret (Err e, r.2)
      | Ok _ =>
          let u := r.2 in
          (* Now do any remaining partial block at the end. *)
          assert (uio_resid u <? SFS_BLOCKSIZE) ;;
          if 0 <? uio_resid u then sfs_partialio sv u 0 (u32 (uio_resid u))
          else ret (Ok tt, u)
      end
  end.

(* The EOF check that opens sfs_io: [None] for "at or past EOF - just
   return", otherwise EXTRARESID and the uio with the residue clipped. *)
Definition sfs_io_eof (sv : vptr) (u : uio) : M (option (Z * uio)) :=
  match uio_rw u with
  | UIO_READ =>
      v <- deref sv ;;
      (* both are off_t *)
      let size := s32 (sfi_size (sv_i v)) in
      let endpos := s32 (uio_offset u + uio_resid u) in
      if size <=? uio_offset u then ret None
      else if size <? endpos then
        let extraresid := u32 (endpos - size) in
        assert (extraresid <? uio_resid u) ;;
        ret (Some (extraresid, set_resid (uio_resid u - extraresid) u))
      else ret (Some (0, u))
  | UIO_WRITE => ret (Some (0, u))
  end.

(* Do I/O of a whole region of data, whether or not it's block-aligned. *)
Definition sfs_io (sv : vptr) (u : uio) : M (res unit * uio) :=
  c <- sfs_io_eof sv u ;;
  match c with
  | None => ret (Ok tt, u)
  | Some (extraresid, u) =>
      r <- sfs_io_transfer sv u ;;
      let result := r.1 in
      let u := r.2 in
      (* out: If writing, adjust file length *)
      v <- deref sv ;;
      (if is_write u && (s32 (sfi_size (sv_i v)) <? uio_offset u) then
         update_inode sv (set_size (u32 (uio_offset u))) ;;
         mark_dirty sv
       else ret tt) ;;
      (* Add in any extra amount we couldn't read because of EOF *)
      ret (result, set_resid (uio_resid u + extraresid) u)
  end.

(** ** Directory I/O *)

Definition bytes_of_string (s : string) : list Z :=
  map (fun c => Z.of_N (N_of_ascii c)) (list_ascii_of_string s).

Definition strlen (s : string) : Z := Z.of_nat (String.length s).

(* Read the directory entry out of slot SLOT of a directory vnode. *)
Definition sfs_readdir (sv : vptr) (slot : Z) : M (res sfs_dir) :=
  (* Compute the actual position in the directory to read. *)
  let actualpos := s32 (slot * sizeof_sfs_dir) in
  (* Set up a uio to do the read *)
  let ku := mk_kuio [] sizeof_sfs_dir actualpos UIO_READ in
  r <- sfs_io sv ku ;;
  match r.1 with
  | Err e => ret (Err e)
  | Ok _ =>
      (* We should not hit EOF in the middle of a directory entry *)
      if 0 <? uio_resid r.2 then panic P_readdir_short_entry
      else ret (Ok (dec_dirent (uio_data r.2)))
  end.

(* Write (overwrite) the directory entry in slot SLOT of a directory vnode. *)
Definition sfs_writedir (sv : vptr) (sd : sfs_dir) (slot : Z) : M (res unit) :=
  assert (0 <=? slot) ;;
  let actualpos := s32 (slot * sizeof_sfs_dir) in
  let ku := mk_kuio (enc_dirent sd) sizeof_sfs_dir actualpos UIO_WRITE in
  r <- sfs_io sv ku ;;
  match r.1 with
  | Err e => ret (Err e)
  | Ok _ =>
      (* Should not end up with a partial entry! *)
      if 0 <? uio_resid r.2 then panic P_writedir_short_write
      else ret (Ok tt)
  end.

(* Compute the number of entries (existing slots) in a directory. *)
Definition sfs_dir_nentries (sv : vptr) : M Z :=
  v <- deref sv ;;
  assert (match sfi_type (sv_i v) with SFS_TYPE_DIR => true | _ => false end) ;;
  (* an off_t, but [%] and [/] by a sizeof are unsigned: the value of the
     u_int32_t field *)
  let size := sfi_size (sv_i v) in
  if negb (Z.rem size sizeof_sfs_dir =? 0) then panic P_dir_invalid_size
  else ret (size / sizeof_sfs_dir).

(* The outputs of sfs_dir_findname as its loop carries them: [fn_found]
   holds the inode number and the slot once the name was seen,
   [fn_emptyslot] holds the empty slot, which starts with the value the
   caller put there. *)
Record findname_out := mk_fn {
  fn_found : option (Z * Z);
  fn_emptyslot : Z
}.

(* [tsd.sfd_name[sizeof(tsd.sfd_name)-1] = 0] *)
Definition terminate_name (s : string) : string :=
  substring 0 (Z.to_nat (SFS_NAMELEN - 1)) s.

(* The body of [for (i=0; i<nentries; i++)], run for slots i, i+1, ... *)
Fixpoint sfs_dir_findname_loop (sv : vptr) (name : string) (todo : nat)
    (i : Z) (st : findname_out) : M (res unit * findname_out) :=
  match todo with
  | O => ret (Ok tt, st)
  | S todo' =>
      (* Read the entry from that slot *)
      r <- sfs_readdir sv i ;;
      match r with
      | Err e => ret (Err e, st)
      | Ok tsd =>
          if sfd_ino tsd =? SFS_NOINO then
            (* Free slot - report it back if one was requested *)
            sfs_dir_findname_loop sv name todo' (i + 1)
              (mk_fn (fn_found st) i)
          else if String.eqb (terminate_name (sfd_name tsd)) name then
            (* Each name may legally appear only once... *)
            assert (match fn_found st with None => true | Some _ => false end) ;;
            sfs_dir_findname_loop sv name todo' (i + 1)
              (mk_fn (Some (sfd_ino tsd, i)) (fn_emptyslot st))
          else sfs_dir_findname_loop sv name todo' (i + 1) st
      end
  end.

(* Search a directory for a particular filename, and return its inode
   number, its slot, and/or the slot number of an empty directory slot if
   one is found.  [emptyslot] is the value the caller's variable holds on
   entry; the second component of the result is what it holds on return. *)
Definition sfs_dir_findname (sv : vptr) (name : string) (emptyslot : Z)
  : M (res (Z * Z) * Z) :=
  nentries <- sfs_dir_nentries sv ;;
  r <- sfs_dir_findname_loop sv name (Z.to_nat nentries) 0
         (mk_fn None emptyslot) ;;
  match r.1 with
  | Err e => ret (Err e, fn_emptyslot r.2)
  | Ok _ =>
      match fn_found r.2 with
      | Some hit => ret (Ok hit, fn_emptyslot r.2)
      | None => ret (Err ENOENT, fn_emptyslot r.2)
      end
  end.

Definition errno_is_ENOENT (e : errno) : bool :=
  match e with ENOENT => true | _ => false end.

(* Create a link in a directory to the specified inode by number, with
   the specified name, and hand back the slot. *)
Definition sfs_dir_link (sv : vptr) (name : string) (ino : Z) : M (res Z) :=
  (* Look up the name. We want to make sure it does not exist. *)
  r <- sfs_dir_findname sv name (-1) ;;
  let emptyslot := r.2 in
  match r.1 with
  | Ok _ => ret (Err EEXIST)
  | Err e =>
      if negb (errno_is_ENOENT e) then ret (Err e) else
      if SFS_NAMELEN <? strlen name + 1 then ret (Err ENAMETOOLONG) else
      (* If we didn't get an empty slot, add the entry at the end. *)
      emptyslot <- (if emptyslot <? 0 then sfs_dir_nentries sv
                    else ret emptyslot) ;;
      (* Set up the entry. *)
      let sd := mk_dir ino name in
      (* Write the entry. *)
      _ <-? sfs_writedir sv sd emptyslot ;;
      ret (Ok emptyslot)
  end.

(* Unlink a name in a directory, by slot number. *)
Definition sfs_dir_unlink (sv : vptr) (slot : Z) : M (res unit) :=
  sfs_writedir sv (mk_dir SFS_NOINO EmptyString) slot.

(** ** The vnode table *)

(** Modelled from the spec: VOP_INCREF (vnode.c is not in the source
    tree) counts one more borrowed reference. *)
Definition VOP_INCREF (sv : vptr) : M unit :=
  update sv (fun v => set_refcount (vn_refcount v + 1) v).

(* [for (i=0; i<num; i++)] over the vnode table in sfs_loadvnode *)
Fixpoint sfs_loadvnode_search (table : list vptr) (ino : Z)
    (forcetype : sfs_type) : M (option vptr) :=
  match table with
  | [] => ret None
  | sv :: table' =>
      v <- deref sv ;;
      (* Every inode in memory must be in an allocated block *)
      used <- sfs_bused (sv_ino v) ;;
      if negb used then panic P_inode_in_unallocated_block else
      if sv_ino v =? ino then
        (* Found.  May only be set when creating new objects *)
        assert (match forcetype with SFS_TYPE_INVAL => true | _ => false end) ;;
        VOP_INCREF sv ;;
        ret (Some sv)
      else sfs_loadvnode_search table' ino forcetype
  end.

(* Storage for a new struct sfs_vnode: a fresh address of the heap. *)
Definition kheap_new (v : sfs_vnode) : M vptr :=
  h <- gets kheap ;;
  modify (set_kheap (h ++ [Some v])) ;;
  ret (length h).

(** Modelled from the spec: VOP_INIT (vnode.c is not in the source
    tree), the common vnode initializer, hands the vnode its first
    reference and sets up the lock of its count, for which it needs
    memory. *)
Definition VOP_INIT : M (res unit) :=
  failed <- kmalloc ;;
  if failed then ret (Err ENOMEM) else ret (Ok tt).

(** Modelled from the spec: lock_create (synch.c is not in the source
    tree) needs memory; [true] stands for a NULL result.  The lock itself
    is not represented. *)
Definition lock_create : M bool := kmalloc.

(* [p->...] through a pointer that the callee may have left unset *)
Definition the_object (p : option vptr) : M vptr :=
  match p with
  | Some sv => ret sv
  | None => panic P_bad_pointer
  end.

(* The end of sfs_loadvnode, from the call of the common vnode
   initializer on, for the inode [i] read from block [ino].  [Ok None] is
   the return of 0 that leaves [*ret] unset.  The storage of the new vnode
   enters the heap of the model when the vnode is complete and in the
   table. *)
Definition sfs_loadvnode_init (ino : Z) (i : sfs_inode) (dirty : bool)
  : M (res (option vptr)) :=
  (* Call the common vnode initializer *)
  _ <-? VOP_INIT ;;
  (* Set the other fields in our vnode structure *)
  nolock <- lock_create ;;
  if nolock then
    (* [return result;] where result is the 0 of VOP_INIT *)
    ret (Ok None)
  else
  (* Add it to our table: array_add needs memory *)
  full <- kmalloc ;;
  if full then ret (Err ENOMEM) else
  sv <- kheap_new (mk_vnode ino i dirty 1) ;;
  modify (fun w => set_vnodes (sfs_vnodes w ++ [sv]) w) ;;
  (* Hand it back *)
  ret (Ok (Some sv)).

(* Load an inode into memory as a vnode, or dig up one that's already
   resident. *)
Definition sfs_loadvnode (ino : Z) (forcetype : sfs_type)
  : M (res (option vptr)) :=
  (* Look in the vnodes table *)
  table <- gets sfs_vnodes ;;
  found <- sfs_loadvnode_search table ino forcetype ;;
  match found with
  | Some sv => ret (Ok (Some sv))
  | None =>
      (* Didn't have it loaded; load it *)
      null <- kmalloc ;;
      if null then ret (Err ENOMEM) else
      (* Must be in an allocated block *)
      used <- sfs_bused ino ;;
      if negb used then panic P_inode_in_unallocated_block else
      (* Read the block the inode is in *)
      data <-? sfs_rblock ino ;;
      let i := dec_inode data in
      (* FORCETYPE is set if we're creating a new file *)
      forced <- (match forcetype with
                 | SFS_TYPE_INVAL => ret (i, false)
                 | _ =>
                     assert (match sfi_type i with
                             | SFS_TYPE_INVAL => true | _ => false end) ;;
                     ret (set_type forcetype i, true)
                 end) ;;
      (* Choose the function table based on the object type. *)
      match sfi_type forced.1 with
      | SFS_TYPE_FILE | SFS_TYPE_DIR =>
          sfs_loadvnode_init ino forced.1 forced.2
      | _ => panic P_loadvnode_invalid_type
      end
  end.

(* Look for a name in a directory and hand back a vnode for the file, if
   there is one, together with its slot. *)
Definition sfs_lookonce (sv : vptr) (name : string) : M (res (vptr * Z)) :=
  r <- sfs_dir_findname sv name (-1) ;;
  match r.1 with
  | Err e => ret (Err e)
  | Ok (ino, slot) =>
      ret_ <-? sfs_loadvnode ino SFS_TYPE_INVAL ;;
      (* the link count, read through the pointer that sfs_loadvnode set *)
      vn <- the_object ret_ ;;
      v <- deref vn ;;
      if sfi_linkcount (sv_i v) =? 0 then panic P_link_count_zero
      else ret (Ok (vn, slot))
  end.

(** ** Object creation *)

Definition sfs_makeobj (type : sfs_type) : M (res (option vptr)) :=
  (* First, get an inode. *)
  ino <-? sfs_balloc ;;
  (* Now load a vnode for it. *)
  sfs_loadvnode ino type.

(** ** Truncation *)

(* DIVROUNDUP(a,b) of lib.h *)
Definition DIVROUNDUP (a b : Z) : Z := Z.quot (a + b - 1) b.

(* [for (i=0; i<SFS_NDIRECT; i++)] over the direct blocks, from slot [i] *)
Fixpoint sfs_dotruncate_direct (sv : vptr) (blocklen : Z) (todo : nat) (i : Z)
  : M unit :=
  match todo with
  | O => ret tt
  | S todo' =>
      v <- deref sv ;;
      let block := nth (Z.to_nat i) (sfi_direct (sv_i v)) 0 in
      (if (blocklen <=? i) && negb (block =? 0) then
         sfs_bfree block ;;
         update_inode sv (fun ino =>
           set_direct (<[Z.to_nat i := 0]> (sfi_direct ino)) ino) ;;
         mark_dirty sv
       else ret tt) ;;
      sfs_dotruncate_direct sv blocklen todo' (i + 1)
  end.

(* [for (j=0; j<SFS_DBPERIDB; j++)] over the indirect block buffer; the
   result is the buffer with HASNONZERO and IDDIRTY. *)
Fixpoint sfs_dotruncate_indirect (blocklen baseblock : Z) (todo : nat) (j : Z)
    (idbuf : list Z) (hasnonzero iddirty : bool) : M (list Z * bool * bool) :=
  match todo with
  | O => ret (idbuf, hasnonzero, iddirty)
  | S todo' =>
      let e := nth (Z.to_nat j) idbuf 0 in
      (* Discard any blocks that are past the new EOF *)
      r <- (if (blocklen <? u32 (baseblock + j)) && negb (e =? 0) then
              sfs_bfree e ;;
              ret (<[Z.to_nat j := 0]> idbuf, true)
            else ret (idbuf, iddirty)) ;;
      (* Remember if we see any nonzero blocks in here *)
      let hasnonzero :=
        if negb (nth (Z.to_nat j) r.1 0 =? 0) then true else hasnonzero in
      sfs_dotruncate_indirect blocklen baseblock todo' (j + 1) r.1 hasnonzero r.2
  end.

Definition sfs_dotruncate (sv : vptr) (len : Z) : M (res unit) :=
  (* the indirect block buffer; the source does not test it against NULL *)
  null <- kmalloc ;;
  (* Length in blocks (divide rounding up) *)
  let blocklen := u32 (DIVROUNDUP len SFS_BLOCKSIZE) in
  assert (SFS_DBPERIDB * 4 =? SFS_BLOCKSIZE) ;;
  (* Go through the direct blocks. *)
  sfs_dotruncate_direct sv blocklen (Z.to_nat SFS_NDIRECT) 0 ;;
  v <- deref sv ;;
  (* Indirect block number *)
  let idblock := sfi_indirect (sv_i v) in
  (* The lowest block in the indirect block *)
  let baseblock := SFS_NDIRECT in
  (* The highest block in the indirect block *)
  let highblock := u32 (baseblock + SFS_DBPERIDB - 1) in
  _ <-? (if (blocklen <? highblock) && negb (idblock =? 0) then
           (* We're past the proposed EOF; may need to free stuff *)
           if null then panic P_bad_pointer else
           data <-? sfs_rblock idblock ;;
           r <- sfs_dotruncate_indirect blocklen baseblock
                  (Z.to_nat SFS_DBPERIDB) 0 (dec_ptrs data) false false ;;
           if negb r.1.2 then
             (* The whole indirect block is empty now; free it *)
             sfs_bfree idblock ;;
             update_inode sv (set_indirect 0) ;;
             mark_dirty sv ;;
             ret (Ok tt)
           else if r.2 then
             (* The indirect block is dirty; write it back *)
             sfs_wblock (enc_ptrs r.1.1) idblock
           else ret (Ok tt)
         else ret (Ok tt)) ;;
  (* Set the file size *)
  update_inode sv (set_size (u32 len)) ;;
  (* Mark the inode dirty *)
  mark_dirty sv ;;
  ret (Ok tt).

(** ** Vnode ops *)

(* [array_remove] of the first table entry that is this vnode *)
Fixpoint table_remove (sv : vptr) (table : list vptr) : option (list vptr) :=
  match table with
  | [] => None
  | x :: table' =>
      if Nat.eqb x sv then Some table'
      else cons x <$> table_remove sv table'
  end.

(* Called when the vnode refcount (in-memory usage count) hits zero. *)
Definition sfs_reclaim (sv : vptr) : M (res unit) :=
  v <- deref sv ;;
  (* Make sure someone else hasn't picked up the vnode since the decision
     was made to reclaim it. *)
  if negb (vn_refcount v =? 1) then
    (* consume the reference VOP_DECREF gave us *)
    assert (1 <? vn_refcount v) ;;
    update sv (fun v => set_refcount (vn_refcount v - 1) v) ;;
    ret (Err EBUSY)
  else
    (* If there are no on-disk references to the file either, erase it. *)
    _ <-? (if sfi_linkcount (sv_i v) =? 0 then sfs_dotruncate sv 0
           else ret (Ok tt)) ;;
    (* Sync the inode to disk *)
    _ <-? sfs_sync_inode sv ;;
    (* If there are no on-disk references, discard the inode *)
    v <- deref sv ;;
    (if sfi_linkcount (sv_i v) =? 0 then sfs_bfree (sv_ino v) else ret tt) ;;
    (* Remove the vnode structure from the table in the struct sfs_fs. *)
    table <- gets sfs_vnodes ;;
    match table_remove sv table with
    | None => panic P_reclaim_not_in_pool
    | Some table' =>
        modify (set_vnodes table') ;;
        (* Release the storage for the vnode structure itself. *)
        modify (fun w => set_kheap (<[sv := None]> (kheap w)) w) ;;
        ret (Ok tt)
    end.

(** Modelled from the spec: VOP_DECREF (vnode.c is not in the source
    tree) gives back one borrowed reference; reclaim is "invoked when the
    external reference count drops to the last holder", and its result is
    not handed on. *)
Definition VOP_DECREF (sv : vptr) : M unit :=
  v <- deref sv ;;
  assert (0 <? vn_refcount v) ;;
  if 1 <? vn_refcount v then
    update sv (fun v => set_refcount (vn_refcount v - 1) v)
  else
    _ <- sfs_reclaim sv ;; ret tt.

(* Called for getdirentry() *)
Definition sfs_getdirentry (sv : vptr) (u : uio) : M (res unit * uio) :=
  v <- deref sv ;;
  (* Make sure vnode is a directory *)
  match sfi_type (sv_i v) with
  | SFS_TYPE_DIR =>
      (* Check slot requested isn't out of range *)
      let slot := uio_offset u in
      nentries <- sfs_dir_nentries sv ;;
      if nentries <=? slot then ret (Ok tt, u) else
      r <- sfs_readdir sv (uio_offset u) ;;
      match r with
      | Err e => ret (Err e, u)
      | Ok dir =>
          let name := sfd_name dir in
          assert (negb (is_write u)) ;;
          m <- uiomove (bytes_of_string name) (strlen name) u ;;
          match m.1.1 with
          | Err e => ret (Err e, m.2)
          | Ok _ =>
              (* everything OK, increment uio offset *)
              ret (Ok tt, set_offset (slot + 1) m.2)
          end
      end
  | _ => ret (Err ENOTDIR, u)
  end.

(* [sv->sv_i.sfi_linkcount++] and [--] on the unsigned link count field *)
Definition linkcount_incr (sv : vptr) : M unit :=
  update_inode sv (fun i =>
    set_linkcount ((sfi_linkcount i + 1) mod LINKCOUNT_MOD) i).
Definition linkcount_decr (sv : vptr) : M unit :=
  update_inode sv (fun i =>
    set_linkcount ((sfi_linkcount i - 1) mod LINKCOUNT_MOD) i).

(* Create a file. If EXCL is set, insist that the filename not already
   exist; otherwise, if it already exists, just open it.  What it hands
   back is [&newguy->sv_v], the address that NEWGUY holds. *)
Definition sfs_creat (sv : vptr) (name : string) (excl : bool)
  : M (res (option vptr)) :=
  (* Look up the name *)
  r <- sfs_dir_findname sv name (-1) ;;
  match r.1 with
  | Ok (ino, _) =>
      (* If it exists and we didn't want it to, fail *)
      if excl then ret (Err EEXIST) else
      (* We got a file; load its vnode and return *)
      sfs_loadvnode ino SFS_TYPE_INVAL
  | Err e =>
      if negb (errno_is_ENOENT e) then ret (Err e) else
      (* Didn't exist - create it *)
      newguy <-? sfs_makeobj SFS_TYPE_FILE ;;
      (* [newguy->sv_ino] *)
      newguy <- the_object newguy ;;
      n <- deref newguy ;;
      (* Link it into the directory *)
      r <- sfs_dir_link sv name (sv_ino n) ;;
      match r with
      | Err e => VOP_DECREF newguy ;; ret (Err e)
      | Ok _ =>
          (* Update the linkcount of the new file *)
          linkcount_incr newguy ;;
          (* and consequently mark it dirty. *)
          mark_dirty newguy ;;
          ret (Ok (Some newguy))
      end
  end.

(* Make a hard link to a file. *)
Definition sfs_link (dir : vptr) (name : string) (file : vptr) : M (res unit) :=
  f <- deref file ;;
  (* Just create a link *)
  _ <-? sfs_dir_link dir name (sv_ino f) ;;
  (* and update the link count, marking the inode dirty *)
  linkcount_incr file ;;
  mark_dirty file ;;
  ret (Ok tt).

(* Delete a file. *)
Definition sfs_remove (dir : vptr) (name : string) : M (res unit) :=
  (* Look for the file and fetch a vnode for it. *)
  r <-? sfs_lookonce dir name ;;
  let victim := r.1 in
  let slot := r.2 in
  (* Erase its directory entry. *)
  result <- sfs_dir_unlink dir slot ;;
  (match result with
   | Ok _ =>
       (* If we succeeded, decrement the link count. *)
       v <- deref victim ;;
       assert (0 <? sfi_linkcount (sv_i v)) ;;
       linkcount_decr victim ;;
       mark_dirty victim
   | Err _ => ret tt
   end) ;;
  (* Discard the reference that sfs_lookonce got us *)
  VOP_DECREF victim ;;
  ret result.

(* Rename a file. *)
Definition sfs_rename (d1 : vptr) (n1 : string) (d2 : vptr) (n2 : string)
  : M (res unit) :=
  let sv := d1 in
  assert (Nat.eqb d1 d2) ;;
  v <- deref sv ;;
  assert (sv_ino v =? SFS_ROOT_LOCATION) ;;
  (* Look up the old name of the file and get its inode and slot number *)
  r <-? sfs_lookonce sv n1 ;;
  let g1 := r.1 in
  let slot1 := r.2 in
  g <- deref g1 ;;
  (* We don't support subdirectories *)
  assert (match sfi_type (sv_i g) with SFS_TYPE_FILE => true | _ => false end) ;;
  (* Link it under the new name. *)
  r <- sfs_dir_link sv n2 (sv_ino g) ;;
  match r with
  | Err e =>
      (* puke: Let go of the reference to g1 *)
      VOP_DECREF g1 ;;
      ret (Err e)
  | Ok slot2 =>
      (* Increment the link count, and mark inode dirty *)
      linkcount_incr g1 ;;
      mark_dirty g1 ;;
      (* Unlink the old slot *)
      r <- sfs_dir_unlink sv slot1 ;;
      match r with
      | Err e =>
          (* puke_harder: Error recovery: try to undo what we already did *)
          r2 <- sfs_dir_unlink sv slot2 ;;
          match r2 with
          | Err _ => panic P_rename_cannot_recover
          | Ok _ =>
              linkcount_decr g1 ;;
              (* puke: Let go of the reference to g1 *)
              VOP_DECREF g1 ;;
              ret (Err e)
          end
      | Ok _ =>
          (* Decrement the link count again, and mark the inode dirty
             again, in case it's been synced behind our back. *)
          g <- deref g1 ;;
          assert (0 <? sfi_linkcount (sv_i g)) ;;
          linkcount_decr g1 ;;
          mark_dirty g1 ;;
          (* Let go of the reference to g1 *)
          VOP_DECREF g1 ;;
          ret (Ok tt)
      end
  end.

(* Create a directory. *)
Definition sfs_mkdir (sv : vptr) (name : string) : M (res unit) :=
  v <- deref sv ;;
  (* Make sure vnode is a directory *)
  match sfi_type (sv_i v) with
  | SFS_TYPE_DIR =>
      (* check if entry already exists *)
      r <- sfs_dir_findname sv name (-1) ;;
      match r.1 with
      | Ok _ => ret (Err EEXIST)
      | Err _ =>
          (* create new directory *)
          newguy <-? sfs_makeobj SFS_TYPE_DIR ;;
          (* [newguy->sv_lock] *)
          newguy <- the_object newguy ;;
          n <- deref newguy ;;
          (* add . and .. entries *)
          r <- sfs_dir_link newguy "." (sv_ino n) ;;
          match r with
          | Err e => VOP_DECREF newguy ;; ret (Err e)
          | Ok _ =>
              r <- sfs_dir_link newguy ".." (sv_ino v) ;;
              match r with
              | Err e => VOP_DECREF newguy ;; ret (Err e)
              | Ok _ =>
                  (* Link it into the directory *)
                  r <- sfs_dir_link sv name (sv_ino n) ;;
                  match r with
                  | Err e => VOP_DECREF newguy ;; ret (Err e)
                  | Ok _ =>
                      (* Update the linkcount of the new dir *)
                      linkcount_incr newguy ;;
                      mark_dirty newguy ;;
                      (* Update the linkcount of the parent dir *)
                      linkcount_incr sv ;;
                      mark_dirty sv ;;
                      (* decrease refcount of newguy *)
                      VOP_DECREF newguy ;;
                      ret (Ok tt)
                  end
              end
          end
      end
  | _ => ret (Err ENOTDIR)
  end.

(* Delete a directory.
   [(void)v; (void)name; return EUNIMP;] *)
Definition sfs_rmdir (v : vptr) (name : string) : M (res unit) :=
  ret (Err EUNIMP).

(* Lookup gets a vnode for a pathname: one name, looked up once. *)
Definition sfs_lookup (sv : vptr) (path : string) : M (res vptr) :=
  v <- deref sv ;;
  match sfi_type (sv_i v) with
  | SFS_TYPE_DIR =>
      r <-? sfs_lookonce sv path ;;
      ret (Ok r.1)
  | _ => ret (Err ENOTDIR)
  end.

(** ** The remaining vnode ops that do work *)

(* Called for fsync(), and also on filesystem unmount, global sync(). *)
Definition sfs_fsync (sv : vptr) : M (res unit) :=
  sfs_sync_inode sv.

(* Called on the last close(): [return VOP_FSYNC(v);], which both
   function tables route to sfs_fsync. *)
Definition sfs_close (sv : vptr) : M (res unit) :=
  (* Sync it. *)
  sfs_fsync sv.

(* Called for read(). sfs_io() does the work. *)
Definition sfs_read (sv : vptr) (u : uio) : M (res unit * uio) :=
  assert (negb (is_write u)) ;;
  sfs_io sv u.

(* Called for write(). sfs_io() does the work. *)
Definition sfs_write (sv : vptr) (u : uio) : M (res unit * uio) :=
  assert (is_write u) ;;
  sfs_io sv u.

(* Called for ftruncate(). *)
Definition sfs_truncate (sv : vptr) (len : Z) : M (res unit) :=
  sfs_dotruncate sv len.

(* lookparent returns the last path component as a string and the
   directory it's in as a vnode: the root dir and a copy of the path, put
   into the caller's buffer of [buflen] bytes. *)
Definition sfs_lookparent (sv : vptr) (path : string) (buflen : Z)
  : M (res (vptr * string)) :=
  VOP_INCREF sv ;;
  v <- deref sv ;;
  match sfi_type (sv_i v) with
  | SFS_TYPE_DIR =>
      if buflen <? strlen path + 1 then
        VOP_DECREF sv ;;
        ret (Err ENAMETOOLONG)
      else ret (Ok (sv, path))
  | _ =>
      VOP_DECREF sv ;;
      ret (Err ENOTDIR)
  end.

End SFS.

(** ** The layout of stock OS/161

    The values and the big-endian (MIPS) byte layout that the sfs.h of
    OS/161 gives; the concrete runs below are made with it. *)
Module OS161.

Definition pad (n : nat) (l : list Z) : list Z :=
  take n (l ++ repeat 0 n).

Definition enc_u16 (x : Z) : list Z := [(x / 256) mod 256; x mod 256].
Definition enc_u32 (x : Z) : list Z :=
  [(x / 16777216) mod 256; (x / 65536) mod 256; (x / 256) mod 256; x mod 256].

(* the byte at position [i] *)
Definition byte_at (i : nat) (l : list Z) : Z := nth i l 0 mod 256.
Definition dec_u16 (l : list Z) : Z := byte_at 0 l * 256 + byte_at 1 l.
Definition dec_u32 (l : list Z) : Z :=
  ((byte_at 0 l * 256 + byte_at 1 l) * 256 + byte_at 2 l) * 256 + byte_at 3 l.

(* [n] consecutive u_int32_t starting at byte [4*i] *)
Fixpoint dec_u32s (n : nat) (l : list Z) : list Z :=
  match n with
  | O => []
  | S n' => dec_u32 l :: dec_u32s n' (drop 4 l)
  end.

Definition enc_type (t : sfs_type) : Z :=
  match t with
  | SFS_TYPE_INVAL => 0
  | SFS_TYPE_FILE => 1
  | SFS_TYPE_DIR => 2
  | SFS_TYPE_other code => code
  end.
Definition dec_type (x : Z) : sfs_type :=
  if x =? 0 then SFS_TYPE_INVAL else if x =? 1 then SFS_TYPE_FILE
  else if x =? 2 then SFS_TYPE_DIR else SFS_TYPE_other x.

Definition os_enc_inode (i : sfs_inode) : list Z :=
  pad 512 (enc_u32 (sfi_size i) ++ enc_u16 (enc_type (sfi_type i))
           ++ enc_u16 (sfi_linkcount i)
           ++ pad 60 (flat_map enc_u32 (sfi_direct i))
           ++ enc_u32 (sfi_indirect i)).

Definition os_dec_inode (l : list Z) : sfs_inode :=
  mk_inode (dec_u32 l) (dec_type (dec_u16 (drop 4 l))) (dec_u16 (drop 6 l))
           (dec_u32s 15 (drop 8 l)) (dec_u32 (drop 68 l)).

Definition os_enc_ptrs (l : list Z) : list Z := pad 512 (flat_map enc_u32 l).
Definition os_dec_ptrs (l : list Z) : list Z := dec_u32s 128 l.

Definition string_of_bytes (l : list Z) : string :=
  string_of_list_ascii (map (fun b => ascii_of_N (Z.to_N b)) l).

(* the characters before the first NUL *)
Fixpoint cstring (l : list Z) : list Z :=
  match l with
  | [] => []
  | c :: l' => if c =? 0 then [] else c :: cstring l'
  end.

Definition os_enc_dirent (d : sfs_dir) : list Z :=
  enc_u32 (sfd_ino d) ++ pad 60 (bytes_of_string (sfd_name d)).
Definition os_dec_dirent (l : list Z) : sfs_dir :=
  mk_dir (dec_u32 l) (string_of_bytes (cstring (take 60 (drop 4 l)))).

#[export] Instance layout : sfs_layout := {|
  SFS_BLOCKSIZE := 512;
  SFS_NDIRECT := 15;
  SFS_DBPERIDB := 128;
  SFS_NAMELEN := 60;
  SFS_ROOT_LOCATION := 1;
  LINKCOUNT_MOD := 65536;
  enc_inode := os_enc_inode;
  dec_inode := os_dec_inode;
  enc_ptrs := os_enc_ptrs;
  dec_ptrs := os_dec_ptrs;
  enc_dirent := os_enc_dirent;
  dec_dirent := os_dec_dirent
|}.

End OS161.

(** ** What the properties are stated with *)

(** The constraints the constants satisfy in any sfs.h: the assertion
    [SFS_DBPERIDB*sizeof(u_int32_t) == SFS_BLOCKSIZE] of sfs_bmap, and
    sizes that are sizes. *)
Record layout_ok (L : sfs_layout) : Prop := {
  blocksize_pos : 0 < SFS_BLOCKSIZE;
  blocksize_u32 : SFS_BLOCKSIZE < 2 ^ 32;
  ndirect_nonneg : 0 <= SFS_NDIRECT;
  maxblocks_u32 : SFS_NDIRECT + SFS_DBPERIDB < 2 ^ 32;
  dbperidb_blocksize : SFS_DBPERIDB * 4 = SFS_BLOCKSIZE;
  dec_inode_linkcount : forall data, 0 <= sfi_linkcount (dec_inode data)
}.

(** [ticks k w]: the state [w] after [k] requests to the environment that
    changed nothing else. *)
Definition ticks (k : nat) (w : world) : world :=
  mk_world (sfs_vnodes w) (sfs_freemap w) (sfs_freemapdirty w) (sp_nblocks w)
           (kheap w) (disk w) (k + env_clock w) (env_fault w).

Definition ticked (w w' : world) : Prop := exists k, w' = ticks k w.

(** [m] only moves the state along [R]. *)
Definition steps {A} (R : world -> world -> Prop) (m : M A) : Prop :=
  forall w a w', m w = Ret a w' -> R w w'.

(** Every result of [m] satisfies [P]. *)
Definition yields {A} (m : M A) (P : A -> Prop) : Prop :=
  forall w a w', m w = Ret a w' -> P a.

(** The vnode at address [sv]. *)
Definition vnode_at (w : world) (sv : vptr) (v : sfs_vnode) : Prop :=
  kheap w !! sv = Some (Some v).

(** What a transfer does to a uio: the direction stays, and what the
    offset gains the residue loses. *)
Definition uio_adv {L : sfs_layout} (u u' : uio) : Prop :=
  uio_rw u' = uio_rw u /\
  uio_offset u' + uio_resid u' = uio_offset u + uio_resid u /\
  uio_offset u <= uio_offset u' /\
  (0 <= uio_resid u -> 0 <= uio_resid u').

(** What stays of a vnode while its file is read or written: everything
    but the block pointers, the dirty flag and, for [grows], the size. *)
Definition vnode_kept (grows : bool) (v v' : sfs_vnode) : Prop :=
  sv_ino v' = sv_ino v /\
  vn_refcount v' = vn_refcount v /\
  sfi_type (sv_i v') = sfi_type (sv_i v) /\
  sfi_linkcount (sv_i v') = sfi_linkcount (sv_i v) /\
  (grows = false -> sfi_size (sv_i v') = sfi_size (sv_i v)).

(** I/O on the file of the vnode at [sv]: no other vnode is touched, the
    vnode at [sv] is kept in the sense above, and the vnode table, the
    size of the device and the behaviour of the environment are as they
    were. *)
Definition io_step (grows : bool) (sv : vptr) (w w' : world) : Prop :=
  (forall a, a <> sv -> kheap w' !! a = kheap w !! a) /\
  (forall v, vnode_at w sv v -> exists v', vnode_at w' sv v' /\ vnode_kept grows v v') /\
  sfs_vnodes w' = sfs_vnodes w /\
  sp_nblocks w' = sp_nblocks w /\
  env_fault w' = env_fault w.

(** The three ways in which the pointer for file block [fileblock] of the
    inode of [v] is zero, as sfs_bmap finds out about them in state [w]:
    a zero direct pointer; no indirect block; a zero entry in the indirect
    block.  Behind the direct blocks sfs_bmap first asks for a buffer, and
    it reads the indirect block when there is one: both requests are
    granted here. *)
Inductive hole {L : sfs_layout} (w : world) (v : sfs_vnode) (fileblock : Z) : Prop :=
| hole_direct :
    0 <= fileblock < SFS_NDIRECT ->
    nth (Z.to_nat fileblock) (sfi_direct (sv_i v)) 0 = 0 ->
    hole w v fileblock
| hole_no_indirect :
    SFS_NDIRECT <= fileblock < SFS_NDIRECT + SFS_DBPERIDB ->
    sfi_indirect (sv_i v) = 0 ->
    env_fault w (env_clock w) EvKmalloc = false ->
    hole w v fileblock
| hole_in_indirect (data : list Z) :
    SFS_NDIRECT <= fileblock < SFS_NDIRECT + SFS_DBPERIDB ->
    sfi_indirect (sv_i v) <> 0 ->
    env_fault w (env_clock w) EvKmalloc = false ->
    env_fault w (S (env_clock w)) (EvRead (sfi_indirect (sv_i v))) = false ->
    disk w !! Z.to_nat (sfi_indirect (sv_i v)) = Some data ->
    nth (Z.to_nat (fileblock - SFS_NDIRECT)) (dec_ptrs data) 0 = 0 ->
    hole w v fileblock.

(** *** Files that can be read *)

(** The environment grants every request. *)
Definition fault_free (w : world) : Prop :=
  forall t ev, env_fault w t ev = false.

(** Disk block [b] is a block of the device that the bitmap marks used. *)
Definition block_ok (w : world) (b : Z) : Prop :=
  0 < b < sp_nblocks w /\
  sfs_freemap w !! Z.to_nat b = Some true /\
  exists data, disk w !! Z.to_nat b = Some data.

(** File block [fileblock] of the inode of [v] is within the reach of the
    block map and is a hole or a good block. *)
Definition mapped_ok {L : sfs_layout} (w : world) (v : sfs_vnode)
    (fileblock : Z) : Prop :=
  (0 <= fileblock < SFS_NDIRECT /\
   let b := nth (Z.to_nat fileblock) (sfi_direct (sv_i v)) 0 in
   b = 0 \/ block_ok w b)
  \/
  (SFS_NDIRECT <= fileblock < SFS_NDIRECT + SFS_DBPERIDB /\
   (sfi_indirect (sv_i v) = 0 \/
    (sfi_indirect (sv_i v) <> 0 /\
     exists data,
       disk w !! Z.to_nat (sfi_indirect (sv_i v)) = Some data /\
       let b := nth (Z.to_nat (fileblock - SFS_NDIRECT)) (dec_ptrs data) 0 in
       b = 0 \/ block_ok w b))).

(** The file of the vnode [v] at [sv] can be read from end to end: the
    environment grants every request, the device is one whose byte
    positions are off_t values that are not negative, and every block
    below the size of the file is mapped as above. *)
Definition readable_file {L : sfs_layout} (w : world) (sv : vptr)
    (v : sfs_vnode) : Prop :=
  vnode_at w sv v /\
  fault_free w /\
  sp_nblocks w * SFS_BLOCKSIZE <= 2 ^ 31 /\
  forall fileblock,
    0 <= fileblock -> fileblock * SFS_BLOCKSIZE < sfi_size (sv_i v) ->
    mapped_ok w v fileblock.

(** *** The entry array of a directory *)

(** The entries of slots [i], [i+1], ... ([todo] of them), read the way
    sfs_dir_findname reads them. *)
Fixpoint sfs_readdir_range {L : sfs_layout} (sv : vptr) (todo : nat) (i : Z)
  : M (res (list sfs_dir)) :=
  match todo with
  | O => ret (Ok [])
  | S todo' =>
      sd <-? sfs_readdir sv i ;;
      rest <-? sfs_readdir_range sv todo' (i + 1) ;;
      ret (Ok (sd :: rest))
  end.

(** In state [w] the vnode [v] at [sv] is a directory whose size is a
    whole number of entries, and reading its slots in turn gives [es] and
    leaves the state [w']. *)
Definition dir_entries {L : sfs_layout} (w : world) (sv : vptr)
    (v : sfs_vnode) (es : list sfs_dir) (w' : world) : Prop :=
  vnode_at w sv v /\
  sfi_type (sv_i v) = SFS_TYPE_DIR /\
  Z.rem (sfi_size (sv_i v)) sizeof_sfs_dir = 0 /\
  sfs_readdir_range sv (Z.to_nat (sfi_size (sv_i v) / sizeof_sfs_dir)) 0 w
  = Ret (Ok es) w'.

Definition empty_slot (e : sfs_dir) : Prop := sfd_ino e = SFS_NOINO.

(** [name] is the name of the entry [e], as sfs_dir_findname compares. *)
Definition names {L : sfs_layout} (e : sfs_dir) (name : string) : Prop :=
  sfd_ino e <> SFS_NOINO /\ terminate_name (sfd_name e) = name.

(** Slot [k] is the empty slot of highest index. *)
Definition last_empty_slot (es : list sfs_dir) (k : Z) : Prop :=
  0 <= k /\
  (exists e, es !! Z.to_nat k = Some e /\ empty_slot e) /\
  (forall j e, (Z.to_nat k < j)%nat -> es !! j = Some e -> ~ empty_slot e).

(** Slot [k] is the empty slot of lowest index. *)
Definition first_empty_slot (es : list sfs_dir) (k : Z) : Prop :=
  0 <= k /\
  (exists e, es !! Z.to_nat k = Some e /\ empty_slot e) /\
  (forall j e, (j < Z.to_nat k)%nat -> es !! j = Some e -> ~ empty_slot e).

(** What the loop of sfs_dir_findname computes from the entries it read;
    [None] when [assert(found==0)] fails. *)
Fixpoint findname_scan {L : sfs_layout} (name : string) (es : list sfs_dir)
    (i : Z) (st : findname_out) : option findname_out :=
  match es with
  | [] => Some st
  | e :: es' =>
      if sfd_ino e =? SFS_NOINO then
        findname_scan name es' (i + 1) (mk_fn (fn_found st) i)
      else if String.eqb (terminate_name (sfd_name e)) name then
        match fn_found st with
        | None =>
            findname_scan name es' (i + 1)
              (mk_fn (Some (sfd_ino e, i)) (fn_emptyslot st))
        | Some _ => None
        end
      else findname_scan name es' (i + 1) st
  end.

(** *** Link counts *)

(** The first vnode of the table that is the inode [ino], as the search
    of sfs_loadvnode meets it. *)
Fixpoint resident_in (heap : list (option sfs_vnode)) (table : list vptr)
    (ino : Z) : option (vptr * sfs_vnode) :=
  match table with
  | [] => None
  | a :: table' =>
      match heap !! a with
      | Some (Some x) =>
          if sv_ino x =? ino then Some (a, x) else resident_in heap table' ino
      | _ => None
      end
  end.

(** The link count of inode [ino]: that of its vnode when it is resident,
    that of the inode block on disk otherwise. *)
Definition inode_linkcount {L : sfs_layout} (w : world) (ino : Z) : option Z :=
  match resident_in (kheap w) (sfs_vnodes w) ino with
  | Some (_, x) => Some (sfi_linkcount (sv_i x))
  | None =>
      match disk w !! Z.to_nat ino with
      | Some data => Some (sfi_linkcount (dec_inode data))
      | None => None
      end
  end.

(** The invariant of the directory at [sv]: no active entry references an
    inode whose link count is zero. *)
Definition no_dead_entries {L : sfs_layout} (w : world) (sv : vptr) : Prop :=
  forall v es w' e,
    dir_entries w sv v es w' ->
    e ∈ es -> ~ empty_slot e ->
    inode_linkcount w (sfd_ino e) <> Some 0.

(** The link count field is unsigned. *)
Definition linkcounts_unsigned (w : world) : Prop :=
  forall a x, vnode_at w a x -> 0 <= sfi_linkcount (sv_i x).

(** [m] never stops with the panic [p]. *)
Definition never_panics {A} (p : panic_msg) (m : M A) : Prop :=
  forall w, m w <> Panic p.

Abbreviation quiet := (never_panics P_link_count_zero).

(** *** The bitmap *)

(** The bitmap is untouched; blocks in use stay in use; free blocks stay
    free. *)
Definition same_freemap (w w' : world) : Prop :=
  sfs_freemap w' = sfs_freemap w.

Definition blocks_kept (w w' : world) : Prop :=
  forall i, sfs_freemap w !! i = Some true -> sfs_freemap w' !! i = Some true.

Definition free_kept (w w' : world) : Prop :=
  forall i, sfs_freemap w !! i = Some false -> sfs_freemap w' !! i = Some false.

(** Of the vnode [v], [v'] changed at most the block pointers, the size
    and the dirty flag. *)
Definition blocks_only (v v' : sfs_vnode) : Prop :=
  sv_ino v' = sv_ino v /\
  vn_refcount v' = vn_refcount v /\
  sfi_type (sv_i v') = sfi_type (sv_i v) /\
  sfi_linkcount (sv_i v') = sfi_linkcount (sv_i v).

(** Nothing is written: the disk and the bitmap are as they were. *)
Definition no_write (w w' : world) : Prop :=
  disk w' = disk w /\ sfs_freemap w' = sfs_freemap w /\
  sfs_freemapdirty w' = sfs_freemapdirty w.

(** *** Transfers inside one block *)

(** The disk block that the inode of [v] maps the byte position [off] to,
    for a position among the direct blocks. *)
Definition direct_block {L : sfs_layout} (v : sfs_vnode) (off : Z) : Z :=
  nth (Z.to_nat (off / SFS_BLOCKSIZE)) (sfi_direct (sv_i v)) 0.

(** [n] bytes at [off] lie in one direct block of a file and are not the
    whole of it: the transfer sfs_io hands to sfs_partialio in one call. *)
Definition within_block {L : sfs_layout} (off n : Z) : Prop :=
  (0 <= off) /\ (0 < n) /\
  (off mod SFS_BLOCKSIZE + n <= SFS_BLOCKSIZE) /\
  (off mod SFS_BLOCKSIZE <> 0 \/ n < SFS_BLOCKSIZE) /\
  (off / SFS_BLOCKSIZE < SFS_NDIRECT).

(** Every block of the device holds SFS_BLOCKSIZE bytes. *)
Definition whole_blocks {L : sfs_layout} (w : world) : Prop :=
  forall i data, disk w !! i = Some data -> length data = Z.to_nat SFS_BLOCKSIZE.

(** The entry that sfs_dir_unlink writes fills sizeof(struct sfs_dir) bytes
    and is read back as an empty slot. *)
Definition empty_entry_codec {L : sfs_layout} : Prop :=
  length (enc_dirent (mk_dir SFS_NOINO EmptyString)) = Z.to_nat sizeof_sfs_dir /\
  empty_slot (dec_dirent (enc_dirent (mk_dir SFS_NOINO EmptyString))).

(** *** Concrete states (OS/161 layout) *)
Module Run.
Import OS161.
Local Open Scope string_scope.

Definition zero_block : list Z := repeat 0 512%nat.
Definition no_fault : nat -> env_event -> bool := fun _ _ => false.

(* An empty file, resident as vnode 0 with two references. *)
Definition file_inode : sfs_inode :=
  mk_inode 0 SFS_TYPE_FILE 1 (repeat 0 15%nat) 0.
Definition w_refcount2 : world :=
  mk_world [0%nat] [true; true; true; true; true] false 5
           [Some (mk_vnode 4 file_inode false 2)]
           [zero_block; zero_block; zero_block; zero_block;
            os_enc_inode file_inode] 0 no_fault.

(* A directory that holds only "." and "..", resident as vnode 0; its
   parent is the root directory in block 1. *)
Definition emptydir_inode : sfs_inode :=
  mk_inode 128 SFS_TYPE_DIR 2 (6 :: repeat 0 14%nat) 0.
Definition emptydir_block : list Z :=
  pad 512 (os_enc_dirent (mk_dir 5 ".") ++ os_enc_dirent (mk_dir 1 "..")).
Definition w_emptydir : world :=
  mk_world [0%nat] [true; true; true; true; true; true; true; false] false 8
           [Some (mk_vnode 5 emptydir_inode false 1)]
           [zero_block; zero_block; zero_block; zero_block; zero_block;
            os_enc_inode emptydir_inode; emptydir_block; zero_block]
           0 no_fault.

(* An empty file, resident as vnode 0, when no memory is to be had. *)
Definition no_memory : nat -> env_event -> bool :=
  fun _ ev => match ev with EvKmalloc => true | _ => false end.
Definition w_nomem : world :=
  mk_world [0%nat] [true; true; true; true; true] false 5
           [Some (mk_vnode 4 file_inode false 1)]
           [zero_block; zero_block; zero_block; zero_block;
            os_enc_inode file_inode] 0 no_memory.

(* The root directory, resident as vnode 0, with nine slots in two
   blocks: the file "a" (inode 4) in slot 0, slots 1 to 8 empty.  Blocks
   3 and 5 hold the directory, blocks 6 and 7 are free. *)
Definition root_inode : sfs_inode :=
  mk_inode 576 SFS_TYPE_DIR 2 (3 :: 5 :: repeat 0 13%nat) 0.
Definition root_block : list Z := pad 512 (os_enc_dirent (mk_dir 4 "a")).
Definition root_vnode : sfs_vnode := mk_vnode 1 root_inode false 1.
Definition w_root (fault : nat -> env_event -> bool) : world :=
  mk_world [0%nat] [true; true; true; true; true; true; false; false] false 8
           [Some root_vnode]
           [zero_block; os_enc_inode root_inode; zero_block; root_block;
            os_enc_inode file_inode; zero_block; zero_block; zero_block]
           0 fault.
Definition root_entries : list sfs_dir :=
  mk_dir 4 "a" :: repeat (mk_dir 0 "") 8.

(* The device refuses to write block 3, the first block of the root
   directory. *)
Definition block3_readonly : nat -> env_event -> bool :=
  fun _ ev => match ev with EvWrite 3 => true | _ => false end.

(* The state a computation ends in ([w0] if it panics). *)
Definition state_after {A} (o : out A) (w0 : world) : world :=
  match o with Ret _ w => w | Panic _ => w0 end.

(* The same root directory while the file "a" is open: the file is
   resident as vnode 1, with the one reference of whoever has it open. *)
Definition w_root_open (fault : nat -> env_event -> bool) : world :=
  mk_world [0%nat; 1%nat]
           [true; true; true; true; true; true; false; false] false 8
           [Some root_vnode; Some (mk_vnode 4 file_inode false 1)]
           [zero_block; os_enc_inode root_inode; zero_block; root_block;
            os_enc_inode file_inode; zero_block; zero_block; zero_block]
           0 fault.

(* rename "a" to "b" in that root directory when block 3 cannot be
   written: the states after the lookup of "a", after the link of "b",
   after the failed removal of "a", after the removal of "b", and at the
   end. *)
Definition w_ren0 : world := w_root_open block3_readonly.
Definition w_ren1 : world := state_after (sfs_lookonce 0%nat "a" w_ren0) w_ren0.
Definition w_ren2 : world := state_after (sfs_dir_link 0%nat "b" 4 w_ren1) w_ren0.
Definition w_ren3 : world :=
  state_after ((linkcount_incr 1%nat ;; mark_dirty 1%nat ;;
                sfs_dir_unlink 0%nat 0) w_ren2) w_ren0.
Definition w_ren4 : world := state_after (sfs_dir_unlink 0%nat 8 w_ren3) w_ren0.
Definition w_ren_end : world :=
  state_after (sfs_rename 0%nat "a" 0%nat "b" w_ren0) w_ren0.

(* An empty file, resident as vnode 0, on a device with free blocks. *)
Definition w_file : world :=
  mk_world [0%nat] [true; true; true; true; true; false; false; false] false 8
           [Some (mk_vnode 4 file_inode false 1)]
           [zero_block; zero_block; zero_block; zero_block;
            os_enc_inode file_inode; zero_block; zero_block; zero_block]
           0 no_fault.
Definition ten_bytes : list Z := [1; 2; 3; 4; 5; 6; 7; 8; 9; 10].
Definition w_file_written : world :=
  state_after (sfs_io 0%nat (mk_kuio ten_bytes 10 0 UIO_WRITE) w_file) w_file.

(* The empty file of [w_file] after ftruncate with a length that is
   negative as an off_t: the size field holds 3000000000. *)
Definition w_huge : world :=
  state_after (sfs_truncate 0%nat (-1294967296) w_file) w_file.
Definition huge_vnode : sfs_vnode :=
  mk_vnode 4 (mk_inode 3000000000 SFS_TYPE_FILE 1 (repeat 0 15%nat) 0) true 1.

(* Memory is refused once, at the request number [t]. *)
Definition no_memory_at (t : nat) : nat -> env_event -> bool :=
  fun t' ev => match ev with EvKmalloc => Nat.eqb t' t | _ => false end.

(* A file of 100000 bytes without any block, as ftruncate leaves an empty
   file: resident as vnode 0. *)
Definition sparse_inode : sfs_inode :=
  mk_inode 100000 SFS_TYPE_FILE 1 (repeat 0 15%nat) 0.
Definition w_sparse : world :=
  mk_world [0%nat] [true; true; true; true; true; false; false; false] false 8
           [Some (mk_vnode 4 sparse_inode false 1)]
           [zero_block; zero_block; zero_block; zero_block;
            os_enc_inode sparse_inode; zero_block; zero_block; zero_block]
           0 no_fault.

(* The vnode of the file of [w_file_written]: ten bytes in block 5. *)
Definition written_vnode : sfs_vnode :=
  mk_vnode 4 (mk_inode 10 SFS_TYPE_FILE 1 (5 :: repeat 0 14%nat) 0) true 1.

(* The root directory, resident as vnode 0, with the one entry "d" for
   the directory of inode 5, which holds only "." and "..". *)
Definition parent_inode : sfs_inode :=
  mk_inode 64 SFS_TYPE_DIR 3 (3 :: repeat 0 14%nat) 0.
Definition w_parent : world :=
  mk_world [0%nat] [true; true; true; true; true; true; true; false] false 8
           [Some (mk_vnode 1 parent_inode false 1)]
           [zero_block; os_enc_inode parent_inode; zero_block;
            pad 512 (os_enc_dirent (mk_dir 5 "d")); zero_block;
            os_enc_inode emptydir_inode; emptydir_block; zero_block]
           0 no_fault.

(* The device of [w_file] after a block was allocated on it, and after
   file block 0 of the file was mapped with allocation. *)
Definition w_alloc : world := state_after (sfs_balloc w_file) w_file.
(* A new file made in [w_file]; and the same attempt when no memory is to
   be had, which fails after the block has been taken. *)
Definition w_made : world :=
  state_after (sfs_makeobj SFS_TYPE_FILE w_file) w_file.
Definition w_file_no_memory : world :=
  mk_world [0%nat] [true; true; true; true; true; false; false; false] false 8
           [Some (mk_vnode 4 file_inode false 1)]
           [zero_block; zero_block; zero_block; zero_block;
            os_enc_inode file_inode; zero_block; zero_block; zero_block]
           0 no_memory.
Definition w_not_made : world :=
  state_after (sfs_makeobj SFS_TYPE_FILE w_file_no_memory) w_file_no_memory.

(* The file "b" created in the root directory of [w_root]. *)
Definition w_created : world :=
  state_after (sfs_creat 0%nat "b" true (w_root no_fault)) (w_root no_fault).

(* The one block of the file of [w_file_written]. *)
Definition written_block : list Z := ten_bytes ++ repeat 0 502%nat.

Definition w_mapped : world :=
  state_after (sfs_bmap 0%nat 0 true w_file) w_file.

(* The file of [w_file_written] closed, truncated to nothing, and the
   empty file of [w_file] reclaimed. *)
Definition w_closed : world :=
  state_after (sfs_close 0%nat w_file_written) w_file_written.
Definition w_truncated : world :=
  state_after (sfs_truncate 0%nat 0 w_file_written) w_file_written.
Definition w_reclaimed : world := state_after (sfs_reclaim 0%nat w_file) w_file.

(* The root directory after "a" was looked up: the file is resident as
   vnode 1, with the one reference of the lookup. *)
Definition w_open : world :=
  state_after (sfs_lookonce 0%nat "a" (w_root no_fault)) (w_root no_fault).
Definition open_file : sfs_vnode := mk_vnode 4 file_inode false 1.

(* A root directory of two slots that both hold the name "a". *)
Definition dup_inode : sfs_inode :=
  mk_inode 128 SFS_TYPE_DIR 2 (3 :: repeat 0 14%nat) 0.
Definition w_dup : world :=
  mk_world [0%nat] [true; true; true; true; true] false 5
           [Some (mk_vnode 1 dup_inode false 1)]
           [zero_block; os_enc_inode dup_inode; zero_block;
            pad 512 (os_enc_dirent (mk_dir 4 "a") ++ os_enc_dirent (mk_dir 4 "a"));
            os_enc_inode file_inode] 0 no_fault.

(* A name of sixty characters: with its NUL it does not fit. *)
Definition long_name : string :=
  "aaaaaaaaaaaaaaaaaaaaaaaaaaaaaaaaaaaaaaaaaaaaaaaaaaaaaaaaaaaa".

End Run.

(** * Properties *)

Section Properties.
Context {L : sfs_layout}.
Hypothesis HL : layout_ok L.

(** ** The monad *)

Lemma bind_ret {A B} (m : M A) (k : A -> M B) w a w' :
  m w = Ret a w' -> bind m k w = k a w'.
Proof. intros H. unfold bind. now rewrite H. Qed.

Lemma bind_panic {A B} (m : M A) (k : A -> M B) w p :
  m w = Panic p -> bind m k w = Panic p.
Proof. intros H. unfold bind. now rewrite H. Qed.

Lemma bind_inv {A B} (m : M A) (k : A -> M B) w b w' :
  bind m k w = Ret b w' -> exists a w1, m w = Ret a w1 /\ k a w1 = Ret b w'.
Proof.
  unfold bind. destruct (m w) as [a w1|p] eqn:E; [|discriminate].
  intros H. now exists a, w1.
Qed.

Lemma deref_at w sv v : vnode_at w sv v -> deref sv w = Ret v w.
Proof. unfold vnode_at, deref. now intros ->. Qed.

Lemma deref_inv sv w v w' :
  deref sv w = Ret v w' -> w' = w /\ vnode_at w sv v.
Proof.
  unfold deref, vnode_at.
  destruct (kheap w !! sv) as [[x|]|]; intros H; inversion H; auto.
Qed.

Lemma update_at w sv v f :
  vnode_at w sv v ->
  update sv f w = Ret tt (set_kheap (<[sv := Some (f v)]> (kheap w)) w).
Proof.
  intros Hv. unfold update. rewrite (bind_ret _ _ _ _ _ (deref_at _ _ _ Hv)).
  unfold store. unfold vnode_at in Hv. now rewrite Hv.
Qed.

Lemma vnode_at_set w sv v x :
  vnode_at w sv v -> vnode_at (set_kheap (<[sv := Some x]> (kheap w)) w) sv x.
Proof.
  unfold vnode_at. intros Hv. cbn.
  apply list_lookup_insert_eq. eapply lookup_lt_Some, Hv.
Qed.

Lemma vnode_at_set_ne w sv x a y :
  a <> sv ->
  vnode_at (set_kheap (<[sv := Some x]> (kheap w)) w) a y <-> vnode_at w a y.
Proof.
  unfold vnode_at. intros Ha. cbn. now rewrite list_lookup_insert_ne.
Qed.

Lemma u32_small x : 0 <= x < 2 ^ 32 -> u32 x = x.
Proof. intros H. unfold u32. now apply Z.mod_small. Qed.

Lemma s32_small x : - 2 ^ 31 <= x < 2 ^ 31 -> s32 x = x.
Proof. intros H. unfold s32. rewrite Z.mod_small by lia. lia. Qed.

Lemma s32_high x : 2 ^ 31 <= x < 2 ^ 32 -> s32 x = x - 2 ^ 32.
Proof.
  intros H. unfold s32.
  replace (x + 2 ^ 31) with (x - 2 ^ 31 + 1 * 2 ^ 32) by lia.
  rewrite Z.mod_add, Z.mod_small by lia. lia.
Qed.

(** ** Computations that move the state along a preorder *)

Section Steps.
Context (R : world -> world -> Prop) {Rrefl : Reflexive R} {Rtrans : Transitive R}.

Lemma steps_ret {A} (a : A) : steps R (ret a).
Proof. intros w a' w' H. inversion H; subst. reflexivity. Qed.

Lemma steps_panic {A} p : steps R (@panic A p).
Proof. intros w a w' H. discriminate. Qed.

Lemma steps_gets {A} (f : world -> A) : steps R (gets f).
Proof. intros w a w' H. inversion H; subst. reflexivity. Qed.

Lemma steps_assert b : steps R (assert b).
Proof. destruct b; [apply steps_ret | apply steps_panic]. Qed.

Lemma steps_deref sv : steps R (deref sv).
Proof. intros w a w' H. apply deref_inv in H as [-> _]. reflexivity. Qed.

Lemma steps_bind {A B} (m : M A) (k : A -> M B) :
  steps R m -> (forall a, steps R (k a)) -> steps R (bind m k).
Proof.
  intros Hm Hk w b w' H. apply bind_inv in H as (a & w1 & H1 & H2).
  transitivity w1; [eapply Hm | eapply Hk]; eassumption.
Qed.

Lemma steps_assert_bind {B} b (k : unit -> M B) :
  (b = true -> steps R (k tt)) -> steps R (bind (assert b) k).
Proof.
  destruct b; intros Hk w a w' H; [|discriminate].
  eapply (Hk eq_refl), H.
Qed.

Lemma steps_bind_yields {A B} (m : M A) (k : A -> M B) (P : A -> Prop) :
  steps R m -> yields m P -> (forall a, P a -> steps R (k a)) ->
  steps R (bind m k).
Proof.
  intros Hm HP Hk w b w' H. apply bind_inv in H as (a & w1 & H1 & H2).
  transitivity w1; [eapply Hm | eapply Hk; [eapply HP|]]; eassumption.
Qed.

End Steps.

Lemma steps_weaken {A} (R R' : world -> world -> Prop) (m : M A) :
  (forall w w', R w w' -> R' w w') -> steps R m -> steps R' m.
Proof. intros HR Hm w a w' H. eapply HR, Hm, H. Qed.

Ltac steps_go :=
  repeat match goal with
  | |- steps _ (bind _ _) => apply steps_bind; [try typeclasses eauto .. | | intros ?]
  | |- steps _ (ret _) => apply steps_ret; try typeclasses eauto
  | |- steps _ (panic _) => apply steps_panic
  | |- steps _ (assert _) => apply steps_assert; try typeclasses eauto
  | |- steps _ (gets _) => apply steps_gets; try typeclasses eauto
  | |- steps _ (deref _) => apply steps_deref; try typeclasses eauto
  | |- steps _ (match ?x with _ => _ end) => destruct x eqn:?
  end.

(** *** Requests to the environment only *)

#[local] Instance ticked_refl : Reflexive ticked.
Proof. intros [? ? ? ? ? ? ? ?]. now exists 0%nat. Qed.

#[local] Instance ticked_trans : Transitive ticked.
Proof.
  intros w1 w2 w3 [k1 ->] [k2 ->]. exists (k2 + k1)%nat.
  unfold ticks; cbn. f_equal. lia.
Qed.

Lemma ticked_env_request ev : steps ticked (env_request ev).
Proof.
  intros w a w' H. inversion H; subst. exists 1%nat. reflexivity.
Qed.

Lemma ticked_kmalloc : steps ticked kmalloc.
Proof. apply ticked_env_request. Qed.

Lemma ticked_rblock block : steps ticked (sfs_rblock block).
Proof.
  unfold sfs_rblock. steps_go; apply ticked_env_request.
Qed.

Lemma ticked_bused block : steps ticked (sfs_bused block).
Proof. unfold sfs_bused, bitmap_isset. steps_go. Qed.

Lemma ticked_check_block_used block : steps ticked (check_block_used block).
Proof. unfold check_block_used. steps_go. apply ticked_bused. Qed.

Lemma ticked_bmap sv fileblock : steps ticked (sfs_bmap sv fileblock false).
Proof.
  unfold sfs_bmap.
  steps_go;
    try match goal with
        | H : (_ && false) = true |- _ => rewrite andb_false_r in H; discriminate
        end;
    first [apply ticked_check_block_used | apply ticked_kmalloc
          | apply ticked_rblock
          | match goal with
            | H : (_ && _) = _ |- _ => cbn in H; discriminate
            end].
Qed.

(** *** Results of computations *)

Lemma yields_ret {A} (a : A) (P : A -> Prop) : P a -> yields (ret a) P.
Proof. intros Ha w a' w' H. inversion H; subst. exact Ha. Qed.

Lemma yields_panic {A} p (P : A -> Prop) : yields (panic p) P.
Proof. intros w a w' H. discriminate. Qed.

Lemma yields_bind {A B} (m : M A) (k : A -> M B) (P : B -> Prop) :
  (forall a, yields (k a) P) -> yields (bind m k) P.
Proof.
  intros Hk w b w' H. apply bind_inv in H as (a & w1 & _ & H2).
  eapply Hk, H2.
Qed.

Lemma yields_bind_dep {A B} (m : M A) (k : A -> M B) (Q : A -> Prop)
    (P : B -> Prop) :
  yields m Q -> (forall a, Q a -> yields (k a) P) -> yields (bind m k) P.
Proof.
  intros Hm Hk w b w' H. apply bind_inv in H as (a & w1 & H1 & H2).
  eapply Hk; [eapply Hm|]; eassumption.
Qed.

Lemma yields_assert_bind {B} b (k : unit -> M B) (P : B -> Prop) :
  (b = true -> yields (k tt) P) -> yields (bind (assert b) k) P.
Proof.
  destruct b; intros Hk w a w' H; [|discriminate].
  eapply (Hk eq_refl), H.
Qed.

Lemma yields_weaken {A} (m : M A) (P P' : A -> Prop) :
  yields m P -> (forall a, P a -> P' a) -> yields m P'.
Proof. intros Hm HP w a w' H. eapply HP, Hm, H. Qed.

Ltac yields_go :=
  repeat match goal with
  | |- yields (bind _ _) _ => apply yields_bind; intros ?
  | |- yields (ret _) _ => apply yields_ret
  | |- yields (panic _) _ => apply yields_panic
  | |- yields (match ?x with _ => _ end) _ => destruct x eqn:?
  end.

(** *** Transfers advance the uio *)

Lemma uio_adv_refl u : uio_adv u u.
Proof. unfold uio_adv. repeat split; auto; lia. Qed.

Lemma uio_adv_trans u1 u2 u3 : uio_adv u1 u2 -> uio_adv u2 u3 -> uio_adv u1 u3.
Proof.
  unfold uio_adv. intros (Ha & Hb & Hc & Hd) (Ha' & Hb' & Hc' & Hd').
  repeat split; [congruence | lia | lia | auto].
Qed.

Lemma uiomove_adv ptr n u : yields (uiomove ptr n u) (fun r => uio_adv u r.2).
Proof.
  unfold uiomove.
  destruct (Z.min n (uio_resid u) <=? 0) eqn:Hsz.
  - apply yields_ret, uio_adv_refl.
  - apply Z.leb_gt in Hsz.
    yields_go; cbn [snd]; try apply uio_adv_refl;
      unfold uio_adv; cbn; repeat split; auto; lia.
Qed.

Lemma uiomovezeros_adv n u : yields (uiomovezeros n u) (fun r => uio_adv u r.2).
Proof.
  unfold uiomovezeros.
  eapply yields_bind_dep; [apply uiomove_adv|].
  intros a Ha. now apply yields_ret.
Qed.

Lemma sfs_partialio_adv sv u skipstart len :
  yields (sfs_partialio sv u skipstart len) (fun r => uio_adv u r.2).
Proof.
  unfold sfs_partialio.
  apply yields_bind; intros null. apply yields_bind; intros _.
  apply yields_bind; intros [diskblock|e]; [|apply yields_ret, uio_adv_refl].
  apply yields_bind; intros [iobuf|e]; [|apply yields_ret, uio_adv_refl].
  destruct (SFS_BLOCKSIZE <? skipstart + len); [apply yields_panic|].
  eapply yields_bind_dep; [apply uiomove_adv|].
  intros m Hm. cbv zeta. yields_go; exact Hm.
Qed.

Lemma sfs_rwblock_moves u :
  yields (sfs_rwblock u)
    (fun r => r.2 = u \/
              (uio_rw r.2 = uio_rw u /\
               uio_offset r.2 = uio_offset u + SFS_BLOCKSIZE /\
               uio_resid r.2 = uio_resid u - SFS_BLOCKSIZE)).
Proof.
  unfold sfs_rwblock.
  destruct (uio_rw u) eqn:Hrw; yields_go; cbn; auto.
Qed.

Lemma sfs_blockio_adv sv u :
  yields (sfs_blockio sv u) (fun r => uio_adv u r.2).
Proof.
  pose proof (blocksize_pos _ HL) as Hbs.
  unfold sfs_blockio.
  apply yields_bind; intros [diskblock|e]; [|apply yields_ret, uio_adv_refl].
  destruct (diskblock =? 0).
  - apply yields_bind; intros _. apply uiomovezeros_adv.
  - apply yields_assert_bind; intros Hres. apply Z.leb_le in Hres.
    eapply yields_bind_dep; [apply sfs_rwblock_moves|].
    intros r Hr. apply yields_ret. cbn [snd].
    unfold uio_adv.
    destruct Hr as [-> | (Hrw & Hoff & Hres')]; cbn in *;
      repeat split; auto; lia.
Qed.

Lemma sfs_io_blocks_adv sv n :
  forall u, yields (sfs_io_blocks sv n u) (fun r => uio_adv u r.2).
Proof.
  induction n as [|n IH]; intros u; cbn [sfs_io_blocks].
  - apply yields_ret, uio_adv_refl.
  - eapply yields_bind_dep; [apply sfs_blockio_adv|].
    intros r Hr. destruct (r.1).
    + eapply yields_weaken; [apply IH|].
      intros r' Hr'. cbv beta in *. eapply uio_adv_trans; eassumption.
    + now apply yields_ret.
Qed.

Lemma sfs_io_transfer_adv sv u :
  yields (sfs_io_transfer sv u) (fun r => uio_adv u r.2).
Proof.
  unfold sfs_io_transfer.
  eapply yields_bind_dep with (Q := fun r => uio_adv u r.2).
  { destruct (negb _); [apply sfs_partialio_adv | apply yields_ret, uio_adv_refl]. }
  intros r Hr. cbv beta in Hr. destruct (r.1); [|now apply yields_ret].
  cbv zeta. destruct (uio_resid r.2 =? 0); [now apply yields_ret|].
  apply yields_bind; intros _.
  eapply yields_bind_dep; [apply sfs_io_blocks_adv|].
  intros r' Hr'. cbv beta in Hr'.
  pose proof (uio_adv_trans _ _ _ Hr Hr') as Hrr.
  destruct (r'.1); [|now apply yields_ret].
  cbv zeta. apply yields_bind; intros _.
  destruct (0 <? uio_resid r'.2); [|now apply yields_ret].
  eapply yields_weaken; [apply sfs_partialio_adv|].
  intros r'' Hr''. cbv beta in Hr''. eapply uio_adv_trans; eassumption.
Qed.

(** *** Reading changes nothing *)

Lemma is_write_adv u u' : uio_adv u u' -> is_write u' = is_write u.
Proof. intros (H & _). unfold is_write. now rewrite H. Qed.

Lemma ticked_uiomove ptr n u : steps ticked (uiomove ptr n u).
Proof. unfold uiomove. steps_go; apply ticked_env_request. Qed.

Lemma ticked_partialio sv u skipstart len :
  is_write u = false -> steps ticked (sfs_partialio sv u skipstart len).
Proof.
  intros Hrd. unfold sfs_partialio. rewrite Hrd.
  apply steps_bind; [typeclasses eauto | apply ticked_kmalloc | intros null].
  apply steps_bind; [typeclasses eauto | apply steps_assert; typeclasses eauto | intros _].
  apply steps_bind; [typeclasses eauto | apply ticked_bmap | intros [diskblock|e]];
    [|apply steps_ret; typeclasses eauto].
  apply steps_bind; [typeclasses eauto | | intros [iobuf|e]];
    [| |apply steps_ret; typeclasses eauto].
  { steps_go. apply ticked_rblock. }
  destruct (SFS_BLOCKSIZE <? skipstart + len); [apply steps_panic|].
  eapply steps_bind_yields;
    [typeclasses eauto | apply ticked_uiomove | apply uiomove_adv |].
  intros m Hm. cbv zeta. apply is_write_adv in Hm. rewrite Hm, Hrd.
  steps_go.
Qed.

Lemma ticked_blockio sv u :
  is_write u = false -> steps ticked (sfs_blockio sv u).
Proof.
  intros Hrd. unfold sfs_blockio. rewrite Hrd.
  apply steps_bind; [typeclasses eauto | apply ticked_bmap | intros [diskblock|e]];
    [|apply steps_ret; typeclasses eauto].
  destruct (diskblock =? 0).
  - unfold uiomovezeros. steps_go. apply ticked_uiomove.
  - unfold sfs_rwblock. cbn [uio_rw set_resid set_offset].
    unfold is_write in Hrd. destruct (uio_rw u); [|discriminate].
    steps_go. apply ticked_rblock.
Qed.

Lemma ticked_io_blocks sv n :
  forall u, is_write u = false -> steps ticked (sfs_io_blocks sv n u).
Proof.
  induction n as [|n IH]; intros u Hrd; cbn [sfs_io_blocks].
  - apply steps_ret; typeclasses eauto.
  - eapply steps_bind_yields;
      [typeclasses eauto | now apply ticked_blockio | apply sfs_blockio_adv |].
    intros r Hr. cbv beta in Hr. apply is_write_adv in Hr.
    destruct (r.1); [apply IH; congruence | apply steps_ret; typeclasses eauto].
Qed.

Lemma ticked_io_transfer sv u :
  is_write u = false -> steps ticked (sfs_io_transfer sv u).
Proof.
  intros Hrd. unfold sfs_io_transfer.
  eapply steps_bind_yields with (P := fun r => is_write r.2 = false);
    [typeclasses eauto | | |].
  { destruct (negb _); [now apply ticked_partialio | apply steps_ret; typeclasses eauto]. }
  { destruct (negb _); [|now apply yields_ret].
    eapply yields_weaken; [apply sfs_partialio_adv|].
    intros r Hr. cbv beta in Hr. apply is_write_adv in Hr. congruence. }
  intros r Hr. destruct (r.1); [|apply steps_ret; typeclasses eauto].
  cbv zeta. destruct (uio_resid r.2 =? 0); [apply steps_ret; typeclasses eauto|].
  apply steps_assert_bind; intros _.
  eapply steps_bind_yields;
    [typeclasses eauto | now apply ticked_io_blocks | apply sfs_io_blocks_adv |].
  intros r' Hr'. cbv beta in Hr'. apply is_write_adv in Hr'.
  destruct (r'.1); [|apply steps_ret; typeclasses eauto].
  cbv zeta. apply steps_assert_bind; intros _.
  destruct (0 <? uio_resid r'.2); [|apply steps_ret; typeclasses eauto].
  apply ticked_partialio. congruence.
Qed.

Lemma sfs_io_eof_read sv u :
  yields (sfs_io_eof sv u)
    (fun c => match c with
              | None => True
              | Some (_, u') => uio_rw u' = uio_rw u
              end).
Proof.
  unfold sfs_io_eof. destruct (uio_rw u) eqn:Hrw; yields_go; cbn; auto.
Qed.

Lemma ticked_io_eof sv u : steps ticked (sfs_io_eof sv u).
Proof. unfold sfs_io_eof. steps_go. Qed.

Lemma ticked_io sv u : is_write u = false -> steps ticked (sfs_io sv u).
Proof.
  intros Hrd. unfold sfs_io.
  eapply steps_bind_yields;
    [typeclasses eauto | apply ticked_io_eof | apply sfs_io_eof_read |].
  intros [[extraresid u']|] Hc; [|apply steps_ret; typeclasses eauto].
  assert (Hrd' : is_write u' = false) by (unfold is_write in *; now rewrite Hc).
  eapply steps_bind_yields;
    [typeclasses eauto | now apply ticked_io_transfer | apply sfs_io_transfer_adv |].
  intros r Hr. cbv beta in Hr. apply is_write_adv in Hr. cbv zeta.
  rewrite Hr, Hrd'. cbn [andb]. steps_go.
Qed.

Lemma ticked_readdir sv slot : steps ticked (sfs_readdir sv slot).
Proof.
  unfold sfs_readdir. steps_go. now apply ticked_io.
Qed.

Lemma ticked_dir_nentries sv : steps ticked (sfs_dir_nentries sv).
Proof. unfold sfs_dir_nentries. steps_go. Qed.

Lemma ticked_dir_findname_loop sv name todo :
  forall i st, steps ticked (sfs_dir_findname_loop sv name todo i st).
Proof.
  induction todo as [|todo IH]; intros i st; cbn [sfs_dir_findname_loop].
  - apply steps_ret; typeclasses eauto.
  - steps_go; try apply ticked_readdir; apply IH.
Qed.

Lemma ticked_dir_findname sv name emptyslot :
  steps ticked (sfs_dir_findname sv name emptyslot).
Proof.
  unfold sfs_dir_findname. steps_go;
    first [apply ticked_dir_nentries | apply ticked_dir_findname_loop].
Qed.

(** *** I/O touches one vnode *)

Lemma vnode_kept_refl grows v : vnode_kept grows v v.
Proof. unfold vnode_kept. auto. Qed.

Lemma vnode_kept_trans grows v1 v2 v3 :
  vnode_kept grows v1 v2 -> vnode_kept grows v2 v3 -> vnode_kept grows v1 v3.
Proof.
  unfold vnode_kept. intros (A1 & A2 & A3 & A4 & A5) (B1 & B2 & B3 & B4 & B5).
  repeat split; try congruence. intros Hg. rewrite B5, A5; auto.
Qed.

#[local] Instance io_step_refl grows sv : Reflexive (io_step grows sv).
Proof.
  intros w. unfold io_step. repeat split; auto.
  intros v Hv. exists v. split; [assumption | apply vnode_kept_refl].
Qed.

#[local] Instance io_step_trans grows sv : Transitive (io_step grows sv).
Proof.
  intros w1 w2 w3 (A1 & A2 & A3 & A4 & A5) (B1 & B2 & B3 & B4 & B5).
  unfold io_step. repeat split; try congruence.
  - intros a Ha. rewrite B1, A1; auto.
  - intros v Hv. destruct (A2 v Hv) as (v2 & Hv2 & Hk2).
    destruct (B2 v2 Hv2) as (v3 & Hv3 & Hk3).
    exists v3. split; [assumption | eapply vnode_kept_trans; eassumption].
Qed.

Lemma io_step_grows sv w w' : io_step false sv w w' -> io_step true sv w w'.
Proof.
  intros (A1 & A2 & A3). split; [assumption|]. split; [|assumption].
  intros v Hv. destruct (A2 v Hv) as (v' & Hv' & B1 & B2 & B3 & B4 & _).
  exists v'. split; [assumption|]. repeat split; auto. discriminate.
Qed.

(* A step that leaves the heap alone. *)
Lemma io_step_same_heap grows sv w w' :
  kheap w' = kheap w -> sfs_vnodes w' = sfs_vnodes w ->
  sp_nblocks w' = sp_nblocks w -> env_fault w' = env_fault w ->
  io_step grows sv w w'.
Proof.
  intros Hh Hv Hn Hf. unfold io_step, vnode_at. rewrite Hh. repeat split; auto.
  intros v Hat. exists v. split; [assumption | apply vnode_kept_refl].
Qed.

Lemma io_step_modify grows sv (f : world -> world) :
  (forall w, kheap (f w) = kheap w) ->
  (forall w, sfs_vnodes (f w) = sfs_vnodes w) ->
  (forall w, sp_nblocks (f w) = sp_nblocks w) ->
  (forall w, env_fault (f w) = env_fault w) ->
  steps (io_step grows sv) (modify f).
Proof.
  intros H1 H2 H3 H4 w a w' H. inversion H; subst.
  now apply io_step_same_heap.
Qed.

Lemma io_step_ticked grows sv w w' : ticked w w' -> io_step grows sv w w'.
Proof. intros [k ->]. now apply io_step_same_heap. Qed.

Lemma io_step_of_ticked {A} grows sv (m : M A) :
  steps ticked m -> steps (io_step grows sv) m.
Proof. apply steps_weaken, io_step_ticked. Qed.

Lemma io_step_update grows sv f :
  (forall v, vnode_kept grows v (f v)) -> steps (io_step grows sv) (update sv f).
Proof.
  intros Hf w a w' H. unfold update in H.
  apply bind_inv in H as (v & w1 & H1 & H2). apply deref_inv in H1 as [-> Hv].
  unfold store in H2. unfold vnode_at in Hv. rewrite Hv in H2.
  inversion H2; subst. clear H2.
  unfold io_step, vnode_at. cbn. repeat split; auto.
  - intros a Ha. now apply list_lookup_insert_ne.
  - intros v0 Hv0. rewrite Hv in Hv0. inversion Hv0; subst.
    exists (f v0). split; [|apply Hf].
    apply list_lookup_insert_eq. eapply lookup_lt_Some, Hv.
Qed.

Lemma io_step_update_inode_blocks grows sv f :
  (forall i, sfi_size (f i) = sfi_size i /\ sfi_type (f i) = sfi_type i /\
             sfi_linkcount (f i) = sfi_linkcount i) ->
  steps (io_step grows sv) (update_inode sv f).
Proof.
  intros Hf. apply io_step_update. intros v.
  destruct (Hf (sv_i v)) as (H1 & H2 & H3).
  unfold vnode_kept. cbn. auto.
Qed.

Lemma io_step_mark_dirty grows sv : steps (io_step grows sv) (mark_dirty sv).
Proof. apply io_step_update. intros v. unfold vnode_kept. cbn. auto. Qed.

Lemma io_step_wblock grows sv data block :
  steps (io_step grows sv) (sfs_wblock data block).
Proof.
  unfold sfs_wblock. steps_go;
    first [apply io_step_of_ticked, ticked_env_request
          | now apply io_step_modify].
Qed.

Lemma io_step_balloc grows sv : steps (io_step grows sv) sfs_balloc.
Proof.
  unfold sfs_balloc, bitmap_alloc, sfs_clearblock.
  steps_go; first [now apply io_step_modify | apply io_step_wblock].
Qed.

Lemma io_step_bmap grows sv fileblock doalloc :
  steps (io_step grows sv) (sfs_bmap sv fileblock doalloc).
Proof.
  unfold sfs_bmap.
  steps_go;
    first [ apply io_step_balloc | apply io_step_mark_dirty
          | apply io_step_wblock
          | apply io_step_of_ticked, ticked_check_block_used
          | apply io_step_of_ticked, ticked_kmalloc
          | apply io_step_of_ticked, ticked_rblock
          | apply io_step_update_inode_blocks; intros i; cbn; auto ].
Qed.

Lemma io_step_partialio grows sv u skipstart len :
  steps (io_step grows sv) (sfs_partialio sv u skipstart len).
Proof.
  unfold sfs_partialio.
  steps_go;
    first [ apply io_step_bmap | apply io_step_wblock
          | apply io_step_of_ticked, ticked_kmalloc
          | apply io_step_of_ticked, ticked_rblock
          | apply io_step_of_ticked, ticked_uiomove ].
Qed.

Lemma io_step_blockio grows sv u :
  steps (io_step grows sv) (sfs_blockio sv u).
Proof.
  unfold sfs_blockio, uiomovezeros, sfs_rwblock.
  steps_go;
    first [ apply io_step_bmap | apply io_step_wblock
          | apply io_step_of_ticked, ticked_rblock
          | apply io_step_of_ticked, ticked_uiomove ].
Qed.

Lemma io_step_io_blocks grows sv n :
  forall u, steps (io_step grows sv) (sfs_io_blocks sv n u).
Proof.
  induction n as [|n IH]; intros u; cbn [sfs_io_blocks].
  - apply steps_ret; typeclasses eauto.
  - steps_go; first [apply io_step_blockio | apply IH].
Qed.

Lemma io_step_io_transfer grows sv u :
  steps (io_step grows sv) (sfs_io_transfer sv u).
Proof.
  unfold sfs_io_transfer.
  steps_go; first [apply io_step_partialio | apply io_step_io_blocks].
Qed.

Lemma io_step_io sv u : steps (io_step true sv) (sfs_io sv u).
Proof.
  unfold sfs_io.
  steps_go;
    first [ apply io_step_of_ticked, ticked_io_eof
          | apply io_step_io_transfer | apply io_step_mark_dirty
          | apply io_step_update; intros v; unfold vnode_kept; cbn;
            repeat split; auto; discriminate ].
Qed.

Lemma io_step_writedir sv sd slot : steps (io_step true sv) (sfs_writedir sv sd slot).
Proof. unfold sfs_writedir. steps_go. apply io_step_io. Qed.

(** ** Block map: indices past the single indirect block *)

(** C5. For every vnode and every file-block index [fileblock] at or past
    SFS_NDIRECT with [(fileblock - SFS_NDIRECT) / SFS_DBPERIDB > 0],
    sfs_bmap fails with EINVAL, the error it uses for "the offset we were
    asked for is too large", with and without allocation requested, and
    changes nothing. *)
Theorem sfs_bmap_past_indirect_fails :
  forall (sv : vptr) (fileblock : Z) (doalloc : bool) (w : world),
    SFS_NDIRECT <= fileblock < 2 ^ 32 ->
    0 < (fileblock - SFS_NDIRECT) / SFS_DBPERIDB ->
    sfs_bmap sv fileblock doalloc w = Ret (Err EINVAL) w.
Proof.
  intros sv fileblock doalloc w Hrange Hid.
  unfold sfs_bmap.
  assert (Hassert : (SFS_DBPERIDB * 4 =? SFS_BLOCKSIZE) = true)
    by (apply Z.eqb_eq, (dbperidb_blocksize _ HL)).
  rewrite Hassert. cbn [assert].
  erewrite bind_ret by reflexivity.
  assert (Hdirect : (fileblock <? SFS_NDIRECT) = false) by (apply Z.ltb_ge; lia).
  rewrite Hdirect.
  pose proof (ndirect_nonneg _ HL) as Hnd.
  rewrite u32_small by lia.
  assert (Hidnum : (0 <? (fileblock - SFS_NDIRECT) / SFS_DBPERIDB) = true)
    by (apply Z.ltb_lt; lia).
  now rewrite Hidnum.
Qed.

(** ** Block map: holes on the read path *)

Lemma dbperidb_pos : 0 < SFS_DBPERIDB.
Proof.
  pose proof (dbperidb_blocksize _ HL). pose proof (blocksize_pos _ HL). lia.
Qed.

Lemma sfs_bmap_assert_ok {A} (k : unit -> M A) w :
  bind (assert (SFS_DBPERIDB * 4 =? SFS_BLOCKSIZE)) k w = k tt w.
Proof.
  assert (H : (SFS_DBPERIDB * 4 =? SFS_BLOCKSIZE) = true)
    by (apply Z.eqb_eq, (dbperidb_blocksize _ HL)).
  now rewrite H.
Qed.

(* The indirect case of sfs_bmap up to the buffer allocation. *)
Lemma indirect_index fileblock :
  SFS_NDIRECT <= fileblock < SFS_NDIRECT + SFS_DBPERIDB ->
  (fileblock <? SFS_NDIRECT) = false /\
  u32 (fileblock - SFS_NDIRECT) = fileblock - SFS_NDIRECT /\
  (fileblock - SFS_NDIRECT) / SFS_DBPERIDB = 0 /\
  (fileblock - SFS_NDIRECT) mod SFS_DBPERIDB = fileblock - SFS_NDIRECT.
Proof.
  intros H.
  pose proof (dbperidb_blocksize _ HL). pose proof (blocksize_u32 _ HL).
  pose proof dbperidb_pos.
  repeat split.
  - apply Z.ltb_ge; lia.
  - apply u32_small; lia.
  - apply Z.div_small; lia.
  - apply Z.mod_small; lia.
Qed.

(** C6 (as amended). With no allocation requested, when the pointer for
    the requested file block is zero (a zero direct pointer, no indirect
    block, or a zero entry in the indirect block) and, behind the direct
    blocks, the buffer for the indirect block is granted and the indirect
    block, when there is one, is read, sfs_bmap returns success with disk
    block 0 and changes nothing but the count of requests made: the inode,
    the bitmap and the disk are as they were. *)
Theorem sfs_bmap_hole_reads_zero :
  forall (sv : vptr) (fileblock : Z) (w : world) (v : sfs_vnode),
    vnode_at w sv v ->
    hole w v fileblock ->
    exists w',
      sfs_bmap sv fileblock false w = Ret (Ok 0) w' /\
      ticked w w' /\ vnode_at w' sv v.
Proof.
  intros sv fileblock w v Hv Hhole.
  unfold sfs_bmap. rewrite sfs_bmap_assert_ok.
  destruct Hhole as [Hfb Hzero | Hfb Hind Hmem | data Hfb Hind Hmem Hrd Hdata Hzero].
  - exists w. split; [|split; [reflexivity | assumption]].
    assert (Hlt : (fileblock <? SFS_NDIRECT) = true) by (apply Z.ltb_lt; lia).
    rewrite Hlt, (bind_ret _ _ _ _ _ (deref_at _ _ _ Hv)), Hzero.
    reflexivity.
  - exists (ticks 1 w). split; [|split; [now exists 1%nat | assumption]].
    destruct (indirect_index _ Hfb) as (Hge & Hu & Hdiv & _).
    rewrite Hge, Hu, Hdiv. cbn [Z.ltb Z.compare].
    rewrite (bind_ret _ _ _ _ _ (deref_at _ _ _ Hv)), Hind.
    unfold kmalloc, env_request, bind. rewrite Hmem. reflexivity.
  - exists (ticks 2 w). split; [|split; [now exists 2%nat | assumption]].
    destruct (indirect_index _ Hfb) as (Hge & Hu & Hdiv & Hmod).
    rewrite Hge, Hu, Hdiv, Hmod. cbn [Z.ltb Z.compare].
    rewrite (bind_ret _ _ _ _ _ (deref_at _ _ _ Hv)).
    apply Z.eqb_neq in Hind.
    unfold kmalloc, sfs_rblock, env_request, bind, gets.
    rewrite Hmem, Hind. cbn. rewrite Hrd, Hdata. cbn.
    rewrite Hzero. reflexivity.
Qed.

(** ** The directory scan *)

Lemma sfs_readdir_range_length sv todo :
  forall i w es w',
    sfs_readdir_range sv todo i w = Ret (Ok es) w' -> length es = todo.
Proof.
  induction todo as [|todo IH]; intros i w es w' H; cbn [sfs_readdir_range] in H.
  - inversion H. reflexivity.
  - apply bind_inv in H as ([sd|e] & w1 & _ & H); [|discriminate].
    apply bind_inv in H as ([rest|e] & w2 & H2 & H); [|discriminate].
    inversion H; subst. cbn. f_equal. eapply IH, H2.
Qed.

(* The loop of sfs_dir_findname is the scan of the entries it reads. *)
Lemma sfs_dir_findname_loop_scan sv name todo :
  forall i st w es w',
    sfs_readdir_range sv todo i w = Ret (Ok es) w' ->
    sfs_dir_findname_loop sv name todo i st w
    = match findname_scan name es i st with
      | Some st' => Ret (Ok tt, st') w'
      | None => Panic P_assert
      end.
Proof.
  induction todo as [|todo IH]; intros i st w es w' H;
    cbn [sfs_readdir_range] in H; cbn [sfs_dir_findname_loop].
  - inversion H; subst. reflexivity.
  - apply bind_inv in H as ([sd|e] & w1 & H1 & H); [|discriminate].
    apply bind_inv in H as ([rest|e] & w2 & H2 & H); [|discriminate].
    inversion H; subst. clear H.
    rewrite (bind_ret _ _ _ _ _ H1). cbn [findname_scan].
    destruct (sfd_ino sd =? SFS_NOINO); [now apply IH|].
    destruct (String.eqb _ name); [|now apply IH].
    destruct (fn_found st); [reflexivity|].
    cbn [assert]. erewrite bind_ret by reflexivity. now apply IH.
Qed.

(* When no entry bears the name, the scan finds nothing new. *)
Lemma findname_scan_absent name es :
  (forall e, e ∈ es -> ~ names e name) ->
  forall i st, exists k,
    findname_scan name es i st = Some (mk_fn (fn_found st) k).
Proof.
  induction es as [|e es IH]; intros Habs i st; cbn [findname_scan].
  - exists (fn_emptyslot st). now destruct st.
  - assert (Hes : forall e', e' ∈ es -> ~ names e' name)
      by (intros e' He'; apply Habs; now right).
    destruct (sfd_ino e =? SFS_NOINO) eqn:Hino.
    + destruct (IH Hes (i + 1) (mk_fn (fn_found st) i)) as [k Hk]. eauto.
    + destruct (String.eqb _ name) eqn:Hname; [|now apply IH].
      exfalso. apply (Habs e); [now left|].
      split; [now apply Z.eqb_neq | now apply String.eqb_eq].
Qed.

(* The empty slot the scan reports is the last one it saw. *)
Lemma findname_scan_emptyslot name es :
  forall i st st',
    0 <= i ->
    findname_scan name es i st = Some st' ->
    (fn_emptyslot st' = fn_emptyslot st /\ forall e, e ∈ es -> ~ empty_slot e)
    \/ (i <= fn_emptyslot st' /\
        (exists e, es !! Z.to_nat (fn_emptyslot st' - i) = Some e /\ empty_slot e) /\
        forall j e, (Z.to_nat (fn_emptyslot st' - i) < j)%nat ->
                    es !! j = Some e -> ~ empty_slot e).
Proof.
  induction es as [|e es IH]; intros i st st' Hi H; cbn [findname_scan] in H.
  - inversion H; subst. left. split; [reflexivity|]. intros e He. inversion He.
  - destruct (sfd_ino e =? SFS_NOINO) eqn:Hino.
    + apply Z.eqb_eq in Hino. right.
      destruct (IH (i + 1) _ _ ltac:(lia) H) as [[Hk Hnone] | (Hk & (e' & He' & Hemp) & Hlast)];
        cbn [fn_emptyslot] in *.
      * rewrite Hk. split; [lia|]. replace (i - i) with 0 by lia. split.
        -- exists e. split; [reflexivity | exact Hino].
        -- intros [|j] e' Hj He'; [lia|]. cbn in He'.
           apply Hnone. eapply list_elem_of_lookup_2, He'.
      * split; [lia|].
        replace (Z.to_nat (fn_emptyslot st' - i))
          with (S (Z.to_nat (fn_emptyslot st' - (i + 1)))) by lia.
        split; [exists e'; split; assumption|].
        intros [|j] e'' Hj He''; [lia|]. cbn in He''.
        eapply Hlast; [|exact He'']. lia.
    + assert (Hstep : forall st0,
                findname_scan name es (i + 1) st0 = Some st' ->
                fn_emptyslot st0 = fn_emptyslot st ->
                (fn_emptyslot st' = fn_emptyslot st /\
                 forall e0, e0 ∈ e :: es -> ~ empty_slot e0)
                \/ (i <= fn_emptyslot st' /\
                    (exists e0, (e :: es) !! Z.to_nat (fn_emptyslot st' - i) = Some e0
                                /\ empty_slot e0) /\
                    forall j e0, (Z.to_nat (fn_emptyslot st' - i) < j)%nat ->
                                 (e :: es) !! j = Some e0 -> ~ empty_slot e0)).
      { intros st0 H0 Hst0.
        destruct (IH (i + 1) _ _ ltac:(lia) H0) as [[Hk Hnone] | (Hk & (e' & He' & Hemp) & Hlast)].
        - left. split; [congruence|].
          intros e0 He0. apply elem_of_cons in He0 as [-> | He0];
            [apply Z.eqb_neq in Hino; exact Hino | now apply Hnone].
        - right. split; [lia|].
          replace (Z.to_nat (fn_emptyslot st' - i))
            with (S (Z.to_nat (fn_emptyslot st' - (i + 1)))) by lia.
          split; [exists e'; split; assumption|].
          intros [|j] e'' Hj He''; [lia|]. cbn in He''.
          eapply Hlast; [|exact He'']. lia. }
      destruct (String.eqb _ name).
      * destruct (fn_found st); [discriminate|]. eapply Hstep; [exact H | reflexivity].
      * eapply Hstep; [exact H | reflexivity].
Qed.

Lemma ticked_readdir_range sv todo :
  forall i, steps ticked (sfs_readdir_range sv todo i).
Proof.
  induction todo as [|todo IH]; intros i; cbn [sfs_readdir_range].
  - apply steps_ret; typeclasses eauto.
  - steps_go; first [apply ticked_readdir | apply IH].
Qed.

Lemma ticked_vnode_at w w' sv v : ticked w w' -> vnode_at w sv v -> vnode_at w' sv v.
Proof. intros [k ->]. auto. Qed.

Lemma sfs_dir_nentries_ok sv w v :
  vnode_at w sv v ->
  sfi_type (sv_i v) = SFS_TYPE_DIR ->
  Z.rem (sfi_size (sv_i v)) sizeof_sfs_dir = 0 ->
  sfs_dir_nentries sv w = Ret (sfi_size (sv_i v) / sizeof_sfs_dir) w.
Proof.
  intros Hv Hdir Hrem. unfold sfs_dir_nentries.
  rewrite (bind_ret _ _ _ _ _ (deref_at _ _ _ Hv)), Hdir. cbn [assert].
  erewrite bind_ret by reflexivity. now rewrite Hrem.
Qed.

(* sfs_dir_findname on a directory whose entries can be read. *)
Lemma sfs_dir_findname_scan sv name emptyslot w v es w' :
  dir_entries w sv v es w' ->
  sfs_dir_findname sv name emptyslot w
  = match findname_scan name es 0 (mk_fn None emptyslot) with
    | Some st' =>
        match fn_found st' with
        | Some hit => Ret (Ok hit, fn_emptyslot st') w'
        | None => Ret (Err ENOENT, fn_emptyslot st') w'
        end
    | None => Panic P_assert
    end.
Proof.
  intros (Hv & Hdir & Hrem & Hes). unfold sfs_dir_findname.
  rewrite (bind_ret _ _ _ _ _ (sfs_dir_nentries_ok _ _ _ Hv Hdir Hrem)).
  unfold bind at 1.
  rewrite (sfs_dir_findname_loop_scan _ name _ _ (mk_fn None emptyslot) _ _ _ Hes).
  destruct (findname_scan _ _ _ _) as [st'|]; [|reflexivity].
  cbn [fst snd]. now destruct (fn_found st').
Qed.


(** ** Writes and the size of the file *)

(** C8 (as amended). After a write through sfs_io that starts at a
    position that is not negative and ends below 2^31, on a file whose
    size the 32 bits of the field hold, whether the write succeeded or
    stopped at an error: when the size the file had before is below 2^31,
    the size field is the final offset of the uio and the inode is marked
    dirty if that offset exceeds the size, and the size field is what it
    was if it does not; when the size is 2^31 or more, which the code
    reads as a negative off_t, the size field is set to the final offset
    and the inode is marked dirty whatever the offset is. *)
Theorem sfs_io_write_adjusts_size :
  forall (sv : vptr) (u : uio) (w : world) (v : sfs_vnode)
         (result : res unit) (u' : uio) (w' : world),
    vnode_at w sv v ->
    uio_rw u = UIO_WRITE ->
    0 <= uio_offset u -> 0 <= uio_resid u ->
    uio_offset u + uio_resid u < 2 ^ 31 ->
    0 <= sfi_size (sv_i v) < 2 ^ 32 ->
    sfs_io sv u w = Ret (result, u') w' ->
    exists v',
      vnode_at w' sv v' /\
      (sfi_size (sv_i v) < 2 ^ 31 ->
       (sfi_size (sv_i v) < uio_offset u' ->
        sfi_size (sv_i v') = uio_offset u' /\ sv_dirty v' = true) /\
       (uio_offset u' <= sfi_size (sv_i v) ->
        sfi_size (sv_i v') = sfi_size (sv_i v))) /\
      (2 ^ 31 <= sfi_size (sv_i v) ->
       sfi_size (sv_i v') = uio_offset u' /\ sv_dirty v' = true).
Proof.
  intros sv u w v result u' w' Hv Hrw Hoff Hres Hend Hsz H.
  unfold sfs_io, sfs_io_eof in H. rewrite Hrw in H.
  erewrite bind_ret in H by reflexivity.
  apply bind_inv in H as (r & w1 & Htr & H).
  pose proof (sfs_io_transfer_adv _ _ _ _ _ Htr) as (Hrw1 & Hsum & Hmono & Hnn).
  cbv beta in *. specialize (Hnn Hres).
  destruct (io_step_io_transfer false _ _ _ _ _ Htr) as (_ & Hkeep & _).
  destruct (Hkeep v Hv) as (v1 & Hv1 & _ & _ & _ & _ & Hsize).
  specialize (Hsize eq_refl).
  cbv zeta in H. rewrite (bind_ret _ _ _ _ _ (deref_at _ _ _ Hv1)) in H.
  assert (Hwr : is_write r.2 = true) by (unfold is_write; now rewrite Hrw1, Hrw).
  rewrite Hwr, Hsize in H. cbn [andb] in H.
  destruct (s32 (sfi_size (sv_i v)) <? uio_offset r.2) eqn:Hcmp.
  - apply Z.ltb_lt in Hcmp.
    apply bind_inv in H as ([] & w2 & Hupd & H).
    inversion H; subst. clear H. cbn [uio_offset set_resid].
    apply bind_inv in Hupd as ([] & w3 & Hsz' & Hdirty).
    unfold update_inode in Hsz'. rewrite (update_at _ _ _ _ Hv1) in Hsz'.
    inversion Hsz'; subst. clear Hsz'.
    pose proof (vnode_at_set _ _ _
      (set_inode (set_size (u32 (uio_offset r.2)) (sv_i v1)) v1) Hv1) as Hv2.
    unfold mark_dirty in Hdirty. rewrite (update_at _ _ _ _ Hv2) in Hdirty.
    inversion Hdirty; subst. clear Hdirty.
    eexists. split; [eapply vnode_at_set, Hv2|].
    cbn. rewrite u32_small by lia. split; [|auto].
    intros Hlow. rewrite s32_small in Hcmp by lia. split; [auto | lia].
  - apply Z.ltb_ge in Hcmp.
    erewrite bind_ret in H by reflexivity.
    inversion H; subst. clear H. cbn [uio_offset set_resid].
    exists v1. split; [assumption|]. split.
    + intros Hlow. rewrite s32_small in Hcmp by lia. split; [lia | auto].
    + intros Hhigh. rewrite s32_high in Hcmp by lia. lia.
Qed.

(** ** rename: recovery when the old entry cannot be removed *)

Lemma io_step_dir_unlink sv slot : steps (io_step true sv) (sfs_dir_unlink sv slot).
Proof. apply io_step_writedir. Qed.

Lemma io_step_dir_link sv name ino : steps (io_step true sv) (sfs_dir_link sv name ino).
Proof.
  unfold sfs_dir_link.
  steps_go;
    first [ apply io_step_of_ticked, ticked_dir_findname
          | apply io_step_of_ticked, ticked_dir_nentries
          | apply io_step_writedir ].
Qed.

Lemma io_step_other grows sv w w' a x :
  io_step grows sv w w' -> a <> sv -> vnode_at w a x -> vnode_at w' a x.
Proof. intros (H & _) Ha. unfold vnode_at. now rewrite H. Qed.

Lemma linkcount_round_trip lc :
  0 <= lc < LINKCOUNT_MOD ->
  ((lc + 1) mod LINKCOUNT_MOD - 1) mod LINKCOUNT_MOD = lc.
Proof.
  intros H. destruct (Z.eq_dec (lc + 1) LINKCOUNT_MOD) as [Heq | Hne].
  - rewrite Heq, Z.mod_same by lia.
    replace (0 - 1) with (lc + (-1) * LINKCOUNT_MOD) by lia.
    rewrite Z.mod_add by lia. apply Z.mod_small. lia.
  - rewrite (Z.mod_small (lc + 1)) by lia.
    replace (lc + 1 - 1) with lc by lia. apply Z.mod_small. lia.
Qed.

(** ** Lookup by name and link counts *)

(** *** Which panics a computation can stop with *)

Section NeverPanics.
Context (p : panic_msg).

Lemma np_ret {A} (a : A) : never_panics p (ret a).
Proof. intros w H. discriminate. Qed.

Lemma np_panic {A} q : q <> p -> never_panics p (@panic A q).
Proof. intros Hq w H. inversion H. contradiction. Qed.

Lemma np_gets {A} (f : world -> A) : never_panics p (gets f).
Proof. intros w H. discriminate. Qed.

Lemma np_modify f : never_panics p (modify f).
Proof. intros w H. discriminate. Qed.

Lemma np_assert b : P_assert <> p -> never_panics p (assert b).
Proof. destruct b; [intros _; apply np_ret | apply np_panic]. Qed.

Lemma np_env_request ev : never_panics p (env_request ev).
Proof. intros w H. discriminate. Qed.

Lemma np_deref sv : P_bad_pointer <> p -> never_panics p (deref sv).
Proof.
  intros Hp w H. unfold deref in H.
  destruct (kheap w !! sv) as [[x|]|]; inversion H; contradiction.
Qed.

Lemma np_bind {A B} (m : M A) (k : A -> M B) :
  never_panics p m -> (forall a, never_panics p (k a)) ->
  never_panics p (bind m k).
Proof.
  intros Hm Hk w H. unfold bind in H.
  destruct (m w) as [a w1|q] eqn:E.
  - eapply Hk, H.
  - inversion H; subst. eapply Hm, E.
Qed.

Lemma np_store sv v : P_bad_pointer <> p -> never_panics p (store sv v).
Proof.
  intros Hp w H. unfold store in H.
  destruct (kheap w !! sv) as [[x|]|]; inversion H; contradiction.
Qed.

Lemma np_update sv f : P_bad_pointer <> p -> never_panics p (update sv f).
Proof.
  intros Hp. unfold update.
  apply np_bind; [now apply np_deref | intros v; now apply np_store].
Qed.

End NeverPanics.

Ltac np_go :=
  repeat match goal with
  | |- never_panics _ (bind _ _) => apply np_bind; [|intros ?]
  | |- never_panics _ (ret _) => apply np_ret
  | |- never_panics _ (panic _) => apply np_panic; discriminate
  | |- never_panics _ (assert _) => apply np_assert; discriminate
  | |- never_panics _ (gets _) => apply np_gets
  | |- never_panics _ (modify _) => apply np_modify
  | |- never_panics _ (deref _) => apply np_deref; discriminate
  | |- never_panics _ (update _ _) => apply np_update; discriminate
  | |- never_panics _ (update_inode _ _) => apply np_update; discriminate
  | |- never_panics _ (mark_dirty _) => apply np_update; discriminate
  | |- never_panics _ (env_request _) => apply np_env_request
  | |- never_panics _ kmalloc => apply np_env_request
  | |- never_panics _ (match ?x with _ => _ end) => destruct x eqn:?
  end.

(* The panic of sfs_lookonce is its own: nothing it calls stops with it. *)

Lemma quiet_rblock block : quiet (sfs_rblock block).
Proof. unfold sfs_rblock. np_go. Qed.

Lemma quiet_wblock data block : quiet (sfs_wblock data block).
Proof. unfold sfs_wblock. np_go. Qed.

Lemma quiet_balloc : quiet sfs_balloc.
Proof.
  unfold sfs_balloc, bitmap_alloc, sfs_clearblock. np_go; apply quiet_wblock.
Qed.

Lemma quiet_bused block : quiet (sfs_bused block).
Proof. unfold sfs_bused, bitmap_isset. np_go. Qed.

Lemma quiet_check_block_used block : quiet (check_block_used block).
Proof. unfold check_block_used. np_go. apply quiet_bused. Qed.

Lemma quiet_bmap sv fileblock doalloc : quiet (sfs_bmap sv fileblock doalloc).
Proof.
  unfold sfs_bmap.
  np_go; first [ apply quiet_balloc | apply quiet_check_block_used
               | apply quiet_rblock | apply quiet_wblock ].
Qed.

Lemma quiet_uiomove ptr n u : quiet (uiomove ptr n u).
Proof. unfold uiomove. np_go. Qed.

Lemma quiet_partialio sv u skipstart len : quiet (sfs_partialio sv u skipstart len).
Proof.
  unfold sfs_partialio.
  np_go; first [ apply quiet_bmap | apply quiet_rblock | apply quiet_wblock
               | apply quiet_uiomove ].
Qed.

Lemma quiet_blockio sv u : quiet (sfs_blockio sv u).
Proof.
  unfold sfs_blockio, uiomovezeros, sfs_rwblock.
  np_go; first [ apply quiet_bmap | apply quiet_rblock | apply quiet_wblock
               | apply quiet_uiomove ].
Qed.

Lemma quiet_io_blocks sv n : forall u, quiet (sfs_io_blocks sv n u).
Proof.
  induction n as [|n IH]; intros u; cbn [sfs_io_blocks].
  - apply np_ret.
  - np_go; first [apply quiet_blockio | apply IH].
Qed.

Lemma quiet_io sv u : quiet (sfs_io sv u).
Proof.
  unfold sfs_io, sfs_io_eof, sfs_io_transfer.
  np_go; first [apply quiet_partialio | apply quiet_io_blocks].
Qed.

Lemma quiet_readdir sv slot : quiet (sfs_readdir sv slot).
Proof. unfold sfs_readdir. np_go. apply quiet_io. Qed.

Lemma quiet_dir_findname_loop sv name todo :
  forall i st, quiet (sfs_dir_findname_loop sv name todo i st).
Proof.
  induction todo as [|todo IH]; intros i st; cbn [sfs_dir_findname_loop].
  - apply np_ret.
  - np_go; first [apply quiet_readdir | apply IH].
Qed.

Lemma quiet_dir_findname sv name emptyslot :
  quiet (sfs_dir_findname sv name emptyslot).
Proof.
  unfold sfs_dir_findname, sfs_dir_nentries.
  np_go. apply quiet_dir_findname_loop.
Qed.

Lemma quiet_loadvnode_search table ino forcetype :
  quiet (sfs_loadvnode_search table ino forcetype).
Proof.
  induction table as [|sv table IH]; cbn [sfs_loadvnode_search].
  - apply np_ret.
  - unfold VOP_INCREF. np_go; first [apply quiet_bused | apply IH].
Qed.

Lemma quiet_loadvnode ino forcetype : quiet (sfs_loadvnode ino forcetype).
Proof.
  unfold sfs_loadvnode, sfs_loadvnode_init, kheap_new, VOP_INIT, lock_create.
  np_go; first [ apply quiet_loadvnode_search | apply quiet_bused
               | apply quiet_rblock ].
Qed.

(** *** The name scan finds active entries *)

(* A run of the loop that comes back has read every slot. *)
Lemma sfs_dir_findname_loop_reads sv name todo :
  forall i st w st' w',
    sfs_dir_findname_loop sv name todo i st w = Ret (Ok tt, st') w' ->
    exists es,
      sfs_readdir_range sv todo i w = Ret (Ok es) w' /\
      findname_scan name es i st = Some st'.
Proof.
  induction todo as [|todo IH]; intros i st w st' w' H;
    cbn [sfs_dir_findname_loop] in H; cbn [sfs_readdir_range].
  - inversion H; subst. exists []. split; reflexivity.
  - apply bind_inv in H as ([tsd|e] & w1 & Hrd & H); [|discriminate].
    rewrite (bind_ret _ _ _ _ _ Hrd).
    assert (Hrest : forall st0,
               sfs_dir_findname_loop sv name todo (i + 1) st0 w1 = Ret (Ok tt, st') w' ->
               exists es,
                 (rest <-? sfs_readdir_range sv todo (i + 1) ;; ret (Ok (tsd :: rest))) w1
                 = Ret (Ok es) w' /\
                 exists rest, es = tsd :: rest /\
                              findname_scan name rest (i + 1) st0 = Some st').
    { intros st0 H0. destruct (IH _ _ _ _ _ H0) as (rest & Hr & Hs).
      exists (tsd :: rest). rewrite (bind_ret _ _ _ _ _ Hr). eauto. }
    destruct (sfd_ino tsd =? SFS_NOINO) eqn:Hino.
    + destruct (Hrest _ H) as (es & Hes & rest & -> & Hs).
      exists (tsd :: rest). split; [exact Hes|]. cbn [findname_scan]. now rewrite Hino.
    + destruct (String.eqb (terminate_name (sfd_name tsd)) name) eqn:Hname.
      * destruct (fn_found st) eqn:Hfound; [discriminate|].
        cbn [assert] in H. erewrite bind_ret in H by reflexivity.
        destruct (Hrest _ H) as (es & Hes & rest & -> & Hs).
        exists (tsd :: rest). split; [exact Hes|].
        cbn [findname_scan]. now rewrite Hino, Hname, Hfound.
      * destruct (Hrest _ H) as (es & Hes & rest & -> & Hs).
        exists (tsd :: rest). split; [exact Hes|].
        cbn [findname_scan]. now rewrite Hino, Hname.
Qed.

Lemma findname_scan_found name es :
  forall i st st' ino slot,
    findname_scan name es i st = Some st' ->
    fn_found st' = Some (ino, slot) ->
    fn_found st = Some (ino, slot) \/
    exists e, e ∈ es /\ sfd_ino e = ino /\ names e name.
Proof.
  induction es as [|e es IH]; intros i st st' ino slot H Hf; cbn [findname_scan] in H.
  - inversion H; subst. now left.
  - assert (Hmore : forall st0,
               findname_scan name es (i + 1) st0 = Some st' ->
               fn_found st0 = Some (ino, slot) \/
               exists e0, e0 ∈ e :: es /\ sfd_ino e0 = ino /\ names e0 name).
    { intros st0 H0. destruct (IH _ _ _ _ _ H0 Hf) as [Hl | (e0 & He0 & Hr)];
        [now left | right; exists e0; split; [now right | exact Hr]]. }
    destruct (sfd_ino e =? SFS_NOINO) eqn:Hino; [exact (Hmore _ H)|].
    destruct (String.eqb _ name) eqn:Hname; [|exact (Hmore _ H)].
    destruct (fn_found st); [discriminate|].
    destruct (Hmore _ H) as [Hl | Hr]; [|now right].
    cbn [fn_found] in Hl. inversion Hl; subst. right.
    exists e. split; [now left|]. split; [reflexivity|].
    split; [now apply Z.eqb_neq | now apply String.eqb_eq].
Qed.

(* A name that sfs_dir_findname finds is that of an active entry. *)
Lemma sfs_dir_findname_found sv name emptyslot w ino slot k w1 :
  sfs_dir_findname sv name emptyslot w = Ret (Ok (ino, slot), k) w1 ->
  exists v es e,
    dir_entries w sv v es w1 /\ e ∈ es /\ sfd_ino e = ino /\ names e name.
Proof.
  intros H. unfold sfs_dir_findname in H.
  apply bind_inv in H as (n & w0 & Hn & H).
  unfold sfs_dir_nentries in Hn.
  apply bind_inv in Hn as (v & w0' & Hv & Hn). apply deref_inv in Hv as [-> Hv].
  destruct (sfi_type (sv_i v)) eqn:Htype; try discriminate.
  cbn [assert] in Hn. erewrite bind_ret in Hn by reflexivity.
  destruct (Z.rem _ _ =? 0) eqn:Hrem; [|discriminate].
  cbn [negb] in Hn. inversion Hn; subst. clear Hn.
  apply bind_inv in H as ([[[]|e] st'] & w2 & Hloop & H); cbn [fst snd] in H;
    [|discriminate].
  destruct (fn_found st') as [hit|] eqn:Hfound; [|discriminate].
  inversion H; subst. clear H.
  destruct (sfs_dir_findname_loop_reads _ _ _ _ _ _ _ _ Hloop) as (es & Hes & Hscan).
  destruct (findname_scan_found _ _ _ _ _ _ _ Hscan Hfound) as [Hl | (e & He & Hino & Hnames)];
    [discriminate|].
  exists v, es, e. split; [|auto].
  split; [exact Hv|]. split; [exact Htype|]. split; [now apply Z.eqb_eq | exact Hes].
Qed.

(** *** The vnode sfs_loadvnode hands back *)

Lemma sfs_bused_inv block w used w' :
  sfs_bused block w = Ret used w' -> w' = w.
Proof.
  unfold sfs_bused, bitmap_isset, bind, gets. intros H.
  destruct (sp_nblocks w <=? block); [discriminate|].
  destruct (sfs_freemap w !! Z.to_nat block); inversion H; reflexivity.
Qed.

Lemma sfs_bused_true block w w' :
  sfs_bused block w = Ret true w' ->
  sfs_freemap w !! Z.to_nat block = Some true.
Proof.
  unfold sfs_bused, bitmap_isset, bind, gets, panic, ret. intros H.
  destruct (sp_nblocks w <=? block); [discriminate|].
  destruct (sfs_freemap w !! Z.to_nat block) as [[|]|]; now inversion H.
Qed.

Lemma resident_in_at heap table ino a x :
  resident_in heap table ino = Some (a, x) -> heap !! a = Some (Some x).
Proof.
  induction table as [|b table IH]; cbn; [discriminate|].
  destruct (heap !! b) as [[y|]|] eqn:Hb; try discriminate.
  destruct (sv_ino y =? ino); [|exact IH].
  intros H. inversion H; subst. exact Hb.
Qed.

Lemma sfs_loadvnode_search_spec table ino :
  forall w r w',
    sfs_loadvnode_search table ino SFS_TYPE_INVAL w = Ret r w' ->
    match r with
    | Some a =>
        exists x,
          resident_in (kheap w) table ino = Some (a, x) /\
          w' = set_kheap (<[a := Some (set_refcount (vn_refcount x + 1) x)]> (kheap w)) w
    | None => resident_in (kheap w) table ino = None /\ w' = w
    end.
Proof.
  induction table as [|b table IH]; intros w r w' H; cbn [sfs_loadvnode_search] in H.
  - inversion H; subst. split; reflexivity.
  - apply bind_inv in H as (v & w0 & Hv & H). apply deref_inv in Hv as [-> Hv].
    apply bind_inv in H as (used & w0 & Hu & H). apply sfs_bused_inv in Hu as ->.
    destruct used; [|discriminate]. cbn [negb] in H.
    cbn [resident_in]. unfold vnode_at in Hv. rewrite Hv.
    destruct (sv_ino v =? ino) eqn:Hino.
    + cbn [assert] in H. erewrite bind_ret in H by reflexivity.
      unfold VOP_INCREF in H. rewrite (bind_ret _ _ _ _ _ (update_at _ _ _ _ Hv)) in H.
      inversion H; subst. exists v. split; reflexivity.
    + apply IH, H.
Qed.

(* What the end of sfs_loadvnode has done when it comes back: three
   requests for memory and a new vnode at a fresh address, appended to the
   table; or two requests and nothing, when the lock could not be
   created; or the error of a request that failed. *)
Lemma sfs_loadvnode_init_inv ino i dirty w r w' :
  sfs_loadvnode_init ino i dirty w = Ret r w' ->
  match r with
  | Ok (Some sv) =>
      sv = length (kheap w) /\
      w' = set_vnodes (sfs_vnodes w ++ [sv])
             (set_kheap (kheap w ++ [Some (mk_vnode ino i dirty 1)]) (ticks 3 w))
  | Ok None =>
      w' = ticks 2 w /\
      env_fault w (env_clock w) EvKmalloc = false /\
      env_fault w (S (env_clock w)) EvKmalloc = true
  | Err e => e = ENOMEM /\ ticked w w'
  end.
Proof.
  unfold sfs_loadvnode_init, VOP_INIT, lock_create, kmalloc, env_request,
    kheap_new, bind, gets, modify, ret.
  cbn [env_fault env_clock tick kheap sfs_vnodes].
  intros H.
  destruct (env_fault w (env_clock w) EvKmalloc) eqn:F1.
  { inversion H; subst. split; [reflexivity | exists 1%nat; reflexivity]. }
  cbn [env_fault env_clock tick] in H.
  destruct (env_fault w (S (env_clock w)) EvKmalloc) eqn:F2.
  { inversion H; subst. repeat split. }
  cbn [env_fault env_clock tick] in H.
  destruct (env_fault w (S (S (env_clock w))) EvKmalloc) eqn:F3.
  { inversion H; subst. split; [reflexivity | exists 3%nat; reflexivity]. }
  inversion H; subst. split; reflexivity.
Qed.

(* sfs_loadvnode up to the choice of the function table, when the inode is
   not resident. *)
Lemma sfs_loadvnode_reads ino forcetype w r w' :
  sfs_loadvnode ino forcetype w = Ret r w' ->
  (exists a,
     sfs_loadvnode_search (sfs_vnodes w) ino forcetype w = Ret (Some a) w' /\
     r = Ok (Some a))
  \/
  (sfs_loadvnode_search (sfs_vnodes w) ino forcetype w = Ret None w /\
   ((r = Err ENOMEM /\ w' = ticks 1 w) \/
    (sfs_freemap w !! Z.to_nat ino = Some true /\
     ((r = Err EIO /\ w' = ticks 2 w) \/
      exists data,
        disk w !! Z.to_nat ino = Some data /\
        (match forcetype with
         | SFS_TYPE_INVAL =>
             sfi_type (dec_inode data) = SFS_TYPE_FILE \/
             sfi_type (dec_inode data) = SFS_TYPE_DIR
         | SFS_TYPE_FILE | SFS_TYPE_DIR =>
             sfi_type (dec_inode data) = SFS_TYPE_INVAL
         | SFS_TYPE_other _ => False
         end) /\
        sfs_loadvnode_init ino
          (match forcetype with
           | SFS_TYPE_INVAL => dec_inode data
           | _ => set_type forcetype (dec_inode data)
           end)
          (match forcetype with SFS_TYPE_INVAL => false | _ => true end)
          (ticks 2 w)
        = Ret r w')))).
Proof.
  intros H. unfold sfs_loadvnode in H.
  erewrite bind_ret in H by reflexivity.
  apply bind_inv in H as (found & w1 & Hsearch & H).
  destruct found as [a|].
  { left. inversion H; subst. eauto. }
  right.
  assert (w1 = w) as ->.
  { clear H. revert Hsearch. generalize (sfs_vnodes w) as table.
    induction table as [|b table IH]; cbn [sfs_loadvnode_search]; intros H.
    - now inversion H.
    - apply bind_inv in H as (v & w0 & Hv & H). apply deref_inv in Hv as [-> Hv].
      apply bind_inv in H as (used & w0 & Hu & H). apply sfs_bused_inv in Hu as ->.
      destruct used; [|discriminate]. cbn [negb] in H.
      destruct (sv_ino v =? ino); [|exact (IH H)].
      apply bind_inv in H as ([] & wa & _ & H).
      apply bind_inv in H as ([] & wb & _ & H). discriminate. }
  split; [exact Hsearch|].
  unfold kmalloc, env_request in H.
  erewrite bind_ret in H by reflexivity.
  destruct (env_fault w (env_clock w) EvKmalloc).
  { left. inversion H; subst. split; reflexivity. }
  right.
  apply bind_inv in H as (used & w0 & Hu & H).
  pose proof (sfs_bused_inv _ _ _ _ Hu) as ->.
  destruct used; [|discriminate]. cbn [negb] in H.
  assert (Hbit : sfs_freemap w !! Z.to_nat ino = Some true)
    by exact (sfs_bused_true _ _ _ Hu).
  split; [exact Hbit|].
  apply bind_inv in H as (rd & w2 & Hrd & H).
  unfold sfs_rblock, env_request, gets in Hrd.
  erewrite bind_ret in Hrd by reflexivity.
  erewrite bind_ret in Hrd by reflexivity.
  cbn [disk tick] in Hrd.
  destruct (disk w !! Z.to_nat ino) as [data|] eqn:Hdisk.
  2:{ inversion Hrd; subst. inversion H; subst. left. split; reflexivity. }
  destruct (env_fault _ _ _); inversion Hrd; subst; clear Hrd.
  { inversion H; subst. left. split; reflexivity. }
  right. exists data. split; [reflexivity|].
  change (tick (tick w)) with (ticks 2 w) in H.
  destruct forcetype.
  - erewrite bind_ret in H by reflexivity. cbn [fst snd] in H.
    destruct (sfi_type (dec_inode data)); try discriminate; auto.
  - destruct (sfi_type (dec_inode data)) eqn:Hty; try discriminate.
    cbn [assert] in H. erewrite bind_ret in H by reflexivity.
    cbn [fst snd set_type sfi_type] in H.
    auto.
  - destruct (sfi_type (dec_inode data)) eqn:Hty; try discriminate.
    cbn [assert] in H. erewrite bind_ret in H by reflexivity.
    cbn [fst snd set_type sfi_type] in H.
    auto.
  - destruct (sfi_type (dec_inode data)) eqn:Hty; discriminate.
Qed.

Lemma sfs_loadvnode_linkcount ino w vn w' :
  sfs_loadvnode ino SFS_TYPE_INVAL w = Ret (Ok (Some vn)) w' ->
  exists x,
    vnode_at w' vn x /\
    inode_linkcount w ino = Some (sfi_linkcount (sv_i x)) /\
    (linkcounts_unsigned w -> 0 <= sfi_linkcount (sv_i x)).
Proof.
  intros H.
  destruct (sfs_loadvnode_reads _ _ _ _ _ H)
    as [(a & Hsearch & Hr) | (Hsearch & [(Hr & _) | (_ & [(Hr & _) | Hload])])];
    try discriminate.
  - inversion Hr; subst a. clear Hr.
    apply sfs_loadvnode_search_spec in Hsearch.
    destruct Hsearch as (x & Hres & ->).
    pose proof (resident_in_at _ _ _ _ _ Hres) as Hat.
    exists (set_refcount (vn_refcount x + 1) x).
    split; [apply (vnode_at_set _ _ x); exact Hat|].
    split; [unfold inode_linkcount; now rewrite Hres|].
    intros Hu. apply (Hu _ x Hat).
  - apply sfs_loadvnode_search_spec in Hsearch. destruct Hsearch as (Hres & _).
    destruct Hload as (data & Hdisk & _ & Hinit).
    apply sfs_loadvnode_init_inv in Hinit. destruct Hinit as (-> & ->).
    exists (mk_vnode ino (dec_inode data) false 1).
    split; [unfold vnode_at; cbn; apply list_lookup_middle; reflexivity|].
    split; [unfold inode_linkcount; now rewrite Hres, Hdisk|].
    intros _. apply (dec_inode_linkcount _ HL).
Qed.

Lemma ticked_linkcounts_unsigned w w' :
  ticked w w' -> linkcounts_unsigned w -> linkcounts_unsigned w'.
Proof. intros [k ->] H. exact H. Qed.

Lemma ticked_inode_linkcount w w' ino :
  ticked w w' -> inode_linkcount w' ino = inode_linkcount w ino.
Proof. intros [k ->]. reflexivity. Qed.


(** ** Reads and the end of the file *)

Lemma ticks_ticks k j w : ticks k (ticks j w) = ticks (k + j) w.
Proof. unfold ticks. cbn. f_equal. lia. Qed.

Lemma readable_file_ticks k w sv v :
  readable_file w sv v -> readable_file (ticks k w) sv v.
Proof. intros H. exact H. Qed.

Lemma env_request_ok ev w :
  fault_free w -> env_request ev w = Ret false (ticks 1 w).
Proof. intros H. unfold env_request. now rewrite H. Qed.

Lemma sfs_rblock_ok block data w :
  fault_free w -> disk w !! Z.to_nat block = Some data ->
  sfs_rblock block w = Ret (Ok data) (ticks 1 w).
Proof.
  intros Hf Hd. unfold sfs_rblock.
  rewrite (bind_ret _ _ _ _ _ (env_request_ok _ _ Hf)).
  unfold gets, bind. cbn. now rewrite Hd.
Qed.

Lemma check_block_used_ok w b :
  b = 0 \/ block_ok w b -> check_block_used b w = Ret tt w.
Proof.
  unfold check_block_used. intros [-> | ((Hpos & Hlt) & Hused & _)]; [reflexivity|].
  assert (H0 : (b =? 0) = false) by (apply Z.eqb_neq; lia).
  assert (H1 : (sp_nblocks w <=? b) = false) by (apply Z.leb_gt; lia).
  rewrite H0. unfold sfs_bused, bitmap_isset, bind, gets.
  now rewrite H1, Hused.
Qed.

Lemma uiomove_read_ok ptr n u w :
  fault_free w -> uio_rw u = UIO_READ -> 0 < n <= uio_resid u ->
  uiomove ptr n u w
  = Ret (Ok tt, ptr,
         mk_uio (uio_offset u + n) (uio_resid u - n) UIO_READ
                (uio_data u ++ take (Z.to_nat n) ptr)) (ticks 1 w).
Proof.
  intros Hf Hrw Hn. unfold uiomove.
  rewrite Z.min_l by lia.
  assert (H0 : (n <=? 0) = false) by (apply Z.leb_gt; lia).
  rewrite H0, (bind_ret _ _ _ _ _ (env_request_ok _ _ Hf)), Hrw.
  reflexivity.
Qed.

(* sfs_bmap on the read path of a file that can be read. *)
Lemma sfs_bmap_read_ok sv v w fileblock :
  readable_file w sv v ->
  mapped_ok w v fileblock ->
  exists b k,
    sfs_bmap sv fileblock false w = Ret (Ok b) (ticks k w) /\
    (b = 0 \/ block_ok w b).
Proof.
  intros (Hv & Hf & _ & _) Hmap.
  unfold sfs_bmap. rewrite sfs_bmap_assert_ok.
  destruct Hmap as [[Hfb Hb] | [Hfb Hind]].
  - assert (Hlt : (fileblock <? SFS_NDIRECT) = true) by (apply Z.ltb_lt; lia).
    rewrite Hlt, (bind_ret _ _ _ _ _ (deref_at _ _ _ Hv)).
    rewrite andb_false_r. erewrite bind_ret by reflexivity. cbv beta iota.
    rewrite (bind_ret _ _ _ _ _ (check_block_used_ok _ _ Hb)).
    eexists. exists 0%nat. split; [|exact Hb].
    destruct w; reflexivity.
  - destruct (indirect_index _ Hfb) as (Hge & Hu & Hdiv & Hmod).
    rewrite Hge, Hu, Hdiv, Hmod. cbn [Z.ltb Z.compare].
    rewrite (bind_ret _ _ _ _ _ (deref_at _ _ _ Hv)).
    unfold kmalloc. rewrite (bind_ret _ _ _ _ _ (env_request_ok _ _ Hf)).
    destruct Hind as [Hzero | (Hnz & data & Hdata & Hb)].
    + rewrite Hzero. cbn. exists 0, 1%nat. split; [reflexivity | now left].
    + apply Z.eqb_neq in Hnz. rewrite Hnz. cbn [andb negb].
      erewrite bind_ret
        by (erewrite bind_ret by (apply sfs_rblock_ok; [exact Hf | exact Hdata]);
            reflexivity).
      cbv beta iota. cbn [fst snd]. rewrite andb_false_r.
      erewrite bind_ret by reflexivity. cbv beta iota.
      erewrite bind_ret by (apply check_block_used_ok; exact Hb).
      eexists. exists 2%nat. split; [reflexivity | exact Hb].
Qed.

(* The file block under a position below the end of the file. *)
Lemma position_mapped sv v w pos :
  readable_file w sv v ->
  0 <= pos < sfi_size (sv_i v) ->
  mapped_ok w v (pos / SFS_BLOCKSIZE) /\
  u32 (Z.quot pos SFS_BLOCKSIZE) = pos / SFS_BLOCKSIZE.
Proof.
  intros (_ & _ & _ & Hmap) Hpos.
  pose proof (blocksize_pos _ HL) as Hbs.
  pose proof (maxblocks_u32 _ HL) as Hmax.
  pose proof (ndirect_nonneg _ HL) as Hnd.
  pose proof dbperidb_pos as Hdb.
  pose proof (Z.div_pos pos SFS_BLOCKSIZE ltac:(lia) Hbs) as Hq.
  pose proof (Z.mul_div_le pos SFS_BLOCKSIZE Hbs) as Hle.
  assert (Hm : mapped_ok w v (pos / SFS_BLOCKSIZE)) by (apply Hmap; lia).
  split; [exact Hm|].
  rewrite Z.quot_div_nonneg by lia. apply u32_small.
  destruct Hm as [[H _] | [H _]]; lia.
Qed.

Lemma sfs_partialio_read_ok sv v w u skipstart len :
  readable_file w sv v ->
  uio_rw u = UIO_READ ->
  0 <= uio_offset u ->
  0 <= skipstart -> 0 < len <= uio_resid u ->
  skipstart + len <= SFS_BLOCKSIZE ->
  uio_offset u + uio_resid u <= sfi_size (sv_i v) ->
  exists k u',
    sfs_partialio sv u skipstart len w = Ret (Ok tt, u') (ticks k w) /\
    uio_rw u' = UIO_READ /\
    uio_offset u' = uio_offset u + len /\
    uio_resid u' = uio_resid u - len.
Proof.
  intros Hfile Hrw Hoff Hskip Hlen Hfit Hend.
  destruct (position_mapped sv v w (uio_offset u) Hfile ltac:(lia)) as [Hmap Hfb].
  destruct (sfs_bmap_read_ok _ _ (ticks 1 w) _ (readable_file_ticks 1 _ _ _ Hfile) Hmap)
    as (b & k & Hbmap & Hb).
  destruct Hfile as (Hv & Hf & Hfile).
  unfold sfs_partialio, kmalloc.
  rewrite (bind_ret _ _ _ _ _ (env_request_ok _ _ Hf)).
  assert (Hwr : is_write u = false) by (unfold is_write; now rewrite Hrw).
  pose proof (blocksize_u32 _ HL) as Hbs32.
  assert (Hassert : (u32 (skipstart + len) <=? SFS_BLOCKSIZE) = true)
    by (rewrite u32_small by lia; apply Z.leb_le; lia).
  assert (Hin : (SFS_BLOCKSIZE <? skipstart + len) = false) by (apply Z.ltb_ge; lia).
  rewrite Hwr, Hassert. cbn [assert negb].
  erewrite bind_ret by reflexivity.
  rewrite Hfb, (bind_ret _ _ _ _ _ Hbmap), ticks_ticks.
  assert (Hread : exists iobuf j,
            (if b =? 0
             then assert true ;;
                  (if false then panic P_bad_pointer
                   else ret (Ok (repeat 0 (Z.to_nat SFS_BLOCKSIZE))))
             else if false then panic P_bad_pointer else sfs_rblock b)
              (ticks (k + 1) w)
            = Ret (Ok iobuf) (ticks j w)).
  { destruct Hb as [-> | (Hrange & _ & data & Hdata)].
    - cbn. eauto.
    - assert (H0 : (b =? 0) = false) by (apply Z.eqb_neq; lia).
      rewrite H0. exists data, (1 + (k + 1))%nat.
      rewrite <- (ticks_ticks 1 (k + 1) w). now apply sfs_rblock_ok. }
  destruct Hread as (iobuf & j & Hread).
  rewrite (bind_ret _ _ _ _ _ Hread), Hin.
  erewrite bind_ret
    by (apply uiomove_read_ok; [exact Hf | exact Hrw | lia]).
  cbn [fst snd is_write uio_rw]. rewrite ticks_ticks.
  eexists. eexists. split; [reflexivity|]. cbn. auto.
Qed.

Lemma sfs_blockio_read_ok sv v w u :
  readable_file w sv v ->
  uio_rw u = UIO_READ ->
  0 <= uio_offset u ->
  SFS_BLOCKSIZE <= uio_resid u ->
  uio_offset u + uio_resid u <= sfi_size (sv_i v) ->
  exists k u',
    sfs_blockio sv u w = Ret (Ok tt, u') (ticks k w) /\
    uio_rw u' = UIO_READ /\
    uio_offset u' = uio_offset u + SFS_BLOCKSIZE /\
    uio_resid u' = uio_resid u - SFS_BLOCKSIZE.
Proof.
  intros Hfile Hrw Hoff Hres Hend.
  pose proof (blocksize_pos _ HL) as Hbs.
  destruct (position_mapped sv v w (uio_offset u) Hfile ltac:(lia)) as [Hmap Hfb].
  destruct (sfs_bmap_read_ok _ _ w _ Hfile Hmap) as (b & k & Hbmap & Hb).
  destruct Hfile as (Hv & Hf & Hdev & Hfile).
  unfold sfs_blockio.
  assert (Hwr : is_write u = false) by (unfold is_write; now rewrite Hrw).
  rewrite Hwr, Hfb, (bind_ret _ _ _ _ _ Hbmap).
  destruct Hb as [-> | ((Hpos & Hlt) & _ & data & Hdata)].
  - cbn [Z.eqb negb assert]. erewrite bind_ret by reflexivity.
    unfold uiomovezeros.
    erewrite bind_ret
      by (apply uiomove_read_ok; [exact Hf | exact Hrw | lia]).
    rewrite ticks_ticks. cbn [fst snd].
    eexists. eexists. split; [reflexivity|]. cbn. auto.
  - assert (H0 : (b =? 0) = false) by (apply Z.eqb_neq; lia).
    assert (Hassert : (SFS_BLOCKSIZE <=? uio_resid u) = true) by (apply Z.leb_le; lia).
    rewrite H0, Hassert. cbn [assert]. erewrite bind_ret by reflexivity.
    assert (Hdiskoff : s32 (b * SFS_BLOCKSIZE) = b * SFS_BLOCKSIZE)
      by (apply s32_small; cbn [sp_nblocks ticks] in *; nia).
    rewrite Hdiskoff.
    unfold sfs_rwblock. cbn [uio_rw set_resid set_offset uio_offset uio_resid uio_data].
    rewrite Hrw, Z.div_mul by lia.
    erewrite bind_ret
      by (erewrite bind_ret by (apply sfs_rblock_ok; [exact Hf | exact Hdata]);
          reflexivity).
    rewrite ticks_ticks. cbn [fst snd].
    eexists. eexists. split; [reflexivity|]. cbn. repeat split; lia.
Qed.

Lemma sfs_io_blocks_read_ok sv v n :
  forall w u,
    readable_file w sv v ->
    uio_rw u = UIO_READ ->
    0 <= uio_offset u ->
    Z.of_nat n * SFS_BLOCKSIZE <= uio_resid u ->
    uio_offset u + uio_resid u <= sfi_size (sv_i v) ->
    exists k u',
      sfs_io_blocks sv n u w = Ret (Ok tt, u') (ticks k w) /\
      uio_rw u' = UIO_READ /\
      uio_offset u' = uio_offset u + Z.of_nat n * SFS_BLOCKSIZE /\
      uio_resid u' = uio_resid u - Z.of_nat n * SFS_BLOCKSIZE.
Proof.
  pose proof (blocksize_pos _ HL) as Hbs.
  induction n as [|n IH]; intros w u Hfile Hrw Hoff Hres Hend; cbn [sfs_io_blocks].
  - exists 0%nat, u. split; [destruct w; reflexivity|]. repeat split; auto; lia.
  - destruct (sfs_blockio_read_ok sv v w u Hfile Hrw Hoff ltac:(nia) Hend)
      as (k & u1 & Hblock & Hrw1 & Hoff1 & Hres1).
    rewrite (bind_ret _ _ _ _ _ Hblock). cbn [fst snd].
    destruct (IH (ticks k w) u1 (readable_file_ticks k _ _ _ Hfile) Hrw1
                ltac:(lia) ltac:(nia) ltac:(lia))
      as (k' & u2 & Hrest & Hrw2 & Hoff2 & Hres2).
    rewrite Hrest, ticks_ticks.
    eexists. eexists. split; [reflexivity|]. repeat split; auto; nia.
Qed.

Lemma sfs_io_transfer_read_ok sv v w u :
  readable_file w sv v ->
  uio_rw u = UIO_READ ->
  0 <= uio_offset u ->
  0 < uio_resid u < 2 ^ 32 ->
  uio_offset u + uio_resid u <= sfi_size (sv_i v) ->
  exists k u',
    sfs_io_transfer sv u w = Ret (Ok tt, u') (ticks k w) /\
    uio_rw u' = UIO_READ /\
    uio_offset u' = uio_offset u + uio_resid u /\
    uio_resid u' = 0.
Proof.
  intros Hfile Hrw Hoff Hres Hend.
  pose proof (blocksize_pos _ HL) as Hbs.
  pose proof (blocksize_u32 _ HL) as Hbs32.
  pose proof (Z.mod_pos_bound (uio_offset u) SFS_BLOCKSIZE Hbs) as Hblk.
  assert (Hbs0 : SFS_BLOCKSIZE <> 0) by lia.
  pose proof (Z.div_mod (uio_offset u) SFS_BLOCKSIZE Hbs0) as Hdm.
  unfold sfs_io_transfer.
  rewrite Z.rem_mod_nonneg by lia. rewrite (u32_small (_ mod _)) by lia.
  (* the leading partial block *)
  assert (Hlead : exists k1 u1,
            (if negb (uio_offset u mod SFS_BLOCKSIZE =? 0)
             then
               sfs_partialio sv u (uio_offset u mod SFS_BLOCKSIZE)
                 (if uio_resid u <? u32 (SFS_BLOCKSIZE - uio_offset u mod SFS_BLOCKSIZE)
                  then u32 (uio_resid u)
                  else u32 (SFS_BLOCKSIZE - uio_offset u mod SFS_BLOCKSIZE))
             else ret (Ok tt, u)) w
            = Ret (Ok tt, u1) (ticks k1 w) /\
            uio_rw u1 = UIO_READ /\
            uio_offset u1 + uio_resid u1 = uio_offset u + uio_resid u /\
            0 <= uio_offset u1 /\
            0 <= uio_resid u1 < 2 ^ 32 /\
            (uio_resid u1 = 0 \/ uio_offset u1 mod SFS_BLOCKSIZE = 0)).
  { destruct (uio_offset u mod SFS_BLOCKSIZE =? 0) eqn:Hal; cbn [negb].
    - apply Z.eqb_eq in Hal. exists 0%nat, u.
      split; [destruct w; reflexivity|]. repeat split; auto; lia.
    - apply Z.eqb_neq in Hal.
      rewrite (u32_small (SFS_BLOCKSIZE - _)) by lia.
      destruct (uio_resid u <? SFS_BLOCKSIZE - uio_offset u mod SFS_BLOCKSIZE) eqn:Hshort.
      + apply Z.ltb_lt in Hshort. rewrite u32_small by lia.
        assert (A1 : 0 <= uio_offset u mod SFS_BLOCKSIZE) by lia.
        assert (A2 : 0 < uio_resid u <= uio_resid u) by lia.
        assert (A3 : uio_offset u mod SFS_BLOCKSIZE + uio_resid u <= SFS_BLOCKSIZE) by lia.
        destruct (sfs_partialio_read_ok sv v w u _ _ Hfile Hrw Hoff A1 A2 A3 Hend)
          as (k1 & u1 & Hp & Hrw1 & Hoff1 & Hres1).
        exists k1, u1. split; [exact Hp|]. repeat split; auto; lia.
      + apply Z.ltb_ge in Hshort.
        assert (A1 : 0 <= uio_offset u mod SFS_BLOCKSIZE) by lia.
        assert (A2 : 0 < SFS_BLOCKSIZE - uio_offset u mod SFS_BLOCKSIZE <= uio_resid u) by lia.
        assert (A3 : uio_offset u mod SFS_BLOCKSIZE
                     + (SFS_BLOCKSIZE - uio_offset u mod SFS_BLOCKSIZE) <= SFS_BLOCKSIZE) by lia.
        destruct (sfs_partialio_read_ok sv v w u _ _ Hfile Hrw Hoff A1 A2 A3 Hend)
          as (k1 & u1 & Hp & Hrw1 & Hoff1 & Hres1).
        exists k1, u1. split; [exact Hp|].
        split; [exact Hrw1|]. split; [lia|]. split; [lia|]. split; [lia|].
        right. rewrite Hoff1.
        replace (uio_offset u + (SFS_BLOCKSIZE - uio_offset u mod SFS_BLOCKSIZE))
          with ((uio_offset u / SFS_BLOCKSIZE + 1) * SFS_BLOCKSIZE) by lia.
        apply Z.mod_mul. lia. }
  destruct Hlead as (k1 & u1 & Hlead & Hrw1 & Hsum1 & Hoff1 & Hres1 & Hal1).
  rewrite (bind_ret _ _ _ _ _ Hlead). cbn [fst snd].
  destruct (uio_resid u1 =? 0) eqn:Hdone.
  { apply Z.eqb_eq in Hdone. exists k1, u1.
    split; [reflexivity|]. repeat split; auto; lia. }
  apply Z.eqb_neq in Hdone.
  destruct Hal1 as [Hzero | Hal1]; [contradiction|].
  (* the whole blocks *)
  rewrite Z.rem_mod_nonneg by lia. rewrite Hal1. cbn [Z.eqb assert].
  erewrite bind_ret by reflexivity.
  pose proof (Z.div_mod (uio_resid u1) SFS_BLOCKSIZE Hbs0) as Hdm1.
  pose proof (Z.mod_pos_bound (uio_resid u1) SFS_BLOCKSIZE Hbs) as Hrem1.
  assert (Hr1 : 0 <= uio_resid u1) by lia.
  pose proof (Z.div_pos (uio_resid u1) SFS_BLOCKSIZE Hr1 Hbs) as Hq1.
  assert (Hq1' : uio_resid u1 / SFS_BLOCKSIZE <= uio_resid u1)
    by (apply Z.div_le_upper_bound; nia).
  rewrite (u32_small (_ / _)) by lia.
  assert (B1 : Z.of_nat (Z.to_nat (uio_resid u1 / SFS_BLOCKSIZE)) * SFS_BLOCKSIZE
               <= uio_resid u1) by (rewrite Z2Nat.id by lia; nia).
  assert (B2 : uio_offset u1 + uio_resid u1 <= sfi_size (sv_i v)) by lia.
  destruct (sfs_io_blocks_read_ok sv v _ (ticks k1 w) u1
              (readable_file_ticks k1 _ _ _ Hfile) Hrw1 Hoff1 B1 B2)
    as (k2 & u2 & Hblocks & Hrw2 & Hoff2 & Hres2).
  rewrite Z2Nat.id in Hoff2, Hres2 by lia.
  rewrite (bind_ret _ _ _ _ _ Hblocks), ticks_ticks. cbn [fst snd].
  (* the trailing partial block *)
  assert (Hassert : (uio_resid u2 <? SFS_BLOCKSIZE) = true) by (apply Z.ltb_lt; nia).
  rewrite Hassert. cbn [assert]. erewrite bind_ret by reflexivity.
  destruct (0 <? uio_resid u2) eqn:Htail.
  - apply Z.ltb_lt in Htail. rewrite u32_small by nia.
    assert (C1 : 0 <= uio_offset u2) by nia.
    assert (C2 : 0 <= 0) by lia.
    assert (C3 : 0 < uio_resid u2 <= uio_resid u2) by lia.
    assert (C4 : 0 + uio_resid u2 <= SFS_BLOCKSIZE) by nia.
    assert (C5 : uio_offset u2 + uio_resid u2 <= sfi_size (sv_i v)) by nia.
    destruct (sfs_partialio_read_ok sv v (ticks (k2 + k1) w) u2 0 (uio_resid u2)
                (readable_file_ticks _ _ _ _ Hfile) Hrw2 C1 C2 C3 C4 C5)
      as (k3 & u3 & Hp & Hrw3 & Hoff3 & Hres3).
    rewrite Hp, ticks_ticks. eexists. eexists.
    split; [reflexivity|]. repeat split; auto; nia.
  - apply Z.ltb_ge in Htail. eexists. eexists.
    split; [reflexivity|]. repeat split; auto; nia.
Qed.

(** C4 (as amended). For a read of L bytes at an offset O, an off_t that
    is not negative, on a file of size S: if O >= S the read returns
    success and transfers nothing; if O < S and O + L > S, the read ends
    below 2^31
    (the range in which the end position, a signed 32-bit off_t in the
    code, is O + L) and the file can be read up to its end (each of its
    blocks is within the reach of the block map and is a hole or an
    allocated block of the device, and the buffers and transfers asked for
    are granted), the read returns success having transferred exactly
    S - O bytes, and the L - (S - O) bytes past the end of the file come
    back as residue, not as an error. *)
Theorem sfs_io_read_clipped_at_eof :
  forall (sv : vptr) (u : uio) (w : world) (v : sfs_vnode),
    vnode_at w sv v ->
    uio_rw u = UIO_READ ->
    0 <= uio_offset u < 2 ^ 31 ->
    0 <= uio_resid u < 2 ^ 32 ->
    0 <= sfi_size (sv_i v) < 2 ^ 32 ->
    (sfi_size (sv_i v) <= uio_offset u ->
     sfs_io sv u w = Ret (Ok tt, u) w) /\
    (uio_offset u < sfi_size (sv_i v) ->
     sfi_size (sv_i v) < uio_offset u + uio_resid u ->
     uio_offset u + uio_resid u < 2 ^ 31 ->
     readable_file w sv v ->
     exists u' w',
       sfs_io sv u w = Ret (Ok tt, u') w' /\
       ticked w w' /\
       uio_offset u' = sfi_size (sv_i v) /\
       uio_resid u' = uio_resid u - (sfi_size (sv_i v) - uio_offset u)).
Proof.
  intros sv u w v Hv Hrw [Hoff _] [Hres _] Hsz. split.
  - intros Heof. unfold sfs_io, sfs_io_eof. rewrite Hrw.
    assert (Hs : (s32 (sfi_size (sv_i v)) <=? uio_offset u) = true).
    { apply Z.leb_le.
      destruct (Z.lt_ge_cases (sfi_size (sv_i v)) (2 ^ 31)) as [Hlow | Hhigh];
        [rewrite s32_small by lia | rewrite s32_high by lia]; lia. }
    erewrite bind_ret
      by (rewrite (bind_ret _ _ _ _ _ (deref_at _ _ _ Hv)), Hs; reflexivity).
    reflexivity.
  - intros Hin Hpast Hend Hfile. unfold sfs_io, sfs_io_eof. rewrite Hrw.
    assert (Hs32 : s32 (sfi_size (sv_i v)) = sfi_size (sv_i v))
      by (apply s32_small; lia).
    assert (He32 : s32 (uio_offset u + uio_resid u) = uio_offset u + uio_resid u)
      by (apply s32_small; lia).
    assert (H1 : (sfi_size (sv_i v) <=? uio_offset u) = false) by (apply Z.leb_gt; lia).
    assert (H2 : (sfi_size (sv_i v) <? uio_offset u + uio_resid u) = true)
      by (apply Z.ltb_lt; lia).
    assert (H3 : u32 (uio_offset u + uio_resid u - sfi_size (sv_i v))
                 = uio_offset u + uio_resid u - sfi_size (sv_i v))
      by (apply u32_small; lia).
    assert (H4 : (uio_offset u + uio_resid u - sfi_size (sv_i v) <? uio_resid u) = true)
      by (apply Z.ltb_lt; lia).
    erewrite bind_ret
      by (rewrite (bind_ret _ _ _ _ _ (deref_at _ _ _ Hv)), Hs32, He32, H1, H2, H3, H4;
          cbn [assert]; erewrite bind_ret by reflexivity; reflexivity).
    cbv beta iota.
    set (u1 := set_resid _ u).
    assert (A1 : uio_rw u1 = UIO_READ) by exact Hrw.
    assert (A2 : 0 <= uio_offset u1) by exact Hoff.
    assert (A3 : 0 < uio_resid u1 < 2 ^ 32) by (cbn; lia).
    assert (A4 : uio_offset u1 + uio_resid u1 <= sfi_size (sv_i v)) by (cbn; lia).
    destruct (sfs_io_transfer_read_ok sv v w u1 Hfile A1 A2 A3 A4)
      as (k & u2 & Htr & Hrw2 & Hoff2 & Hres2).
    rewrite (bind_ret _ _ _ _ _ Htr). cbn [fst snd].
    assert (Hv' : vnode_at (ticks k w) sv v) by exact Hv.
    rewrite (bind_ret _ _ _ _ _ (deref_at _ _ _ Hv')).
    assert (Hwr : is_write u2 = false) by (unfold is_write; now rewrite Hrw2).
    rewrite Hwr. cbn [andb]. erewrite bind_ret by reflexivity.
    eexists. eexists. split; [reflexivity|].
    split; [now exists k|]. cbn in *. lia.
Qed.

(** ** rmdir *)

(** C3. sfs_rmdir, the entry of the directory operations table for rmdir,
    answers EUNIMP whatever the directory holds and touches nothing: a
    directory that holds only "." and ".." is not removed, and a lookup of
    its name afterwards sees what it saw before. *)
Theorem sfs_rmdir_unimplemented :
  forall (v : vptr) (name : string) (w : world),
    sfs_rmdir v name w = Ret (Err EUNIMP) w.
Proof. reflexivity. Qed.

(** ** getdirentry at the end of the directory *)

(** C9. For a directory vnode, a getdirentry request whose entry index
    (the uio offset) is at or past the number of slots of the directory
    returns success and leaves the uio as it was: nothing is transferred,
    the offset does not move, and no state changes. *)
Theorem sfs_getdirentry_past_end :
  forall (sv : vptr) (u : uio) (w : world) (v : sfs_vnode),
    vnode_at w sv v ->
    sfi_type (sv_i v) = SFS_TYPE_DIR ->
    Z.rem (sfi_size (sv_i v)) sizeof_sfs_dir = 0 ->
    sfi_size (sv_i v) / sizeof_sfs_dir <= uio_offset u ->
    sfs_getdirentry sv u w = Ret (Ok tt, u) w.
Proof.
  intros sv u w v Hv Hdir Hrem Hpast.
  unfold sfs_getdirentry.
  rewrite (bind_ret _ _ _ _ _ (deref_at _ _ _ Hv)), Hdir.
  assert (Hn : sfs_dir_nentries sv w = Ret (sfi_size (sv_i v) / sizeof_sfs_dir) w).
  { unfold sfs_dir_nentries.
    rewrite (bind_ret _ _ _ _ _ (deref_at _ _ _ Hv)), Hdir. cbn [assert].
    erewrite bind_ret by reflexivity.
    now rewrite Hrem. }
  rewrite (bind_ret _ _ _ _ _ Hn).
  apply Z.leb_le in Hpast. now rewrite Hpast.
Qed.

(** ** reclaim when the vnode was picked up again *)

(** C7. If at the re-check of sfs_reclaim the reference count is not
    exactly 1, which for the counts that reach the re-check (VOP_DECREF
    asserts a count above 0 before it calls reclaim) means greater than 1,
    reclaim returns EBUSY and reclaims nothing: the vnode stays in the
    vnode table and in memory with its inode as it was, no block is freed,
    nothing is written to disk, and the only change is that the count
    went down by the caller's reference. *)
Theorem sfs_reclaim_busy :
  forall (sv : vptr) (w : world) (v : sfs_vnode),
    vnode_at w sv v ->
    1 < vn_refcount v ->
    exists w',
      sfs_reclaim sv w = Ret (Err EBUSY) w' /\
      vnode_at w' sv (set_refcount (vn_refcount v - 1) v) /\
      (forall a, a <> sv -> kheap w' !! a = kheap w !! a) /\
      sfs_vnodes w' = sfs_vnodes w /\
      sfs_freemap w' = sfs_freemap w /\
      sfs_freemapdirty w' = sfs_freemapdirty w /\
      disk w' = disk w /\
      env_clock w' = env_clock w.
Proof.
  intros sv w v Hv Hrc.
  exists (set_kheap (<[sv := Some (set_refcount (vn_refcount v - 1) v)]> (kheap w)) w).
  split.
  - unfold sfs_reclaim.
    rewrite (bind_ret _ _ _ _ _ (deref_at _ _ _ Hv)).
    assert (H1 : (vn_refcount v =? 1) = false) by (apply Z.eqb_neq; lia).
    assert (H2 : (1 <? vn_refcount v) = true) by (apply Z.ltb_lt; lia).
    rewrite H1, H2. cbn [negb assert].
    erewrite bind_ret by reflexivity.
    unfold update.
    erewrite bind_ret.
    2:{ erewrite bind_ret by (apply deref_at; eassumption).
        unfold store. unfold vnode_at in Hv. rewrite Hv. reflexivity. }
    reflexivity.
  - unfold vnode_at in *. cbn.
    repeat split; try reflexivity.
    + apply list_lookup_insert_eq. eapply lookup_lt_Some; eassumption.
    + intros a Ha. now apply list_lookup_insert_ne.
Qed.


(** ** A directory entry in a mapped direct block *)

Lemma check_block_used_inv block w w' :
  check_block_used block w = Ret tt w' -> w' = w.
Proof.
  unfold check_block_used. destruct (block =? 0).
  - intros H. now inversion H.
  - intros H. apply bind_inv in H as (used & w1 & Hu & H).
    apply sfs_bused_inv in Hu as ->. destruct used; now inversion H.
Qed.

Lemma sfs_wblock_inv data block w r w' :
  sfs_wblock data block w = Ret r w' ->
  (r = Ok tt /\ (Z.to_nat block < length (disk w))%nat /\
   env_fault w (env_clock w) (EvWrite block) = false /\
   w' = set_disk (<[Z.to_nat block := data]> (disk w)) (tick w))
  \/ (exists e, r = Err e /\ w' = tick w).
Proof.
  unfold sfs_wblock, env_request, bind, gets, modify, ret.
  cbn [disk tick]. intros H.
  destruct (env_fault w (env_clock w) (EvWrite block)) eqn:Hf; cbn [orb] in H.
  - inversion H; subst. right. eauto.
  - destruct (Z.to_nat block <? length (disk w))%nat eqn:Hlen; cbn [negb] in H.
    + inversion H; subst. left. apply Nat.ltb_lt in Hlen. auto.
    + inversion H; subst. right. eauto.
Qed.

Lemma sfs_rblock_inv block w data w' :
  sfs_rblock block w = Ret (Ok data) w' ->
  disk w !! Z.to_nat block = Some data /\ w' = ticks 1 w.
Proof.
  unfold sfs_rblock, env_request, bind, gets, ret. cbn [disk tick]. intros H.
  destruct (disk w !! Z.to_nat block) as [d|]; [|discriminate].
  destruct (env_fault w (env_clock w) (EvRead block)); [discriminate|].
  inversion H; subst. auto.
Qed.

(* A transfer by uiomove that succeeds. *)
Lemma uiomove_inv ptr n u w ptr' u' w' :
  0 < n <= uio_resid u ->
  uiomove ptr n u w = Ret (Ok tt, ptr', u') w' ->
  w' = ticks 1 w /\
  match uio_rw u with
  | UIO_READ =>
      ptr' = ptr /\
      u' = mk_uio (uio_offset u + n) (uio_resid u - n) UIO_READ
                  (uio_data u ++ take (Z.to_nat n) ptr)
  | UIO_WRITE =>
      ptr' = take (Z.to_nat n) (uio_data u)
             ++ drop (length (take (Z.to_nat n) (uio_data u))) ptr /\
      u' = mk_uio (uio_offset u + n) (uio_resid u - n) UIO_WRITE
                  (drop (Z.to_nat n) (uio_data u))
  end.
Proof.
  intros Hn H. unfold uiomove in H. rewrite Z.min_l in H by lia.
  assert (H0 : (n <=? 0) = false) by (apply Z.leb_gt; lia).
  rewrite H0 in H. unfold env_request, bind, ret in H.
  destruct (env_fault w (env_clock w) EvCopy); [discriminate|].
  destruct (uio_rw u); inversion H; subst; auto.
Qed.

(* The block of the file under the position [pos], for a position whose
   block is one of the direct blocks. *)
Lemma direct_position pos :
  0 <= pos -> pos / SFS_BLOCKSIZE < SFS_NDIRECT ->
  u32 (Z.quot pos SFS_BLOCKSIZE) = pos / SFS_BLOCKSIZE /\
  0 <= pos / SFS_BLOCKSIZE.
Proof.
  intros Hpos Hd. pose proof (blocksize_pos _ HL) as Hbs.
  pose proof (maxblocks_u32 _ HL) as Hmax. pose proof dbperidb_pos as Hdb.
  pose proof (Z.div_pos pos SFS_BLOCKSIZE Hpos Hbs) as Hq.
  split; [|exact Hq]. rewrite Z.quot_div_nonneg by lia. apply u32_small. lia.
Qed.

(* sfs_bmap of a file block whose direct pointer is set. *)
Lemma sfs_bmap_direct_inv sv v w fileblock doalloc r w' :
  vnode_at w sv v ->
  0 <= fileblock < SFS_NDIRECT ->
  nth (Z.to_nat fileblock) (sfi_direct (sv_i v)) 0 <> 0 ->
  sfs_bmap sv fileblock doalloc w = Ret r w' ->
  r = Ok (nth (Z.to_nat fileblock) (sfi_direct (sv_i v)) 0) /\ w' = w.
Proof.
  intros Hv Hfb Hnz H. unfold sfs_bmap in H. rewrite sfs_bmap_assert_ok in H.
  assert (Hlt : (fileblock <? SFS_NDIRECT) = true) by (apply Z.ltb_lt; lia).
  rewrite Hlt, (bind_ret _ _ _ _ _ (deref_at _ _ _ Hv)) in H.
  apply Z.eqb_neq in Hnz. rewrite Hnz in H. cbn [andb] in H.
  erewrite bind_ret in H by reflexivity. cbv beta iota in H.
  apply bind_inv in H as ([] & w1 & Hc & H).
  apply check_block_used_inv in Hc as ->. inversion H; auto.
Qed.

(* What a call of sfs_partialio that succeeds has done, in a block of the
   file that is mapped by a direct pointer. *)
Lemma sfs_partialio_direct_inv sv v w u skipstart len u' w' :
  vnode_at w sv v ->
  0 <= uio_offset u -> uio_offset u / SFS_BLOCKSIZE < SFS_NDIRECT ->
  direct_block v (uio_offset u) <> 0 ->
  0 <= skipstart -> 0 < len <= uio_resid u ->
  skipstart + len <= SFS_BLOCKSIZE ->
  sfs_partialio sv u skipstart len w = Ret (Ok tt, u') w' ->
  exists old,
    disk w !! Z.to_nat (direct_block v (uio_offset u)) = Some old /\
    match uio_rw u with
    | UIO_READ =>
        u' = mk_uio (uio_offset u + len) (uio_resid u - len) UIO_READ
                    (uio_data u
                     ++ take (Z.to_nat len) (drop (Z.to_nat skipstart) old)) /\
        w' = ticks 3 w
    | UIO_WRITE =>
        u' = mk_uio (uio_offset u + len) (uio_resid u - len) UIO_WRITE
                    (drop (Z.to_nat len) (uio_data u)) /\
        w' = set_disk
               (<[Z.to_nat (direct_block v (uio_offset u))
                  := take (Z.to_nat skipstart) old
                     ++ (take (Z.to_nat len) (uio_data u)
                         ++ drop (length (take (Z.to_nat len) (uio_data u)))
                                 (drop (Z.to_nat skipstart) old))]> (disk w))
               (ticks 4 w)
    end.
Proof.
  intros Hv Hoff Hdir Hnz Hskip Hlen Hfit H.
  destruct (direct_position _ Hoff Hdir) as [Hfb Hq].
  pose proof (blocksize_u32 _ HL) as Hbs32.
  unfold direct_block in *.
  set (b := nth (Z.to_nat (uio_offset u / SFS_BLOCKSIZE)) (sfi_direct (sv_i v)) 0) in *.
  unfold sfs_partialio in H.
  apply bind_inv in H as (null & w1 & Hk & H).
  unfold kmalloc, env_request in Hk. inversion Hk; subst null w1. clear Hk.
  assert (Hassert : (u32 (skipstart + len) <=? SFS_BLOCKSIZE) = true)
    by (rewrite u32_small by lia; apply Z.leb_le; lia).
  assert (Hin : (SFS_BLOCKSIZE <? skipstart + len) = false) by (apply Z.ltb_ge; lia).
  rewrite Hassert in H. cbn [assert] in H. erewrite bind_ret in H by reflexivity.
  rewrite Hfb in H.
  apply bind_inv in H as (r & w2 & Hb & H).
  assert (Hv1 : vnode_at (tick w) sv v) by exact Hv.
  destruct (sfs_bmap_direct_inv _ _ _ _ _ _ _ Hv1 (conj Hq Hdir) Hnz Hb) as [-> ->].
  fold b in H. apply Z.eqb_neq in Hnz. rewrite Hnz in H.
  destruct (env_fault w (env_clock w) EvKmalloc).
  { rewrite (bind_panic _ _ _ _ eq_refl) in H. discriminate. }
  apply bind_inv in H as ([iobuf|e] & w3 & Hr & H); [|now inversion H].
  apply sfs_rblock_inv in Hr as [Hold ->].
  rewrite Hin in H.
  apply bind_inv in H as ([[r ptr'] u1] & w4 & Hm & H).
  cbn [fst snd] in H.
  destruct r as [[]|e]; [|now inversion H].
  apply uiomove_inv in Hm as [-> Hm]; [|exact Hlen].
  exists iobuf. split; [exact Hold|].
  unfold is_write in H.
  destruct (uio_rw u); destruct Hm as [-> ->]; cbn [uio_rw] in H.
  - inversion H; subst. split; reflexivity.
  - apply bind_inv in H as (r & w5 & Hw & H).
    apply sfs_wblock_inv in Hw as [(-> & _ & _ & ->) | (e & -> & _)];
      [|now inversion H].
    inversion H; subst. split; reflexivity.
Qed.

(* A transfer that lies within one block and is not a whole block is one
   call of sfs_partialio. *)
Lemma sfs_io_transfer_single_inv sv u w r w' :
  0 <= uio_offset u -> 0 < uio_resid u < 2 ^ 32 ->
  uio_offset u mod SFS_BLOCKSIZE + uio_resid u <= SFS_BLOCKSIZE ->
  (uio_offset u mod SFS_BLOCKSIZE <> 0 \/ uio_resid u < SFS_BLOCKSIZE) ->
  (forall u1 w1,
     sfs_partialio sv u (uio_offset u mod SFS_BLOCKSIZE) (uio_resid u) w
     = Ret (Ok tt, u1) w1 -> uio_resid u1 = 0) ->
  sfs_io_transfer sv u w = Ret r w' ->
  sfs_partialio sv u (uio_offset u mod SFS_BLOCKSIZE) (uio_resid u) w = Ret r w'.
Proof.
  intros Hoff Hres Hfit Hone Hdone H.
  pose proof (blocksize_pos _ HL) as Hbs. pose proof (blocksize_u32 _ HL) as Hbs32.
  pose proof (Z.mod_pos_bound (uio_offset u) SFS_BLOCKSIZE Hbs) as Hblk.
  unfold sfs_io_transfer in H.
  rewrite Z.rem_mod_nonneg in H by lia. rewrite (u32_small (_ mod _)) in H by lia.
  destruct (uio_offset u mod SFS_BLOCKSIZE =? 0) eqn:Hal; cbn [negb] in H.
  - apply Z.eqb_eq in Hal. rewrite Hal in *.
    erewrite bind_ret in H by reflexivity. cbn [fst snd] in H.
    assert (H0 : (uio_resid u =? 0) = false) by (apply Z.eqb_neq; lia).
    rewrite H0, Z.rem_mod_nonneg, Hal in H by lia. cbn [Z.eqb assert] in H.
    erewrite bind_ret in H by reflexivity.
    assert (Hq : uio_resid u / SFS_BLOCKSIZE = 0) by (apply Z.div_small; lia).
    rewrite Hq, (u32_small 0) in H by lia. cbn [Z.to_nat sfs_io_blocks] in H.
    erewrite bind_ret in H by reflexivity. cbn [fst snd] in H.
    assert (H1 : (uio_resid u <? SFS_BLOCKSIZE) = true) by (apply Z.ltb_lt; lia).
    assert (H2 : (0 <? uio_resid u) = true) by (apply Z.ltb_lt; lia).
    rewrite H1 in H. cbn [assert] in H. erewrite bind_ret in H by reflexivity.
    rewrite H2, u32_small in H by lia. exact H.
  - apply Z.eqb_neq in Hal.
    rewrite (u32_small (SFS_BLOCKSIZE - _)) in H by lia.
    assert (Hlen : (if uio_resid u <? SFS_BLOCKSIZE - uio_offset u mod SFS_BLOCKSIZE
                    then u32 (uio_resid u)
                    else SFS_BLOCKSIZE - uio_offset u mod SFS_BLOCKSIZE)
                   = uio_resid u).
    { destruct (Z.ltb_spec (uio_resid u)
                  (SFS_BLOCKSIZE - uio_offset u mod SFS_BLOCKSIZE));
        [apply u32_small; lia | lia]. }
    rewrite Hlen in H.
    apply bind_inv in H as ([[[]|e] u1] & w1 & Hp & H); cbn [fst snd] in H.
    + rewrite (Hdone _ _ Hp) in H. cbn [Z.eqb] in H. now inversion H; subst.
    + now inversion H; subst.
Qed.

(* What sfs_writedir has done when it succeeds on a slot that lies in one
   direct block of the directory which is mapped. *)
Lemma sfs_writedir_direct_inv sv v sd slot w w' :
  let pos := slot * sizeof_sfs_dir in
  vnode_at w sv v ->
  within_block pos sizeof_sfs_dir ->
  pos + sizeof_sfs_dir < 2 ^ 31 ->
  direct_block v pos <> 0 ->
  sfs_writedir sv sd slot w = Ret (Ok tt) w' ->
  exists old v',
    disk w !! Z.to_nat (direct_block v pos) = Some old /\
    disk w'
    = <[Z.to_nat (direct_block v pos)
        := take (Z.to_nat (pos mod SFS_BLOCKSIZE)) old
           ++ (take (Z.to_nat sizeof_sfs_dir) (enc_dirent sd)
               ++ drop (length (take (Z.to_nat sizeof_sfs_dir) (enc_dirent sd)))
                       (drop (Z.to_nat (pos mod SFS_BLOCKSIZE)) old))]> (disk w) /\
    vnode_at w' sv v' /\
    sfi_direct (sv_i v') = sfi_direct (sv_i v).
Proof.
  intros pos Hv (Hoff & Hn & Hfit & Hone & Hdir) H31 Hnz H.
  pose proof (blocksize_pos _ HL) as Hbs.
  pose proof (Z.mod_pos_bound pos SFS_BLOCKSIZE Hbs) as Hblk.
  unfold sfs_writedir in H.
  apply bind_inv in H as ([] & w0 & Ha & H).
  assert (w0 = w) as ->.
  { unfold assert in Ha. destruct (0 <=? slot); now inversion Ha. }
  clear Ha. fold pos in H. rewrite s32_small in H by lia.
  apply bind_inv in H as ([r u1] & w1 & Hio & H). cbn [fst snd] in H.
  destruct r as [[]|e]; [|now inversion H].
  destruct (0 <? uio_resid u1); [discriminate|].
  inversion H; subst w1. clear H.
  set (u := mk_kuio (enc_dirent sd) sizeof_sfs_dir pos UIO_WRITE) in *.
  unfold sfs_io, sfs_io_eof in Hio. cbn [u mk_kuio uio_rw] in Hio.
  erewrite bind_ret in Hio by reflexivity. fold u in Hio.
  apply bind_inv in Hio as (r & w2 & Ht & Hio).
  assert (Hpart : forall u2 w3,
            sfs_partialio sv u (uio_offset u mod SFS_BLOCKSIZE) (uio_resid u) w
            = Ret (Ok tt, u2) w3 ->
            exists old,
              disk w !! Z.to_nat (direct_block v pos) = Some old /\
              u2 = mk_uio (pos + sizeof_sfs_dir) 0 UIO_WRITE
                          (drop (Z.to_nat sizeof_sfs_dir) (enc_dirent sd)) /\
              w3 = set_disk
                     (<[Z.to_nat (direct_block v pos)
                        := take (Z.to_nat (pos mod SFS_BLOCKSIZE)) old
                           ++ (take (Z.to_nat sizeof_sfs_dir) (enc_dirent sd)
                               ++ drop (length (take (Z.to_nat sizeof_sfs_dir)
                                                     (enc_dirent sd)))
                                       (drop (Z.to_nat (pos mod SFS_BLOCKSIZE)) old))]>
                        (disk w))
                     (ticks 4 w)).
  { intros u2 w3 Hp.
    apply (sfs_partialio_direct_inv sv v) in Hp as (old & Hold & Hp);
      cbn [u mk_kuio uio_offset uio_resid uio_rw uio_data] in *;
      try assumption; try lia.
    destruct Hp as [-> ->]. exists old. rewrite Z.sub_diag. auto. }
  apply sfs_io_transfer_single_inv in Ht;
    [| exact Hoff | cbn [u mk_kuio uio_resid]; lia | exact Hfit | exact Hone
     | intros u2 w3 Hp; destruct (Hpart _ _ Hp) as (old & _ & -> & _); reflexivity ].
  destruct r as [[[]|e] u2]; cbv zeta in Hio; cbn [fst snd] in Hio.
  2:{ apply bind_inv in Hio as (x & w3 & _ & Hio).
      apply bind_inv in Hio as (y & w4 & _ & Hio). inversion Hio. }
  destruct (Hpart _ _ Ht) as (old & Hold & -> & ->).
  exists old.
  set (wA := set_disk _ (ticks 4 w)) in *.
  assert (HvA : vnode_at wA sv v) by exact Hv.
  rewrite (bind_ret _ _ _ _ _ (deref_at _ _ _ HvA)) in Hio.
  cbn [is_write uio_rw uio_offset andb] in Hio.
  destruct (s32 (sfi_size (sv_i v)) <? pos + sizeof_sfs_dir).
  - apply bind_inv in Hio as ([] & w3 & Hupd & Hio). inversion Hio; subst w3.
    apply bind_inv in Hupd as ([] & w4 & Hsz & Hdirty).
    unfold update_inode in Hsz. rewrite (update_at _ _ _ _ HvA) in Hsz.
    inversion Hsz; subst w4. clear Hsz.
    match type of Hdirty with
    | mark_dirty _ (set_kheap (<[_ := Some ?x]> _) _) = _ =>
        pose proof (vnode_at_set _ _ _ x HvA) as HvB
    end.
    unfold mark_dirty in Hdirty. rewrite (update_at _ _ _ _ HvB) in Hdirty.
    inversion Hdirty; subst w'.
    eexists. split; [exact Hold|]. split; [reflexivity|].
    split; [eapply vnode_at_set, HvB | reflexivity].
  - erewrite bind_ret in Hio by reflexivity. inversion Hio; subst w'.
    exists v. auto.
Qed.

(* What sfs_readdir hands back when it succeeds on a slot that lies in one
   direct block of the directory which is mapped. *)
Lemma sfs_readdir_direct_inv sv v slot w d w' blk :
  let pos := slot * sizeof_sfs_dir in
  vnode_at w sv v ->
  within_block pos sizeof_sfs_dir ->
  pos + sizeof_sfs_dir < 2 ^ 31 ->
  direct_block v pos <> 0 ->
  disk w !! Z.to_nat (direct_block v pos) = Some blk ->
  sfs_readdir sv slot w = Ret (Ok d) w' ->
  d = dec_dirent (take (Z.to_nat sizeof_sfs_dir)
                       (drop (Z.to_nat (pos mod SFS_BLOCKSIZE)) blk)).
Proof.
  intros pos Hv (Hoff & Hn & Hfit & Hone & Hdir) H31 Hnz Hblk H.
  pose proof (blocksize_pos _ HL) as Hbs.
  pose proof (Z.mod_pos_bound pos SFS_BLOCKSIZE Hbs) as Hmod.
  unfold sfs_readdir in H. fold pos in H. rewrite s32_small in H by lia.
  apply bind_inv in H as ([r u1] & w1 & Hio & H). cbn [fst snd] in H.
  destruct r as [[]|e]; [|now inversion H].
  destruct (0 <? uio_resid u1) eqn:Hres; [discriminate|].
  apply Z.ltb_ge in Hres. inversion H; subst d w1. clear H. f_equal.
  set (u := mk_kuio [] sizeof_sfs_dir pos UIO_READ) in *.
  assert (Hpart : forall u0 u2 w0 w3,
            uio_offset u0 = pos -> uio_rw u0 = UIO_READ -> uio_data u0 = [] ->
            0 < uio_resid u0 <= sizeof_sfs_dir ->
            kheap w0 = kheap w -> disk w0 = disk w ->
            sfs_partialio sv u0 (uio_offset u0 mod SFS_BLOCKSIZE) (uio_resid u0) w0
            = Ret (Ok tt, u2) w3 ->
            uio_resid u2 = 0 /\
            uio_data u2 = take (Z.to_nat (uio_resid u0))
                               (drop (Z.to_nat (pos mod SFS_BLOCKSIZE)) blk)).
  { intros u0 u2 w0 w3 Ho Hrw Hd Hr Hheap Hdisk Hp.
    assert (Hv0 : vnode_at w0 sv v) by (unfold vnode_at; now rewrite Hheap).
    apply (sfs_partialio_direct_inv sv v) in Hp as (old & Hold & Hp);
      rewrite ?Ho; try assumption; try lia.
    rewrite Ho, Hdisk, Hblk in Hold. inversion Hold; subst old.
    rewrite Hrw, Hd, Ho in Hp. destruct Hp as [-> _].
    cbn. split; [lia | reflexivity]. }
  unfold sfs_io in Hio.
  apply bind_inv in Hio as (c & w0 & Heof & Hio).
  unfold sfs_io_eof in Heof. cbn [u mk_kuio uio_rw] in Heof. fold u in Heof.
  rewrite (bind_ret _ _ _ _ _ (deref_at _ _ _ Hv)) in Heof.
  cbn [u mk_kuio uio_offset uio_resid] in Heof.
  destruct (s32 (sfi_size (sv_i v)) <=? pos).
  { inversion Heof; subst c w0. inversion Hio; subst u1.
    cbn in Hres. lia. }
  destruct (s32 (sfi_size (sv_i v)) <? s32 (pos + sizeof_sfs_dir)) eqn:Hclip.
  - (* the entry would end behind the end of the directory *)
    exfalso. apply Z.ltb_lt in Hclip. rewrite (s32_small (pos + _)) in Hclip by lia.
    assert (Hs : - 2 ^ 31 <= s32 (sfi_size (sv_i v)) < 2 ^ 31).
    { unfold s32.
      pose proof (Z.mod_pos_bound (sfi_size (sv_i v) + 2 ^ 31) (2 ^ 32) ltac:(lia)).
      lia. }
    set (extra := u32 (s32 (pos + sizeof_sfs_dir) - s32 (sfi_size (sv_i v)))) in *.
    assert (Hextra : 0 < extra).
    { unfold extra. rewrite (s32_small (pos + _)), u32_small by lia. lia. }
    destruct (extra <? sizeof_sfs_dir) eqn:Hlt; cbn [assert] in Heof.
    2:{ rewrite (bind_panic _ _ _ _ eq_refl) in Heof. discriminate. }
    erewrite bind_ret in Heof by reflexivity.
    inversion Heof; subst c w0. clear Heof.
    apply bind_inv in Hio as (r & w2 & Ht & Hio).
    pose proof (sfs_io_transfer_adv _ _ _ _ _ Ht) as (_ & _ & _ & Hnn).
    cbv beta in Hnn. cbn [set_resid uio_resid u mk_kuio] in Hnn.
    apply Z.ltb_lt in Hlt. specialize (Hnn ltac:(lia)).
    cbv zeta in Hio.
    apply bind_inv in Hio as (x & w3 & _ & Hio).
    apply bind_inv in Hio as (y & w4 & _ & Hio).
    inversion Hio; subst u1. cbn [set_resid uio_resid] in Hres. lia.
  - inversion Heof; subst c w0. clear Heof.
    apply bind_inv in Hio as (r & w2 & Ht & Hio).
    apply sfs_io_transfer_single_inv in Ht;
      [| exact Hoff | cbn [u mk_kuio uio_resid]; lia | exact Hfit | exact Hone
       | intros u2 w3 Hp;
         apply (Hpart u u2 w w3 eq_refl eq_refl eq_refl) in Hp;
           [tauto | cbn; lia | reflexivity | reflexivity] ].
    destruct r as [[[]|e] u2]; cbv zeta in Hio; cbn [fst snd] in Hio.
    2:{ apply bind_inv in Hio as (x & w3 & _ & Hio).
        apply bind_inv in Hio as (y & w4 & _ & Hio). inversion Hio. }
    apply (Hpart u u2 w w2 eq_refl eq_refl eq_refl) in Ht as [Hr0 Hdata];
      [| cbn; lia | reflexivity | reflexivity].
    apply bind_inv in Hio as (x & w3 & _ & Hio).
    apply bind_inv in Hio as (y & w4 & _ & Hio).
    inversion Hio; subst u1. cbn [set_resid uio_data]. exact Hdata.
Qed.

(* Each entry that sfs_readdir_range hands back is what sfs_readdir reads
   from its slot, some requests to the environment later. *)
Lemma sfs_readdir_range_nth sv todo :
  forall i w es w',
    sfs_readdir_range sv todo i w = Ret (Ok es) w' ->
    forall j d, es !! j = Some d ->
    exists w0 wr,
      ticked w w0 /\ sfs_readdir sv (i + Z.of_nat j) w0 = Ret (Ok d) wr.
Proof.
  induction todo as [|todo IH]; intros i w es w' H j d Hj; cbn [sfs_readdir_range] in H.
  - inversion H; subst. discriminate.
  - apply bind_inv in H as ([sd|e] & w1 & Hrd & H); [|now inversion H].
    apply bind_inv in H as ([rest|e] & w2 & Hrest & H); [|now inversion H].
    inversion H; subst es w2. clear H.
    destruct j as [|j]; cbn in Hj.
    + inversion Hj; subst d. exists w, w1. split; [reflexivity|].
      now rewrite Z.add_0_r.
    + destruct (IH _ _ _ _ Hrest j d Hj) as (w0 & wr & Ht & Hread).
      exists w0, wr. split.
      * etransitivity; [exact (ticked_readdir _ _ _ _ _ Hrd) | exact Ht].
      * replace (i + Z.of_nat (S j)) with (i + 1 + Z.of_nat j) by lia. exact Hread.
Qed.

Lemma VOP_DECREF_shared sv w v :
  vnode_at w sv v -> 1 < vn_refcount v ->
  VOP_DECREF sv w
  = Ret tt (set_kheap (<[sv := Some (set_refcount (vn_refcount v - 1) v)]> (kheap w)) w).
Proof.
  intros Hv Hrc. unfold VOP_DECREF.
  rewrite (bind_ret _ _ _ _ _ (deref_at _ _ _ Hv)).
  assert (H0 : (0 <? vn_refcount v) = true) by (apply Z.ltb_lt; lia).
  assert (H1 : (1 <? vn_refcount v) = true) by (apply Z.ltb_lt; lia).
  rewrite H0, H1. cbn [assert]. erewrite bind_ret by reflexivity.
  exact (update_at _ _ _ (fun v => set_refcount (vn_refcount v - 1) v) Hv).
Qed.

(* The bytes of a slot after the entry [data] was written over them. *)
Lemma slot_bytes_written (old data : list Z) (skip n : nat) :
  length data = n -> (skip <= length old)%nat ->
  take n (drop skip (take skip old
                     ++ (take n data ++ drop (length (take n data)) (drop skip old))))
  = data.
Proof.
  intros Hn Hskip.
  assert (Htake : length (take skip old) = skip) by (rewrite length_take; lia).
  rewrite <- Htake at 1. rewrite drop_app_length.
  rewrite <- Hn, firstn_all. apply take_app_length.
Qed.

(* sfs_rename up to the label puke_harder. *)
Lemma sfs_rename_reaches_recovery sv g1 n1 n2 v g slot1 slot2 e w w1 w2 w3 :
  vnode_at w sv v ->
  sv_ino v = SFS_ROOT_LOCATION ->
  sfs_lookonce sv n1 w = Ret (Ok (g1, slot1)) w1 ->
  vnode_at w1 g1 g ->
  sfi_type (sv_i g) = SFS_TYPE_FILE ->
  sfs_dir_link sv n2 (sv_ino g) w1 = Ret (Ok slot2) w2 ->
  (linkcount_incr g1 ;; mark_dirty g1 ;; sfs_dir_unlink sv slot1) w2
  = Ret (Err e) w3 ->
  sfs_rename sv n1 sv n2 w
  = (r2 <- sfs_dir_unlink sv slot2 ;;
     match r2 with
     | Err _ => panic P_rename_cannot_recover
     | Ok _ => linkcount_decr g1 ;; VOP_DECREF g1 ;; ret (Err e)
     end) w3.
Proof.
  intros Hv Hroot Hlook Hg Hfile Hlink Hfail.
  unfold sfs_rename. rewrite Nat.eqb_refl. cbn [assert].
  erewrite bind_ret by reflexivity.
  rewrite (bind_ret _ _ _ _ _ (deref_at _ _ _ Hv)).
  apply Z.eqb_eq in Hroot. rewrite Hroot. cbn [assert].
  erewrite bind_ret by reflexivity.
  rewrite (bind_ret _ _ _ _ _ Hlook). cbn [fst snd].
  rewrite (bind_ret _ _ _ _ _ (deref_at _ _ _ Hg)), Hfile. cbn [assert].
  erewrite bind_ret by reflexivity.
  rewrite (bind_ret _ _ _ _ _ Hlink).
  apply bind_inv in Hfail as ([] & wa & Hincr & Hfail).
  rewrite (bind_ret _ _ _ _ _ Hincr).
  apply bind_inv in Hfail as ([] & wb & Hdirty & Hfail).
  rewrite (bind_ret _ _ _ _ _ Hdirty).
  rewrite (bind_ret _ _ _ _ _ Hfail).
  reflexivity.
Qed.

(** C1 (as amended). In sfs_rename of a file that is referenced elsewhere
    as well (so that giving up the reference of the lookup only counts it
    down), when the removal of the old directory entry fails after the new
    entry was added and the link count incremented, the recovery path
    writes an empty entry over the new one.  When that write succeeds,
    rename decrements the link count, which is then what it was before the
    rename, gives up its reference to the file and returns the error of
    the failed removal; the slot the link went into, a slot in a direct
    block of the directory, is then read as an empty slot, by sfs_readdir
    and in the entries of the directory: the new link is not left in
    place.  When the write fails, rename panics. *)
Theorem sfs_rename_undoes_link_when_unlink_fails :
  forall (sv g1 : vptr) (n1 n2 : string) (v g v3 : sfs_vnode)
         (slot1 slot2 : Z) (e : errno) (w w1 w2 w3 : world),
    vnode_at w sv v ->
    sv_ino v = SFS_ROOT_LOCATION ->
    sfs_lookonce sv n1 w = Ret (Ok (g1, slot1)) w1 ->
    g1 <> sv ->
    vnode_at w1 g1 g ->
    sfi_type (sv_i g) = SFS_TYPE_FILE ->
    0 <= sfi_linkcount (sv_i g) < LINKCOUNT_MOD ->
    1 < vn_refcount g ->
    sfs_dir_link sv n2 (sv_ino g) w1 = Ret (Ok slot2) w2 ->
    (linkcount_incr g1 ;; mark_dirty g1 ;; sfs_dir_unlink sv slot1) w2
    = Ret (Err e) w3 ->
    vnode_at w3 sv v3 ->
    within_block (slot2 * sizeof_sfs_dir) sizeof_sfs_dir ->
    slot2 * sizeof_sfs_dir + sizeof_sfs_dir < 2 ^ 31 ->
    direct_block v3 (slot2 * sizeof_sfs_dir) <> 0 ->
    whole_blocks w3 ->
    empty_entry_codec ->
    (forall w4,
       sfs_dir_unlink sv slot2 w3 = Ret (Ok tt) w4 ->
       exists g' w',
         sfs_rename sv n1 sv n2 w = Ret (Err e) w' /\
         vnode_at w' g1 g' /\
         sfi_linkcount (sv_i g') = sfi_linkcount (sv_i g) /\
         vn_refcount g' = vn_refcount g - 1 /\
         (forall d wr, sfs_readdir sv slot2 w' = Ret (Ok d) wr -> empty_slot d) /\
         (forall v' es wr d,
            dir_entries w' sv v' es wr ->
            es !! Z.to_nat slot2 = Some d -> empty_slot d)) /\
    (forall e2 w4,
       sfs_dir_unlink sv slot2 w3 = Ret (Err e2) w4 ->
       sfs_rename sv n1 sv n2 w = Panic P_rename_cannot_recover) /\
    (forall p,
       sfs_dir_unlink sv slot2 w3 = Panic p ->
       sfs_rename sv n1 sv n2 w = Panic p).
Proof.
  intros sv g1 n1 n2 v g v3 slot1 slot2 e w w1 w2 w3
         Hv Hroot Hlook Hne Hg Hfile Hlc Hrc Hlink Hfail
         Hv3 Hslot H31 Hnz Hwhole [Hlen Hempty].
  rewrite (sfs_rename_reaches_recovery _ _ _ _ _ _ _ _ _ _ _ _ _
             Hv Hroot Hlook Hg Hfile Hlink Hfail).
  split; [|split].
  2:{ intros e2 w4 Hundo. now rewrite (bind_ret _ _ _ _ _ Hundo). }
  2:{ intros p Hundo. now rewrite (bind_panic _ _ _ _ Hundo). }
  intros w4 Hundo.
  (* the file's vnode through the directory operations *)
  pose proof (io_step_other _ _ _ _ _ _ (io_step_dir_link _ _ _ _ _ _ Hlink) Hne Hg) as Hg2.
  apply bind_inv in Hfail as ([] & wa & Hincr & Hfail).
  apply bind_inv in Hfail as ([] & wb & Hdirty & Hunlink).
  unfold linkcount_incr, update_inode in Hincr.
  rewrite (update_at _ _ _ _ Hg2) in Hincr. inversion Hincr; subst wa. clear Hincr.
  match type of Hdirty with
  | mark_dirty _ (set_kheap (<[_ := Some ?x]> _) _) = _ =>
      pose proof (vnode_at_set _ _ _ x Hg2) as Hga
  end.
  unfold mark_dirty in Hdirty.
  rewrite (update_at _ _ _ _ Hga) in Hdirty. inversion Hdirty; subst wb. clear Hdirty.
  match type of Hunlink with
  | sfs_dir_unlink _ _ (set_kheap (<[_ := Some ?x]> _) _) = _ =>
      pose proof (vnode_at_set _ _ _ x Hga) as Hgb
  end.
  pose proof (io_step_other _ _ _ _ _ _ (io_step_dir_unlink _ _ _ _ _ Hunlink) Hne Hgb) as Hg3.
  pose proof (io_step_other _ _ _ _ _ _ (io_step_dir_unlink _ _ _ _ _ Hundo) Hne Hg3) as Hg4.
  (* the directory after the empty entry was written *)
  pose proof Hundo as Hwrite. unfold sfs_dir_unlink in Hwrite.
  apply (sfs_writedir_direct_inv sv v3) in Hwrite
    as (old & v4 & Hold & Hdisk & Hv4 & Hdirect); try assumption.
  set (pos := slot2 * sizeof_sfs_dir) in *.
  set (new := take (Z.to_nat (pos mod SFS_BLOCKSIZE)) old ++ _) in Hdisk.
  assert (Hnew : disk w4 !! Z.to_nat (direct_block v3 pos) = Some new).
  { rewrite Hdisk. apply list_lookup_insert_eq. eapply lookup_lt_Some, Hold. }
  assert (Hnz4 : direct_block v4 pos <> 0)
    by (unfold direct_block in *; now rewrite Hdirect).
  assert (Hb4 : direct_block v4 pos = direct_block v3 pos)
    by (unfold direct_block; now rewrite Hdirect).
  assert (Hbytes : take (Z.to_nat sizeof_sfs_dir)
                        (drop (Z.to_nat (pos mod SFS_BLOCKSIZE)) new)
                   = enc_dirent (mk_dir SFS_NOINO EmptyString)).
  { apply slot_bytes_written; [exact Hlen|].
    rewrite (Hwhole _ _ Hold).
    destruct Hslot as (_ & Hn & Hfit & _). lia. }
  (* the link count and the reference *)
  set (g4 := set_dirty true _) in Hg4.
  set (g5 := set_inode (set_linkcount ((sfi_linkcount (sv_i g4) - 1) mod LINKCOUNT_MOD)
                                    (sv_i g4)) g4).
  set (w5 := set_kheap (<[g1 := Some g5]> (kheap w4)) w4).
  assert (Hdecr : linkcount_decr g1 w4 = Ret tt w5)
    by (unfold linkcount_decr, update_inode; rewrite (update_at _ _ _ _ Hg4);
        reflexivity).
  assert (Hg5 : vnode_at w5 g1 g5) by (eapply vnode_at_set, Hg4).
  assert (Hrc5 : 1 < vn_refcount g5) by exact Hrc.
  pose proof (VOP_DECREF_shared _ _ _ Hg5 Hrc5) as Hdec.
  set (g6 := set_refcount (vn_refcount g5 - 1) g5) in Hdec.
  set (w6 := set_kheap (<[g1 := Some g6]> (kheap w5)) w5) in Hdec.
  assert (Hv6 : vnode_at w6 sv v4).
  { unfold vnode_at, w6, w5. cbn [kheap set_kheap].
    rewrite !list_lookup_insert_ne by congruence. exact Hv4. }
  assert (Hread : forall w0 d wr,
            ticked w6 w0 -> sfs_readdir sv slot2 w0 = Ret (Ok d) wr -> empty_slot d).
  { intros w0 d wr [k ->] Hrd.
    assert (Hv0 : vnode_at (ticks k w6) sv v4) by exact Hv6.
    assert (Hblk : disk (ticks k w6) !! Z.to_nat (direct_block v4 pos) = Some new)
      by (rewrite Hb4; exact Hnew).
    apply (sfs_readdir_direct_inv sv v4 slot2 _ _ _ new) in Hrd; try assumption.
    fold pos in Hrd. rewrite Hbytes in Hrd. now subst d. }
  exists g6, w6. split; [|split; [|split; [|split; [|split]]]].
  - rewrite (bind_ret _ _ _ _ _ Hundo), (bind_ret _ _ _ _ _ Hdecr),
      (bind_ret _ _ _ _ _ Hdec). reflexivity.
  - eapply vnode_at_set, Hg5.
  - cbn. now apply linkcount_round_trip.
  - reflexivity.
  - intros d wr. apply Hread. reflexivity.
  - intros v' es wr d (_ & _ & _ & Hrange) Hd.
    destruct (sfs_readdir_range_nth _ _ _ _ _ _ Hrange _ _ Hd) as (w0 & wr' & Ht & Hrd).
    destruct Hslot as (Hpos & Hn & _).
    assert (0 <= slot2) by (unfold pos in Hpos; nia).
    rewrite Z.add_0_l, Z2Nat.id in Hrd by lia.
    eapply Hread; eassumption.
Qed.

(** ** Block allocation *)

Lemma first_clear_spec m :
  forall i, first_clear m = Some i -> m !! i = Some false.
Proof.
  induction m as [|b m IH]; intros i H; cbn in H; [discriminate|].
  destruct b.
  - destruct (first_clear m) as [j|] eqn:E; cbn in H; [|discriminate].
    inversion H; subst. cbn. now apply IH.
  - inversion H; subst. reflexivity.
Qed.

(* What a run of sfs_balloc that comes back has done. *)
Lemma sfs_balloc_inv w r w' :
  sfs_balloc w = Ret r w' ->
  match first_clear (sfs_freemap w) with
  | None => r = Err ENOSPC /\ w' = w
  | Some i =>
      let wm := set_freemapdirty true
                  (set_freemap (<[i := true]> (sfs_freemap w)) w) in
      Z.of_nat i < sp_nblocks w /\
      ((r = Ok (Z.of_nat i) /\ (i < length (disk w))%nat /\
        w' = set_disk (<[i := repeat 0 (Z.to_nat SFS_BLOCKSIZE)]> (disk w))
                      (tick wm))
       \/ (exists e, r = Err e /\ w' = tick wm))
  end.
Proof.
  unfold sfs_balloc, bitmap_alloc, sfs_clearblock, sfs_wblock, env_request,
    bind, gets, modify, ret, panic.
  intros H.
  destruct (first_clear (sfs_freemap w)) as [i|] eqn:Hfc.
  2:{ inversion H; subst. split; reflexivity. }
  cbn [sp_nblocks set_freemapdirty set_freemap disk tick env_fault env_clock] in H.
  destruct (sp_nblocks w <=? Z.of_nat i) eqn:Hn; [discriminate|].
  apply Z.leb_gt in Hn. cbv zeta. split; [exact Hn|].
  rewrite Nat2Z.id in H.
  destruct (_ || _) eqn:Hfail.
  - inversion H; subst. right. eexists. split; reflexivity.
  - apply orb_false_iff in Hfail as [_ Hlen].
    apply negb_false_iff, Nat.ltb_lt in Hlen.
    inversion H; subst. left. split; [reflexivity|]. split; [exact Hlen|].
    reflexivity.
Qed.

(** X1. A block that sfs_balloc hands out is a block of the device that
    the bitmap had free; the allocation marks that block and no other as
    used, notes that the bitmap changed, fills that block and no other
    with zeros on disk, and touches neither a vnode nor the vnode
    table. *)
Theorem sfs_balloc_fresh_zeroed_block :
  forall (w : world) (b : Z) (w' : world),
    sfs_balloc w = Ret (Ok b) w' ->
    0 <= b < sp_nblocks w /\
    sfs_freemap w !! Z.to_nat b = Some false /\
    sfs_freemap w' = <[Z.to_nat b := true]> (sfs_freemap w) /\
    sfs_freemapdirty w' = true /\
    (Z.to_nat b < length (disk w))%nat /\
    disk w' = <[Z.to_nat b := repeat 0 (Z.to_nat SFS_BLOCKSIZE)]> (disk w) /\
    kheap w' = kheap w /\
    sfs_vnodes w' = sfs_vnodes w.
Proof.
  intros w b w' H. apply sfs_balloc_inv in H.
  destruct (first_clear (sfs_freemap w)) as [i|] eqn:Hfc.
  2:{ destruct H as [H _]. discriminate. }
  cbv zeta in H. destruct H as (Hn & [(Hr & Hlen & ->) | (e & Hr & _)]);
    [|discriminate].
  inversion Hr; subst b. rewrite Nat2Z.id.
  split; [lia|]. split; [now apply first_clear_spec|].
  repeat split; auto.
Qed.

(** X2. When sfs_balloc fails, either the bitmap had no free block and
    nothing changed, or the block was taken from the bitmap and could
    not be cleared on disk: that block stays marked as used, and the disk
    is as it was. *)
Theorem sfs_balloc_failure :
  forall (w : world) (e : errno) (w' : world),
    sfs_balloc w = Ret (Err e) w' ->
    (first_clear (sfs_freemap w) = None /\ w' = w) \/
    (exists i,
       first_clear (sfs_freemap w) = Some i /\
       sfs_freemap w' = <[i := true]> (sfs_freemap w) /\
       sfs_freemap w' !! i = Some true /\
       disk w' = disk w).
Proof.
  intros w e w' H. apply sfs_balloc_inv in H.
  destruct (first_clear (sfs_freemap w)) as [i|] eqn:Hfc.
  2:{ left. destruct H as [_ ->]. auto. }
  right. exists i. cbv zeta in H.
  destruct H as (Hn & [(Hr & _) | (e' & Hr & ->)]); [discriminate|].
  split; [reflexivity|]. split; [reflexivity|]. split; [|reflexivity].
  cbn. apply list_lookup_insert_eq.
  eapply lookup_lt_Some, first_clear_spec, Hfc.
Qed.

(** X3. sfs_bfree of the block that sfs_balloc has just handed out gives
    the bitmap back as it was before the allocation. *)
Theorem sfs_bfree_undoes_balloc :
  forall (w : world) (b : Z) (w1 : world),
    sfs_balloc w = Ret (Ok b) w1 ->
    exists w2,
      sfs_bfree b w1 = Ret tt w2 /\
      sfs_freemap w2 = sfs_freemap w /\
      sfs_freemapdirty w2 = true /\
      disk w2 = disk w1 /\
      kheap w2 = kheap w.
Proof.
  intros w b w1 H. apply sfs_balloc_inv in H.
  destruct (first_clear (sfs_freemap w)) as [i|] eqn:Hfc.
  2:{ destruct H as [H _]. discriminate. }
  cbv zeta in H. destruct H as (Hn & [(Hr & Hlen & ->) | (e & Hr & _)]);
    [|discriminate].
  inversion Hr; subst b. clear Hr.
  pose proof (first_clear_spec _ _ Hfc) as Hfree.
  assert (Hi : (i < length (sfs_freemap w))%nat) by (eapply lookup_lt_Some, Hfree).
  unfold sfs_bfree, bitmap_unmark. rewrite Nat2Z.id.
  erewrite bind_ret.
  2:{ erewrite bind_ret by reflexivity. cbn [sfs_freemap set_disk tick set_freemapdirty set_freemap].
      rewrite list_lookup_insert_eq by exact Hi. reflexivity. }
  eexists. split; [reflexivity|]. cbn.
  repeat split; auto.
  rewrite list_insert_insert_eq. now apply list_insert_id.
Qed.

(** ** Block map: allocation in the direct range *)


Lemma update_vnode sv f w w' v :
  vnode_at w sv v -> update sv f w = Ret tt w' -> vnode_at w' sv (f v).
Proof.
  intros Hv H. rewrite (update_at _ _ _ _ Hv) in H. inversion H; subst.
  eapply vnode_at_set, Hv.
Qed.

Lemma nth_insert_eq (l : list Z) i x :
  (i < length l)%nat -> nth i (<[i := x]> l) 0 = x.
Proof.
  intros Hi. rewrite nth_lookup, list_lookup_insert_eq by exact Hi. reflexivity.
Qed.

Lemma nth_insert_ne (l : list Z) i j x :
  i <> j -> nth j (<[i := x]> l) 0 = nth j l 0.
Proof.
  intros Hij. now rewrite !nth_lookup, list_lookup_insert_ne.
Qed.

(** X4. sfs_bmap with allocation requested, for a file block in the
    direct range: a pointer that is set is handed back and nothing
    changes; for a zero pointer a block that the bitmap had free is
    allocated, stored in that direct pointer of the inode, and the inode
    is marked dirty.  Either way a lookup of the same file block without
    allocation afterwards hands back the same disk block. *)
Theorem sfs_bmap_alloc_then_lookup :
  forall (sv : vptr) (fileblock : Z) (w : world) (v : sfs_vnode)
         (b : Z) (w' : world),
    vnode_at w sv v ->
    0 <= fileblock < SFS_NDIRECT ->
    (Z.to_nat fileblock < length (sfi_direct (sv_i v)))%nat ->
    sfs_bmap sv fileblock true w = Ret (Ok b) w' ->
    (exists v',
       vnode_at w' sv v' /\
       nth (Z.to_nat fileblock) (sfi_direct (sv_i v')) 0 = b /\
       (nth (Z.to_nat fileblock) (sfi_direct (sv_i v)) 0 = 0 ->
        sfs_freemap w !! Z.to_nat b = Some false /\ sv_dirty v' = true)) /\
    (nth (Z.to_nat fileblock) (sfi_direct (sv_i v)) 0 <> 0 ->
     b = nth (Z.to_nat fileblock) (sfi_direct (sv_i v)) 0 /\ w' = w) /\
    sfs_bmap sv fileblock false w' = Ret (Ok b) w'.
Proof.
  intros sv fb w v b w' Hv Hfb Hlen H.
  unfold sfs_bmap in H |- *. rewrite sfs_bmap_assert_ok in H.
  rewrite sfs_bmap_assert_ok.
  assert (Hlt : (fb <? SFS_NDIRECT) = true) by (apply Z.ltb_lt; lia).
  rewrite Hlt in H |- *.
  rewrite (bind_ret _ _ _ _ _ (deref_at _ _ _ Hv)) in H.
  destruct (nth (Z.to_nat fb) (sfi_direct (sv_i v)) 0 =? 0) eqn:Hold;
    cbn [andb] in H.
  - (* the pointer is zero: allocate *)
    apply Z.eqb_eq in Hold.
    apply bind_inv in H as (r & w1 & Hal & H).
    apply bind_inv in Hal as ([b0|e] & w0 & Hb & Hal).
    2:{ inversion Hal; subst. discriminate H. }
    pose proof (sfs_balloc_inv _ _ _ Hb) as Hinv.
    destruct (first_clear (sfs_freemap w)) as [i|] eqn:Hfc.
    2:{ destruct Hinv as [Hinv _]. discriminate. }
    cbv zeta in Hinv.
    destruct Hinv as (Hn & [(Hr & Hdl & Hw0) | (e & Hr & _)]); [|discriminate].
    inversion Hr; subst b0. clear Hr.
    assert (Hv0 : vnode_at w0 sv v) by (rewrite Hw0; exact Hv).
    apply bind_inv in Hal as ([] & wa & Hu1 & Hal).
    apply bind_inv in Hal as ([] & wb & Hu2 & Hal).
    inversion Hal; subst r w1. clear Hal.
    pose proof (update_vnode _ _ _ _ _ Hv0 Hu1) as Hv1. cbv beta in Hv1.
    pose proof (update_vnode _ _ _ _ _ Hv1 Hu2) as Hv2.
    apply bind_inv in H as ([] & w2 & Hchk & H).
    pose proof (check_block_used_inv _ _ _ Hchk) as ->.
    inversion H; subst b w'. clear H.
    split; [|split].
    + eexists. split; [exact Hv2|]. cbn [sv_i set_dirty set_inode sfi_direct set_direct].
      split; [now apply nth_insert_eq|].
      intros _. rewrite Nat2Z.id. split; [now apply first_clear_spec | reflexivity].
    + intros Hne. now rewrite Hold in Hne.
    + rewrite (bind_ret _ _ _ _ _ (deref_at _ _ _ Hv2)).
      cbn [sv_i set_dirty set_inode sfi_direct set_direct].
      rewrite nth_insert_eq by exact Hlen.
      rewrite andb_false_r.
      erewrite bind_ret by reflexivity. cbv beta iota.
      now rewrite (bind_ret _ _ _ _ _ Hchk).
  - (* the pointer is set *)
    apply Z.eqb_neq in Hold.
    erewrite bind_ret in H by reflexivity.
    apply bind_inv in H as ([] & w2 & Hchk & H).
    pose proof (check_block_used_inv _ _ _ Hchk) as ->.
    inversion H; subst b w'. clear H.
    split; [|split].
    + exists v. split; [exact Hv|]. split; [reflexivity|].
      intros Hz. now rewrite Hz in Hold.
    + intros _. split; reflexivity.
    + rewrite (bind_ret _ _ _ _ _ (deref_at _ _ _ Hv)).
      rewrite andb_false_r.
      erewrite bind_ret by reflexivity. cbv beta iota.
      now rewrite (bind_ret _ _ _ _ _ Hchk).
Qed.

(** ** The byte-range engine as a whole *)

Lemma sfs_io_eof_clip sv u :
  yields (sfs_io_eof sv u)
    (fun c => match c with
              | None => True
              | Some (x, u1) =>
                  uio_rw u1 = uio_rw u /\ uio_offset u1 = uio_offset u /\
                  uio_resid u1 = uio_resid u - x /\
                  0 <= x /\ (x = 0 \/ x < uio_resid u)
              end).
Proof.
  unfold sfs_io_eof. destruct (uio_rw u) eqn:Hrw.
  - apply yields_bind; intros v.
    destruct (_ <=? _); [now apply yields_ret|].
    destruct (_ <? _); [|apply yields_ret; cbn; repeat split; auto; lia].
    apply yields_assert_bind; intros Hx. apply Z.ltb_lt in Hx.
    apply yields_ret. cbn. repeat split; auto.
    unfold u32. apply Z.mod_pos_bound. lia.
  - apply yields_ret. cbn. repeat split; auto; lia.
Qed.

Lemma sfs_io_adv sv u : yields (sfs_io sv u) (fun r => uio_adv u r.2).
Proof.
  unfold sfs_io.
  eapply yields_bind_dep; [apply sfs_io_eof_clip|].
  intros [[x u1]|] Hc; [|apply yields_ret, uio_adv_refl].
  destruct Hc as (Hrw & Hoff & Hres & Hx0 & Hx).
  eapply yields_bind_dep; [apply sfs_io_transfer_adv|].
  intros r (Hrw2 & Hsum & Hmono & Hnn). cbv zeta.
  apply yields_bind; intros v. apply yields_bind; intros _.
  apply yields_ret. cbn [snd].
  unfold uio_adv. cbn [uio_rw uio_offset uio_resid set_resid].
  repeat split; [congruence | lia | lia | intros H0; lia].
Qed.

(** X5. Whatever sfs_io returns, success or error, the uio it leaves is
    the uio it was given moved forward: the direction is the same, the
    offset did not go back, what the offset gained the residue lost, and
    a residue that was not negative is not negative. *)
Theorem sfs_io_conserves_uio :
  forall (sv : vptr) (u : uio) (w : world) (result : res unit) (u' : uio)
         (w' : world),
    sfs_io sv u w = Ret (result, u') w' ->
    uio_rw u' = uio_rw u /\
    uio_offset u <= uio_offset u' /\
    uio_offset u' - uio_offset u = uio_resid u - uio_resid u' /\
    (0 <= uio_resid u -> 0 <= uio_resid u').
Proof.
  intros sv u w result u' w' H.
  destruct (sfs_io_adv _ _ _ _ _ H) as (Hrw & Hsum & Hmono & Hnn).
  cbn [snd] in *. repeat split; auto; lia.
Qed.

(** *** Reading writes nothing *)

Lemma ticked_fields w w' :
  ticked w w' ->
  sfs_vnodes w' = sfs_vnodes w /\ sfs_freemap w' = sfs_freemap w /\
  sfs_freemapdirty w' = sfs_freemapdirty w /\ sp_nblocks w' = sp_nblocks w /\
  kheap w' = kheap w /\ disk w' = disk w /\ env_fault w' = env_fault w.
Proof. intros [k ->]. repeat split. Qed.

Lemma ticked_getdirentry sv u : steps ticked (sfs_getdirentry sv u).
Proof.
  unfold sfs_getdirentry.
  steps_go;
    first [apply ticked_dir_nentries | apply ticked_readdir | apply ticked_uiomove].
Qed.

(** X6. sfs_read and sfs_getdirentry only read: when they return, with
    success or with an error, the vnode table, every vnode, the bitmap and
    the disk are as they were. *)
Theorem sfs_read_changes_nothing :
  forall (sv : vptr) (u : uio) (w : world) (r : res unit * uio) (w' : world),
    sfs_read sv u w = Ret r w' \/ sfs_getdirentry sv u w = Ret r w' ->
    sfs_vnodes w' = sfs_vnodes w /\
    kheap w' = kheap w /\
    sfs_freemap w' = sfs_freemap w /\
    sfs_freemapdirty w' = sfs_freemapdirty w /\
    disk w' = disk w.
Proof.
  intros sv u w r w' H.
  assert (Ht : ticked w w').
  { destruct H as [H | H].
    - unfold sfs_read in H. destruct (is_write u) eqn:Hw; [discriminate|].
      cbn [negb assert] in H. erewrite bind_ret in H by reflexivity.
      eapply ticked_io; eassumption.
    - eapply ticked_getdirentry, H. }
  apply ticked_fields in Ht. tauto.
Qed.

(** *** The bitmap under I/O *)

#[local] Instance same_freemap_refl : Reflexive same_freemap.
Proof. intros w. reflexivity. Qed.

#[local] Instance same_freemap_trans : Transitive same_freemap.
Proof. unfold same_freemap. intros w1 w2 w3 H1 H2. congruence. Qed.

#[local] Instance blocks_kept_refl : Reflexive blocks_kept.
Proof. intros w i H. exact H. Qed.

#[local] Instance blocks_kept_trans : Transitive blocks_kept.
Proof. intros w1 w2 w3 H1 H2 i H. apply H2, H1, H. Qed.

#[local] Instance free_kept_refl : Reflexive free_kept.
Proof. intros w i H. exact H. Qed.

#[local] Instance free_kept_trans : Transitive free_kept.
Proof. intros w1 w2 w3 H1 H2 i H. apply H2, H1, H. Qed.

Lemma same_freemap_of_ticked {A} (m : M A) :
  steps ticked m -> steps same_freemap m.
Proof. apply steps_weaken. intros w w' [k ->]. reflexivity. Qed.

Lemma same_freemap_modify f :
  (forall w, sfs_freemap (f w) = sfs_freemap w) -> steps same_freemap (modify f).
Proof. intros Hf w a w' H. inversion H; subst. apply Hf. Qed.

Lemma same_freemap_update sv f : steps same_freemap (update sv f).
Proof.
  intros w a w' H. unfold update in H.
  apply bind_inv in H as (v & w1 & H1 & H2). apply deref_inv in H1 as [-> Hv].
  unfold store in H2. destruct (kheap w !! sv) as [[x|]|]; inversion H2.
  reflexivity.
Qed.


Lemma same_freemap_wblock data block : steps same_freemap (sfs_wblock data block).
Proof.
  intros w r w' H.
  apply sfs_wblock_inv in H as [(_ & _ & _ & ->) | (e & _ & ->)]; reflexivity.
Qed.

Lemma blocks_kept_same {A} (m : M A) : steps same_freemap m -> steps blocks_kept m.
Proof. apply steps_weaken. intros w w' H i. now rewrite H. Qed.

Lemma free_kept_same {A} (m : M A) : steps same_freemap m -> steps free_kept m.
Proof. apply steps_weaken. intros w w' H i. now rewrite H. Qed.

Lemma blocks_kept_balloc : steps blocks_kept sfs_balloc.
Proof.
  intros w r w' H i Hi. apply sfs_balloc_inv in H.
  destruct (first_clear (sfs_freemap w)) as [j|] eqn:Hfc.
  - cbv zeta in H. destruct H as (_ & [(_ & _ & ->) | (e & _ & ->)]); cbn;
      (destruct (Nat.eq_dec j i) as [-> | Hne];
       [apply list_lookup_insert_eq; eapply lookup_lt_Some, Hi
       | now rewrite list_lookup_insert_ne]).
  - destruct H as [_ ->]. exact Hi.
Qed.

Ltac blocks_kept_atom :=
  first [ apply blocks_kept_balloc
        | apply blocks_kept_same, same_freemap_update
        | apply blocks_kept_same, same_freemap_wblock
        | apply blocks_kept_same, same_freemap_of_ticked;
          first [ apply ticked_check_block_used | apply ticked_kmalloc
                | apply ticked_rblock | apply ticked_uiomove
                | apply ticked_io_eof ] ].

Lemma blocks_kept_bmap sv fileblock doalloc :
  steps blocks_kept (sfs_bmap sv fileblock doalloc).
Proof. unfold sfs_bmap. steps_go; blocks_kept_atom. Qed.

Lemma blocks_kept_partialio sv u skipstart len :
  steps blocks_kept (sfs_partialio sv u skipstart len).
Proof.
  unfold sfs_partialio.
  steps_go; first [apply blocks_kept_bmap | blocks_kept_atom].
Qed.

Lemma blocks_kept_blockio sv u : steps blocks_kept (sfs_blockio sv u).
Proof.
  unfold sfs_blockio, uiomovezeros, sfs_rwblock.
  steps_go; first [apply blocks_kept_bmap | blocks_kept_atom].
Qed.

Lemma blocks_kept_io_blocks sv n :
  forall u, steps blocks_kept (sfs_io_blocks sv n u).
Proof.
  induction n as [|n IH]; intros u; cbn [sfs_io_blocks].
  - apply steps_ret; typeclasses eauto.
  - steps_go; first [apply blocks_kept_blockio | apply IH].
Qed.

Lemma blocks_kept_io sv u : steps blocks_kept (sfs_io sv u).
Proof.
  unfold sfs_io, sfs_io_transfer.
  steps_go;
    first [ apply blocks_kept_partialio | apply blocks_kept_io_blocks
          | blocks_kept_atom ].
Qed.

(** X7. A write through sfs_write, whether it succeeds or stops at an
    error, stays within its file: no other vnode changes, the vnode table
    is as it was, the vnode written keeps its inode number, its reference
    count, its type and its link count, and no block that the bitmap
    marks as used is released. *)
Theorem sfs_write_stays_in_file :
  forall (sv : vptr) (u : uio) (w : world) (r : res unit * uio) (w' : world),
    sfs_write sv u w = Ret r w' ->
    (forall a, a <> sv -> kheap w' !! a = kheap w !! a) /\
    sfs_vnodes w' = sfs_vnodes w /\
    (forall v, vnode_at w sv v ->
       exists v', vnode_at w' sv v' /\
                  sv_ino v' = sv_ino v /\
                  vn_refcount v' = vn_refcount v /\
                  sfi_type (sv_i v') = sfi_type (sv_i v) /\
                  sfi_linkcount (sv_i v') = sfi_linkcount (sv_i v)) /\
    (forall i, sfs_freemap w !! i = Some true -> sfs_freemap w' !! i = Some true).
Proof.
  intros sv u w r w' H. unfold sfs_write in H.
  destruct (is_write u); [|discriminate].
  cbn [assert] in H. erewrite bind_ret in H by reflexivity.
  destruct (io_step_io _ _ _ _ _ H) as (Hother & Hkeep & Htab & _).
  split; [exact Hother|]. split; [exact Htab|]. split.
  - intros v Hv. destruct (Hkeep v Hv) as (v' & Hv' & A1 & A2 & A3 & A4 & _).
    exists v'. auto.
  - exact (blocks_kept_io _ _ _ _ _ H).
Qed.

(** ** Writing the inode back *)

Lemma sfs_sync_inode_inv sv w v r w' :
  vnode_at w sv v ->
  sfs_sync_inode sv w = Ret r w' ->
  (sv_dirty v = false -> r = Ok tt /\ w' = w) /\
  (sv_dirty v = true ->
   match r with
   | Ok _ =>
       (Z.to_nat (sv_ino v) < length (disk w))%nat /\
       w' = set_kheap (<[sv := Some (set_dirty false v)]> (kheap w))
              (set_disk (<[Z.to_nat (sv_ino v) := enc_inode (sv_i v)]> (disk w))
                        (tick w))
   | Err _ => w' = tick w
   end).
Proof.
  intros Hv H. unfold sfs_sync_inode in H.
  rewrite (bind_ret _ _ _ _ _ (deref_at _ _ _ Hv)) in H.
  destruct (sv_dirty v) eqn:Hd.
  - split; [discriminate|]. intros _.
    apply bind_inv in H as (rw & w1 & Hwb & H).
    apply sfs_wblock_inv in Hwb as [(-> & Hlen & _ & ->) | (e & -> & ->)].
    + assert (Hv1 : vnode_at (set_disk (<[Z.to_nat (sv_ino v) := enc_inode (sv_i v)]> (disk w))
                                (tick w)) sv v) by exact Hv.
      rewrite (bind_ret _ _ _ _ _ (update_at _ _ _ _ Hv1)) in H.
      inversion H; subst. clear H. split; [exact Hlen | reflexivity].
    + inversion H; subst. reflexivity.
  - inversion H; subst. split; [auto | discriminate].
Qed.

(** X8. sfs_close, through sfs_fsync and sfs_sync_inode: for a vnode that
    is not dirty it succeeds and does nothing at all; for a dirty vnode it
    writes the inode into the block that bears the inode number and then
    clears the dirty flag, and when that write fails it returns the error
    and the vnode stays dirty, so that a later sync writes it again. *)
Theorem sfs_close_syncs_inode :
  forall (sv : vptr) (w : world) (v : sfs_vnode) (r : res unit) (w' : world),
    vnode_at w sv v ->
    sfs_close sv w = Ret r w' ->
    (sv_dirty v = false -> r = Ok tt /\ w' = w) /\
    (sv_dirty v = true ->
     match r with
     | Ok _ =>
         vnode_at w' sv (set_dirty false v) /\
         (Z.to_nat (sv_ino v) < length (disk w))%nat /\
         disk w' = <[Z.to_nat (sv_ino v) := enc_inode (sv_i v)]> (disk w)
     | Err _ => vnode_at w' sv v /\ disk w' = disk w
     end).
Proof.
  intros sv w v r w' Hv H. unfold sfs_close, sfs_fsync in H.
  destruct (sfs_sync_inode_inv _ _ _ _ _ Hv H) as [Hclean Hdirty].
  split; [exact Hclean|]. intros Hd. specialize (Hdirty Hd).
  destruct r as [[]|e].
  - destruct Hdirty as [Hlen ->].
    split; [apply (vnode_at_set (set_disk _ (tick w)) sv v); exact Hv|].
    split; [exact Hlen | reflexivity].
  - subst w'. split; [exact Hv | reflexivity].
Qed.

(** ** Truncation *)

Lemma sfs_bfree_inv b w w' :
  sfs_bfree b w = Ret tt w' ->
  sfs_freemap w !! Z.to_nat b = Some true /\
  w' = set_freemapdirty true
         (set_freemap (<[Z.to_nat b := false]> (sfs_freemap w)) w).
Proof.
  unfold sfs_bfree, bitmap_unmark, bind, gets, modify, panic. intros H.
  destruct (sfs_freemap w !! Z.to_nat b) as [[|]|] eqn:Hb; try discriminate.
  inversion H; subst. auto.
Qed.

Lemma free_kept_insert (m : list bool) (i : nat) :
  forall j : nat, m !! j = Some false -> <[i := false]> m !! j = Some false.
Proof.
  intros j Hj. destruct (Nat.eq_dec i j) as [-> | Hne].
  - apply list_lookup_insert_eq. eapply lookup_lt_Some, Hj.
  - now rewrite list_lookup_insert_ne.
Qed.

Lemma free_kept_bfree b : steps free_kept (sfs_bfree b).
Proof.
  intros w [] w' H. apply sfs_bfree_inv in H as [_ ->].
  intros j Hj. cbn. now apply free_kept_insert.
Qed.

Lemma nth_nonzero_lt (l : list Z) i : nth i l 0 <> 0 -> (i < length l)%nat.
Proof.
  intros H. destruct (Nat.lt_ge_cases i (length l)) as [Hlt | Hge]; [exact Hlt|].
  now rewrite nth_overflow in H.
Qed.

Ltac bool_cases :=
  repeat match goal with
  | |- context [?a <=? ?b] => destruct (Z.leb_spec a b)
  | |- context [?a <? ?b] => destruct (Z.ltb_spec a b)
  end; cbn [andb negb].

(* The loop over the direct pointers, from slot [i] on. *)
Lemma sfs_dotruncate_direct_spec sv blocklen todo :
  forall i w v w',
    0 <= i ->
    vnode_at w sv v ->
    sfs_dotruncate_direct sv blocklen todo i w = Ret tt w' ->
    exists v',
      vnode_at w' sv v' /\
      blocks_only v v' /\
      sfi_size (sv_i v') = sfi_size (sv_i v) /\
      sfi_indirect (sv_i v') = sfi_indirect (sv_i v) /\
      (forall k, 0 <= k ->
         nth (Z.to_nat k) (sfi_direct (sv_i v')) 0
         = if (i <=? k) && (k <? i + Z.of_nat todo) && (blocklen <=? k) then 0
           else nth (Z.to_nat k) (sfi_direct (sv_i v)) 0) /\
      (forall k, i <= k < i + Z.of_nat todo -> blocklen <= k ->
         nth (Z.to_nat k) (sfi_direct (sv_i v)) 0 <> 0 ->
         sfs_freemap w' !! Z.to_nat (nth (Z.to_nat k) (sfi_direct (sv_i v)) 0)
         = Some false) /\
      free_kept w w' /\
      (forall a, a <> sv -> kheap w' !! a = kheap w !! a) /\
      disk w' = disk w /\ sfs_vnodes w' = sfs_vnodes w.
Proof.
  induction todo as [|todo IH]; intros i w v w' Hi Hv H;
    cbn [sfs_dotruncate_direct] in H.
  - inversion H; subst. exists v. split; [exact Hv|].
    split; [unfold blocks_only; auto|]. split; [reflexivity|]. split; [reflexivity|].
    split; [intros k Hk; bool_cases; try lia; reflexivity|].
    split; [intros k Hk; lia|]. split; [reflexivity|]. auto.
  - rewrite (bind_ret _ _ _ _ _ (deref_at _ _ _ Hv)) in H. cbv zeta in H.
    apply bind_inv in H as ([] & w1 & Hstep & H).
    destruct ((blocklen <=? i) && negb (nth (Z.to_nat i) (sfi_direct (sv_i v)) 0 =? 0))
      eqn:Hc.
    + (* the block of slot i is discarded *)
      apply andb_true_iff in Hc as [Hbl Hnz].
      apply Z.leb_le in Hbl. apply negb_true_iff, Z.eqb_neq in Hnz.
      pose proof (nth_nonzero_lt _ _ Hnz) as Hlen.
      apply bind_inv in Hstep as ([] & wa & Hfree & Hstep).
      apply bind_inv in Hstep as ([] & wb & Hu1 & Hu2).
      pose proof (free_kept_bfree _ _ _ _ Hfree) as Hfk.
      apply sfs_bfree_inv in Hfree as [Hbit ->].
      match type of Hu1 with
      | _ ?W = _ => assert (Hva : vnode_at W sv v) by exact Hv
      end.
      unfold update_inode in Hu1. rewrite (update_at _ _ _ _ Hva) in Hu1.
      inversion Hu1; subst wb. clear Hu1.
      match type of Hu2 with
      | _ (set_kheap (<[_ := Some ?x]> _) _) = _ =>
          pose proof (vnode_at_set _ _ _ x Hva) as Hvb
      end.
      unfold mark_dirty in Hu2. rewrite (update_at _ _ _ _ Hvb) in Hu2.
      inversion Hu2; subst w1. clear Hu2.
      match type of H with
      | _ (set_kheap (<[_ := Some ?x]> _) _) = _ =>
          pose proof (vnode_at_set _ _ _ x Hvb) as Hv1
      end.
      destruct (IH (i + 1) _ _ _ ltac:(lia) Hv1 H)
        as (v' & Hv' & Hbo & Hsz & Hind & Hnth & Hfreed & Hfk' & Hoth & Hdisk & Htab).
      cbn [sv_i set_dirty set_inode sfi_direct set_direct sfi_size sfi_indirect]
        in Hsz, Hind, Hnth, Hfreed.
      exists v'. split; [exact Hv'|]. split; [exact Hbo|].
      split; [exact Hsz|]. split; [exact Hind|]. split; [|split; [|split; [|split]]].
      * intros k Hk. rewrite (Hnth k Hk).
        destruct (Z.eq_dec k i) as [-> | Hne].
        -- rewrite nth_insert_eq by exact Hlen. bool_cases; try lia; reflexivity.
        -- rewrite nth_insert_ne by lia. bool_cases; try lia; reflexivity.
      * intros k Hk Hblk Hknz. destruct (Z.eq_dec k i) as [-> | Hne].
        -- apply Hfk'. cbn. apply list_lookup_insert_eq.
           eapply lookup_lt_Some, Hbit.
        -- specialize (Hfreed k ltac:(lia) Hblk).
           rewrite nth_insert_ne in Hfreed by lia. now apply Hfreed.
      * intros j Hj. apply Hfk', Hfk, Hj.
      * intros a Ha. rewrite (Hoth a Ha). cbn.
        now rewrite !list_lookup_insert_ne by auto.
      * rewrite Hdisk, Htab. auto.
    + (* slot i is kept *)
      inversion Hstep; subst w1. clear Hstep.
      destruct (IH (i + 1) _ _ _ ltac:(lia) Hv H)
        as (v' & Hv' & Hbo & Hsz & Hind & Hnth & Hfreed & Hfk' & Hoth & Hdisk & Htab).
      apply andb_false_iff in Hc.
      exists v'. split; [exact Hv'|]. split; [exact Hbo|].
      split; [exact Hsz|]. split; [exact Hind|]. split; [|split; [|auto]].
      * intros k Hk. rewrite (Hnth k Hk).
        destruct (Z.eq_dec k i) as [-> | Hne].
        -- destruct Hc as [Hc | Hc].
           ++ apply Z.leb_gt in Hc. bool_cases; try lia; reflexivity.
           ++ apply negb_false_iff, Z.eqb_eq in Hc. rewrite Hc.
              bool_cases; reflexivity.
        -- bool_cases; try lia; reflexivity.
      * intros k Hk Hblk Hknz. destruct (Z.eq_dec k i) as [-> | Hne].
        -- exfalso. destruct Hc as [Hc | Hc].
           ++ apply Z.leb_gt in Hc. lia.
           ++ apply negb_false_iff, Z.eqb_eq in Hc. contradiction.
        -- apply Hfreed; [lia | assumption | assumption].
Qed.

(* The loop over the entries of the indirect block: it changes the bitmap
   only, and when every entry it visits lies past the new end of the file
   it leaves no entry set. *)
Lemma sfs_dotruncate_indirect_spec blocklen baseblock todo :
  forall j idbuf hasnonzero iddirty w r w',
    sfs_dotruncate_indirect blocklen baseblock todo j idbuf hasnonzero iddirty w
    = Ret r w' ->
    free_kept w w' /\ kheap w' = kheap w /\ disk w' = disk w /\
    sfs_vnodes w' = sfs_vnodes w /\
    (0 <= j ->
     (forall j', j <= j' < j + Z.of_nat todo -> blocklen < u32 (baseblock + j')) ->
     r.1.2 = hasnonzero).
Proof.
  induction todo as [|todo IH]; intros j idbuf hasnonzero iddirty w r w' H;
    cbn [sfs_dotruncate_indirect] in H.
  - inversion H; subst. repeat split; auto. intros i Hi. exact Hi.
  - cbv zeta in H. apply bind_inv in H as (r0 & w1 & Hstep & H).
    destruct ((blocklen <? u32 (baseblock + j)) && negb (nth (Z.to_nat j) idbuf 0 =? 0))
      eqn:Hc.
    + apply andb_true_iff in Hc as [_ Hnz].
      apply negb_true_iff, Z.eqb_neq in Hnz.
      pose proof (nth_nonzero_lt _ _ Hnz) as Hlen.
      apply bind_inv in Hstep as ([] & wa & Hfree & Hstep).
      inversion Hstep; subst r0 w1. clear Hstep.
      pose proof (free_kept_bfree _ _ _ _ Hfree) as Hfk.
      apply sfs_bfree_inv in Hfree as [_ ->].
      cbn [fst snd] in H. rewrite nth_insert_eq in H by exact Hlen.
      cbn [Z.eqb negb] in H.
      destruct (IH _ _ _ _ _ _ _ H) as (Hfk' & Hh & Hd & Ht & Hnone).
      split; [intros i Hi; apply Hfk', Hfk, Hi|].
      split; [rewrite Hh; reflexivity|]. split; [rewrite Hd; reflexivity|].
      split; [rewrite Ht; reflexivity|].
      intros Hj Hpast. apply Hnone; [lia|]. intros j' Hj'. apply Hpast. lia.
    + inversion Hstep; subst r0 w1. clear Hstep. cbn [fst snd] in H.
      destruct (IH _ _ _ _ _ _ _ H) as (Hfk' & Hh & Hd & Ht & Hnone).
      split; [exact Hfk'|]. split; [exact Hh|]. split; [exact Hd|].
      split; [exact Ht|].
      intros Hj Hpast. rewrite Hnone; [|lia|intros j' Hj'; apply Hpast; lia].
      assert (Hlt : (blocklen <? u32 (baseblock + j)) = true)
        by (apply Z.ltb_lt, Hpast; lia).
      rewrite Hlt in Hc. cbn [andb] in Hc.
      apply negb_false_iff in Hc. now rewrite Hc.
Qed.

Lemma blocks_only_refl v : blocks_only v v.
Proof. unfold blocks_only. auto. Qed.

Lemma blocks_only_trans v1 v2 v3 :
  blocks_only v1 v2 -> blocks_only v2 v3 -> blocks_only v1 v3.
Proof.
  unfold blocks_only. intros (A1 & A2 & A3 & A4) (B1 & B2 & B3 & B4).
  repeat split; congruence.
Qed.

(* The part of sfs_dotruncate that deals with the indirect block. *)
Lemma sfs_dotruncate_indirect_part sv blocklen null w1 v1 w2 :
  vnode_at w1 sv v1 ->
  (if (blocklen <? u32 (SFS_NDIRECT + SFS_DBPERIDB - 1))
      && negb (sfi_indirect (sv_i v1) =? 0)
   then
     if null : bool then panic P_bad_pointer else
     data <-? sfs_rblock (sfi_indirect (sv_i v1)) ;;
     r <- sfs_dotruncate_indirect blocklen SFS_NDIRECT
            (Z.to_nat SFS_DBPERIDB) 0 (dec_ptrs data) false false ;;
     if negb r.1.2 then
       sfs_bfree (sfi_indirect (sv_i v1)) ;;
       update_inode sv (set_indirect 0) ;;
       mark_dirty sv ;;
       ret (Ok tt)
     else if r.2 then sfs_wblock (enc_ptrs r.1.1) (sfi_indirect (sv_i v1))
     else ret (Ok tt)
   else ret (Ok tt)) w1 = Ret (Ok tt) w2 ->
  exists v2,
    vnode_at w2 sv v2 /\ blocks_only v1 v2 /\
    sfi_size (sv_i v2) = sfi_size (sv_i v1) /\
    sfi_direct (sv_i v2) = sfi_direct (sv_i v1) /\
    free_kept w1 w2 /\
    (forall a, a <> sv -> kheap w2 !! a = kheap w1 !! a) /\
    sfs_vnodes w2 = sfs_vnodes w1 /\
    (blocklen < SFS_NDIRECT ->
     sfi_indirect (sv_i v2) = 0 /\
     (sfi_indirect (sv_i v1) <> 0 ->
      sfs_freemap w2 !! Z.to_nat (sfi_indirect (sv_i v1)) = Some false)).
Proof.
  intros Hv1 H.
  pose proof (maxblocks_u32 _ HL) as Hmax. pose proof (ndirect_nonneg _ HL) as Hnd.
  pose proof dbperidb_pos as Hdb.
  assert (Hhigh : u32 (SFS_NDIRECT + SFS_DBPERIDB - 1) = SFS_NDIRECT + SFS_DBPERIDB - 1)
    by (apply u32_small; lia).
  rewrite Hhigh in H.
  destruct ((blocklen <? SFS_NDIRECT + SFS_DBPERIDB - 1)
            && negb (sfi_indirect (sv_i v1) =? 0)) eqn:Hc.
  2:{ inversion H; subst w2. exists v1.
      split; [exact Hv1|]. split; [apply blocks_only_refl|].
      repeat (split; [reflexivity|]).
      intros Hbl. apply andb_false_iff in Hc as [Hc | Hc].
      - apply Z.ltb_ge in Hc. lia.
      - apply negb_false_iff, Z.eqb_eq in Hc. split; [exact Hc | contradiction]. }
  apply andb_true_iff in Hc as [_ Hid]. apply negb_true_iff, Z.eqb_neq in Hid.
  destruct null; [discriminate|].
  apply bind_inv in H as ([data|e] & wa & Hrd & H); [|discriminate].
  pose proof (ticked_fields _ _ (ticked_rblock _ _ _ _ Hrd))
    as (Ta & Fa & _ & _ & Ka & Da & _).
  apply bind_inv in H as (r & wb & Hloop & H).
  destruct (sfs_dotruncate_indirect_spec _ _ _ _ _ _ _ _ _ _ Hloop)
    as (Hfk & Kb & Db & Tb & Hnone).
  assert (Hvb : vnode_at wb sv v1) by (unfold vnode_at; rewrite Kb, Ka; exact Hv1).
  assert (Hfk1 : free_kept w1 wb).
  { intros i Hi. apply Hfk. now rewrite Fa. }
  destruct (negb r.1.2) eqn:Hnz.
  - (* the whole indirect block is empty now *)
    apply bind_inv in H as ([] & wc & Hfree & H).
    pose proof (free_kept_bfree _ _ _ _ Hfree) as Hfkc.
    apply sfs_bfree_inv in Hfree as [Hbit ->].
    match type of H with
    | _ ?W = _ => assert (Hvc : vnode_at W sv v1) by exact Hvb
    end.
    unfold update_inode in H.
    rewrite (bind_ret _ _ _ _ _ (update_at _ _ _ _ Hvc)) in H.
    match type of H with
    | _ (set_kheap (<[_ := Some ?x]> _) ?W) = _ =>
        pose proof (vnode_at_set _ _ _ x Hvc) as Hvd
    end.
    unfold mark_dirty in H.
    rewrite (bind_ret _ _ _ _ _ (update_at _ _ _ _ Hvd)) in H.
    inversion H; subst w2. clear H.
    eexists. split; [eapply vnode_at_set, Hvd|].
    split; [unfold blocks_only; cbn; auto|].
    split; [reflexivity|]. split; [reflexivity|].
    split; [intros i Hi; cbn; apply free_kept_insert, Hfk1, Hi|].
    split; [intros a Ha; cbn; rewrite !list_lookup_insert_ne by auto;
            now rewrite Kb, Ka|].
    split; [cbn; now rewrite Tb, Ta|].
    intros _. split; [reflexivity|]. intros _. cbn.
    apply list_lookup_insert_eq. eapply lookup_lt_Some, Hbit.
  - (* some entry is left *)
    assert (Hrest : free_kept wb w2 /\ kheap w2 = kheap wb /\
                    sfs_vnodes w2 = sfs_vnodes wb).
    { destruct r.2.
      - apply sfs_wblock_inv in H as [(_ & _ & _ & ->) | (e & He & _)];
          [|discriminate].
        split; [intros i Hi; exact Hi | split; reflexivity].
      - inversion H; subst w2. split; [reflexivity | split; reflexivity]. }
    destruct Hrest as (Hfk2 & K2 & T2).
    exists v1. split; [unfold vnode_at; rewrite K2; exact Hvb|].
    split; [apply blocks_only_refl|]. split; [reflexivity|]. split; [reflexivity|].
    split; [intros i Hi; apply Hfk2, Hfk1, Hi|].
    split; [intros a Ha; now rewrite K2, Kb, Ka|].
    split; [now rewrite T2, Tb, Ta|].
    intros Hbl. exfalso.
    rewrite Hnone in Hnz; [discriminate | lia |].
    intros j' Hj'. rewrite Z2Nat.id in Hj' by lia.
    rewrite u32_small by lia. lia.
Qed.

Lemma sfs_dotruncate_spec sv len w v w' :
  vnode_at w sv v ->
  sfs_dotruncate sv len w = Ret (Ok tt) w' ->
  exists v',
    vnode_at w' sv v' /\ blocks_only v v' /\
    sfi_size (sv_i v') = u32 len /\ sv_dirty v' = true /\
    (forall k, 0 <= k < SFS_NDIRECT ->
       nth (Z.to_nat k) (sfi_direct (sv_i v')) 0
       = if u32 (DIVROUNDUP len SFS_BLOCKSIZE) <=? k then 0
         else nth (Z.to_nat k) (sfi_direct (sv_i v)) 0) /\
    (forall k, 0 <= k < SFS_NDIRECT ->
       u32 (DIVROUNDUP len SFS_BLOCKSIZE) <= k ->
       nth (Z.to_nat k) (sfi_direct (sv_i v)) 0 <> 0 ->
       sfs_freemap w' !! Z.to_nat (nth (Z.to_nat k) (sfi_direct (sv_i v)) 0)
       = Some false) /\
    (u32 (DIVROUNDUP len SFS_BLOCKSIZE) < SFS_NDIRECT ->
     sfi_indirect (sv_i v') = 0 /\
     (sfi_indirect (sv_i v) <> 0 ->
      sfs_freemap w' !! Z.to_nat (sfi_indirect (sv_i v)) = Some false)) /\
    free_kept w w' /\
    (forall a, a <> sv -> kheap w' !! a = kheap w !! a) /\
    sfs_vnodes w' = sfs_vnodes w.
Proof.
  intros Hv H. pose proof (ndirect_nonneg _ HL) as Hnd.
  unfold sfs_dotruncate in H.
  apply bind_inv in H as (null & w0 & Hmem & H).
  pose proof (ticked_fields _ _ (ticked_kmalloc _ _ _ Hmem))
    as (T0 & F0 & _ & _ & K0 & _ & _).
  cbv zeta in H. rewrite sfs_bmap_assert_ok in H.
  apply bind_inv in H as ([] & w1 & Hdir & H).
  assert (Hv0 : vnode_at w0 sv v) by (unfold vnode_at; rewrite K0; exact Hv).
  destruct (sfs_dotruncate_direct_spec _ _ _ _ _ _ _ (Z.le_refl 0) Hv0 Hdir)
    as (v1 & Hv1 & Hbo1 & Hsz1 & Hind1 & Hnth1 & Hfreed1 & Hfk1 & Hoth1 & _ & Htab1).
  rewrite (bind_ret _ _ _ _ _ (deref_at _ _ _ Hv1)) in H.
  apply bind_inv in H as ([[]|e] & w2 & Hip & H); [|discriminate].
  destruct (sfs_dotruncate_indirect_part _ _ _ _ _ _ Hv1 Hip)
    as (v2 & Hv2 & Hbo2 & Hsz2 & Hdir2 & Hfk2 & Hoth2 & Htab2 & Hrel).
  unfold update_inode in H.
  rewrite (bind_ret _ _ _ _ _ (update_at _ _ _ _ Hv2)) in H.
  match type of H with
  | _ (set_kheap (<[_ := Some ?x]> _) ?W) = _ =>
      pose proof (vnode_at_set _ _ _ x Hv2) as Hv3
  end.
  unfold mark_dirty in H.
  rewrite (bind_ret _ _ _ _ _ (update_at _ _ _ _ Hv3)) in H.
  inversion H; subst w'. clear H.
  eexists. split; [eapply vnode_at_set, Hv3|].
  split.
  { eapply blocks_only_trans; [exact Hbo1|].
    eapply blocks_only_trans; [exact Hbo2|]. unfold blocks_only; cbn; auto. }
  split; [reflexivity|]. split; [reflexivity|].
  cbn [sv_i set_dirty set_inode sfi_direct set_size sfi_indirect sfs_freemap
       set_kheap kheap sfs_vnodes].
  split; [|split; [|split; [|split; [|split]]]].
  - intros k Hk. rewrite Hdir2, (Hnth1 k) by lia.
    rewrite Z2Nat.id by lia. bool_cases; try lia; reflexivity.
  - intros k Hk Hbl Hnz. apply Hfk2, Hfreed1; [|exact Hbl | exact Hnz].
    rewrite Z2Nat.id by lia. lia.
  - intros Hbl. destruct (Hrel Hbl) as [Hz Hfree]. split; [exact Hz|].
    intros Hid. rewrite <- Hind1. apply Hfree. now rewrite Hind1.
  - intros i Hi. apply Hfk2, Hfk1. now rewrite F0.
  - intros a Ha. rewrite !list_lookup_insert_ne by auto.
    transitivity (kheap w1 !! a); [exact (Hoth2 a Ha)|].
    transitivity (kheap w0 !! a); [exact (Hoth1 a Ha)|]. now rewrite K0.
  - now rewrite Htab2, Htab1, T0.
Qed.

(** X9. When sfs_truncate succeeds, the size of the file is the new
    length (as the 32-bit field holds it) and the inode is dirty; of the
    direct pointers, those of the blocks below the new length in blocks
    are as they were, and every other one is zero and the block it named
    is free in the bitmap.  The inode number, the reference count, the
    type and the link count are as they were. *)
Theorem sfs_truncate_direct_blocks :
  forall (sv : vptr) (len : Z) (w : world) (v : sfs_vnode) (w' : world),
    vnode_at w sv v ->
    sfs_truncate sv len w = Ret (Ok tt) w' ->
    exists v',
      vnode_at w' sv v' /\
      sv_ino v' = sv_ino v /\
      vn_refcount v' = vn_refcount v /\
      sfi_type (sv_i v') = sfi_type (sv_i v) /\
      sfi_linkcount (sv_i v') = sfi_linkcount (sv_i v) /\
      sfi_size (sv_i v') = u32 len /\
      sv_dirty v' = true /\
      (forall k, 0 <= k < SFS_NDIRECT ->
         nth (Z.to_nat k) (sfi_direct (sv_i v')) 0
         = if u32 (DIVROUNDUP len SFS_BLOCKSIZE) <=? k then 0
           else nth (Z.to_nat k) (sfi_direct (sv_i v)) 0) /\
      (forall k, 0 <= k < SFS_NDIRECT ->
         u32 (DIVROUNDUP len SFS_BLOCKSIZE) <= k ->
         nth (Z.to_nat k) (sfi_direct (sv_i v)) 0 <> 0 ->
         sfs_freemap w' !! Z.to_nat (nth (Z.to_nat k) (sfi_direct (sv_i v)) 0)
         = Some false).
Proof.
  intros sv len w v w' Hv H. unfold sfs_truncate in H.
  destruct (sfs_dotruncate_spec _ _ _ _ _ Hv H)
    as (v' & Hv' & (A1 & A2 & A3 & A4) & Hsz & Hd & Hnth & Hfreed & _).
  exists v'. repeat (split; [assumption|]). exact Hfreed.
Qed.

(** X10. When sfs_truncate succeeds with a new length whose number of
    blocks is below SFS_NDIRECT, the file has no indirect block any more:
    the indirect pointer is zero and the block it named is free in the
    bitmap.  And whatever the length, truncation allocates nothing (a
    block that was free is free), leaves every other vnode alone and
    leaves the vnode table as it was. *)
Theorem sfs_truncate_releases_indirect :
  forall (sv : vptr) (len : Z) (w : world) (v : sfs_vnode) (w' : world),
    vnode_at w sv v ->
    sfs_truncate sv len w = Ret (Ok tt) w' ->
    (u32 (DIVROUNDUP len SFS_BLOCKSIZE) < SFS_NDIRECT ->
     (exists v', vnode_at w' sv v' /\ sfi_indirect (sv_i v') = 0) /\
     (sfi_indirect (sv_i v) <> 0 ->
      sfs_freemap w' !! Z.to_nat (sfi_indirect (sv_i v)) = Some false)) /\
    (forall i, sfs_freemap w !! i = Some false -> sfs_freemap w' !! i = Some false) /\
    (forall a, a <> sv -> kheap w' !! a = kheap w !! a) /\
    sfs_vnodes w' = sfs_vnodes w.
Proof.
  intros sv len w v w' Hv H. unfold sfs_truncate in H.
  destruct (sfs_dotruncate_spec _ _ _ _ _ Hv H)
    as (v' & Hv' & _ & _ & _ & _ & _ & Hrel & Hfk & Hoth & Htab).
  split; [|split; [exact Hfk | split; [exact Hoth | exact Htab]]].
  intros Hbl. destruct (Hrel Hbl) as [Hz Hfree].
  split; [exists v'; auto | exact Hfree].
Qed.

(** ** Reclaiming the last reference *)

Lemma table_remove_spec sv table :
  forall table',
    table_remove sv table = Some table' ->
    exists l1 l2, table = l1 ++ sv :: l2 /\ (sv ∉ l1) /\ table' = l1 ++ l2.
Proof.
  induction table as [|x table IH]; intros table' H; cbn in H; [discriminate|].
  destruct (Nat.eqb x sv) eqn:Hx.
  - apply Nat.eqb_eq in Hx as ->. inversion H; subst.
    exists [], table'. split; [reflexivity|]. split; [|reflexivity].
    intros Hin. inversion Hin.
  - apply Nat.eqb_neq in Hx.
    destruct (table_remove sv table) as [t|] eqn:Ht; cbn in H; [|discriminate].
    inversion H; subst. destruct (IH _ eq_refl) as (l1 & l2 & -> & Hnin & ->).
    exists (x :: l1), l2. split; [reflexivity|]. split; [|reflexivity].
    intros Hin. apply elem_of_cons in Hin as [Heq | Hin]; [congruence | auto].
Qed.

(* What sfs_sync_inode leaves of the vnode and of the rest of the state
   when it succeeds. *)
Lemma sfs_sync_inode_ok sv w v w' :
  vnode_at w sv v ->
  sfs_sync_inode sv w = Ret (Ok tt) w' ->
  exists d,
    vnode_at w' sv (set_dirty d v) /\
    sfs_freemap w' = sfs_freemap w /\
    (forall a, a <> sv -> kheap w' !! a = kheap w !! a) /\
    sfs_vnodes w' = sfs_vnodes w /\
    (sv_dirty v = false -> disk w' = disk w) /\
    (sv_dirty v = true ->
     disk w' = <[Z.to_nat (sv_ino v) := enc_inode (sv_i v)]> (disk w)).
Proof.
  intros Hv H. destruct (sfs_sync_inode_inv _ _ _ _ _ Hv H) as [Hclean Hdirty].
  destruct (sv_dirty v) eqn:Hd.
  - destruct (Hdirty eq_refl) as [_ ->]. exists false.
    split; [apply (vnode_at_set (set_disk _ (tick w)) sv v); exact Hv|].
    split; [reflexivity|].
    split; [intros a Ha; cbn; now rewrite list_lookup_insert_ne|].
    split; [reflexivity|]. split; [discriminate | reflexivity].
  - destruct (Hclean eq_refl) as [_ ->]. exists false.
    split; [destruct v; cbn in *; subst; exact Hv|].
    split; [reflexivity|]. split; [intros a Ha; reflexivity|].
    split; [reflexivity|]. split; [intros _; reflexivity | discriminate].
Qed.

(** X11. When sfs_reclaim succeeds on a vnode whose reference count is 1,
    the vnode is gone: its storage is released, its entry (the first one
    for this address) is taken out of the vnode table, and no other vnode
    changes.  For a file that still has links the bitmap is as it was and
    the only block written is that of the inode, and only when the vnode
    was dirty; for a file without links the block of the inode is free in
    the bitmap afterwards. *)
Theorem sfs_reclaim_last_reference :
  forall (sv : vptr) (w : world) (v : sfs_vnode) (w' : world),
    vnode_at w sv v ->
    vn_refcount v = 1 ->
    sfs_reclaim sv w = Ret (Ok tt) w' ->
    kheap w' !! sv = Some None /\
    (forall a, a <> sv -> kheap w' !! a = kheap w !! a) /\
    (exists l1 l2,
       sfs_vnodes w = l1 ++ sv :: l2 /\ (sv ∉ l1) /\ sfs_vnodes w' = l1 ++ l2) /\
    (sfi_linkcount (sv_i v) <> 0 ->
     sfs_freemap w' = sfs_freemap w /\
     (sv_dirty v = false -> disk w' = disk w) /\
     (sv_dirty v = true ->
      disk w' = <[Z.to_nat (sv_ino v) := enc_inode (sv_i v)]> (disk w))) /\
    (sfi_linkcount (sv_i v) = 0 ->
     sfs_freemap w' !! Z.to_nat (sv_ino v) = Some false).
Proof.
  intros sv w v w' Hv Hrc H. unfold sfs_reclaim in H.
  rewrite (bind_ret _ _ _ _ _ (deref_at _ _ _ Hv)) in H.
  rewrite Hrc in H. cbn [Z.eqb Pos.eqb negb] in H.
  apply bind_inv in H as ([[]|e] & w1 & Htr & H); [|discriminate].
  (* the vnode after the truncation, if there was one *)
  assert (Hone : exists v1,
            vnode_at w1 sv v1 /\ blocks_only v v1 /\
            (forall a, a <> sv -> kheap w1 !! a = kheap w !! a) /\
            sfs_vnodes w1 = sfs_vnodes w /\
            (sfi_linkcount (sv_i v) <> 0 -> w1 = w /\ v1 = v)).
  { destruct (sfi_linkcount (sv_i v) =? 0) eqn:Hlc.
    - destruct (sfs_dotruncate_spec _ _ _ _ _ Hv Htr)
        as (v1 & Hv1 & Hbo & _ & _ & _ & _ & _ & _ & Hoth & Htab).
      exists v1. repeat (split; [assumption|]).
      apply Z.eqb_eq in Hlc. intros Hne. contradiction.
    - inversion Htr; subst w1. exists v.
      split; [exact Hv|]. split; [apply blocks_only_refl|]. auto. }
  destruct Hone as (v1 & Hv1 & (I1 & _ & _ & L1) & Hoth1 & Htab1 & Hsame1).
  apply bind_inv in H as ([[]|e] & w2 & Hsync & H); [|discriminate].
  destruct (sfs_sync_inode_ok _ _ _ _ Hv1 Hsync)
    as (d & Hv2 & Hfm2 & Hoth2 & Htab2 & Hclean2 & Hdirty2).
  rewrite (bind_ret _ _ _ _ _ (deref_at _ _ _ Hv2)) in H.
  cbn [sv_i sv_ino set_dirty] in H. rewrite L1, I1 in H.
  apply bind_inv in H as ([] & w3 & Hfree & H).
  assert (Hthree : kheap w3 = kheap w2 /\ sfs_vnodes w3 = sfs_vnodes w2 /\
                   disk w3 = disk w2 /\
                   (sfi_linkcount (sv_i v) <> 0 -> sfs_freemap w3 = sfs_freemap w2) /\
                   (sfi_linkcount (sv_i v) = 0 ->
                    sfs_freemap w3 !! Z.to_nat (sv_ino v) = Some false)).
  { destruct (sfi_linkcount (sv_i v) =? 0) eqn:Hlc.
    - apply sfs_bfree_inv in Hfree as [Hbit ->]. cbn.
      split; [reflexivity|]. split; [reflexivity|]. split; [reflexivity|].
      apply Z.eqb_eq in Hlc.
      split; [intros Hne; contradiction|]. intros _.
      apply list_lookup_insert_eq. eapply lookup_lt_Some, Hbit.
    - inversion Hfree; subst w3.
      split; [reflexivity|]. split; [reflexivity|]. split; [reflexivity|].
      apply Z.eqb_neq in Hlc.
      split; [intros _; reflexivity | intros Hz; contradiction]. }
  destruct Hthree as (K3 & T3 & D3 & Hfm3 & Hbit3).
  erewrite bind_ret in H by reflexivity. cbv beta in H.
  destruct (table_remove sv (sfs_vnodes w3)) as [table'|] eqn:Hrm; [|discriminate].
  unfold bind, modify, ret in H. inversion H; subst w'. clear H.
  cbn [kheap set_kheap set_vnodes sfs_vnodes sfs_freemap disk].
  split.
  { apply list_lookup_insert_eq. rewrite K3. eapply lookup_lt_Some, Hv2. }
  split.
  { intros a Ha. rewrite list_lookup_insert_ne by auto.
    rewrite K3. transitivity (kheap w1 !! a); [exact (Hoth2 a Ha) | exact (Hoth1 a Ha)]. }
  split.
  { destruct (table_remove_spec _ _ _ Hrm) as (l1 & l2 & Hl & Hnin & ->).
    exists l1, l2. split; [|auto]. now rewrite <- Htab1, <- Htab2, <- T3. }
  split.
  - intros Hne. destruct (Hsame1 Hne) as [-> ->].
    split; [now rewrite (Hfm3 Hne), Hfm2|].
    split; intros Hd; rewrite D3; auto.
  - exact Hbit3.
Qed.

(** ** Names in a directory *)

(* What the scan knows at its end about the name it looked for. *)
Lemma findname_scan_spec name es :
  forall i st st',
    0 <= i ->
    findname_scan name es i st = Some st' ->
    match fn_found st with
    | Some hit => fn_found st' = Some hit /\ forall e, e ∈ es -> ~ names e name
    | None =>
        match fn_found st' with
        | None => forall e, e ∈ es -> ~ names e name
        | Some (ino, slot) =>
            i <= slot /\
            exists e,
              es !! Z.to_nat (slot - i) = Some e /\ sfd_ino e = ino /\
              names e name /\
              forall j e', es !! j = Some e' -> names e' name ->
                           j = Z.to_nat (slot - i)
        end
    end.
Proof.
  induction es as [|e es IH]; intros i st st' Hi H; cbn [findname_scan] in H.
  - inversion H; subst. destruct (fn_found st') as [hit|].
    + split; [reflexivity|]. intros e He. inversion He.
    + intros e He. inversion He.
  - (* an entry that does not bear the name is passed *)
    assert (Hpass : forall st0,
              ~ names e name ->
              fn_found st0 = fn_found st ->
              findname_scan name es (i + 1) st0 = Some st' ->
              match fn_found st with
              | Some hit =>
                  fn_found st' = Some hit /\ forall e0, e0 ∈ e :: es -> ~ names e0 name
              | None =>
                  match fn_found st' with
                  | None => forall e0, e0 ∈ e :: es -> ~ names e0 name
                  | Some (ino, slot) =>
                      i <= slot /\
                      exists e0,
                        (e :: es) !! Z.to_nat (slot - i) = Some e0 /\
                        sfd_ino e0 = ino /\ names e0 name /\
                        forall j e', (e :: es) !! j = Some e' -> names e' name ->
                                     j = Z.to_nat (slot - i)
                  end
              end).
    { intros st0 Hnot Hst0 H0.
      pose proof (IH (i + 1) st0 st' ltac:(lia) H0) as Hrec.
      rewrite Hst0 in Hrec.
      assert (Hall : (forall e0, e0 ∈ es -> ~ names e0 name) ->
                     forall e0, e0 ∈ e :: es -> ~ names e0 name).
      { intros Hes e0 He0. apply elem_of_cons in He0 as [-> | He0]; auto. }
      destruct (fn_found st) as [hit|].
      - destruct Hrec as [Hf Hes]. split; [exact Hf | exact (Hall Hes)].
      - destruct (fn_found st') as [[ino slot]|]; [|exact (Hall Hrec)].
        destruct Hrec as (Hslot & e0 & He0 & Hino & Hname & Huniq).
        split; [lia|]. exists e0.
        replace (Z.to_nat (slot - i)) with (S (Z.to_nat (slot - (i + 1)))) by lia.
        split; [exact He0|]. split; [exact Hino|]. split; [exact Hname|].
        intros [|j] e' He' Hn'.
        + cbn in He'. inversion He'; subst e'. contradiction.
        + f_equal. eapply Huniq; eassumption. }
    destruct (sfd_ino e =? SFS_NOINO) eqn:Hino.
    + apply Z.eqb_eq in Hino.
      apply (Hpass (mk_fn (fn_found st) i));
        [intros [Hne _]; contradiction | reflexivity | exact H].
    + apply Z.eqb_neq in Hino.
      destruct (String.eqb (terminate_name (sfd_name e)) name) eqn:Hname.
      * apply String.eqb_eq in Hname.
        destruct (fn_found st) as [hit|]; [discriminate|].
        pose proof (IH (i + 1) _ st' ltac:(lia) H) as Hrec.
        cbn [fn_found] in Hrec. destruct Hrec as [Hf Hes]. rewrite Hf.
        split; [lia|]. exists e. replace (i - i) with 0 by lia.
        split; [reflexivity|]. split; [reflexivity|].
        split; [split; assumption|].
        intros [|j] e' He' Hn'; [reflexivity|]. exfalso.
        cbn in He'. eapply Hes; [eapply list_elem_of_lookup_2, He' | exact Hn'].
      * apply String.eqb_neq in Hname.
        apply (Hpass st);
          [intros [_ Heq]; contradiction | reflexivity | exact H].
Qed.

(* When the name is borne by at most one entry, the scan comes to its
   end. *)
Lemma findname_scan_unique name es :
  forall i st,
    (forall j1 j2 e1 e2,
       es !! j1 = Some e1 -> es !! j2 = Some e2 ->
       names e1 name -> names e2 name -> j1 = j2) ->
    (fn_found st = None \/ forall e, e ∈ es -> ~ names e name) ->
    exists st', findname_scan name es i st = Some st'.
Proof.
  induction es as [|e es IH]; intros i st Huniq Hst; cbn [findname_scan].
  - eauto.
  - assert (Huniq' : forall j1 j2 e1 e2,
              es !! j1 = Some e1 -> es !! j2 = Some e2 ->
              names e1 name -> names e2 name -> j1 = j2).
    { intros j1 j2 e1 e2 H1 H2 N1 N2.
      assert (S j1 = S j2) by (eapply Huniq; eassumption). lia. }
    assert (Hst' : forall st0, fn_found st0 = fn_found st ->
                     fn_found st0 = None \/ forall e0, e0 ∈ es -> ~ names e0 name).
    { intros st0 H0. destruct Hst as [Hn | Hall]; [left; congruence|].
      right. intros e0 He0. apply Hall. now right. }
    destruct (sfd_ino e =? SFS_NOINO) eqn:Hino; [apply IH; auto|].
    destruct (String.eqb (terminate_name (sfd_name e)) name) eqn:Hname;
      [|apply IH; auto].
    apply Z.eqb_neq in Hino. apply String.eqb_eq in Hname.
    assert (Hn : names e name) by (split; assumption).
    destruct Hst as [Hnone | Hall].
    2:{ exfalso. apply (Hall e); [now left | exact Hn]. }
    rewrite Hnone. apply IH; [exact Huniq'|]. right.
    intros e0 He0 Hn0. apply list_elem_of_lookup_1 in He0 as [j Hj].
    assert (0%nat = S j) by (eapply Huniq; [reflexivity | exact Hj | exact Hn | exact Hn0]).
    discriminate.
Qed.

(** X12. On a directory whose entries [es] can be read, what
    sfs_dir_findname returns is right: when it hands back an inode number
    and a slot, the entry of that slot is in use, has that inode number
    and bears the name, and no other slot bears the name; and the only
    error it returns is ENOENT, and then no entry of the directory bears
    the name. *)
Theorem sfs_dir_findname_correct :
  forall (sv : vptr) (name : string) (emptyslot : Z) (w : world) (v : sfs_vnode)
         (es : list sfs_dir) (w1 : world)
         (r : res (Z * Z)) (emptyslot' : Z) (w' : world),
    dir_entries w sv v es w1 ->
    sfs_dir_findname sv name emptyslot w = Ret (r, emptyslot') w' ->
    w' = w1 /\
    match r with
    | Ok (ino, slot) =>
        0 <= slot /\
        exists e,
          es !! Z.to_nat slot = Some e /\
          sfd_ino e = ino /\ ino <> SFS_NOINO /\
          terminate_name (sfd_name e) = name /\
          forall j e', es !! j = Some e' -> names e' name -> j = Z.to_nat slot
    | Err e => e = ENOENT /\ forall e', e' ∈ es -> ~ names e' name
    end.
Proof.
  intros sv name k w v es w1 r k' w' Hdir H.
  rewrite (sfs_dir_findname_scan _ _ _ _ _ _ _ Hdir) in H.
  destruct (findname_scan name es 0 (mk_fn None k)) as [st'|] eqn:Hscan;
    [|discriminate].
  pose proof (findname_scan_spec _ _ _ _ _ (Z.le_refl 0) Hscan) as Hspec.
  cbn [fn_found] in Hspec.
  destruct (fn_found st') as [[ino slot]|]; inversion H; subst; clear H.
  - split; [reflexivity|].
    destruct Hspec as (Hslot & e & He & Hino & [Hact Hname] & Huniq).
    rewrite Z.sub_0_r in He, Huniq.
    split; [exact Hslot|]. exists e. subst ino. auto.
  - split; [reflexivity|]. split; [reflexivity | exact Hspec].
Qed.

(** X13. A directory in which two slots in use bear the same name is
    refused: the scan for that name stops at the assertion that a name is
    found only once. *)
Theorem sfs_dir_findname_duplicate_asserts :
  forall (sv : vptr) (name : string) (emptyslot : Z) (w : world) (v : sfs_vnode)
         (es : list sfs_dir) (w1 : world) (i j : nat) (e1 e2 : sfs_dir),
    dir_entries w sv v es w1 ->
    es !! i = Some e1 -> es !! j = Some e2 -> i <> j ->
    names e1 name -> names e2 name ->
    sfs_dir_findname sv name emptyslot w = Panic P_assert.
Proof.
  intros sv name k w v es w1 i j e1 e2 Hdir H1 H2 Hij N1 N2.
  rewrite (sfs_dir_findname_scan _ _ _ _ _ _ _ Hdir).
  destruct (findname_scan name es 0 (mk_fn None k)) as [st'|] eqn:Hscan;
    [|reflexivity].
  exfalso.
  pose proof (findname_scan_spec _ _ _ _ _ (Z.le_refl 0) Hscan) as Hspec.
  cbn [fn_found] in Hspec.
  destruct (fn_found st') as [[ino slot]|].
  - destruct Hspec as (_ & _ & _ & _ & _ & Huniq).
    apply Hij. rewrite (Huniq i e1 H1 N1), (Huniq j e2 H2 N2). reflexivity.
  - apply (Hspec e1); [eapply list_elem_of_lookup_2, H1 | exact N1].
Qed.

(** *** Operations on a name the directory does not hold *)

Lemma sfs_dir_findname_absent sv name emptyslot w v es w1 :
  dir_entries w sv v es w1 ->
  (forall e, e ∈ es -> ~ names e name) ->
  exists k, sfs_dir_findname sv name emptyslot w = Ret (Err ENOENT, k) w1.
Proof.
  intros Hdir Habs.
  rewrite (sfs_dir_findname_scan _ _ _ _ _ _ _ Hdir).
  destruct (findname_scan_absent name es Habs 0 (mk_fn None emptyslot)) as [k Hk].
  rewrite Hk. cbn [fn_found fn_emptyslot]. eauto.
Qed.

Lemma dir_entries_ticked w sv v es w1 : dir_entries w sv v es w1 -> ticked w w1.
Proof. intros (_ & _ & _ & H). eapply ticked_readdir_range, H. Qed.

(** X14. In a directory whose entries can be read and of which none bears
    the name, sfs_lookup and sfs_remove of that name, and sfs_rename of
    that name in the root directory, fail with ENOENT; no vnode is loaded,
    and the vnodes, the vnode table, the bitmap and the disk are as they
    were. *)
Theorem sfs_absent_name_is_ENOENT :
  forall (sv : vptr) (name : string) (w : world) (v : sfs_vnode)
         (es : list sfs_dir) (w1 : world),
    dir_entries w sv v es w1 ->
    (forall e, e ∈ es -> ~ names e name) ->
    sfs_lookup sv name w = Ret (Err ENOENT) w1 /\
    sfs_remove sv name w = Ret (Err ENOENT) w1 /\
    (sv_ino v = SFS_ROOT_LOCATION ->
     forall n2, sfs_rename sv name sv n2 w = Ret (Err ENOENT) w1) /\
    kheap w1 = kheap w /\ sfs_vnodes w1 = sfs_vnodes w /\
    sfs_freemap w1 = sfs_freemap w /\ disk w1 = disk w.
Proof.
  intros sv name w v es w1 Hdir Habs.
  destruct (sfs_dir_findname_absent sv name (-1) _ _ _ _ Hdir Habs) as [k Hfind].
  assert (Hlook : sfs_lookonce sv name w = Ret (Err ENOENT) w1).
  { unfold sfs_lookonce. now rewrite (bind_ret _ _ _ _ _ Hfind). }
  pose proof (ticked_fields _ _ (dir_entries_ticked _ _ _ _ _ Hdir))
    as (T & F & _ & _ & K & D & _).
  destruct Hdir as (Hv & Htype & _ & _).
  split; [|split; [|split]].
  - unfold sfs_lookup.
    rewrite (bind_ret _ _ _ _ _ (deref_at _ _ _ Hv)), Htype.
    now rewrite (bind_ret _ _ _ _ _ Hlook).
  - unfold sfs_remove. now rewrite (bind_ret _ _ _ _ _ Hlook).
  - intros Hroot n2. unfold sfs_rename. rewrite Nat.eqb_refl. cbn [assert].
    erewrite bind_ret by reflexivity.
    rewrite (bind_ret _ _ _ _ _ (deref_at _ _ _ Hv)).
    apply Z.eqb_eq in Hroot. rewrite Hroot. cbn [assert].
    erewrite bind_ret by reflexivity.
    now rewrite (bind_ret _ _ _ _ _ Hlook).
  - auto.
Qed.

(** *** Operations on a name the directory holds *)

Lemma sfs_dir_findname_present sv name emptyslot w v es w1 i e :
  dir_entries w sv v es w1 ->
  es !! i = Some e -> names e name ->
  (forall j e', es !! j = Some e' -> names e' name -> j = i) ->
  exists k,
    sfs_dir_findname sv name emptyslot w
    = Ret (Ok (sfd_ino e, Z.of_nat i), k) w1.
Proof.
  intros Hdir He Hn Huniq.
  rewrite (sfs_dir_findname_scan _ _ _ _ _ _ _ Hdir).
  destruct (findname_scan_unique name es 0 (mk_fn None emptyslot)) as [st' Hscan].
  { intros j1 j2 e1 e2 H1 H2 N1 N2.
    rewrite (Huniq j1 e1 H1 N1), (Huniq j2 e2 H2 N2). reflexivity. }
  { now left. }
  rewrite Hscan.
  pose proof (findname_scan_spec _ _ _ _ _ (Z.le_refl 0) Hscan) as Hspec.
  cbn [fn_found] in Hspec.
  destruct (fn_found st') as [[ino slot]|].
  - destruct Hspec as (Hslot & e0 & He0 & Hino & _ & Hu).
    rewrite Z.sub_0_r in He0, Hu.
    pose proof (Hu i e He Hn) as Hi. subst i.
    rewrite He in He0. inversion He0; subst e0. subst ino.
    rewrite Z2Nat.id by exact Hslot. eauto.
  - exfalso. apply (Hspec e); [eapply list_elem_of_lookup_2, He | exact Hn].
Qed.

(** X15. In a directory whose entries can be read and of which exactly
    one bears the name: sfs_dir_link and sfs_mkdir of that name fail with
    EEXIST, and so does sfs_creat when EXCL is set, all of them before
    anything is allocated or written; and sfs_creat without EXCL opens the
    file that is there, by loading the vnode of the inode that the entry
    names. *)
Theorem sfs_existing_name_is_EEXIST :
  forall (sv : vptr) (name : string) (w : world) (v : sfs_vnode)
         (es : list sfs_dir) (w1 : world) (i : nat) (e : sfs_dir),
    dir_entries w sv v es w1 ->
    es !! i = Some e -> names e name ->
    (forall j e', es !! j = Some e' -> names e' name -> j = i) ->
    (forall ino, sfs_dir_link sv name ino w = Ret (Err EEXIST) w1) /\
    sfs_mkdir sv name w = Ret (Err EEXIST) w1 /\
    sfs_creat sv name true w = Ret (Err EEXIST) w1 /\
    sfs_creat sv name false w = sfs_loadvnode (sfd_ino e) SFS_TYPE_INVAL w1 /\
    kheap w1 = kheap w /\ sfs_vnodes w1 = sfs_vnodes w /\
    sfs_freemap w1 = sfs_freemap w /\ disk w1 = disk w.
Proof.
  intros sv name w v es w1 i e Hdir He Hn Huniq.
  destruct (sfs_dir_findname_present sv name (-1) _ _ _ _ _ _ Hdir He Hn Huniq)
    as [k Hfind].
  pose proof (ticked_fields _ _ (dir_entries_ticked _ _ _ _ _ Hdir))
    as (T & F & _ & _ & K & D & _).
  destruct Hdir as (Hv & Htype & _ & _).
  split; [|split; [|split; [|split]]].
  - intros ino. unfold sfs_dir_link. now rewrite (bind_ret _ _ _ _ _ Hfind).
  - unfold sfs_mkdir.
    rewrite (bind_ret _ _ _ _ _ (deref_at _ _ _ Hv)), Htype.
    now rewrite (bind_ret _ _ _ _ _ Hfind).
  - unfold sfs_creat. now rewrite (bind_ret _ _ _ _ _ Hfind).
  - unfold sfs_creat. now rewrite (bind_ret _ _ _ _ _ Hfind).
  - auto.
Qed.

(** *** Names that do not fit *)

Lemma substring_length_le m :
  forall s, (String.length (substring 0 m s) <= m)%nat.
Proof.
  induction m as [|m IH]; intros s; destruct s as [|c s]; cbn; try lia.
  specialize (IH s). lia.
Qed.

(** X16. A name that with its terminating NUL does not fit the name
    field of an entry cannot be linked: on a directory whose entries can
    be read, sfs_dir_link, and sfs_link through it, return ENAMETOOLONG
    whatever the directory holds (never EEXIST), and nothing is written;
    the link count of the file is not touched. *)
Theorem sfs_dir_link_name_too_long :
  forall (sv : vptr) (name : string) (ino : Z) (w : world) (v : sfs_vnode)
         (es : list sfs_dir) (w1 : world),
    dir_entries w sv v es w1 ->
    0 < SFS_NAMELEN ->
    SFS_NAMELEN < strlen name + 1 ->
    sfs_dir_link sv name ino w = Ret (Err ENAMETOOLONG) w1 /\
    (forall file f, vnode_at w file f ->
                    sfs_link sv name file w = Ret (Err ENAMETOOLONG) w1) /\
    kheap w1 = kheap w /\ sfs_freemap w1 = sfs_freemap w /\ disk w1 = disk w.
Proof.
  intros sv name ino w v es w1 Hdir Hpos Hlong.
  assert (Habs : forall e, e ∈ es -> ~ names e name).
  { intros e _ [_ Hname]. unfold terminate_name in Hname.
    pose proof (substring_length_le (Z.to_nat (SFS_NAMELEN - 1)) (sfd_name e)) as Hle.
    rewrite Hname in Hle. unfold strlen in Hlong. lia. }
  destruct (sfs_dir_findname_absent sv name (-1) _ _ _ _ Hdir Habs) as [k Hfind].
  assert (Hlink : forall ino0, sfs_dir_link sv name ino0 w = Ret (Err ENAMETOOLONG) w1).
  { intros ino0. unfold sfs_dir_link. rewrite (bind_ret _ _ _ _ _ Hfind).
    cbn [fst snd errno_is_ENOENT negb].
    apply Z.ltb_lt in Hlong. now rewrite Hlong. }
  pose proof (ticked_fields _ _ (dir_entries_ticked _ _ _ _ _ Hdir))
    as (T & F & _ & _ & K & D & _).
  split; [apply Hlink|]. split; [|auto].
  intros file f Hf. unfold sfs_link.
  rewrite (bind_ret _ _ _ _ _ (deref_at _ _ _ Hf)).
  now rewrite (bind_ret _ _ _ _ _ (Hlink _)).
Qed.

(** ** Link counts *)

(** X17. sfs_link on a file other than the directory itself: when it
    succeeds, the link count of the file is one more than it was (in the
    range of the field) and the file's inode is dirty; when it fails, the
    vnode of the file is as it was. *)
Theorem sfs_link_counts_the_link :
  forall (dir file : vptr) (name : string) (w : world) (f : sfs_vnode)
         (r : res unit) (w' : world),
    vnode_at w file f ->
    file <> dir ->
    sfs_link dir name file w = Ret r w' ->
    match r with
    | Ok _ =>
        vnode_at w' file
          (set_dirty true
             (set_inode (set_linkcount
                           ((sfi_linkcount (sv_i f) + 1) mod LINKCOUNT_MOD)
                           (sv_i f)) f))
    | Err _ => vnode_at w' file f
    end.
Proof.
  intros dir file name w f r w' Hf Hne H. unfold sfs_link in H.
  rewrite (bind_ret _ _ _ _ _ (deref_at _ _ _ Hf)) in H.
  apply bind_inv in H as (rl & w1 & Hlink & H).
  pose proof (io_step_other _ _ _ _ _ _ (io_step_dir_link _ _ _ _ _ _ Hlink) Hne Hf)
    as Hf1.
  destruct rl as [slot|e].
  - apply bind_inv in H as ([] & w2 & Hincr & H).
    apply bind_inv in H as ([] & w3 & Hdirty & H).
    inversion H; subst r w'. clear H.
    unfold linkcount_incr, update_inode in Hincr.
    pose proof (update_vnode _ _ _ _ _ Hf1 Hincr) as Hf2. cbv beta in Hf2.
    exact (update_vnode _ _ _ _ _ Hf2 Hdirty).
  - inversion H; subst r w'. exact Hf1.
Qed.

(** ** The vnode table *)

(* The search of the vnode table in sfs_loadvnode. *)
Lemma sfs_loadvnode_search_inv table ino forcetype :
  forall w r w',
    sfs_loadvnode_search table ino forcetype w = Ret r w' ->
    match r with
    | Some a =>
        forcetype = SFS_TYPE_INVAL /\ a ∈ table /\
        exists x,
          vnode_at w a x /\ sv_ino x = ino /\
          w' = set_kheap (<[a := Some (set_refcount (vn_refcount x + 1) x)]> (kheap w)) w
    | None =>
        w' = w /\
        forall b, b ∈ table -> exists y, vnode_at w b y /\ sv_ino y <> ino
    end.
Proof.
  induction table as [|b table IH]; intros w r w' H; cbn [sfs_loadvnode_search] in H.
  - inversion H; subst. split; [reflexivity|]. intros b Hb. inversion Hb.
  - apply bind_inv in H as (v & w0 & Hv & H). apply deref_inv in Hv as [-> Hv].
    apply bind_inv in H as (used & w0 & Hu & H). apply sfs_bused_inv in Hu as ->.
    destruct used; [|discriminate]. cbn [negb] in H.
    destruct (sv_ino v =? ino) eqn:Hino.
    + apply Z.eqb_eq in Hino.
      destruct forcetype; try discriminate.
      cbn [assert] in H. erewrite bind_ret in H by reflexivity.
      unfold VOP_INCREF in H. rewrite (bind_ret _ _ _ _ _ (update_at _ _ _ _ Hv)) in H.
      inversion H; subst. split; [reflexivity|]. split; [now left|].
      exists v. auto.
    + apply Z.eqb_neq in Hino. specialize (IH _ _ _ H).
      destruct r as [a|].
      * destruct IH as (Hft & Ha & Hx). split; [exact Hft|]. split; [now right | exact Hx].
      * destruct IH as [-> Hall]. split; [reflexivity|].
        intros b0 Hb0. apply elem_of_cons in Hb0 as [-> | Hb0]; [eauto | auto].
Qed.

(* What a call of sfs_loadvnode that returns 0 has done. *)
Lemma sfs_loadvnode_inv :
  forall (ino : Z) (forcetype : sfs_type) (w : world) (r : option vptr)
         (w' : world),
    sfs_loadvnode ino forcetype w = Ret (Ok r) w' ->
    disk w' = disk w /\ sfs_freemap w' = sfs_freemap w /\
    match r with
    | Some sv =>
        (forall a, a <> sv -> kheap w' !! a = kheap w !! a) /\
        ((forcetype = SFS_TYPE_INVAL /\
          sv ∈ sfs_vnodes w /\
          sfs_vnodes w' = sfs_vnodes w /\
          exists x,
            vnode_at w sv x /\ sv_ino x = ino /\
            vnode_at w' sv (set_refcount (vn_refcount x + 1) x))
         \/
         ((forall b, b ∈ sfs_vnodes w -> exists y, vnode_at w b y /\ sv_ino y <> ino) /\
          kheap w !! sv = None /\
          sfs_vnodes w' = sfs_vnodes w ++ [sv] /\
          sfs_freemap w !! Z.to_nat ino = Some true /\
          exists data,
            disk w !! Z.to_nat ino = Some data /\
            vnode_at w' sv
              (match forcetype with
               | SFS_TYPE_INVAL => mk_vnode ino (dec_inode data) false 1
               | _ => mk_vnode ino (set_type forcetype (dec_inode data)) true 1
               end) /\
            match forcetype with
            | SFS_TYPE_INVAL =>
                sfi_type (dec_inode data) = SFS_TYPE_FILE \/
                sfi_type (dec_inode data) = SFS_TYPE_DIR
            | SFS_TYPE_FILE | SFS_TYPE_DIR =>
                sfi_type (dec_inode data) = SFS_TYPE_INVAL
            | SFS_TYPE_other _ => False
            end))
    | None =>
        kheap w' = kheap w /\ sfs_vnodes w' = sfs_vnodes w /\
        (forall b, b ∈ sfs_vnodes w -> exists y, vnode_at w b y /\ sv_ino y <> ino) /\
        sfs_freemap w !! Z.to_nat ino = Some true /\
        exists data, disk w !! Z.to_nat ino = Some data
    end.
Proof.
  intros ino ft w r w' H.
  destruct (sfs_loadvnode_reads _ _ _ _ _ H)
    as [(a & Hsearch & Hr) | (Hsearch & [(Hr & _) | (Hbit & [(Hr & _) | Hload])])];
    try discriminate.
  - inversion Hr; subst r. clear Hr.
    apply sfs_loadvnode_search_inv in Hsearch.
    destruct Hsearch as (Hft & Ha & x & Hx & Hino & ->).
    split; [reflexivity|]. split; [reflexivity|].
    split; [intros a' Ha'; cbn; now rewrite list_lookup_insert_ne|].
    left. split; [exact Hft|]. split; [exact Ha|]. split; [reflexivity|].
    exists x. split; [exact Hx|]. split; [exact Hino|].
    eapply vnode_at_set, Hx.
  - apply sfs_loadvnode_search_inv in Hsearch. destruct Hsearch as (_ & Hall).
    destruct Hload as (data & Hdisk & Hty & Hinit).
    apply sfs_loadvnode_init_inv in Hinit.
    destruct r as [sv|].
    + destruct Hinit as (-> & ->). cbn [kheap ticks].
      split; [reflexivity|]. split; [reflexivity|].
      split.
      { intros a Ha. cbn.
        destruct (Nat.lt_ge_cases a (length (kheap w))) as [Hlt | Hge].
        - now rewrite lookup_app_l.
        - rewrite !lookup_ge_None_2; [reflexivity | lia |].
          rewrite length_app. cbn. lia. }
      right. split; [exact Hall|].
      split; [apply lookup_ge_None_2; lia|].
      split; [reflexivity|]. split; [exact Hbit|].
      exists data. split; [exact Hdisk|]. split; [|exact Hty].
      unfold vnode_at. cbn.
      destruct ft; apply list_lookup_middle; reflexivity.
    + destruct Hinit as (-> & _).
      split; [reflexivity|]. split; [reflexivity|].
      split; [reflexivity|]. split; [reflexivity|].
      split; [exact Hall|]. split; [exact Hbit|]. eauto.
Qed.

(** X18. When sfs_loadvnode returns 0 it has either handed back the vnode
    of the table that bears the inode number, with one more reference and
    nothing else changed, or, when no vnode of the table bears the number,
    a new vnode at a fresh address, appended to the table, with one
    reference, the inode number asked for and the inode that the block of
    that number holds (with the type forced when a type is given, which
    the block must not have had; the type is then that of a file or of a
    directory); or it has handed back nothing, which happens when no vnode
    of the table bears the number and the lock of the new vnode could not
    be created: then neither the table nor any vnode has changed.  The
    block is one that the bitmap marks as used.  An inode is never loaded
    twice, and neither the disk nor the bitmap changes. *)
Theorem sfs_loadvnode_shares_or_loads :
  forall (ino : Z) (forcetype : sfs_type) (w : world) (r : option vptr)
         (w' : world),
    sfs_loadvnode ino forcetype w = Ret (Ok r) w' ->
    disk w' = disk w /\ sfs_freemap w' = sfs_freemap w /\
    match r with
    | Some sv =>
        (forall a, a <> sv -> kheap w' !! a = kheap w !! a) /\
        ((forcetype = SFS_TYPE_INVAL /\
          sv ∈ sfs_vnodes w /\
          sfs_vnodes w' = sfs_vnodes w /\
          exists x,
            vnode_at w sv x /\ sv_ino x = ino /\
            vnode_at w' sv (set_refcount (vn_refcount x + 1) x))
         \/
         ((forall b, b ∈ sfs_vnodes w -> exists y, vnode_at w b y /\ sv_ino y <> ino) /\
          kheap w !! sv = None /\
          sfs_vnodes w' = sfs_vnodes w ++ [sv] /\
          sfs_freemap w !! Z.to_nat ino = Some true /\
          exists data,
            disk w !! Z.to_nat ino = Some data /\
            vnode_at w' sv
              (match forcetype with
               | SFS_TYPE_INVAL => mk_vnode ino (dec_inode data) false 1
               | _ => mk_vnode ino (set_type forcetype (dec_inode data)) true 1
               end) /\
            match forcetype with
            | SFS_TYPE_INVAL =>
                sfi_type (dec_inode data) = SFS_TYPE_FILE \/
                sfi_type (dec_inode data) = SFS_TYPE_DIR
            | SFS_TYPE_FILE | SFS_TYPE_DIR =>
                sfi_type (dec_inode data) = SFS_TYPE_INVAL
            | SFS_TYPE_other _ => False
            end))
    | None =>
        kheap w' = kheap w /\ sfs_vnodes w' = sfs_vnodes w /\
        (forall b, b ∈ sfs_vnodes w -> exists y, vnode_at w b y /\ sv_ino y <> ino) /\
        sfs_freemap w !! Z.to_nat ino = Some true /\
        exists data, disk w !! Z.to_nat ino = Some data
    end.
Proof.
  intros ino forcetype w r w' H. now apply sfs_loadvnode_inv.
Qed.

(** ** References *)


Lemma heap_restore w sv v x :
  vnode_at w sv v ->
  set_kheap (<[sv := Some v]> (kheap (set_kheap (<[sv := Some x]> (kheap w)) w)))
            (set_kheap (<[sv := Some x]> (kheap w)) w) = w.
Proof.
  intros Hv. destruct w. unfold vnode_at in Hv. unfold set_kheap. cbn in *.
  f_equal. rewrite list_insert_insert_eq. now apply list_insert_id.
Qed.

(** X19. sfs_lookparent on a vnode that is referenced: on a vnode that
    is not a directory it returns ENOTDIR, and for a path that with its
    NUL does not fit the caller's buffer ENAMETOOLONG, and in both cases
    the reference it took is given back and the state is as before;
    otherwise it hands back the same vnode with one more reference,
    together with the path as the name. *)
Theorem sfs_lookparent_reference :
  forall (sv : vptr) (path : string) (buflen : Z) (w : world) (v : sfs_vnode),
    vnode_at w sv v ->
    0 < vn_refcount v ->
    (sfi_type (sv_i v) <> SFS_TYPE_DIR ->
     sfs_lookparent sv path buflen w = Ret (Err ENOTDIR) w) /\
    (sfi_type (sv_i v) = SFS_TYPE_DIR -> buflen < strlen path + 1 ->
     sfs_lookparent sv path buflen w = Ret (Err ENAMETOOLONG) w) /\
    (sfi_type (sv_i v) = SFS_TYPE_DIR -> strlen path + 1 <= buflen ->
     sfs_lookparent sv path buflen w
     = Ret (Ok (sv, path))
           (set_kheap (<[sv := Some (set_refcount (vn_refcount v + 1) v)]> (kheap w)) w)).
Proof.
  intros sv path buflen w v Hv Hrc.
  set (v1 := set_refcount (vn_refcount v + 1) v).
  set (w1 := set_kheap (<[sv := Some v1]> (kheap w)) w).
  assert (Hinc : VOP_INCREF sv w = Ret tt w1)
    by exact (update_at _ _ _ (fun v => set_refcount (vn_refcount v + 1) v) Hv).
  assert (Hv1 : vnode_at w1 sv v1) by (eapply vnode_at_set, Hv).
  assert (Hdec : VOP_DECREF sv w1 = Ret tt w).
  { rewrite (VOP_DECREF_shared _ _ _ Hv1) by (cbn; lia).
    f_equal. cbn [vn_refcount v1 set_refcount].
    replace (vn_refcount v + 1 - 1) with (vn_refcount v) by lia.
    replace (set_refcount (vn_refcount v) v1) with v
      by (destruct v; reflexivity).
    now apply heap_restore. }
  unfold sfs_lookparent.
  rewrite (bind_ret _ _ _ _ _ Hinc), (bind_ret _ _ _ _ _ (deref_at _ _ _ Hv1)).
  cbn [sv_i v1 set_refcount].
  split; [|split].
  - intros Hnd. destruct (sfi_type (sv_i v)); try contradiction;
      now rewrite (bind_ret _ _ _ _ _ Hdec).
  - intros Hd Hlong. rewrite Hd. apply Z.ltb_lt in Hlong. rewrite Hlong.
    now rewrite (bind_ret _ _ _ _ _ Hdec).
  - intros Hd Hfit. rewrite Hd. apply Z.ltb_ge in Hfit. now rewrite Hfit.
Qed.

(** ** Lookup writes nothing *)

#[local] Instance no_write_refl : Reflexive no_write.
Proof. intros w. unfold no_write. auto. Qed.

#[local] Instance no_write_trans : Transitive no_write.
Proof.
  unfold no_write. intros w1 w2 w3 (A1 & A2 & A3) (B1 & B2 & B3).
  repeat split; congruence.
Qed.

Lemma no_write_of_ticked {A} (m : M A) : steps ticked m -> steps no_write m.
Proof. apply steps_weaken. intros w w' [k ->]. unfold no_write. auto. Qed.

Lemma no_write_update sv f : steps no_write (update sv f).
Proof.
  intros w a w' H. unfold update in H.
  apply bind_inv in H as (v & w1 & H1 & H2). apply deref_inv in H1 as [-> Hv].
  unfold store in H2. destruct (kheap w !! sv) as [[x|]|]; inversion H2.
  unfold no_write. auto.
Qed.

Lemma no_write_modify f :
  (forall w, disk (f w) = disk w /\ sfs_freemap (f w) = sfs_freemap w /\
             sfs_freemapdirty (f w) = sfs_freemapdirty w) ->
  steps no_write (modify f).
Proof. intros Hf w a w' H. inversion H; subst. apply Hf. Qed.

Lemma no_write_loadvnode_search table ino forcetype :
  steps no_write (sfs_loadvnode_search table ino forcetype).
Proof.
  induction table as [|b table IH]; cbn [sfs_loadvnode_search].
  - apply steps_ret; typeclasses eauto.
  - unfold VOP_INCREF.
    steps_go;
      first [ apply no_write_of_ticked, ticked_bused
            | apply no_write_update | apply IH ].
Qed.

Lemma no_write_loadvnode ino forcetype :
  steps no_write (sfs_loadvnode ino forcetype).
Proof.
  unfold sfs_loadvnode, sfs_loadvnode_init, kheap_new, VOP_INIT, lock_create.
  steps_go;
    first [ apply no_write_loadvnode_search
          | apply no_write_of_ticked;
            first [apply ticked_kmalloc | apply ticked_bused | apply ticked_rblock]
          | apply no_write_modify; intros w; unfold no_write; cbn; auto ].
Qed.

(** X20. sfs_lookup reads: whatever it returns, the disk and the bitmap
    are as they were.  (It may load a vnode and it takes a reference.) *)
Theorem sfs_lookup_writes_nothing :
  forall (sv : vptr) (path : string) (w : world) (r : res vptr) (w' : world),
    sfs_lookup sv path w = Ret r w' ->
    disk w' = disk w /\
    sfs_freemap w' = sfs_freemap w /\
    sfs_freemapdirty w' = sfs_freemapdirty w.
Proof.
  intros sv path w r w'.
  assert (Hs : steps no_write (sfs_lookup sv path)); [|apply Hs].
  unfold sfs_lookup, sfs_lookonce, the_object.
  steps_go;
    first [ apply no_write_of_ticked, ticked_dir_findname
          | apply no_write_loadvnode ].
Qed.

(** ** Removing a name of a file that is in use *)

(** X21. sfs_remove of a name whose file, after the lookup, has other
    references: the reference that the lookup took is given back whether
    or not the entry could be erased; when the entry was erased the link
    count, which the code asserts to be positive, is one less and the
    inode is dirty, and when it could not be erased the link count is as
    it was. *)
Theorem sfs_remove_gives_back_reference :
  forall (dir victim : vptr) (name : string) (slot : Z) (x : sfs_vnode)
         (w w1 : world) (r : res unit) (w' : world),
    sfs_lookonce dir name w = Ret (Ok (victim, slot)) w1 ->
    victim <> dir ->
    vnode_at w1 victim x ->
    1 < vn_refcount x ->
    sfs_remove dir name w = Ret r w' ->
    match r with
    | Ok _ =>
        0 < sfi_linkcount (sv_i x) /\
        vnode_at w' victim
          (mk_vnode (sv_ino x)
             (set_linkcount ((sfi_linkcount (sv_i x) - 1) mod LINKCOUNT_MOD) (sv_i x))
             true (vn_refcount x - 1))
    | Err _ => vnode_at w' victim (set_refcount (vn_refcount x - 1) x)
    end.
Proof.
  intros dir victim name slot x w w1 r w' Hlook Hne Hx Hrc H.
  unfold sfs_remove in H. rewrite (bind_ret _ _ _ _ _ Hlook) in H.
  cbn [fst snd] in H.
  apply bind_inv in H as (result & w2 & Hunlink & H).
  pose proof (io_step_other _ _ _ _ _ _ (io_step_dir_unlink _ _ _ _ _ Hunlink) Hne Hx)
    as Hx2.
  apply bind_inv in H as ([] & w3 & Hcount & H).
  apply bind_inv in H as ([] & w4 & Hdec & H).
  inversion H; subst r w4. clear H.
  destruct result as [[]|e].
  - rewrite (bind_ret _ _ _ _ _ (deref_at _ _ _ Hx2)) in Hcount.
    destruct (0 <? sfi_linkcount (sv_i x)) eqn:Hpos; [|discriminate].
    apply Z.ltb_lt in Hpos. cbn [assert] in Hcount.
    erewrite bind_ret in Hcount by reflexivity.
    apply bind_inv in Hcount as ([] & wa & Hlc & Hdirty).
    unfold linkcount_decr, update_inode in Hlc.
    pose proof (update_vnode _ _ _ _ _ Hx2 Hlc) as Hxa. cbv beta in Hxa.
    pose proof (update_vnode _ _ _ _ _ Hxa Hdirty) as Hx3.
    rewrite (VOP_DECREF_shared _ _ _ Hx3) in Hdec by exact Hrc.
    inversion Hdec; subst w'. split; [exact Hpos|].
    eapply vnode_at_set, Hx3.
  - inversion Hcount; subst w3.
    rewrite (VOP_DECREF_shared _ _ _ Hx2) in Hdec by exact Hrc.
    inversion Hdec; subst w'. eapply vnode_at_set, Hx2.
Qed.

(** ** Bytes written and bytes read *)

(* A transfer that lies within one block and is not a whole block is one
   call of sfs_partialio. *)
Lemma sfs_io_transfer_single sv u w u' w' :
  0 <= uio_offset u -> 0 < uio_resid u < 2 ^ 32 ->
  uio_offset u mod SFS_BLOCKSIZE + uio_resid u <= SFS_BLOCKSIZE ->
  (uio_offset u mod SFS_BLOCKSIZE <> 0 \/ uio_resid u < SFS_BLOCKSIZE) ->
  sfs_partialio sv u (uio_offset u mod SFS_BLOCKSIZE) (uio_resid u) w
  = Ret (Ok tt, u') w' ->
  uio_resid u' = 0 ->
  sfs_io_transfer sv u w = Ret (Ok tt, u') w'.
Proof.
  intros Hoff Hres Hfit Hone Hp Hdone.
  pose proof (blocksize_pos _ HL) as Hbs. pose proof (blocksize_u32 _ HL) as Hbs32.
  pose proof (Z.mod_pos_bound (uio_offset u) SFS_BLOCKSIZE Hbs) as Hblk.
  unfold sfs_io_transfer.
  rewrite Z.rem_mod_nonneg by lia. rewrite (u32_small (_ mod _)) by lia.
  destruct (uio_offset u mod SFS_BLOCKSIZE =? 0) eqn:Hal; cbn [negb].
  - apply Z.eqb_eq in Hal. rewrite Hal in Hp, Hone.
    erewrite bind_ret by reflexivity. cbn [fst snd].
    assert (H0 : (uio_resid u =? 0) = false) by (apply Z.eqb_neq; lia).
    rewrite H0, Z.rem_mod_nonneg, Hal by lia. cbn [Z.eqb assert].
    erewrite bind_ret by reflexivity.
    assert (Hq : uio_resid u / SFS_BLOCKSIZE = 0) by (apply Z.div_small; lia).
    rewrite Hq, (u32_small 0) by lia. cbn [Z.to_nat sfs_io_blocks].
    erewrite bind_ret by reflexivity. cbn [fst snd].
    assert (H1 : (uio_resid u <? SFS_BLOCKSIZE) = true) by (apply Z.ltb_lt; lia).
    assert (H2 : (0 <? uio_resid u) = true) by (apply Z.ltb_lt; lia).
    rewrite H1. cbn [assert]. erewrite bind_ret by reflexivity.
    rewrite H2, u32_small by lia. exact Hp.
  - apply Z.eqb_neq in Hal.
    rewrite (u32_small (SFS_BLOCKSIZE - _)) by lia.
    assert (Hlen : (if uio_resid u <? SFS_BLOCKSIZE - uio_offset u mod SFS_BLOCKSIZE
                    then u32 (uio_resid u)
                    else SFS_BLOCKSIZE - uio_offset u mod SFS_BLOCKSIZE)
                   = uio_resid u).
    { destruct (Z.ltb_spec (uio_resid u)
                  (SFS_BLOCKSIZE - uio_offset u mod SFS_BLOCKSIZE));
        [apply u32_small; lia | lia]. }
    rewrite Hlen, (bind_ret _ _ _ _ _ Hp). cbn [fst snd].
    apply Z.eqb_eq in Hdone. now rewrite Hdone.
Qed.

Lemma sfs_bmap_direct_set sv v w fileblock doalloc :
  vnode_at w sv v ->
  0 <= fileblock < SFS_NDIRECT ->
  block_ok w (nth (Z.to_nat fileblock) (sfi_direct (sv_i v)) 0) ->
  sfs_bmap sv fileblock doalloc w
  = Ret (Ok (nth (Z.to_nat fileblock) (sfi_direct (sv_i v)) 0)) w.
Proof.
  intros Hv Hfb Hb. unfold sfs_bmap. rewrite sfs_bmap_assert_ok.
  assert (Hlt : (fileblock <? SFS_NDIRECT) = true) by (apply Z.ltb_lt; lia).
  rewrite Hlt, (bind_ret _ _ _ _ _ (deref_at _ _ _ Hv)).
  assert (Hnz : (nth (Z.to_nat fileblock) (sfi_direct (sv_i v)) 0 =? 0) = false)
    by (apply Z.eqb_neq; destruct Hb as [? _]; lia).
  rewrite Hnz. cbn [andb]. erewrite bind_ret by reflexivity. cbv beta iota.
  rewrite (bind_ret _ _ _ _ _ (check_block_used_ok _ _ (or_intror Hb))).
  reflexivity.
Qed.

Lemma uiomove_write_ok ptr n u w :
  fault_free w -> uio_rw u = UIO_WRITE -> 0 < n <= uio_resid u ->
  uiomove ptr n u w
  = Ret (Ok tt,
         take (Z.to_nat n) (uio_data u)
           ++ drop (length (take (Z.to_nat n) (uio_data u))) ptr,
         mk_uio (uio_offset u + n) (uio_resid u - n) UIO_WRITE
                (drop (Z.to_nat n) (uio_data u))) (ticks 1 w).
Proof.
  intros Hf Hrw Hn. unfold uiomove.
  rewrite Z.min_l by lia.
  assert (H0 : (n <=? 0) = false) by (apply Z.leb_gt; lia).
  rewrite H0, (bind_ret _ _ _ _ _ (env_request_ok _ _ Hf)), Hrw.
  reflexivity.
Qed.

Lemma sfs_wblock_ok data block w :
  fault_free w -> (Z.to_nat block < length (disk w))%nat ->
  sfs_wblock data block w
  = Ret (Ok tt) (set_disk (<[Z.to_nat block := data]> (disk w)) (ticks 1 w)).
Proof.
  intros Hf Hlen. unfold sfs_wblock.
  rewrite (bind_ret _ _ _ _ _ (env_request_ok _ _ Hf)).
  unfold gets, modify, bind, ret. cbn [disk ticks orb].
  apply Nat.ltb_lt in Hlen. rewrite Hlen. reflexivity.
Qed.


Lemma sfs_partialio_write_ok sv v w u skipstart len old :
  vnode_at w sv v -> fault_free w ->
  uio_rw u = UIO_WRITE ->
  0 <= uio_offset u -> uio_offset u / SFS_BLOCKSIZE < SFS_NDIRECT ->
  block_ok w (nth (Z.to_nat (uio_offset u / SFS_BLOCKSIZE)) (sfi_direct (sv_i v)) 0) ->
  disk w !! Z.to_nat (nth (Z.to_nat (uio_offset u / SFS_BLOCKSIZE))
                          (sfi_direct (sv_i v)) 0) = Some old ->
  0 <= skipstart -> 0 < len <= uio_resid u ->
  skipstart + len <= SFS_BLOCKSIZE ->
  sfs_partialio sv u skipstart len w
  = Ret (Ok tt,
         mk_uio (uio_offset u + len) (uio_resid u - len) UIO_WRITE
                (drop (Z.to_nat len) (uio_data u)))
        (set_disk
           (<[Z.to_nat (nth (Z.to_nat (uio_offset u / SFS_BLOCKSIZE))
                            (sfi_direct (sv_i v)) 0)
              := take (Z.to_nat skipstart) old
                 ++ (take (Z.to_nat len) (uio_data u)
                     ++ drop (length (take (Z.to_nat len) (uio_data u)))
                             (drop (Z.to_nat skipstart) old))]> (disk w))
           (ticks 4 w)).
Proof.
  intros Hv Hf Hrw Hoff Hdir Hb Hold Hskip Hlen Hfit.
  destruct (direct_position _ Hoff Hdir) as [Hfb Hq].
  set (b := nth (Z.to_nat (uio_offset u / SFS_BLOCKSIZE)) (sfi_direct (sv_i v)) 0) in *.
  unfold sfs_partialio, kmalloc.
  rewrite (bind_ret _ _ _ _ _ (env_request_ok _ _ Hf)).
  assert (Hwr : is_write u = true) by (unfold is_write; now rewrite Hrw).
  pose proof (blocksize_u32 _ HL) as Hbs32.
  assert (Hassert : (u32 (skipstart + len) <=? SFS_BLOCKSIZE) = true)
    by (rewrite u32_small by lia; apply Z.leb_le; lia).
  assert (Hin : (SFS_BLOCKSIZE <? skipstart + len) = false) by (apply Z.ltb_ge; lia).
  rewrite Hwr, Hassert. cbn [assert negb].
  erewrite bind_ret by reflexivity.
  rewrite Hfb.
  assert (Hv1 : vnode_at (ticks 1 w) sv v) by exact Hv.
  assert (Hb1 : block_ok (ticks 1 w) b) by exact Hb.
  rewrite (bind_ret _ _ _ _ _ (sfs_bmap_direct_set _ _ _ _ true Hv1 (conj Hq Hdir) Hb1)).
  assert (Hnz : (b =? 0) = false) by (apply Z.eqb_neq; destruct Hb as [? _]; lia).
  cbv beta iota. fold b. rewrite Hnz.
  assert (Hf1 : fault_free (ticks 1 w)) by exact Hf.
  rewrite (bind_ret _ _ _ _ _ (sfs_rblock_ok _ _ _ Hf1 Hold)), Hin.
  assert (Hf2 : fault_free (ticks 1 (ticks 1 w))) by exact Hf.
  rewrite (bind_ret _ _ _ _ _ (uiomove_write_ok _ _ _ _ Hf2 Hrw Hlen)).
  cbn [fst snd is_write uio_rw].
  assert (Hf3 : fault_free (ticks 1 (ticks 1 (ticks 1 w)))) by exact Hf.
  assert (Hlt : (Z.to_nat b < length (disk (ticks 1 (ticks 1 (ticks 1 w)))))%nat)
    by (eapply lookup_lt_Some, Hold).
  rewrite (bind_ret _ _ _ _ _ (sfs_wblock_ok _ _ _ Hf3 Hlt)).
  reflexivity.
Qed.

Lemma sfs_partialio_read_data sv v w u skipstart len blk :
  vnode_at w sv v -> fault_free w ->
  uio_rw u = UIO_READ ->
  0 <= uio_offset u -> uio_offset u / SFS_BLOCKSIZE < SFS_NDIRECT ->
  block_ok w (nth (Z.to_nat (uio_offset u / SFS_BLOCKSIZE)) (sfi_direct (sv_i v)) 0) ->
  disk w !! Z.to_nat (nth (Z.to_nat (uio_offset u / SFS_BLOCKSIZE))
                          (sfi_direct (sv_i v)) 0) = Some blk ->
  0 <= skipstart -> 0 < len <= uio_resid u ->
  skipstart + len <= SFS_BLOCKSIZE ->
  sfs_partialio sv u skipstart len w
  = Ret (Ok tt,
         mk_uio (uio_offset u + len) (uio_resid u - len) UIO_READ
                (uio_data u ++ take (Z.to_nat len) (drop (Z.to_nat skipstart) blk)))
        (ticks 3 w).
Proof.
  intros Hv Hf Hrw Hoff Hdir Hb Hblk Hskip Hlen Hfit.
  destruct (direct_position _ Hoff Hdir) as [Hfb Hq].
  set (b := nth (Z.to_nat (uio_offset u / SFS_BLOCKSIZE)) (sfi_direct (sv_i v)) 0) in *.
  unfold sfs_partialio, kmalloc.
  rewrite (bind_ret _ _ _ _ _ (env_request_ok _ _ Hf)).
  assert (Hwr : is_write u = false) by (unfold is_write; now rewrite Hrw).
  pose proof (blocksize_u32 _ HL) as Hbs32.
  assert (Hassert : (u32 (skipstart + len) <=? SFS_BLOCKSIZE) = true)
    by (rewrite u32_small by lia; apply Z.leb_le; lia).
  assert (Hin : (SFS_BLOCKSIZE <? skipstart + len) = false) by (apply Z.ltb_ge; lia).
  rewrite Hwr, Hassert. cbn [assert negb].
  erewrite bind_ret by reflexivity.
  rewrite Hfb.
  assert (Hv1 : vnode_at (ticks 1 w) sv v) by exact Hv.
  assert (Hb1 : block_ok (ticks 1 w) b) by exact Hb.
  rewrite (bind_ret _ _ _ _ _ (sfs_bmap_direct_set _ _ _ _ false Hv1 (conj Hq Hdir) Hb1)).
  assert (Hnz : (b =? 0) = false) by (apply Z.eqb_neq; destruct Hb as [? _]; lia).
  cbv beta iota. fold b. rewrite Hnz.
  assert (Hf1 : fault_free (ticks 1 w)) by exact Hf.
  rewrite (bind_ret _ _ _ _ _ (sfs_rblock_ok _ _ _ Hf1 Hblk)), Hin.
  assert (Hf2 : fault_free (ticks 1 (ticks 1 w))) by exact Hf.
  rewrite (bind_ret _ _ _ _ _ (uiomove_read_ok _ _ _ _ Hf2 Hrw Hlen)).
  cbn [fst snd is_write uio_rw]. reflexivity.
Qed.

Lemma sfs_write_single_block sv v w off data old :
  let n := Z.of_nat (length data) in
  let b := nth (Z.to_nat (off / SFS_BLOCKSIZE)) (sfi_direct (sv_i v)) 0 in
  let skip := off mod SFS_BLOCKSIZE in
  vnode_at w sv v -> fault_free w ->
  0 <= off -> 0 < n -> off + n < 2 ^ 32 ->
  skip + n <= SFS_BLOCKSIZE -> (skip <> 0 \/ n < SFS_BLOCKSIZE) ->
  off / SFS_BLOCKSIZE < SFS_NDIRECT ->
  block_ok w b -> disk w !! Z.to_nat b = Some old ->
  exists w1 v1,
    sfs_write sv (mk_uio off n UIO_WRITE data) w
    = Ret (Ok tt, mk_uio (off + n) 0 UIO_WRITE []) w1 /\
    disk w1 = <[Z.to_nat b := take (Z.to_nat skip) old ++ data
                              ++ drop (Z.to_nat (skip + n)) old]> (disk w) /\
    sfs_freemap w1 = sfs_freemap w /\ sp_nblocks w1 = sp_nblocks w /\
    fault_free w1 /\
    vnode_at w1 sv v1 /\
    sfi_direct (sv_i v1) = sfi_direct (sv_i v) /\
    sfi_size (sv_i v1)
    = (if s32 (sfi_size (sv_i v)) <? off + n then off + n else sfi_size (sv_i v)).
Proof.
  intros n b skip Hv Hf Hoff Hn H32 Hfit Hone Hdir Hb Hold.
  pose proof (blocksize_pos _ HL) as Hbs. pose proof (blocksize_u32 _ HL) as Hbs32.
  pose proof (Z.mod_pos_bound off SFS_BLOCKSIZE Hbs) as Hblk. fold skip in Hblk.
  assert (Hlen : Z.to_nat n = length data) by apply Nat2Z.id.
  pose proof (sfs_partialio_write_ok sv v w (mk_uio off n UIO_WRITE data) skip n old
                Hv Hf eq_refl Hoff Hdir Hb Hold ltac:(lia)
                ltac:(cbn [uio_resid]; lia) Hfit) as Hp.
  cbn [uio_offset uio_resid uio_data] in Hp. fold b in Hp.
  rewrite Hlen, firstn_all, drop_all, drop_drop, Z.sub_diag in Hp.
  replace (Z.to_nat skip + length data)%nat with (Z.to_nat (skip + n)) in Hp
    by (rewrite Z2Nat.inj_add, Hlen by lia; reflexivity).
  pose proof (sfs_io_transfer_single sv (mk_uio off n UIO_WRITE data) w _ _
                Hoff ltac:(cbn [uio_resid]; lia) Hfit Hone Hp eq_refl) as Ht.
  unfold sfs_write, sfs_io, sfs_io_eof. cbn [is_write uio_rw assert].
  erewrite bind_ret by reflexivity. erewrite bind_ret by reflexivity.
  cbv beta iota. rewrite (bind_ret _ _ _ _ _ Ht). cbv zeta. cbn [fst snd].
  set (wA := set_disk
                (<[Z.to_nat b := take (Z.to_nat skip) old ++ data
                                 ++ drop (Z.to_nat (skip + n)) old]> (disk w))
                (ticks 4 w)) in *.
  assert (HvA : vnode_at wA sv v) by exact Hv.
  rewrite (bind_ret _ _ _ _ _ (deref_at _ _ _ HvA)).
  cbn [is_write uio_rw uio_offset uio_resid andb set_resid uio_data].
  rewrite Z.add_0_r.
  destruct (s32 (sfi_size (sv_i v)) <? off + n).
  - set (v1 := set_inode (set_size (u32 (off + n)) (sv_i v)) v).
    set (w1 := set_kheap (<[sv := Some v1]> (kheap wA)) wA).
    assert (Hv1 : vnode_at w1 sv v1) by (eapply vnode_at_set, HvA).
    assert (Hup : (update_inode sv (set_size (u32 (off + n))) ;; mark_dirty sv) wA
                  = Ret tt (set_kheap (<[sv := Some (set_dirty true v1)]> (kheap w1)) w1)).
    { unfold update_inode, mark_dirty.
      rewrite (bind_ret _ _ _ _ _
                 (update_at _ _ _ (fun v => set_inode (set_size (u32 (off + n)) (sv_i v)) v)
                            HvA)).
      now apply update_at. }
    rewrite (bind_ret _ _ _ _ _ Hup).
    eexists. exists (set_dirty true v1). split; [reflexivity|].
    repeat split; try exact Hf.
    + eapply vnode_at_set, Hv1.
    + cbn. apply u32_small. lia.
  - erewrite bind_ret by reflexivity.
    exists wA, v. split; [reflexivity|].
    repeat split; try exact Hf; try exact Hv.
Qed.

Lemma sfs_read_single_block sv v w off n pre blk :
  let b := nth (Z.to_nat (off / SFS_BLOCKSIZE)) (sfi_direct (sv_i v)) 0 in
  let skip := off mod SFS_BLOCKSIZE in
  vnode_at w sv v -> fault_free w ->
  0 <= off -> 0 < n -> off + n <= s32 (sfi_size (sv_i v)) ->
  skip + n <= SFS_BLOCKSIZE -> (skip <> 0 \/ n < SFS_BLOCKSIZE) ->
  off / SFS_BLOCKSIZE < SFS_NDIRECT ->
  block_ok w b -> disk w !! Z.to_nat b = Some blk ->
  sfs_read sv (mk_uio off n UIO_READ pre) w
  = Ret (Ok tt, mk_uio (off + n) 0 UIO_READ
                  (pre ++ take (Z.to_nat n) (drop (Z.to_nat skip) blk)))
        (ticks 3 w).
Proof.
  intros b skip Hv Hf Hoff Hn Hend Hfit Hone Hdir Hb Hblk.
  pose proof (blocksize_pos _ HL) as Hbs. pose proof (blocksize_u32 _ HL) as Hbs32.
  pose proof (Z.mod_pos_bound off SFS_BLOCKSIZE Hbs) as Hblk'. fold skip in Hblk'.
  assert (Hs : - 2 ^ 31 <= s32 (sfi_size (sv_i v)) < 2 ^ 31).
  { unfold s32.
    pose proof (Z.mod_pos_bound (sfi_size (sv_i v) + 2 ^ 31) (2 ^ 32) ltac:(lia)).
    lia. }
  pose proof (sfs_partialio_read_data sv v w (mk_uio off n UIO_READ pre) skip n blk
                Hv Hf eq_refl Hoff Hdir Hb Hblk ltac:(lia)
                ltac:(cbn [uio_resid]; lia) Hfit) as Hp.
  cbn [uio_offset uio_resid uio_data] in Hp. rewrite Z.sub_diag in Hp.
  pose proof (sfs_io_transfer_single sv (mk_uio off n UIO_READ pre) w _ _
                Hoff ltac:(cbn [uio_resid]; lia) Hfit Hone Hp eq_refl) as Ht.
  assert (H1 : (s32 (sfi_size (sv_i v)) <=? off) = false) by (apply Z.leb_gt; lia).
  assert (H2 : (s32 (sfi_size (sv_i v)) <? off + n) = false) by (apply Z.ltb_ge; lia).
  assert (Heof : sfs_io_eof sv (mk_uio off n UIO_READ pre) w
                 = Ret (Some (0, mk_uio off n UIO_READ pre)) w).
  { unfold sfs_io_eof. cbn [uio_rw].
    rewrite (bind_ret _ _ _ _ _ (deref_at _ _ _ Hv)).
    cbn [uio_offset uio_resid].
    rewrite (s32_small (off + n)) by lia.
    now rewrite H1, H2. }
  unfold sfs_read, sfs_io. cbn [is_write uio_rw assert negb].
  erewrite bind_ret by reflexivity.
  rewrite (bind_ret _ _ _ _ _ Heof). cbv beta iota.
  rewrite (bind_ret _ _ _ _ _ Ht). cbv zeta. cbn [fst snd].
  assert (HvA : vnode_at (ticks 3 w) sv v) by exact Hv.
  rewrite (bind_ret _ _ _ _ _ (deref_at _ _ _ HvA)).
  cbn [is_write uio_rw uio_offset uio_resid andb set_resid uio_data].
  erewrite bind_ret by reflexivity. rewrite Z.add_0_r. reflexivity.
Qed.

(** X22. A write through sfs_write of bytes that lie inside one direct
    block which the file already has and that end below 2^31, on a device
    that serves every request, succeeds and consumes the whole uio; on the
    disk it replaces exactly these bytes of that block, all other bytes of
    the block and all other blocks staying as they were; the bitmap is
    untouched and the block map of the file is the same.  The file size
    becomes the end of the write where that lies past the old size; an old
    size of 2^31 or more, which the code reads as a negative off_t, is
    replaced by the end of the write. *)
Theorem sfs_write_replaces_bytes sv v w off data old :
  vnode_at w sv v -> fault_free w ->
  within_block off (Z.of_nat (length data)) ->
  off + Z.of_nat (length data) < 2 ^ 31 ->
  0 <= sfi_size (sv_i v) < 2 ^ 32 ->
  block_ok w (direct_block v off) ->
  disk w !! Z.to_nat (direct_block v off) = Some old ->
  exists w1 v1,
    sfs_write sv (mk_uio off (Z.of_nat (length data)) UIO_WRITE data) w
    = Ret (Ok tt, mk_uio (off + Z.of_nat (length data)) 0 UIO_WRITE []) w1 /\
    disk w1
    = <[Z.to_nat (direct_block v off)
        := take (Z.to_nat (off mod SFS_BLOCKSIZE)) old ++ data
           ++ drop (Z.to_nat (off mod SFS_BLOCKSIZE + Z.of_nat (length data))) old]>
        (disk w) /\
    sfs_freemap w1 = sfs_freemap w /\
    vnode_at w1 sv v1 /\
    sfi_direct (sv_i v1) = sfi_direct (sv_i v) /\
    (sfi_size (sv_i v) < 2 ^ 31 ->
     sfi_size (sv_i v1)
     = Z.max (sfi_size (sv_i v)) (off + Z.of_nat (length data))) /\
    (2 ^ 31 <= sfi_size (sv_i v) ->
     sfi_size (sv_i v1) = off + Z.of_nat (length data)).
Proof.
  intros Hv Hf (Hoff & Hn & Hfit & Hone & Hdir) H31 Hsz Hb Hold.
  destruct (sfs_write_single_block sv v w off data old
              Hv Hf Hoff Hn ltac:(lia) Hfit Hone Hdir Hb Hold)
    as (w1 & v1 & Hw & Hdisk & Hmap & _ & _ & Hv1 & Hdirect & Hsize).
  exists w1, v1. repeat (split; [assumption|]). rewrite Hsize. split.
  - intros Hlow. rewrite s32_small by lia.
    destruct (Z.ltb_spec (sfi_size (sv_i v)) (off + Z.of_nat (length data))); lia.
  - intros Hhigh. rewrite s32_high by lia.
    destruct (Z.ltb_spec (sfi_size (sv_i v) - 2 ^ 32)
                         (off + Z.of_nat (length data))); lia.
Qed.

(** X23. A read through sfs_read of bytes that lie inside one direct block
    of the file and before its end, in a file whose size is below 2^31 (a
    size that the code reads as it is), on a device that serves every
    request, succeeds, consumes the whole uio and appends to the data of
    the uio exactly the bytes of the disk block at these positions; the
    state changes by three requests to the environment only. *)
Theorem sfs_read_returns_block_bytes sv v w off n pre blk :
  vnode_at w sv v -> fault_free w ->
  within_block off n ->
  off + n <= sfi_size (sv_i v) ->
  sfi_size (sv_i v) < 2 ^ 31 ->
  block_ok w (direct_block v off) ->
  disk w !! Z.to_nat (direct_block v off) = Some blk ->
  sfs_read sv (mk_uio off n UIO_READ pre) w
  = Ret (Ok tt,
         mk_uio (off + n) 0 UIO_READ
                (pre ++ take (Z.to_nat n)
                             (drop (Z.to_nat (off mod SFS_BLOCKSIZE)) blk)))
        (ticks 3 w).
Proof.
  intros Hv Hf (Hoff & Hn & Hfit & Hone & Hdir) Hend H31 Hb Hblk.
  apply sfs_read_single_block with (v := v); try assumption.
  rewrite s32_small by lia. exact Hend.
Qed.

(** X24. Round trip: after sfs_write has written bytes inside one direct
    block that the file already has, at positions in the range of off_t,
    sfs_read of the same range of the file gives back exactly the bytes
    written, whatever the file, its size and the block held before. *)
Theorem sfs_write_then_read sv v w off data old :
  vnode_at w sv v -> fault_free w ->
  within_block off (Z.of_nat (length data)) ->
  off + Z.of_nat (length data) < 2 ^ 31 ->
  block_ok w (direct_block v off) ->
  disk w !! Z.to_nat (direct_block v off) = Some old ->
  length old = Z.to_nat SFS_BLOCKSIZE ->
  exists w1,
    sfs_write sv (mk_uio off (Z.of_nat (length data)) UIO_WRITE data) w
    = Ret (Ok tt, mk_uio (off + Z.of_nat (length data)) 0 UIO_WRITE []) w1 /\
    forall pre,
      sfs_read sv (mk_uio off (Z.of_nat (length data)) UIO_READ pre) w1
      = Ret (Ok tt,
             mk_uio (off + Z.of_nat (length data)) 0 UIO_READ (pre ++ data))
            (ticks 3 w1).
Proof.
  intros Hv Hf (Hoff & Hn & Hfit & Hone & Hdir) H31 Hb Hold Hlen.
  pose proof (blocksize_pos _ HL) as Hbs.
  pose proof (Z.mod_pos_bound off SFS_BLOCKSIZE Hbs) as Hskip.
  destruct (sfs_write_single_block sv v w off data old
              Hv Hf Hoff Hn ltac:(lia) Hfit Hone Hdir Hb Hold)
    as (w1 & v1 & Hw & Hdisk & Hmap & Hnb & Hf1 & Hv1 & Hdirect & Hsize).
  exists w1. split; [exact Hw|]. intros pre.
  set (new := take (Z.to_nat (off mod SFS_BLOCKSIZE)) old ++ data
              ++ drop (Z.to_nat (off mod SFS_BLOCKSIZE + Z.of_nat (length data))) old)
    in *.
  assert (Hnew : disk w1 !! Z.to_nat (direct_block v off) = Some new).
  { rewrite Hdisk. apply list_lookup_insert_eq. eapply lookup_lt_Some, Hold. }
  assert (Hb1 : block_ok w1 (direct_block v off)).
  { destruct Hb as (Hr & Hbit & _). unfold block_ok.
    rewrite Hnb, Hmap. eauto. }
  unfold direct_block in Hnew, Hb1. rewrite <- Hdirect in Hnew, Hb1.
  (* the size after the write, read as an off_t, is not below the end of
     the write *)
  assert (Hend : off + Z.of_nat (length data) <= s32 (sfi_size (sv_i v1))).
  { rewrite Hsize.
    destruct (Z.ltb_spec (s32 (sfi_size (sv_i v))) (off + Z.of_nat (length data)))
      as [Hgrow | Hkeep]; [rewrite s32_small; lia | exact Hkeep]. }
  rewrite (sfs_read_single_block sv v1 w1 off _ pre new
             Hv1 Hf1 Hoff Hn Hend Hfit Hone Hdir Hb1 Hnew).
  do 3 f_equal. unfold new.
  assert (Htake : length (take (Z.to_nat (off mod SFS_BLOCKSIZE)) old)
                  = Z.to_nat (off mod SFS_BLOCKSIZE))
    by (rewrite length_take; lia).
  rewrite <- Htake at 1. rewrite drop_app_length.
  rewrite Nat2Z.id. f_equal. apply take_app_length.
Qed.

(** ** New objects *)

(* What a call of sfs_makeobj that returns 0 has done. *)
Lemma sfs_makeobj_inv :
  forall (type : sfs_type) (w : world) (r : option vptr) (w' : world),
    type <> SFS_TYPE_INVAL ->
    sfs_makeobj type w = Ret (Ok r) w' ->
    exists i : nat,
      first_clear (sfs_freemap w) = Some i /\
      sfs_freemap w' = <[i := true]> (sfs_freemap w) /\
      disk w' = <[i := repeat 0 (Z.to_nat SFS_BLOCKSIZE)]> (disk w) /\
      match r with
      | Some sv =>
          kheap w !! sv = None /\
          sfs_vnodes w' = sfs_vnodes w ++ [sv] /\
          (forall a, a <> sv -> kheap w' !! a = kheap w !! a) /\
          sfi_type (dec_inode (repeat 0 (Z.to_nat SFS_BLOCKSIZE))) = SFS_TYPE_INVAL /\
          (type = SFS_TYPE_FILE \/ type = SFS_TYPE_DIR) /\
          vnode_at w' sv
            (mk_vnode (Z.of_nat i)
                      (set_type type (dec_inode (repeat 0 (Z.to_nat SFS_BLOCKSIZE))))
                      true 1)
      | None => kheap w' = kheap w /\ sfs_vnodes w' = sfs_vnodes w
      end.
Proof.
  intros ty w r w' Hty H. unfold sfs_makeobj in H.
  apply bind_inv in H as (rb & w1 & Hb & H).
  apply sfs_balloc_inv in Hb.
  destruct (first_clear (sfs_freemap w)) as [i|] eqn:Hfc.
  2:{ destruct Hb as [-> ->]. discriminate. }
  cbv zeta in Hb. destruct Hb as (Hn & [(-> & Hlen & ->) | (e & -> & _)]);
    [|discriminate].
  apply sfs_loadvnode_inv in H.
  cbn [disk sfs_freemap kheap sfs_vnodes set_disk tick set_freemapdirty set_freemap]
    in H.
  destruct H as (Hdisk & Hmap & H).
  exists i. split; [reflexivity|]. split; [exact Hmap|]. split; [exact Hdisk|].
  destruct r as [sv|].
  - destruct H as (Hoth & [(Hinv & _) | Hload]); [contradiction|].
    destruct Hload as (_ & Hfresh & Htab & _ & data & Hdata & Hv & Hdec).
    rewrite Nat2Z.id, list_lookup_insert_eq in Hdata by exact Hlen.
    inversion Hdata; subst data. clear Hdata.
    repeat (split; [assumption|]).
    destruct ty; [contradiction | auto | auto | contradiction].
  - destruct H as (Hheap & Htab & _). auto.
Qed.

(** X25. When sfs_makeobj returns 0 for a type that is given, it has
    taken the first block that the bitmap had free, which is now marked as
    used and zeroed on disk.  The object that it hands back is new: its
    inode number is that block; its vnode is at a fresh address, appended
    to the vnode table, holds one reference, is dirty and carries the
    inode that a block of zeros decodes to with the type set to the type
    asked for, that of a file or of a directory.  No other vnode changes.
    When it hands back no object, which is what sfs_loadvnode leaves it
    with when the lock of the vnode cannot be created, the vnode table
    and the vnodes are as they were. *)
Theorem sfs_makeobj_fresh_object :
  forall (type : sfs_type) (w : world) (r : option vptr) (w' : world),
    type <> SFS_TYPE_INVAL ->
    sfs_makeobj type w = Ret (Ok r) w' ->
    exists i : nat,
      first_clear (sfs_freemap w) = Some i /\
      sfs_freemap w' = <[i := true]> (sfs_freemap w) /\
      disk w' = <[i := repeat 0 (Z.to_nat SFS_BLOCKSIZE)]> (disk w) /\
      match r with
      | Some sv =>
          kheap w !! sv = None /\
          sfs_vnodes w' = sfs_vnodes w ++ [sv] /\
          (forall a, a <> sv -> kheap w' !! a = kheap w !! a) /\
          sfi_type (dec_inode (repeat 0 (Z.to_nat SFS_BLOCKSIZE))) = SFS_TYPE_INVAL /\
          (type = SFS_TYPE_FILE \/ type = SFS_TYPE_DIR) /\
          vnode_at w' sv
            (mk_vnode (Z.of_nat i)
                      (set_type type (dec_inode (repeat 0 (Z.to_nat SFS_BLOCKSIZE))))
                      true 1)
      | None => kheap w' = kheap w /\ sfs_vnodes w' = sfs_vnodes w
      end.
Proof.
  intros type w r w' Hty H. now apply sfs_makeobj_inv.
Qed.

(** X26. sfs_makeobj never gives a block back: when it fails although
    the bitmap had a free block - the block could not be cleared, or the
    vnode for it could not be loaded - the block stays marked as used in
    the bitmap.  When the bitmap had no free block, nothing changes. *)
Theorem sfs_makeobj_failure_keeps_block :
  forall (type : sfs_type) (w : world) (e : errno) (w' : world),
    sfs_makeobj type w = Ret (Err e) w' ->
    (first_clear (sfs_freemap w) = None /\ w' = w) \/
    (exists i : nat,
       first_clear (sfs_freemap w) = Some i /\
       sfs_freemap w !! i = Some false /\
       sfs_freemap w' = <[i := true]> (sfs_freemap w) /\
       sfs_freemap w' !! i = Some true).
Proof.
  intros ty w e w' H. unfold sfs_makeobj in H.
  apply bind_inv in H as (r & w1 & Hb & H).
  apply sfs_balloc_inv in Hb.
  destruct (first_clear (sfs_freemap w)) as [i|] eqn:Hfc.
  2:{ destruct Hb as [-> ->]. inversion H. auto. }
  right. exists i. pose proof (first_clear_spec _ _ Hfc) as Hfree.
  assert (Hset : (<[i := true]> (sfs_freemap w)) !! i = Some true)
    by (apply list_lookup_insert_eq; eapply lookup_lt_Some, Hfree).
  split; [reflexivity|]. split; [exact Hfree|].
  cbv zeta in Hb. destruct Hb as (Hn & [(-> & Hlen & ->) | (e' & -> & ->)]).
  - apply no_write_loadvnode in H. destruct H as (_ & Hmap & _).
    cbn [sfs_freemap set_disk tick set_freemapdirty set_freemap] in Hmap.
    rewrite Hmap. auto.
  - inversion H; subst. cbn. auto.
Qed.

Lemma blocks_kept_writedir sv sd slot : steps blocks_kept (sfs_writedir sv sd slot).
Proof. unfold sfs_writedir. steps_go. apply blocks_kept_io. Qed.

Lemma blocks_kept_dir_link sv name ino : steps blocks_kept (sfs_dir_link sv name ino).
Proof.
  unfold sfs_dir_link.
  steps_go;
    first [ apply blocks_kept_same, same_freemap_of_ticked, ticked_dir_findname
          | apply blocks_kept_same, same_freemap_of_ticked, ticked_dir_nentries
          | apply blocks_kept_writedir ].
Qed.

(* A directory search that comes back has found its vnode. *)
Lemma sfs_dir_findname_vnode sv name emptyslot w r w' :
  sfs_dir_findname sv name emptyslot w = Ret r w' ->
  exists d, vnode_at w sv d.
Proof.
  unfold sfs_dir_findname, sfs_dir_nentries. intros H.
  apply bind_inv in H as (n & w1 & H & _).
  apply bind_inv in H as (d & w2 & H & _).
  apply deref_inv in H as [_ H]. eauto.
Qed.

(** X27. When sfs_creat returns 0 to a caller that insists on a new file
    (EXCL), it hands back a vnode, and the file is new indeed: its inode
    number is the first block that the bitmap had free, and the block is
    marked as used afterwards; its vnode is at a fresh address, other than
    the directory's, appended to the vnode table; it holds the one
    reference that the caller gets, is dirty, is a regular file, and its
    link count is one more than that of an empty inode.  (Where
    sfs_makeobj returns 0 without an object, sfs_creat reads the inode
    number through the pointer that was left unset, and does not get as
    far as a return in this model.) *)
Theorem sfs_creat_excl_new_file :
  forall (sv : vptr) (name : string) (w : world) (r : option vptr) (w' : world),
    sfs_creat sv name true w = Ret (Ok r) w' ->
    exists (newguy : vptr) (i : nat),
      r = Some newguy /\
      first_clear (sfs_freemap w) = Some i /\
      sfs_freemap w' !! i = Some true /\
      newguy <> sv /\
      kheap w !! newguy = None /\
      sfs_vnodes w' = sfs_vnodes w ++ [newguy] /\
      vnode_at w' newguy
        (mk_vnode (Z.of_nat i)
           (set_linkcount
              ((sfi_linkcount (dec_inode (repeat 0 (Z.to_nat SFS_BLOCKSIZE))) + 1)
                 mod LINKCOUNT_MOD)
              (set_type SFS_TYPE_FILE
                 (dec_inode (repeat 0 (Z.to_nat SFS_BLOCKSIZE)))))
           true 1).
Proof.
  intros sv name w r0 w' H. unfold sfs_creat in H.
  apply bind_inv in H as (r & w1 & Hfind & H).
  destruct (sfs_dir_findname_vnode _ _ _ _ _ _ Hfind) as (d & Hd).
  destruct (ticked_dir_findname _ _ _ _ _ _ Hfind) as (k & ->).
  destruct r.1 as [[ino slot]|e]; [discriminate|].
  destruct (errno_is_ENOENT e); [|discriminate]. cbn [negb] in H.
  apply bind_inv in H as (rm & w2 & Hmk & H).
  destruct rm as [[ng|]|e']; [| |discriminate].
  2:{ cbn [the_object] in H. rewrite (bind_panic _ _ _ _ eq_refl) in H.
      discriminate. }
  cbn [the_object] in H. erewrite bind_ret in H by reflexivity.
  apply sfs_makeobj_inv in Hmk; [|discriminate].
  destruct Hmk as (i & Hfc & Hmap & _ & Hfresh & Htab & _ & _ & _ & Hng).
  cbn [sfs_freemap kheap sfs_vnodes ticks] in Hfc, Hmap, Hfresh, Htab.
  rewrite (bind_ret _ _ _ _ _ (deref_at _ _ _ Hng)) in H. cbn [sv_ino] in H.
  apply bind_inv in H as (rl & w3 & Hlink & H).
  destruct rl as [slot|e'].
  2:{ apply bind_inv in H as (? & ? & _ & H). discriminate. }
  assert (Hne : ng <> sv).
  { intros ->. unfold vnode_at in Hd. rewrite Hd in Hfresh. discriminate. }
  pose proof (io_step_dir_link _ _ _ _ _ _ Hlink) as Hstep.
  pose proof (io_step_other _ _ _ _ _ _ Hstep Hne Hng) as Hng3.
  destruct Hstep as (_ & _ & Htab3 & _).
  pose proof (blocks_kept_dir_link _ _ _ _ _ _ Hlink) as Hkept.
  unfold linkcount_incr, update_inode, mark_dirty in H.
  rewrite (bind_ret _ _ _ _ _ (update_at _ _ _ _ Hng3)) in H.
  erewrite bind_ret in H by (apply update_at; eapply vnode_at_set, Hng3).
  inversion H; subst r0 w'. clear H.
  exists ng, i. split; [reflexivity|]. split; [exact Hfc|].
  split.
  { cbn [sfs_freemap set_kheap]. apply Hkept. rewrite Hmap.
    apply list_lookup_insert_eq. eapply lookup_lt_Some, first_clear_spec, Hfc. }
  split; [exact Hne|]. split; [exact Hfresh|].
  split; [cbn [sfs_vnodes set_kheap]; now rewrite Htab3, Htab|].
  eapply vnode_at_set, vnode_at_set, Hng3.
Qed.
End Properties.

(** ** Concrete runs *)

#[local] Existing Instance OS161.layout.

Lemma OS161_layout_ok : layout_ok OS161.layout.
Proof.
  constructor; cbn; try lia.
  intros data. unfold OS161.os_dec_inode. cbn [sfi_linkcount].
  unfold OS161.dec_u16, OS161.byte_at.
  pose proof (Z.mod_pos_bound (nth 0 (drop 6 data) 0) 256).
  pose proof (Z.mod_pos_bound (nth 1 (drop 6 data) 0) 256).
  lia.
Qed.

Lemma sfs_bmap_past_indirect_fails_witness :
  sfs_bmap (L := OS161.layout) 0%nat 143 true Run.w_refcount2
  = Ret (Err EINVAL) Run.w_refcount2.
Proof.
  apply (sfs_bmap_past_indirect_fails OS161_layout_ok); [now vm_compute | reflexivity].
Defined.

Lemma sfs_getdirentry_past_end_witness :
  sfs_getdirentry (L := OS161.layout) 0%nat
    (mk_uio 2 100 UIO_READ []) Run.w_emptydir
  = Ret (Ok tt, mk_uio 2 100 UIO_READ []) Run.w_emptydir.
Proof.
  apply (sfs_getdirentry_past_end 0%nat _ Run.w_emptydir
           (mk_vnode 5 Run.emptydir_inode false 1));
    [reflexivity | reflexivity | reflexivity | now vm_compute].
Defined.

Lemma sfs_reclaim_busy_witness :
  exists w',
    sfs_reclaim (L := OS161.layout) 0%nat Run.w_refcount2 = Ret (Err EBUSY) w' /\
    vnode_at w' 0%nat (mk_vnode 4 Run.file_inode false 1) /\
    sfs_vnodes w' = [0%nat] /\
    disk w' = disk Run.w_refcount2.
Proof.
  destruct (sfs_reclaim_busy (L := OS161.layout) 0%nat Run.w_refcount2
              (mk_vnode 4 Run.file_inode false 2))
    as (w' & H1 & H2 & _ & H4 & _ & _ & H7 & _); [reflexivity | now vm_compute |].
  exists w'. auto.
Defined.

Lemma sfs_bmap_hole_reads_zero_witness :
  exists w',
    sfs_bmap (L := OS161.layout) 0%nat 20 false Run.w_refcount2 = Ret (Ok 0) w' /\
    ticked Run.w_refcount2 w' /\
    vnode_at w' 0%nat (mk_vnode 4 Run.file_inode false 2).
Proof.
  apply (sfs_bmap_hole_reads_zero OS161_layout_ok); [reflexivity |].
  apply hole_no_indirect; [now vm_compute | reflexivity | reflexivity].
Defined.

(** C6 as it was stated fails when the buffer for the indirect block is
    refused: the file has no indirect block, block 15 is the first block
    behind the direct ones, no allocation is requested, and sfs_bmap
    returns ENOMEM instead of block 0. *)
Lemma sfs_bmap_hole_without_memory :
  vnode_at Run.w_nomem 0%nat (mk_vnode 4 Run.file_inode false 1) /\
  sfi_indirect Run.file_inode = 0 /\
  sfs_bmap (L := OS161.layout) 0%nat 15 false Run.w_nomem
  = Ret (Err ENOMEM) (tick Run.w_nomem).
Proof. split; [reflexivity | split; reflexivity]. Qed.

Lemma root_dir_entries :
  dir_entries (L := OS161.layout) (Run.w_root Run.no_fault) 0%nat
    Run.root_vnode Run.root_entries (ticks 27 (Run.w_root Run.no_fault)).
Proof.
  split; [reflexivity | split; [reflexivity | split; [reflexivity |]]].
  vm_compute. reflexivity.
Qed.



Lemma sfs_io_write_adjusts_size_witness :
  exists v',
    vnode_at Run.w_file_written 0%nat v' /\
    (sfi_size (sv_i (mk_vnode 4 Run.file_inode false 1)) < 2 ^ 31 ->
     (sfi_size (sv_i (mk_vnode 4 Run.file_inode false 1))
      < uio_offset (mk_uio 10 0 UIO_WRITE []) ->
      sfi_size (sv_i v') = uio_offset (mk_uio 10 0 UIO_WRITE []) /\
      sv_dirty v' = true) /\
     (uio_offset (mk_uio 10 0 UIO_WRITE [])
      <= sfi_size (sv_i (mk_vnode 4 Run.file_inode false 1)) ->
      sfi_size (sv_i v') = sfi_size (sv_i (mk_vnode 4 Run.file_inode false 1)))) /\
    (2 ^ 31 <= sfi_size (sv_i (mk_vnode 4 Run.file_inode false 1)) ->
     sfi_size (sv_i v') = uio_offset (mk_uio 10 0 UIO_WRITE []) /\
     sv_dirty v' = true).
Proof.
  apply (sfs_io_write_adjusts_size OS161_layout_ok 0%nat
           (mk_kuio Run.ten_bytes 10 0 UIO_WRITE) Run.w_file
           (mk_vnode 4 Run.file_inode false 1) (Ok tt)).
  - vm_compute; reflexivity.
  - vm_compute; reflexivity.
  - now vm_compute.
  - now vm_compute.
  - now vm_compute.
  - now vm_compute.
  - vm_compute; reflexivity.
Defined.

(** C8 as it was stated fails for a file whose size field holds 2^31 or
    more, which ftruncate with a negative length leaves behind: the size
    is 3000000000, three bytes are written at offset 0, the final offset
    3 does not exceed the size, and yet the size field is set to 3 and the
    inode marked dirty: the code compares with the size as an off_t, which
    is negative. *)
Lemma sfs_io_write_below_huge_size_sets_size :
  sfs_truncate 0%nat (-1294967296) Run.w_file = Ret (Ok tt) Run.w_huge /\
  vnode_at Run.w_huge 0%nat Run.huge_vnode /\
  exists u' w' v',
    sfs_io 0%nat (mk_kuio [1; 2; 3] 3 0 UIO_WRITE) Run.w_huge
    = Ret (Ok tt, u') w' /\
    uio_offset u' = 3 /\
    uio_offset u' <= sfi_size (sv_i Run.huge_vnode) /\
    vnode_at w' 0%nat v' /\
    sfi_size (sv_i v') = 3 /\
    sfi_size (sv_i v') <> sfi_size (sv_i Run.huge_vnode).
Proof.
  split; [vm_compute; reflexivity|]. split; [vm_compute; reflexivity|].
  eexists. eexists. eexists.
  split; [vm_compute; reflexivity|].
  split; [reflexivity|]. split; [now vm_compute|].
  split; [vm_compute; reflexivity|]. split; [reflexivity | now vm_compute].
Qed.

Lemma rename_codec_ok : empty_entry_codec (L := OS161.layout).
Proof. split; vm_compute; reflexivity. Qed.

Lemma rename_whole_blocks : whole_blocks (L := OS161.layout) Run.w_ren3.
Proof.
  intros i data H.
  do 8 (destruct i as [|i]; [vm_compute in H; inversion H; reflexivity|]).
  vm_compute in H. discriminate.
Qed.

Lemma sfs_rename_undoes_link_when_unlink_fails_witness :
  exists g' w',
    sfs_rename 0%nat "a" 0%nat "b" Run.w_ren0 = Ret (Err EIO) w' /\
    vnode_at w' 1%nat g' /\
    sfi_linkcount (sv_i g') = sfi_linkcount (sv_i (mk_vnode 4 Run.file_inode false 2)) /\
    vn_refcount g' = vn_refcount (mk_vnode 4 Run.file_inode false 2) - 1 /\
    (forall d wr, sfs_readdir 0%nat 8 w' = Ret (Ok d) wr -> empty_slot d) /\
    (forall v' es wr d,
       dir_entries w' 0%nat v' es wr ->
       es !! Z.to_nat 8 = Some d -> empty_slot d).
Proof.
  destruct (sfs_rename_undoes_link_when_unlink_fails OS161_layout_ok
              0%nat 1%nat "a" "b" Run.root_vnode
              (mk_vnode 4 Run.file_inode false 2)
              (mk_vnode 1 Run.root_inode false 1)
              0 8 EIO Run.w_ren0 Run.w_ren1 Run.w_ren2 Run.w_ren3)
    as (Hundone & _ & _).
  17:{ apply (Hundone Run.w_ren4). vm_compute; reflexivity. }
  - vm_compute; reflexivity.
  - vm_compute; reflexivity.
  - vm_compute; reflexivity.
  - discriminate.
  - vm_compute; reflexivity.
  - vm_compute; reflexivity.
  - now vm_compute.
  - now vm_compute.
  - vm_compute; reflexivity.
  - vm_compute; reflexivity.
  - vm_compute; reflexivity.
  - split; [now vm_compute|]. split; [now vm_compute|].
    split; [now vm_compute|]. split; [right; now vm_compute | now vm_compute].
  - now vm_compute.
  - vm_compute. discriminate.
  - exact rename_whole_blocks.
  - exact rename_codec_ok.
Defined.

(** C1 as it was stated fails.  In the root directory with "a" in slot 0,
    the file open elsewhere and block 3 refusing writes, rename of "a" to
    "b" adds "b" in slot 8, fails to remove "a" and returns that error;
    afterwards the directory reads as before the rename, with the one
    entry "a" for inode 4 and no entry "b", and the link count of the file
    is 1 as before: the new link was not left in place. *)
Lemma sfs_rename_failed_unlink_leaves_one_entry :
  sfs_lookonce 0%nat "a" Run.w_ren0 = Ret (Ok (1%nat, 0)) Run.w_ren1 /\
  sfs_dir_link 0%nat "b" 4 Run.w_ren1 = Ret (Ok 8) Run.w_ren2 /\
  (linkcount_incr 1%nat ;; mark_dirty 1%nat ;; sfs_dir_unlink 0%nat 0) Run.w_ren2
  = Ret (Err EIO) Run.w_ren3 /\
  sfs_rename 0%nat "a" 0%nat "b" Run.w_ren0 = Ret (Err EIO) Run.w_ren_end /\
  (exists w', sfs_readdir_range 0%nat 9 0 Run.w_ren_end
              = Ret (Ok Run.root_entries) w') /\
  (exists w', sfs_dir_findname 0%nat "b" (-1) Run.w_ren_end
              = Ret (Err ENOENT, 8) w') /\
  vnode_at Run.w_ren_end 1%nat (mk_vnode 4 Run.file_inode true 1).
Proof.
  repeat (split; [vm_compute; reflexivity|]).
  split; [eexists; vm_compute; reflexivity|].
  split; [eexists; vm_compute; reflexivity|].
  vm_compute; reflexivity.
Qed.

Lemma root_linkcounts_unsigned : linkcounts_unsigned (Run.w_root Run.no_fault).
Proof.
  intros [|[|a]] x H; inversion H; subst. now vm_compute.
Qed.

Lemma root_no_dead_entries : no_dead_entries (Run.w_root Run.no_fault) 0%nat.
Proof.
  intros v es w' e (Hv & _ & _ & Hes) He Hact.
  inversion Hv; subst v. vm_compute in Hes. inversion Hes; subst es. clear Hes.
  apply elem_of_cons in He as [-> | He].
  - vm_compute. discriminate.
  - exfalso. apply Hact.
    repeat (apply elem_of_cons in He as [-> | He]; [reflexivity|]).
    inversion He.
Qed.


Lemma root_linkcounts_unsigned_at :
  linkcounts_unsigned (Run.w_root (Run.no_memory_at 30)).
Proof.
  intros [|[|a]] x H; inversion H; subst. now vm_compute.
Qed.

Lemma root_no_dead_entries_at :
  no_dead_entries (Run.w_root (Run.no_memory_at 30)) 0%nat.
Proof.
  intros v es w' e (Hv & _ & _ & Hes) He Hact.
  inversion Hv; subst v. vm_compute in Hes. inversion Hes; subst es. clear Hes.
  apply elem_of_cons in He as [-> | He].
  - vm_compute. discriminate.
  - exfalso. apply Hact.
    repeat (apply elem_of_cons in He as [-> | He]; [reflexivity|]).
    inversion He.
Qed.


(* That lookup does return, with the file "a" and its link count 1. *)
Lemma sfs_lookonce_root_a :
  exists w',
    sfs_lookonce 0%nat "a" (Run.w_root Run.no_fault) = Ret (Ok (1%nat, 0)) w' /\
    vnode_at w' 1%nat (mk_vnode 4 Run.file_inode false 1).
Proof. eexists. split; vm_compute; reflexivity. Qed.

Lemma written_file_readable :
  readable_file Run.w_file_written 0%nat Run.written_vnode.
Proof.
  split; [vm_compute; reflexivity|].
  split; [intros t ev; vm_compute; reflexivity|].
  split; [now vm_compute|].
  intros fileblock Hnn Hlt. left.
  assert (fileblock = 0) as -> by (cbn in Hlt; lia).
  split; [now vm_compute|]. right.
  split; [now vm_compute|]. split; [vm_compute; reflexivity|].
  eexists. vm_compute. reflexivity.
Qed.

Lemma sfs_io_read_clipped_at_eof_witness :
  exists u' w',
    sfs_io 0%nat (mk_uio 4 100 UIO_READ []) Run.w_file_written = Ret (Ok tt, u') w' /\
    ticked Run.w_file_written w' /\
    uio_offset u' = 10 /\
    uio_resid u' = 100 - (10 - 4).
Proof.
  destruct (sfs_io_read_clipped_at_eof OS161_layout_ok 0%nat
              (mk_uio 4 100 UIO_READ []) Run.w_file_written Run.written_vnode)
    as [_ Hclip].
  - vm_compute; reflexivity.
  - reflexivity.
  - now vm_compute.
  - now vm_compute.
  - now vm_compute.
  - apply Hclip;
      [now vm_compute | now vm_compute | now vm_compute
       | exact written_file_readable].
Defined.

(* That read hands over six of the hundred bytes asked for. *)
Lemma sfs_io_read_six_bytes :
  exists w',
    sfs_io 0%nat (mk_uio 4 100 UIO_READ []) Run.w_file_written
    = Ret (Ok tt, mk_uio 10 94 UIO_READ [5; 6; 7; 8; 9; 10]) w'.
Proof. eexists. vm_compute. reflexivity. Qed.

(** C4 as it was stated fails on a file whose size is past the reach of
    the block map.  The file has 100000 bytes and no block; a read of
    40000 bytes at offset 80000 starts below the end of the file and ends
    past it, and returns EINVAL with nothing transferred: file block 156
    is behind the one indirect block. *)
Lemma sfs_io_read_past_block_map_fails :
  vnode_at Run.w_sparse 0%nat (mk_vnode 4 Run.sparse_inode false 1) /\
  80000 < sfi_size Run.sparse_inode /\
  sfi_size Run.sparse_inode < 80000 + 40000 /\
  sfs_io 0%nat (mk_uio 80000 40000 UIO_READ []) Run.w_sparse
  = Ret (Err EINVAL, mk_uio 80000 40000 UIO_READ []) (ticks 1 Run.w_sparse).
Proof.
  split; [reflexivity|]. split; [now vm_compute|]. split; [now vm_compute|].
  vm_compute. reflexivity.
Qed.

(** C3 on a concrete directory: "d" in the root directory is a directory
    that holds only "." and ".."; sfs_rmdir answers EUNIMP, nothing
    changes, and the lookup of "d" still finds inode 5. *)
Lemma sfs_rmdir_leaves_empty_directory :
  (exists w', sfs_readdir_range 0%nat 2 0 Run.w_emptydir
              = Ret (Ok [mk_dir 5 "."; mk_dir 1 ".."]) w') /\
  sfs_rmdir 0%nat "d" Run.w_parent = Ret (Err EUNIMP) Run.w_parent /\
  (exists w', sfs_lookup 0%nat "d" Run.w_parent = Ret (Ok 1%nat) w' /\
              vnode_at w' 1%nat (mk_vnode 5 Run.emptydir_inode false 1)).
Proof.
  split; [eexists; vm_compute; reflexivity|].
  split; [reflexivity|].
  eexists. split; vm_compute; reflexivity.
Qed.

(** ** Concrete runs of the further properties *)

Ltac run :=
  solve [ vm_compute; reflexivity | now vm_compute | discriminate
        | vm_compute; lia ].

Lemma sfs_balloc_fresh_zeroed_block_witness :
  0 <= 5 < sp_nblocks Run.w_file /\
  sfs_freemap Run.w_file !! Z.to_nat 5 = Some false /\
  sfs_freemap Run.w_alloc = <[Z.to_nat 5 := true]> (sfs_freemap Run.w_file) /\
  sfs_freemapdirty Run.w_alloc = true /\
  (Z.to_nat 5 < length (disk Run.w_file))%nat /\
  disk Run.w_alloc
  = <[Z.to_nat 5 := repeat 0 (Z.to_nat SFS_BLOCKSIZE)]> (disk Run.w_file) /\
  kheap Run.w_alloc = kheap Run.w_file /\
  sfs_vnodes Run.w_alloc = sfs_vnodes Run.w_file.
Proof.
  apply (sfs_balloc_fresh_zeroed_block Run.w_file 5 Run.w_alloc). run.
Defined.

Lemma sfs_balloc_failure_witness :
  (first_clear (sfs_freemap Run.w_refcount2) = None /\
   Run.w_refcount2 = Run.w_refcount2) \/
  (exists i,
     first_clear (sfs_freemap Run.w_refcount2) = Some i /\
     sfs_freemap Run.w_refcount2 = <[i := true]> (sfs_freemap Run.w_refcount2) /\
     sfs_freemap Run.w_refcount2 !! i = Some true /\
     disk Run.w_refcount2 = disk Run.w_refcount2).
Proof.
  apply (sfs_balloc_failure (L := OS161.layout) Run.w_refcount2 ENOSPC Run.w_refcount2).
  run.
Defined.

Lemma sfs_bfree_undoes_balloc_witness :
  exists w2,
    sfs_bfree 5 Run.w_alloc = Ret tt w2 /\
    sfs_freemap w2 = sfs_freemap Run.w_file /\
    sfs_freemapdirty w2 = true /\
    disk w2 = disk Run.w_alloc /\
    kheap w2 = kheap Run.w_file.
Proof.
  apply (sfs_bfree_undoes_balloc Run.w_file 5 Run.w_alloc). run.
Defined.

Lemma sfs_bmap_alloc_then_lookup_witness :
  (exists v',
     vnode_at Run.w_mapped 0%nat v' /\
     nth (Z.to_nat 0) (sfi_direct (sv_i v')) 0 = 5 /\
     (nth (Z.to_nat 0) (sfi_direct (sv_i Run.open_file)) 0 = 0 ->
      sfs_freemap Run.w_file !! Z.to_nat 5 = Some false /\ sv_dirty v' = true)) /\
  (nth (Z.to_nat 0) (sfi_direct (sv_i Run.open_file)) 0 <> 0 ->
   5 = nth (Z.to_nat 0) (sfi_direct (sv_i Run.open_file)) 0 /\
   Run.w_mapped = Run.w_file) /\
  sfs_bmap 0%nat 0 false Run.w_mapped = Ret (Ok 5) Run.w_mapped.
Proof.
  apply (sfs_bmap_alloc_then_lookup OS161_layout_ok 0%nat 0 Run.w_file
           Run.open_file 5 Run.w_mapped); run.
Defined.

Lemma sfs_io_conserves_uio_witness :
  uio_rw (mk_uio 10 94 UIO_READ [5; 6; 7; 8; 9; 10])
  = uio_rw (mk_uio 4 100 UIO_READ []) /\
  uio_offset (mk_uio 4 100 UIO_READ [])
  <= uio_offset (mk_uio 10 94 UIO_READ [5; 6; 7; 8; 9; 10]) /\
  uio_offset (mk_uio 10 94 UIO_READ [5; 6; 7; 8; 9; 10])
  - uio_offset (mk_uio 4 100 UIO_READ [])
  = uio_resid (mk_uio 4 100 UIO_READ [])
    - uio_resid (mk_uio 10 94 UIO_READ [5; 6; 7; 8; 9; 10]) /\
  (0 <= uio_resid (mk_uio 4 100 UIO_READ []) ->
   0 <= uio_resid (mk_uio 10 94 UIO_READ [5; 6; 7; 8; 9; 10])).
Proof.
  apply (sfs_io_conserves_uio OS161_layout_ok 0%nat (mk_uio 4 100 UIO_READ [])
           Run.w_file_written (Ok tt) (mk_uio 10 94 UIO_READ [5; 6; 7; 8; 9; 10])
           (Run.state_after
              (sfs_io 0%nat (mk_uio 4 100 UIO_READ []) Run.w_file_written)
              Run.w_file_written)).
  run.
Defined.

Lemma sfs_read_changes_nothing_witness :
  let w' := Run.state_after
              (sfs_read 0%nat (mk_uio 4 100 UIO_READ []) Run.w_file_written)
              Run.w_file_written in
  sfs_vnodes w' = sfs_vnodes Run.w_file_written /\
  kheap w' = kheap Run.w_file_written /\
  sfs_freemap w' = sfs_freemap Run.w_file_written /\
  sfs_freemapdirty w' = sfs_freemapdirty Run.w_file_written /\
  disk w' = disk Run.w_file_written.
Proof.
  apply (sfs_read_changes_nothing OS161_layout_ok 0%nat (mk_uio 4 100 UIO_READ [])
           Run.w_file_written
           (Ok tt, mk_uio 10 94 UIO_READ [5; 6; 7; 8; 9; 10])).
  left. run.
Defined.

Lemma sfs_write_stays_in_file_witness :
  (forall a, a <> 0%nat -> kheap Run.w_file_written !! a = kheap Run.w_file !! a) /\
  sfs_vnodes Run.w_file_written = sfs_vnodes Run.w_file /\
  (forall v, vnode_at Run.w_file 0%nat v ->
     exists v', vnode_at Run.w_file_written 0%nat v' /\
                sv_ino v' = sv_ino v /\
                vn_refcount v' = vn_refcount v /\
                sfi_type (sv_i v') = sfi_type (sv_i v) /\
                sfi_linkcount (sv_i v') = sfi_linkcount (sv_i v)) /\
  (forall i, sfs_freemap Run.w_file !! i = Some true ->
             sfs_freemap Run.w_file_written !! i = Some true).
Proof.
  apply (sfs_write_stays_in_file 0%nat (mk_kuio Run.ten_bytes 10 0 UIO_WRITE)
           Run.w_file (Ok tt, mk_uio 10 0 UIO_WRITE [])).
  run.
Defined.

Lemma sfs_close_syncs_inode_witness :
  (sv_dirty Run.written_vnode = false ->
   Ok tt = Ok tt /\ Run.w_closed = Run.w_file_written) /\
  (sv_dirty Run.written_vnode = true ->
   vnode_at Run.w_closed 0%nat (set_dirty false Run.written_vnode) /\
   (Z.to_nat (sv_ino Run.written_vnode) < length (disk Run.w_file_written))%nat /\
   disk Run.w_closed
   = <[Z.to_nat (sv_ino Run.written_vnode) := enc_inode (sv_i Run.written_vnode)]>
       (disk Run.w_file_written)).
Proof.
  apply (sfs_close_syncs_inode 0%nat Run.w_file_written Run.written_vnode
           (Ok tt) Run.w_closed); run.
Defined.

Lemma sfs_truncate_direct_blocks_witness :
  exists v',
    vnode_at Run.w_truncated 0%nat v' /\
    sv_ino v' = sv_ino Run.written_vnode /\
    vn_refcount v' = vn_refcount Run.written_vnode /\
    sfi_type (sv_i v') = sfi_type (sv_i Run.written_vnode) /\
    sfi_linkcount (sv_i v') = sfi_linkcount (sv_i Run.written_vnode) /\
    sfi_size (sv_i v') = u32 0 /\
    sv_dirty v' = true /\
    (forall k, 0 <= k < SFS_NDIRECT ->
       nth (Z.to_nat k) (sfi_direct (sv_i v')) 0
       = if u32 (DIVROUNDUP 0 SFS_BLOCKSIZE) <=? k then 0
         else nth (Z.to_nat k) (sfi_direct (sv_i Run.written_vnode)) 0) /\
    (forall k, 0 <= k < SFS_NDIRECT ->
       u32 (DIVROUNDUP 0 SFS_BLOCKSIZE) <= k ->
       nth (Z.to_nat k) (sfi_direct (sv_i Run.written_vnode)) 0 <> 0 ->
       sfs_freemap Run.w_truncated
         !! Z.to_nat (nth (Z.to_nat k) (sfi_direct (sv_i Run.written_vnode)) 0)
       = Some false).
Proof.
  apply (sfs_truncate_direct_blocks OS161_layout_ok 0%nat 0 Run.w_file_written
           Run.written_vnode Run.w_truncated); run.
Defined.

Lemma sfs_truncate_releases_indirect_witness :
  (u32 (DIVROUNDUP 0 SFS_BLOCKSIZE) < SFS_NDIRECT ->
   (exists v', vnode_at Run.w_truncated 0%nat v' /\ sfi_indirect (sv_i v') = 0) /\
   (sfi_indirect (sv_i Run.written_vnode) <> 0 ->
    sfs_freemap Run.w_truncated !! Z.to_nat (sfi_indirect (sv_i Run.written_vnode))
    = Some false)) /\
  (forall i, sfs_freemap Run.w_file_written !! i = Some false ->
             sfs_freemap Run.w_truncated !! i = Some false) /\
  (forall a, a <> 0%nat -> kheap Run.w_truncated !! a = kheap Run.w_file_written !! a) /\
  sfs_vnodes Run.w_truncated = sfs_vnodes Run.w_file_written.
Proof.
  apply (sfs_truncate_releases_indirect OS161_layout_ok 0%nat 0 Run.w_file_written
           Run.written_vnode Run.w_truncated); run.
Defined.

Lemma sfs_reclaim_last_reference_witness :
  kheap Run.w_reclaimed !! 0%nat = Some None /\
  (forall a, a <> 0%nat -> kheap Run.w_reclaimed !! a = kheap Run.w_file !! a) /\
  (exists l1 l2,
     sfs_vnodes Run.w_file = l1 ++ 0%nat :: l2 /\ (0%nat ∉ l1) /\
     sfs_vnodes Run.w_reclaimed = l1 ++ l2) /\
  (sfi_linkcount (sv_i Run.open_file) <> 0 ->
   sfs_freemap Run.w_reclaimed = sfs_freemap Run.w_file /\
   (sv_dirty Run.open_file = false -> disk Run.w_reclaimed = disk Run.w_file) /\
   (sv_dirty Run.open_file = true ->
    disk Run.w_reclaimed
    = <[Z.to_nat (sv_ino Run.open_file) := enc_inode (sv_i Run.open_file)]>
        (disk Run.w_file))) /\
  (sfi_linkcount (sv_i Run.open_file) = 0 ->
   sfs_freemap Run.w_reclaimed !! Z.to_nat (sv_ino Run.open_file) = Some false).
Proof.
  apply (sfs_reclaim_last_reference OS161_layout_ok 0%nat Run.w_file
           Run.open_file Run.w_reclaimed); run.
Defined.

(* The entries of the root directory of [Run.w_root]: "a" is in slot 0
   and in no other slot, and "b" and the long name are in none. *)
Lemma root_entries_empty j e :
  Run.root_entries !! S j = Some e -> e = mk_dir 0 "".
Proof.
  intros H. cbn in H.
  do 8 (destruct j as [|j]; [inversion H; reflexivity | cbn in H]).
  inversion H.
Qed.

Lemma root_only_a name j e :
  Run.root_entries !! j = Some e -> names e name -> j = 0%nat /\ name = "a"%string.
Proof.
  intros H [Hino Hname]. destruct j as [|j].
  - inversion H; subst e. split; [reflexivity|]. rewrite <- Hname. reflexivity.
  - apply root_entries_empty in H. subst e. exfalso. apply Hino. reflexivity.
Qed.

Lemma root_lacks name :
  name <> "a"%string -> forall e, e ∈ Run.root_entries -> ~ names e name.
Proof.
  intros Hne e He Hn. apply list_elem_of_lookup_1 in He as [j Hj].
  destruct (root_only_a _ _ _ Hj Hn) as [_ Ha]. contradiction.
Qed.

Lemma sfs_dir_findname_correct_witness :
  ticks 27 (Run.w_root Run.no_fault) = ticks 27 (Run.w_root Run.no_fault) /\
  0 <= 0 /\
  exists e,
    Run.root_entries !! Z.to_nat 0 = Some e /\
    sfd_ino e = 4 /\ 4 <> SFS_NOINO /\
    terminate_name (sfd_name e) = "a"%string /\
    forall j e', Run.root_entries !! j = Some e' -> names e' "a" -> j = Z.to_nat 0.
Proof.
  apply (sfs_dir_findname_correct 0%nat "a" (-1) (Run.w_root Run.no_fault)
           Run.root_vnode Run.root_entries (ticks 27 (Run.w_root Run.no_fault))
           (Ok (4, 0)) 8 (ticks 27 (Run.w_root Run.no_fault)) root_dir_entries).
  run.
Defined.

Lemma dup_dir_entries :
  dir_entries (L := OS161.layout) Run.w_dup 0%nat
    (mk_vnode 1 Run.dup_inode false 1) [mk_dir 4 "a"; mk_dir 4 "a"]
    (ticks 6 Run.w_dup).
Proof.
  split; [reflexivity | split; [reflexivity | split; [reflexivity |]]].
  vm_compute. reflexivity.
Qed.

Lemma sfs_dir_findname_duplicate_asserts_witness :
  sfs_dir_findname 0%nat "a" (-1) Run.w_dup = Panic P_assert.
Proof.
  apply (sfs_dir_findname_duplicate_asserts 0%nat "a" (-1) Run.w_dup _ _ _
           0%nat 1%nat (mk_dir 4 "a") (mk_dir 4 "a") dup_dir_entries);
    first [reflexivity | discriminate | split; [discriminate | reflexivity]].
Defined.

Lemma sfs_absent_name_is_ENOENT_witness :
  sfs_lookup 0%nat "b" (Run.w_root Run.no_fault)
  = Ret (Err ENOENT) (ticks 27 (Run.w_root Run.no_fault)) /\
  sfs_remove 0%nat "b" (Run.w_root Run.no_fault)
  = Ret (Err ENOENT) (ticks 27 (Run.w_root Run.no_fault)) /\
  (sv_ino Run.root_vnode = SFS_ROOT_LOCATION ->
   forall n2, sfs_rename 0%nat "b" 0%nat n2 (Run.w_root Run.no_fault)
              = Ret (Err ENOENT) (ticks 27 (Run.w_root Run.no_fault))) /\
  kheap (ticks 27 (Run.w_root Run.no_fault)) = kheap (Run.w_root Run.no_fault) /\
  sfs_vnodes (ticks 27 (Run.w_root Run.no_fault)) = sfs_vnodes (Run.w_root Run.no_fault) /\
  sfs_freemap (ticks 27 (Run.w_root Run.no_fault)) = sfs_freemap (Run.w_root Run.no_fault) /\
  disk (ticks 27 (Run.w_root Run.no_fault)) = disk (Run.w_root Run.no_fault).
Proof.
  apply (sfs_absent_name_is_ENOENT OS161_layout_ok 0%nat "b" _ _ _ _
           root_dir_entries).
  apply root_lacks. discriminate.
Defined.

Lemma sfs_existing_name_is_EEXIST_witness :
  (forall ino, sfs_dir_link 0%nat "a" ino (Run.w_root Run.no_fault)
               = Ret (Err EEXIST) (ticks 27 (Run.w_root Run.no_fault))) /\
  sfs_mkdir 0%nat "a" (Run.w_root Run.no_fault)
  = Ret (Err EEXIST) (ticks 27 (Run.w_root Run.no_fault)) /\
  sfs_creat 0%nat "a" true (Run.w_root Run.no_fault)
  = Ret (Err EEXIST) (ticks 27 (Run.w_root Run.no_fault)) /\
  sfs_creat 0%nat "a" false (Run.w_root Run.no_fault)
  = sfs_loadvnode (sfd_ino (mk_dir 4 "a")) SFS_TYPE_INVAL
      (ticks 27 (Run.w_root Run.no_fault)) /\
  kheap (ticks 27 (Run.w_root Run.no_fault)) = kheap (Run.w_root Run.no_fault) /\
  sfs_vnodes (ticks 27 (Run.w_root Run.no_fault)) = sfs_vnodes (Run.w_root Run.no_fault) /\
  sfs_freemap (ticks 27 (Run.w_root Run.no_fault)) = sfs_freemap (Run.w_root Run.no_fault) /\
  disk (ticks 27 (Run.w_root Run.no_fault)) = disk (Run.w_root Run.no_fault).
Proof.
  apply (sfs_existing_name_is_EEXIST OS161_layout_ok 0%nat "a" _ _ _ _
           0%nat (mk_dir 4 "a") root_dir_entries).
  - reflexivity.
  - split; [discriminate | reflexivity].
  - intros j e' Hj Hn. apply (root_only_a _ _ _ Hj Hn).
Defined.

Lemma sfs_dir_link_name_too_long_witness :
  sfs_dir_link 0%nat Run.long_name 9 (Run.w_root Run.no_fault)
  = Ret (Err ENAMETOOLONG) (ticks 27 (Run.w_root Run.no_fault)) /\
  (forall file f, vnode_at (Run.w_root Run.no_fault) file f ->
                  sfs_link 0%nat Run.long_name file (Run.w_root Run.no_fault)
                  = Ret (Err ENAMETOOLONG) (ticks 27 (Run.w_root Run.no_fault))) /\
  kheap (ticks 27 (Run.w_root Run.no_fault)) = kheap (Run.w_root Run.no_fault) /\
  sfs_freemap (ticks 27 (Run.w_root Run.no_fault)) = sfs_freemap (Run.w_root Run.no_fault) /\
  disk (ticks 27 (Run.w_root Run.no_fault)) = disk (Run.w_root Run.no_fault).
Proof.
  apply (sfs_dir_link_name_too_long OS161_layout_ok 0%nat Run.long_name 9 _ _ _ _
           root_dir_entries); run.
Defined.

Lemma sfs_link_counts_the_link_witness :
  vnode_at (Run.state_after (sfs_link 0%nat "b" 1%nat Run.w_open) Run.w_open) 1%nat
    (set_dirty true
       (set_inode (set_linkcount
                     ((sfi_linkcount (sv_i Run.open_file) + 1) mod LINKCOUNT_MOD)
                     (sv_i Run.open_file)) Run.open_file)).
Proof.
  apply (sfs_link_counts_the_link OS161_layout_ok 0%nat 1%nat "b" Run.w_open
           Run.open_file (Ok tt)); run.
Defined.

Lemma sfs_loadvnode_shares_or_loads_witness :
  let w := ticks 27 (Run.w_root Run.no_fault) in
  disk Run.w_open = disk w /\ sfs_freemap Run.w_open = sfs_freemap w /\
  (forall a, a <> 1%nat -> kheap Run.w_open !! a = kheap w !! a) /\
  ((SFS_TYPE_INVAL = SFS_TYPE_INVAL /\
    1%nat ∈ sfs_vnodes w /\
    sfs_vnodes Run.w_open = sfs_vnodes w /\
    exists x,
      vnode_at w 1%nat x /\ sv_ino x = 4 /\
      vnode_at Run.w_open 1%nat (set_refcount (vn_refcount x + 1) x))
   \/
   ((forall b, b ∈ sfs_vnodes w -> exists y, vnode_at w b y /\ sv_ino y <> 4) /\
    kheap w !! 1%nat = None /\
    sfs_vnodes Run.w_open = sfs_vnodes w ++ [1%nat] /\
    sfs_freemap w !! Z.to_nat 4 = Some true /\
    exists data,
      disk w !! Z.to_nat 4 = Some data /\
      vnode_at Run.w_open 1%nat (mk_vnode 4 (dec_inode data) false 1) /\
      (sfi_type (dec_inode data) = SFS_TYPE_FILE \/
       sfi_type (dec_inode data) = SFS_TYPE_DIR))).
Proof.
  apply (sfs_loadvnode_shares_or_loads (L := OS161.layout) 4 SFS_TYPE_INVAL
           (ticks 27 (Run.w_root Run.no_fault)) (Some 1%nat) Run.w_open).
  run.
Defined.

Lemma sfs_lookparent_reference_witness :
  let w := Run.w_root Run.no_fault in
  (sfi_type (sv_i Run.root_vnode) <> SFS_TYPE_DIR ->
   sfs_lookparent 0%nat "a" 10 w = Ret (Err ENOTDIR) w) /\
  (sfi_type (sv_i Run.root_vnode) = SFS_TYPE_DIR -> 10 < strlen "a" + 1 ->
   sfs_lookparent 0%nat "a" 10 w = Ret (Err ENAMETOOLONG) w) /\
  (sfi_type (sv_i Run.root_vnode) = SFS_TYPE_DIR -> strlen "a" + 1 <= 10 ->
   sfs_lookparent 0%nat "a" 10 w
   = Ret (Ok (0%nat, "a"%string))
         (set_kheap (<[0%nat := Some (set_refcount (vn_refcount Run.root_vnode + 1)
                                        Run.root_vnode)]> (kheap w)) w)).
Proof.
  apply (sfs_lookparent_reference 0%nat "a" 10 (Run.w_root Run.no_fault)
           Run.root_vnode); run.
Defined.

Lemma sfs_lookup_writes_nothing_witness :
  disk Run.w_open = disk (Run.w_root Run.no_fault) /\
  sfs_freemap Run.w_open = sfs_freemap (Run.w_root Run.no_fault) /\
  sfs_freemapdirty Run.w_open = sfs_freemapdirty (Run.w_root Run.no_fault).
Proof.
  apply (sfs_lookup_writes_nothing OS161_layout_ok 0%nat "a"
           (Run.w_root Run.no_fault) (Ok 1%nat) Run.w_open).
  run.
Defined.

Lemma sfs_remove_gives_back_reference_witness :
  0 < sfi_linkcount (sv_i (mk_vnode 4 Run.file_inode false 2)) /\
  vnode_at (Run.state_after (sfs_remove 0%nat "a" Run.w_open) Run.w_open) 1%nat
    (mk_vnode (sv_ino (mk_vnode 4 Run.file_inode false 2))
       (set_linkcount
          ((sfi_linkcount (sv_i (mk_vnode 4 Run.file_inode false 2)) - 1)
           mod LINKCOUNT_MOD)
          (sv_i (mk_vnode 4 Run.file_inode false 2)))
       true (vn_refcount (mk_vnode 4 Run.file_inode false 2) - 1)).
Proof.
  apply (sfs_remove_gives_back_reference 0%nat 1%nat "a" 0
           (mk_vnode 4 Run.file_inode false 2) Run.w_open
           (Run.state_after (sfs_lookonce 0%nat "a" Run.w_open) Run.w_open)
           (Ok tt)); run.
Defined.

Lemma written_file_block :
  vnode_at Run.w_file_written 0%nat Run.written_vnode /\
  fault_free Run.w_file_written /\
  block_ok Run.w_file_written (direct_block Run.written_vnode 3) /\
  disk Run.w_file_written !! Z.to_nat (direct_block Run.written_vnode 3)
  = Some Run.written_block.
Proof.
  split; [run|]. split; [intros t ev; reflexivity|].
  split; [|run].
  split; [vm_compute; split; reflexivity|].
  split; [run|]. exists Run.written_block. run.
Qed.

Lemma within_block_3_3 : within_block 3 3.
Proof.
  split; [run|]. split; [run|]. split; [run|]. split; [right; run|run].
Qed.


Lemma sfs_write_replaces_bytes_witness :
  exists w1 v1,
    sfs_write 0%nat (mk_uio 3 (Z.of_nat (length [7; 8; 9])) UIO_WRITE [7; 8; 9])
              Run.w_file_written
    = Ret (Ok tt, mk_uio (3 + Z.of_nat (length [7; 8; 9])) 0 UIO_WRITE []) w1 /\
    disk w1
    = <[Z.to_nat (direct_block Run.written_vnode 3)
        := take (Z.to_nat (3 mod SFS_BLOCKSIZE)) Run.written_block ++ [7; 8; 9]
           ++ drop (Z.to_nat (3 mod SFS_BLOCKSIZE + Z.of_nat (length [7; 8; 9])))
                   Run.written_block]>
        (disk Run.w_file_written) /\
    sfs_freemap w1 = sfs_freemap Run.w_file_written /\
    vnode_at w1 0%nat v1 /\
    sfi_direct (sv_i v1) = sfi_direct (sv_i Run.written_vnode) /\
    (sfi_size (sv_i Run.written_vnode) < 2 ^ 31 ->
     sfi_size (sv_i v1)
     = Z.max (sfi_size (sv_i Run.written_vnode)) (3 + Z.of_nat (length [7; 8; 9]))) /\
    (2 ^ 31 <= sfi_size (sv_i Run.written_vnode) ->
     sfi_size (sv_i v1) = 3 + Z.of_nat (length [7; 8; 9])).
Proof.
  apply (sfs_write_replaces_bytes OS161_layout_ok 0%nat Run.written_vnode
           Run.w_file_written 3 [7; 8; 9] Run.written_block).
  - apply written_file_block.
  - apply written_file_block.
  - exact within_block_3_3.
  - run.
  - run.
  - apply written_file_block.
  - apply written_file_block.
Defined.

Lemma sfs_read_returns_block_bytes_witness :
  sfs_read 0%nat (mk_uio 3 3 UIO_READ []) Run.w_file_written
  = Ret (Ok tt,
         mk_uio (3 + 3) 0 UIO_READ
                ([] ++ take (Z.to_nat 3)
                            (drop (Z.to_nat (3 mod SFS_BLOCKSIZE)) Run.written_block)))
        (ticks 3 Run.w_file_written).
Proof.
  apply (sfs_read_returns_block_bytes OS161_layout_ok 0%nat Run.written_vnode
           Run.w_file_written 3 3 [] Run.written_block).
  - apply written_file_block.
  - apply written_file_block.
  - exact within_block_3_3.
  - run.
  - run.
  - apply written_file_block.
  - apply written_file_block.
Defined.

Lemma sfs_write_then_read_witness :
  exists w1,
    sfs_write 0%nat (mk_uio 3 (Z.of_nat (length [7; 8; 9])) UIO_WRITE [7; 8; 9])
              Run.w_file_written
    = Ret (Ok tt, mk_uio (3 + Z.of_nat (length [7; 8; 9])) 0 UIO_WRITE []) w1 /\
    forall pre,
      sfs_read 0%nat (mk_uio 3 (Z.of_nat (length [7; 8; 9])) UIO_READ pre) w1
      = Ret (Ok tt,
             mk_uio (3 + Z.of_nat (length [7; 8; 9])) 0 UIO_READ (pre ++ [7; 8; 9]))
            (ticks 3 w1).
Proof.
  apply (sfs_write_then_read OS161_layout_ok 0%nat Run.written_vnode
           Run.w_file_written 3 [7; 8; 9] Run.written_block).
  - apply written_file_block.
  - apply written_file_block.
  - exact within_block_3_3.
  - run.
  - apply written_file_block.
  - apply written_file_block.
  - run.
Defined.

Lemma sfs_makeobj_fresh_object_witness :
  exists i : nat,
    first_clear (sfs_freemap Run.w_file) = Some i /\
    sfs_freemap Run.w_made = <[i := true]> (sfs_freemap Run.w_file) /\
    disk Run.w_made = <[i := repeat 0 (Z.to_nat SFS_BLOCKSIZE)]> (disk Run.w_file) /\
    kheap Run.w_file !! 1%nat = None /\
    sfs_vnodes Run.w_made = sfs_vnodes Run.w_file ++ [1%nat] /\
    (forall a, a <> 1%nat -> kheap Run.w_made !! a = kheap Run.w_file !! a) /\
    sfi_type (dec_inode (repeat 0 (Z.to_nat SFS_BLOCKSIZE))) = SFS_TYPE_INVAL /\
    (SFS_TYPE_FILE = SFS_TYPE_FILE \/ SFS_TYPE_FILE = SFS_TYPE_DIR) /\
    vnode_at Run.w_made 1%nat
      (mk_vnode (Z.of_nat i)
                (set_type SFS_TYPE_FILE (dec_inode (repeat 0 (Z.to_nat SFS_BLOCKSIZE))))
                true 1).
Proof.
  apply (sfs_makeobj_fresh_object (L := OS161.layout) SFS_TYPE_FILE Run.w_file
           (Some 1%nat) Run.w_made).
  - discriminate.
  - vm_compute; reflexivity.
Defined.

Lemma sfs_makeobj_failure_keeps_block_witness :
  (first_clear (sfs_freemap Run.w_file_no_memory) = None /\
   Run.w_not_made = Run.w_file_no_memory) \/
  (exists i : nat,
     first_clear (sfs_freemap Run.w_file_no_memory) = Some i /\
     sfs_freemap Run.w_file_no_memory !! i = Some false /\
     sfs_freemap Run.w_not_made = <[i := true]> (sfs_freemap Run.w_file_no_memory) /\
     sfs_freemap Run.w_not_made !! i = Some true).
Proof.
  apply (sfs_makeobj_failure_keeps_block (L := OS161.layout) SFS_TYPE_FILE
           Run.w_file_no_memory ENOMEM Run.w_not_made).
  vm_compute; reflexivity.
Defined.

Lemma sfs_creat_excl_new_file_witness :
  exists (newguy : vptr) (i : nat),
    Some 1%nat = Some newguy /\
    first_clear (sfs_freemap (Run.w_root Run.no_fault)) = Some i /\
    sfs_freemap Run.w_created !! i = Some true /\
    newguy <> 0%nat /\
    kheap (Run.w_root Run.no_fault) !! newguy = None /\
    sfs_vnodes Run.w_created = sfs_vnodes (Run.w_root Run.no_fault) ++ [newguy] /\
    vnode_at Run.w_created newguy
      (mk_vnode (Z.of_nat i)
         (set_linkcount
            ((sfi_linkcount (dec_inode (repeat 0 (Z.to_nat SFS_BLOCKSIZE))) + 1)
               mod LINKCOUNT_MOD)
            (set_type SFS_TYPE_FILE
               (dec_inode (repeat 0 (Z.to_nat SFS_BLOCKSIZE)))))
         true 1).
Proof.
  apply (sfs_creat_excl_new_file OS161_layout_ok 0%nat "b"%string
           (Run.w_root Run.no_fault) (Some 1%nat) Run.w_created).
  vm_compute; reflexivity.
Defined.
